(* ===== verification/_CoqProject ===== *)
-Q . S2P
Prelude.v
Program.v
Frame.v
Weights.v
Concrete.v
MemberRegistry.v
RegistryLemmas.v
RegistrySpec.v
RegistryProps.v
RegistryLiveness.v
MockRuntime.v
Tcc.v
TccProps.v
TccSpec.v
Badges.v
BadgesProps.v
BadgesSpec.v
Rewards.v
RewardsProps.v
RewardsSpec.v
ProposalRouter.v
RouterRuns.v
RouterProps.v
RouterLiveness.v
RouterSpec.v
Runtime.v
Chain.v
Xcm.v
XcmProps.v
XcmPallet.v
Configs.v
Inbound.v
Sessions.v
Apis.v
Service.v
ServiceProps.v
Command.v
CommandProps.v
ConcreteNode.v
