(* ===== verification/Prelude.v ===== *)
(** * TechConnectChain: a verification library

    TechConnectChain is a Substrate parachain for student clubs.  Its own logic
    is in five pallets under src/pallets; src/runtime wires one of them (the
    member registry) into a runtime together with SDK pallets, and src/node
    runs that runtime.  This library models the five pallets whole, the runtime
    they are (or could be) part of, and the node: its command line, its service and
    its RPC extensions.

    ** How the code is modelled

    A dispatchable is a computation [ST State E unit] (this file): a function
    from the pallet's storage to the storage it leaves and a [result].  Early
    returns are [throw]; a failed computation still carries the writes made so
    far, and it is the storage layer around the call (file [Frame],
    [with_storage_layer]) that takes them back, as in FRAME.  Integers are [Z]
    with the saturating and checked operations of their width ([sat_add],
    [checked_add]); bounded vectors are lists whose [try_push] and [try_from] check
    the bound; hashes are vectors of 32 bytes; the events deposited are a list in the
    storage, oldest first.  Time and block number come from the environment
    [Env] of a call.

    FRAME itself is not in the repository.  [Frame] states what the pallets use of
    it as two classes: [Frame] (storage maps, [try_mutate], the storage layer,
    bounded vectors, saturating conversion) and [System] (accounts and
    origins), with their documented behaviour as laws.  Each pallet adds a class
    [Config], its configuration trait.  All theorems are proved against the
    classes.  [Concrete] implements them with finite maps and numbered accounts, and
    the main theorems have a witness each, named after them, that applies them
    there.

    The node is glue around SDK calls, so what it does is which calls it makes, in
    which order, with which arguments, and how it ends.  File [Program] models such
    code as programs: a function of the node is a value of type [prog], which makes
    calls, each answered by the world, and ends by returning, with an error, or by a
    panic.  A world answers every call, possibly depending on all calls before; the
    theorems hold in all worlds.  The judgement [implements] says that a program
    makes the calls of a plan in order until one fails, and how it ends then.  For the
    node an SDK call always comes back with an answer, which may be an error: that it
    neither panics nor blocks forever is an assumption of these models, and that
    the node's programs end holds by the construction of [prog].  In the runtime's
    API ([Apis]) the calls of the SDK may also panic.  A
    closure handed to the SDK is the record of the variables it captures, with a
    definition of what calling it does.

    ** Files

    - [Prelude]: results, the monad, machine integers, reachability, vectors.
    - [Program]: programs, worlds, runs, and the rules of [implements].
    - [Frame]: the interface to FRAME, and the tactics that run a call
      symbolically ([st_run]), invert a successful one ([inv_ok]) or compare one
      with its reference ([run_reference]).
    - [Concrete]: the implementation of that interface.
    - [Weights]: weights, and the constants of src/runtime/src/weights.
    - [MemberRegistry] (src/pallets/member-registry/src/lib.rs): clubs, officers,
      attestations, members.  [RegistryLemmas]: what a successful call did.
      [RegistryProps]: its theorems.  [RegistryLiveness]: what an invitation is good
      for.  [MockRuntime] (mock.rs, tests.rs): the pallet's tests replayed, and the
      witnesses.
    - [Tcc], [TccProps] (src/pallets/tcc/src/lib.rs): the token's cached supply.
    - [Badges], [BadgesProps] (src/pallets/badges/src/lib.rs): badge classes and
      badges.
    - [Rewards], [RewardsProps] (src/pallets/rewards/src/lib.rs): reward rules,
      attestations and claims.
    - [ProposalRouter] (src/pallets/proposal-router/src/lib.rs): proposals, votes and
      execution.  [RouterRuns]: what its successful calls did, and the runs of a
      block.  [RouterProps]: its theorems.  [RouterLiveness]: votes are counted, and
      what becomes of a proposal with support.
    - [RegistrySpec], [TccSpec], [BadgesSpec], [RewardsSpec], [RouterSpec]: for each
      pallet, a reference that says of every call which refusal applies and
      otherwise what storage is left; [RouterSpec] also has the types of what the
      router stores.
    - [Runtime]: the runtime's calls and the registry in it
      (src/runtime/src/lib.rs), genesis presets, chain
      specifications and their selection (src/node/src/chain_spec.rs, command.rs).
    - [Chain]: the registry inside the constructed runtime, and, in a composition the
      repository does not make, the registry governed by the router's proposals.
    - [Xcm] (src/runtime/src/configs): the origins and accounts of messages from other
      chains, the barrier, and who updates the collator selection, composed of parts
      of the XCM builder.  [XcmProps]: their theorems.  [XcmPallet]: the
      configurations of the executor and of pallet_xcm, the router, and theirs.
    - [Configs] (src/runtime/src/configs/mod.rs): the limits of a block, the weights of
      message queues, sessions and collators.
    - [Inbound] (configs/mod.rs): the way of a message from another chain through the
      queues to the executor.
    - [Sessions] (configs/mod.rs): sessions, authorities and the authors of blocks.
    - [Apis] (src/runtime/src/apis.rs, benchmarks.rs): the requests to the runtime's
      API, and the programs that answer them.
    - [Service] (src/node/src/service.rs, rpc.rs): components, consensus and the
      start of the node.  [ServiceProps]: its plan and its theorems.
    - [Command] (src/node/src/cli.rs, command.rs, main.rs): the command line and what
      each command does.  [CommandProps]: the commands' plans and theorems.
      [ConcreteNode]: an SDK and worlds to run the node in, and the witnesses.

    In each pallet's model the storage items are the fields of [State], a
    dispatchable [f] is the definition [f], [Call] and [dispatch] are the enum and
    the dispatch the call macro generates, [call_weight] the weight declared for a call, and [genesis] or [genesis_build] is
    the storage a chain starts from.

    ** How the parts interact

    The sources mean the other pallets to consult the member registry and the
    token, but every such call is commented out: as written the pallets do not
    interact, and the model has no interaction either.  The one exception is the
    proposal router, which dispatches an arbitrary runtime call.  There the
    storage is the router's together with that of all other pallets ([World]),
    decoding and dispatching are parameters, and [RouterRuns.runs_with] says what a
    dispatched call can do to the router's storage: only what the router's own
    calls do (with arguments of a given kind), nested executions included;
    [runs] is this for any arguments.

    [Chain] puts components together in two ways.  In the constructed runtime
    (interface [ConstructedRuntime]) the registry is one of five pallets; Sudo's
    calls contain calls of the runtime, and the laws say that the SDK's pallets
    leave the registry's storage alone, except for the calls of frame_system by which
    root overwrites raw storage or the code ([overwrites_state]).  In the governed
    registry the router's parameters are instantiated: the calls a proposal carries are
    the registry's, dispatched by the registry's own [dispatch], and registry calls can
    also be made directly.  This composition is hypothetical: the runtime constructs
    no router; it shows what the two pallets, as written, would do together.

    The command line drives the service: a command creates a runner and, in its
    closure, builds the components of [new_partial], or starts the node with
    [start_parachain_node].  [NodeCall] contains the service's calls, [in_service]
    embeds its programs with their errors converted, and the plan of a command
    contains the plan of the service it uses.

    ** What the theorems show

    - References: all calls of all five pallets, on every branch and in the order
      of the tests ([registry_reference], [tcc_reference], [badges_reference],
      [rewards_reference], [router_reference]).
    - Registry: a storage invariant; who becomes a member and how; membership
      records are permanent and removal final; attestations serve once; only a
      club's admin changes its officers; the member counter is the replay of the
      events, yet is no count of members, since an admin can remove members of
      other clubs; whom an admin attests for can join, until the attestation is
      revoked or expires ([invited_account_joins]).
    - Token: conservation of the cached supply, mint and burn as a round trip; a
      transfer moves nothing.
    - Badges: an invariant with exact counters and index; the refinement of an
      ownership ledger; soulbound badges keep their owner and revoked ones stay
      gone.
    - Rewards: over whole histories, the per-epoch limit, exact counters and the
      single use of attestations; rules without a club are guarded, rules of a
      club are not.
    - Router: ballots agree with the votes reported even across nested
      executions; at most one execution; the stored values keep their types; the
      threshold test is exact up to 429496 votes and fails beyond; proposals that
      need no vote, re-entry, lost failure records, exhausted indices; and in every
      reachable world a vote cast in time is counted, and a proposal with the votes it
      needs can be executed once the vote is over, whatever is done in between, unless
      it already was or the admin cancels it ([supported_proposal_executes]).
    - Runtime and chain: root alone governs the registry; extrinsics with nested
      sudo calls keep its invariant, as long as root overwrites no raw storage
      ([runtime_governed]); router and registry side by side keep both their
      invariants ([governed_registry_wf]); a proposal cannot make a call that needs
      root; presets and chain specifications are what they list;
      the registry's calls are free.
    - XCM: the origin of every message's calls, never root; nobody but the relay
      chain and its executive body executes for free; the collator selection
      listens to root and to the relay chain's defense body; messages from elsewhere
      are bounded, act for the chain that sent them and are processed at most as often
      as they were sent ([inbound_authentic], [queued_messages_pay]); pallet_xcm executes nothing for anyone; a local account is the
      same account through XCM, root speaks for the chain itself, and nobody else sends.
    - Configuration and API: the limits of a block are built exactly if the constants
      leave room for an extrinsic of each class, and are then what they say, with room
      for the message queues ([block_limits]); a block is credited to an account that
      registered the key its slot belongs to, or to nobody while no collator has keys
      ([author_owns_slot]); a request to the API panics only where the SDK, a try-runtime
      check or the limits of a block make it ([api_answers]); the genesis builder
      serves the presets it lists.
    - Node: starting it makes the calls of its plan, in order, and ends with the
      first that fails; all components are wired to one client, backend, keystore and
      task manager, and to the pool, import queue, network and relay chain interface
      obtained on the way ([startup_wired]); consensus runs on an authority alone and
      comes last; a command makes the calls of its plan, subcommands start
      no node, and the built-in specifications lead to parachain 2000 below
      "rococo-local".

    ** Bounds

    Nothing uses fuel: no routine of the sources recurses, apart from the
    executions nested in executions, which [runs_with] generates inductively (and
    [nested_dispatch], for one particular runtime, by its nesting depth).
    Programs of the node are finite trees and [run] is structural.
    Identifier counters saturate at the maximum of their type; theorems about
    fresh identifiers say where the last one is excepted.

    ** Not modelled

    Metadata (codec, type info) and the SDK itself: its pallets, clap and the work of
    the subcommands, the network, the collator, the XCM executor, the benchmarks.  What
    the configurations of SDK pallets (src/runtime/src/lib.rs, src/runtime/src/configs,
    and mock.rs) choose besides is types of the SDK, which nothing here depends on.
    The modules configs, apis, benchmarks and genesis_config_presets are modelled as
    they are written, though the crate's root declares none of them; the constants they
    name and it does not define are variables.  Asynchrony is left out: an
    awaited call is a call, a spawned future an argument of the call that spawns
    it.  Build scripts and deployment files. *)

From stdpp Require Export base tactics list list_numbers numbers option countable relations.
From Stdlib Require Export ZArith Lia.

#[global] Open Scope Z_scope.

(** * Results *)

(** Rust's [Result<A, E>]. *)
Inductive result (A E : Type) : Type :=
| Ok (a : A)
| Err (e : E).
Arguments Ok {A E} a.
Arguments Err {A E} e.

#[global] Instance result_eq_dec `{EqDecision A, EqDecision E} : EqDecision (result A E).
Proof. solve_decision. Defined.

(** [is_ok] is Rust's [Result::is_ok]. *)
Definition is_ok {A E} (r : result A E) : bool :=
  match r with Ok _ => true | Err _ => false end.

(** * Stateful, fallible code *)

(** A computation over a state [S] that ends with a [Result].  The state is
    threaded through a failure as well: undoing the writes of a failed call is
    the work of the storage layer (file [Frame]), not of this monad. *)
Definition ST (S E A : Type) : Type := S → S * result A E.

#[global] Instance ST_ret {S E} : MRet (ST S E) := λ A a s, (s, Ok a).
#[global] Instance ST_bind {S E} : MBind (ST S E) := λ A B f m s,
  match m s with
  | (s', Ok a) => f a s'
  | (s', Err e) => (s', Err e)
  end.

(** Rust's early [return Err(e)]. *)
Definition throw {S E A} (e : E) : ST S E A := λ s, (s, Err e).

(** [let x = <read of the state>]. *)
Definition gets {S E A} (f : S → A) : ST S E A := λ s, (s, Ok (f s)).

(** A write to the state. *)
Definition modify {S E} (f : S → S) : ST S E unit := λ s, (f s, Ok tt).

(** [option.ok_or(e)?]. *)
Definition ok_or {S E A} (o : option A) (e : E) : ST S E A :=
  match o with Some a => mret a | None => throw e end.

(** [ensure!(b, e)]. *)
Definition ensure {S E} (b : bool) (e : E) : ST S E unit :=
  if b then mret tt else throw e.

Section Run.
  Context {S E : Type}.
  Implicit Types s : S.

Lemma run_ret {A} (a : A) s : (mret a : ST S E A) s = (s, Ok a).
Proof. reflexivity. Qed.

Lemma run_bind {A B} (m : ST S E A) (f : A → ST S E B) s :
  (m ≫= f) s = match m s with (s', Ok a) => f a s' | (s', Err e) => (s', Err e) end.
Proof. reflexivity. Qed.

Lemma run_throw {A} (e : E) s : (throw e : ST S E A) s = (s, Err e).
Proof. reflexivity. Qed.

Lemma run_gets {A} (f : S → A) s : (gets f : ST S E A) s = (s, Ok (f s)).
Proof. reflexivity. Qed.

Lemma run_modify (f : S → S) s : (modify f : ST S E unit) s = (f s, Ok tt).
Proof. reflexivity. Qed.

Lemma run_ok_or {A} (o : option A) (e : E) s :
  (ok_or o e : ST S E A) s = (s, match o with Some a => Ok a | None => Err e end).
Proof. by destruct o. Qed.

Lemma run_ensure (b : bool) (e : E) s :
  (ensure b e : ST S E unit) s = (s, if b then Ok tt else Err e).
Proof. by destruct b. Qed.
End Run.

Create Rewrite HintDb st.
#[export] Hint Rewrite @run_ret @run_bind @run_throw @run_gets @run_modify
  @run_ok_or @run_ensure : st.

(** * Unsigned machine integers *)

(** An unsigned integer of type [uN] is a [Z] between [0] and [uN_max]. *)
Definition u8_max : Z := 2 ^ 8 - 1.
Definition u32_max : Z := 2 ^ 32 - 1.
Definition u64_max : Z := 2 ^ 64 - 1.
Definition u128_max : Z := 2 ^ 128 - 1.

(** [in_range m x]: [x] is a value of the unsigned type whose largest value is [m]. *)
Definition in_range (m x : Z) : Prop := 0 ≤ x ≤ m.

#[global] Instance in_range_dec m x : Decision (in_range m x).
Proof. unfold in_range. apply _. Defined.

(** [saturating_add], [saturating_sub] and [saturating_mul] of the unsigned
    type whose largest value is [m]. *)
Definition sat_add (m x y : Z) : Z := Z.min (x + y) m.
Definition sat_sub (x y : Z) : Z := Z.max (x - y) 0.
Definition sat_mul (m x y : Z) : Z := Z.min (x * y) m.

(** [checked_add] and [checked_sub]. *)
Definition checked_add (m x y : Z) : option Z :=
  if x + y <=? m then Some (x + y) else None.
Definition checked_sub (x y : Z) : option Z :=
  if y <=? x then Some (x - y) else None.

#[global] Arguments sat_add : simpl never.
#[global] Arguments sat_sub : simpl never.
#[global] Arguments sat_mul : simpl never.
#[global] Arguments checked_add : simpl never.
#[global] Arguments checked_sub : simpl never.
#[global] Arguments in_range : simpl never.
#[global] Arguments u8_max : simpl never.
#[global] Arguments u32_max : simpl never.
#[global] Arguments u64_max : simpl never.
#[global] Arguments u128_max : simpl never.

Lemma sat_add_range m x y : in_range m x → 0 ≤ y → in_range m (sat_add m x y).
Proof. unfold in_range, sat_add. lia. Qed.

Lemma sat_sub_range m x y : in_range m x → 0 ≤ y → in_range m (sat_sub x y).
Proof. unfold in_range, sat_sub. lia. Qed.

Lemma sat_add_exact m x y : x + y ≤ m → sat_add m x y = x + y.
Proof. unfold sat_add. lia. Qed.

Create HintDb range discriminated.
#[export] Hint Resolve sat_add_range sat_sub_range : range.

(** * Reachability *)

(** States reachable from one satisfying [init] by [step]. *)
Definition reachable {S} (init : S → Prop) (step : S → S → Prop) (s : S) : Prop :=
  ∃ s0, init s0 ∧ rtc step s0 s.

Lemma reachable_ind {S} (init : S → Prop) (step : S → S → Prop) (P : S → Prop) :
  (∀ s, init s → P s) → (∀ s s', P s → step s s' → P s') →
  ∀ s, reachable init step s → P s.
Proof.
  intros Hi Hs s (s0 & H0 & Hr). apply Hi in H0. clear Hi.
  induction Hr; eauto.
Qed.

Lemma reachable_step {S} (init : S → Prop) (step : S → S → Prop) s s' :
  reachable init step s → step s s' → reachable init step s'.
Proof. intros (s0 & H0 & Hr) Hs. exists s0. split; [done|]. by eapply rtc_r. Qed.

(** A list of events, each an admissible step, leads to a reachable state. *)
Lemma reachable_foldl {S C} (init : S → Prop) (step : S → S → Prop) (f : S → C → S)
    (P : C → Prop) s0 cs :
  (∀ s c, P c → step s (f s c)) → init s0 → Forall P cs → reachable init step (foldl f s0 cs).
Proof.
  intros Hs H0 HP. exists s0. split; [done|]. clear H0. revert s0.
  induction HP; intros s0; simpl; [done|]. eapply rtc_l; eauto.
Qed.

Lemma rtc_preserves {S} (step : S → S → Prop) (P : S → Prop) s s' :
  (∀ x y, P x → step x y → P y) → rtc step s s' → P s → P s'.
Proof. intros Hs Hr. induction Hr; eauto. Qed.

(** * Vectors *)

(** [Vec::swap_remove]: the last element takes the place of the removed one. *)
Definition swap_remove {A} (pos : nat) (l : list A) : list A :=
  match last l with
  | Some x => take (pred (length l)) (<[pos := x]> l)
  | None => l
  end.

(** [iter().position(p)]: the first index whose element satisfies [p]. *)
Fixpoint position {A} (p : A → bool) (l : list A) : option nat :=
  match l with
  | [] => None
  | x :: l => if p x then Some 0%nat else S <$> position p l
  end.

(** How often [x] occurs in [l]. *)
Definition occurrences `{EqDecision A} (x : A) (l : list A) : nat :=
  length (filter (λ y, y = x) l).

Section Vectors.
  Context {A : Type}.
  Implicit Types (l : list A) (x y : A).

Lemma length_swap_remove pos l : (length (swap_remove pos l) ≤ length l)%nat.
Proof. unfold swap_remove. destruct (last l); [|done]. rewrite length_take, length_insert. lia. Qed.

Lemma position_Some (p : A → bool) l n :
  position p l = Some n → ∃ x, l !! n = Some x ∧ p x = true.
Proof.
  revert n. induction l as [|y l IH]; simpl; intros n; [done|].
  destruct (p y) eqn:Hy; [intros [= <-]; by exists y|].
  intros (k & Hk & ->)%fmap_Some. by apply IH.
Qed.

Lemma position_None (p : A → bool) l : position p l = None ↔ existsb p l = false.
Proof.
  induction l as [|y l IH]; simpl; [done|].
  destruct (p y); [done|]. by rewrite fmap_None, IH.
Qed.

Lemma swap_remove_perm n l x : l !! n = Some x → l ≡ₚ x :: swap_remove n l.
Proof.
  destruct l as [|y l _] using rev_ind; [done|].
  unfold swap_remove. rewrite last_snoc, length_app, Nat.add_1_r; simpl.
  intros Hn. destruct (decide (n < length l)%nat) as [Hlt|Hge].
  - rewrite lookup_app_l in Hn by done.
    rewrite insert_app_l, take_app_length' by (rewrite ?length_insert; done).
    rewrite insert_take_drop by done.
    rewrite <- (take_drop_middle l n x Hn) at 1.
    rewrite <- app_assoc. simpl. rewrite <- Permutation_middle. by rewrite <- Permutation_cons_append.
  - assert (n = length l) as -> by (apply lookup_lt_Some in Hn; rewrite length_app in Hn; simpl in Hn; lia).
    rewrite list_lookup_middle in Hn by done. simplify_eq.
    rewrite insert_app_r_alt, take_app_length' by done. by rewrite Permutation_app_comm.
Qed.

  Context `{EqDecision A}.

Lemma occurrences_perm x l l' : l ≡ₚ l' → occurrences x l = occurrences x l'.
Proof. intros Hp. unfold occurrences. by rewrite Hp. Qed.

Lemma occurrences_cons x y l :
  occurrences x (y :: l) = ((if decide (y = x) then 1 else 0) + occurrences x l)%nat.
Proof. unfold occurrences. rewrite filter_cons. by case_decide. Qed.

Lemma occurrences_app x l l' : occurrences x (l ++ l') = (occurrences x l + occurrences x l')%nat.
Proof. unfold occurrences. by rewrite filter_app, length_app. Qed.

Lemma existsb_elem x l : existsb (λ y, bool_decide (y = x)) l = true ↔ x ∈ l.
Proof.
  rewrite existsb_exists. split.
  - intros (y & Hy & <-%bool_decide_eq_true). by apply list_elem_of_In.
  - intros Hx. exists x. split; [by apply list_elem_of_In|by apply bool_decide_eq_true].
Qed.

Lemma existsb_not_elem x l : existsb (λ y, bool_decide (y = x)) l = false ↔ ¬ (x ∈ l).
Proof. rewrite <- existsb_elem. by destruct (existsb _ l). Qed.

Lemma occurrences_existsb x l :
  existsb (λ y, bool_decide (y = x)) l = true ↔ (1 ≤ occurrences x l)%nat.
Proof.
  induction l as [|y l IH]; simpl; [unfold occurrences; simpl; split; [done|lia]|].
  rewrite occurrences_cons, orb_true_iff, IH, bool_decide_eq_true. case_decide; lia || intuition lia.
Qed.
End Vectors.

(** A prefix that has the last element, which occurs only there, is the whole list. *)
Lemma prefix_snoc_complete {A} (l l1 : list A) x :
  l `prefix_of` l1 ++ [x] → x ∉ l1 → x ∈ l → l = l1 ++ [x].
Proof.
  intros [k Hk] Hx Hl. destruct k as [|y k _] using rev_ind; [by rewrite app_nil_r in Hk|].
  rewrite app_assoc in Hk. apply app_inj_tail in Hk as [-> _]. exfalso. apply Hx.
  apply elem_of_app. by left.
Qed.

(** Distinct numbers below [n] are at most [n]. *)
Lemma NoDup_length_below (l : list Z) n :
  0 ≤ n → NoDup l → Forall (λ x, 0 ≤ x < n) l → Z.of_nat (length l) ≤ n.
Proof.
  intros Hn Hnd Hl. assert (l ⊆+ seqZ 0 n) as Hs.
  { apply NoDup_submseteq; [done|]. intros x Hx. rewrite Forall_forall in Hl.
    apply elem_of_seqZ. specialize (Hl _ Hx). lia. }
  apply submseteq_length in Hs. rewrite length_seqZ in Hs. lia.
Qed.
