(* ===== verification/Program.v ===== *)
(** Programs that call code outside the repository: the node.

    A program of type [prog C Er A] makes calls [C X], each answered with a value
    of type [X], and ends by returning an [A], by returning an error [Er] early
    ([?]), or by a panic.  [run] executes it in a world that answers every call,
    possibly depending on all that happened before.  The judgement
    [implements w Φ p plan Q stops] says that [p] follows a plan of calls and stops
    at the first one that fails. *)

From S2P Require Export Prelude.
From stdpp Require Export strings.

(** * Programs *)

Inductive prog (C : Type → Type) (Er A : Type) : Type :=
| Return (a : A)
| Throw (e : Er)
| Panic (msg : string)
| Vis (X : Type) (c : C X) (k : X → prog C Er A).
Arguments Return {C Er A} a.
Arguments Throw {C Er A} e.
Arguments Panic {C Er A} msg.
Arguments Vis {C Er A X} c k.

#[global] Instance prog_ret {C Er} : MRet (prog C Er) := λ A a, Return a.

Fixpoint bind_prog {C Er A B} (f : A → prog C Er B) (p : prog C Er A) : prog C Er B :=
  match p with
  | Return a => f a
  | Throw e => Throw e
  | Panic msg => Panic msg
  | Vis c k => Vis c (λ x, bind_prog f (k x))
  end.
#[global] Instance prog_bind {C Er} : MBind (prog C Er) := λ A B, bind_prog.

(** [Result::map_err]. *)
Definition map_err {A E1 E2} (f : E1 → E2) (r : result A E1) : result A E2 :=
  match r with Ok a => Ok a | Err e => Err (f e) end.

(** [Result::ok]. *)
Definition result_ok {A E} (r : result A E) : option A :=
  match r with Ok a => Some a | Err _ => None end.

Section Combinators.
  Context {C : Type → Type} {Er : Type}.

(** One call. *)
Definition call {X} (c : C X) : prog C Er X := Vis c Return.

(** [r?]. *)
Definition question {A} (r : result A Er) : prog C Er A :=
  match r with Ok a => Return a | Err e => Throw e end.

(** [c.map_err(into)?] of a fallible call [c]: for [?] alone, [into] is the conversion it inserts. *)
Definition try_call {A E1} (into : E1 → Er) (c : C (result A E1)) : prog C Er A :=
  r ← call c; question (map_err into r).

(** [option.expect(msg)]. *)
Definition expect {A} (o : option A) (msg : string) : prog C Er A :=
  match o with Some a => Return a | None => Panic msg end.
End Combinators.

(** A program used where errors of another type are returned. *)
Fixpoint convert_error {C Er Er' A} (f : Er → Er') (p : prog C Er A) : prog C Er' A :=
  match p with
  | Return a => Return a
  | Throw e => Throw (f e)
  | Panic msg => Panic msg
  | Vis c k => Vis c (λ x, convert_error f (k x))
  end.

(** A program over the calls [C] as a program over calls [D] that include them. *)
Fixpoint translate {C D : Type → Type} {Er A} (f : ∀ X, C X → D X) (p : prog C Er A) : prog D Er A :=
  match p with
  | Return a => Return a
  | Throw e => Throw e
  | Panic msg => Panic msg
  | Vis c k => Vis (f _ c) (λ x, translate f (k x))
  end.

(** * Execution *)

(** A call with its answer. *)
Record event (C : Type → Type) : Type := Event {
  ev_type : Type;
  ev_call : C ev_type;
  ev_answer : ev_type
}.
Arguments Event {C ev_type} ev_call ev_answer.
Arguments ev_type {C} _.
Arguments ev_call {C} _.
Arguments ev_answer {C} _.

Inductive outcome (Er A : Type) : Type :=
| Returned (a : A)
| Threw (e : Er)
| Panicked (msg : string).
Arguments Returned {Er A} a.
Arguments Threw {Er A} e.
Arguments Panicked {Er A} msg.

(** A world answers a call, knowing all calls made before, oldest first. *)
Definition World (C : Type → Type) : Type := list (event C) → ∀ X, C X → X.

(** The events of an execution, oldest first, and how it ends. *)
Fixpoint run {C Er A} (w : World C) (past : list (event C)) (p : prog C Er A) :
    list (event C) * outcome Er A :=
  match p with
  | Return a => ([], Returned a)
  | Throw e => ([], Threw e)
  | Panic msg => ([], Panicked msg)
  | Vis c k =>
    let ev := Event c (w past _ c) in
    let r := run w (past ++ [ev]) (k (ev_answer ev)) in
    (ev :: r.1, r.2)
  end.

Section Execution.
  Context {C : Type → Type}.
  Implicit Types (w : World C) (past : list (event C)).

Lemma run_prog_bind {Er A B} w past (p : prog C Er A) (f : A → prog C Er B) :
  run w past (p ≫= f) =
    match (run w past p).2 with
    | Returned a =>
        ((run w past p).1 ++ (run w (past ++ (run w past p).1) (f a)).1,
         (run w (past ++ (run w past p).1) (f a)).2)
    | Threw e => ((run w past p).1, Threw e)
    | Panicked msg => ((run w past p).1, Panicked msg)
    end.
Proof.
  unfold mbind, prog_bind. revert past.
  induction p as [a|e|msg|X c k IH]; intros past; cbn; try done.
  - by rewrite app_nil_r, <- surjective_pairing.
  - rewrite IH.
    destruct (run w (past ++ _) (k _)) as [tr []]; cbn; rewrite <- ?app_assoc; done.
Qed.

Lemma run_convert_error {Er Er' A} (f : Er → Er') w past (p : prog C Er A) :
  run w past (convert_error f p) =
    ((run w past p).1,
     match (run w past p).2 with
     | Returned a => Returned a | Threw e => Threw (f e) | Panicked msg => Panicked msg end).
Proof. revert past. induction p as [| | |X c k IH]; intros past; cbn; [done..|]. by rewrite IH. Qed.
End Execution.

(** An included call's event, and the world as an included program sees it,
    started after [past]. *)
Definition inject {C D : Type → Type} (f : ∀ X, C X → D X) (ev : event C) : event D :=
  Event (f _ (ev_call ev)) (ev_answer ev).
Definition restrict {C D : Type → Type} (f : ∀ X, C X → D X) (w : World D) (past : list (event D)) :
    World C :=
  λ past' X c, w (past ++ (inject f <$> past')) X (f X c).

Lemma run_translate {C D : Type → Type} {Er A} (f : ∀ X, C X → D X) (w : World D) past past' (p : prog C Er A) :
  run w (past ++ (inject f <$> past')) (translate f p) =
    (inject f <$> (run (restrict f w past) past' p).1, (run (restrict f w past) past' p).2).
Proof.
  revert past'. induction p as [| | |X c k IH]; intros past'; cbn; try done.
  set (x := restrict f w past past' X c). change (w (past ++ _) X (f X c)) with x.
  specialize (IH x (past' ++ [Event c x])). rewrite fmap_app, app_assoc in IH.
  cbn in IH. unfold inject at 2 in IH. cbn in IH. by rewrite IH.
Qed.

(** * Plans *)

(** What the judgement observes of a call: a label, and whether its answer is
    an error, as the program's error type has it. *)
Class Interface (C : Type → Type) (L Er : Type) := {
  label : ∀ {X}, C X → L;
  failure : ∀ {X}, C X → X → option Er
}.

Section Plans.
  Context {C : Type → Type} {L Er : Type} {I : Interface C L Er}.

Definition ev_label (ev : event C) : L := label (ev_call ev).
Definition ev_failure (ev : event C) : option Er := failure (ev_call ev) (ev_answer ev).

(** No call of the trace failed. *)
Definition all_succeed (tr : list (event C)) : Prop := Forall (λ ev, ev_failure ev = None) tr.

(** The last call of the trace failed with [e], the others succeeded. *)
Definition stopped_by_failure (tr : list (event C)) (plan : list L) (e : Er) : Prop :=
  (ev_label <$> tr) `prefix_of` plan ∧
  ∃ tr' ev, tr = tr' ++ [ev] ∧ all_succeed tr' ∧ ev_failure ev = Some e.

(** All calls of the trace succeeded, more are planned, and yet it ends, for the reason [P]. *)
Definition stopped_by_itself (tr : list (event C)) (plan : list L) (P : Prop) : Prop :=
  (∃ l rest, plan = (ev_label <$> tr) ++ l :: rest) ∧ all_succeed tr ∧ P.

Lemma all_succeed_app tr tr' : all_succeed (tr ++ tr') ↔ all_succeed tr ∧ all_succeed tr'.
Proof. apply Forall_app. Qed.

Lemma stopped_by_failure_app tr tr2 plan e :
  all_succeed tr → stopped_by_failure tr2 plan e →
  stopped_by_failure (tr ++ tr2) ((ev_label <$> tr) ++ plan) e.
Proof.
  intros Hs (Hpre & tr' & ev & -> & Hs2 & He). split; [rewrite fmap_app; by apply prefix_app|].
  exists (tr ++ tr'), ev. by rewrite app_assoc, all_succeed_app.
Qed.

Lemma stopped_by_failure_longer tr plan plan2 e :
  stopped_by_failure tr plan e → stopped_by_failure tr (plan ++ plan2) e.
Proof. intros [Hpre ?]. split; [by apply prefix_app_r|done]. Qed.

Lemma stopped_by_itself_app tr tr2 plan P :
  all_succeed tr → stopped_by_itself tr2 plan P →
  stopped_by_itself (tr ++ tr2) ((ev_label <$> tr) ++ plan) P.
Proof.
  intros Hs ((l & rest & ->) & Hs2 & HP). unfold stopped_by_itself.
  rewrite fmap_app, all_succeed_app. split; [|done]. exists l, rest. by rewrite app_assoc.
Qed.

Lemma stopped_by_itself_longer tr plan plan2 P :
  stopped_by_itself tr plan P → stopped_by_itself tr (plan ++ plan2) P.
Proof.
  intros ((l & rest & ->) & Hs & HP). split; [|done]. exists l, (rest ++ plan2).
  by rewrite <- app_assoc.
Qed.

Section Judgement.
  Variables (w : World C) (Φ : event C → Prop).

(** In the world [w], [p] makes the calls of [plan] in order until one fails;
    then it returns that call's error and makes no further call.  If none fails it
    returns a value that satisfies [Q], or it stops by itself before the plan is
    complete: with an error [e] of its own, which needs [stops (Some e)], or with a
    panic, which needs [stops None].  All events satisfy [Φ]. *)
Definition implements {A} (p : prog C Er A) (plan : list L) (Q : A → Prop)
    (stops : option Er → Prop) : Prop :=
  ∀ past,
    let '(tr, o) := run w past p in
    Forall Φ tr ∧
    match o with
    | Returned a => ev_label <$> tr = plan ∧ all_succeed tr ∧ Q a
    | Threw e => stopped_by_failure tr plan e ∨ stopped_by_itself tr plan (stops (Some e))
    | Panicked _ => stopped_by_itself tr plan (stops None)
    end.

Lemma implements_return {A} (a : A) (Q : A → Prop) P : Q a → implements (Return a) [] Q P.
Proof. intros HQ past. cbn. by split_and!; [constructor|..|constructor|]. Qed.

Lemma implements_panic {A} msg l plan (Q : A → Prop) (P : option Er → Prop) :
  P None → implements (Panic msg) (l :: plan) Q P.
Proof.
  intros HP past. cbn. split; [constructor|]. split; [by exists l, plan|]. by split; [constructor|].
Qed.

Lemma implements_throw {A} e l plan (Q : A → Prop) (P : option Er → Prop) :
  P (Some e) → implements (Throw e) (l :: plan) Q P.
Proof.
  intros HP past. cbn. split; [constructor|]. right. split; [by exists l, plan|]. by split; [constructor|].
Qed.

Lemma implements_bind {A B} (p : prog C Er A) (f : A → prog C Er B) plan1 plan2 Q R P :
  implements p plan1 Q P → (∀ a, Q a → implements (f a) plan2 R P) →
  implements (p ≫= f) (plan1 ++ plan2) R P.
Proof.
  intros Hp Hf past. specialize (Hp past). rewrite run_prog_bind.
  destruct (run w past p) as [tr [a|e|msg]]; cbn in *; destruct Hp as (HΦ & Hp).
  - destruct Hp as (<- & Hs & HQ). specialize (Hf a HQ (past ++ tr)).
    destruct (run w (past ++ tr) (f a)) as [tr2 o]; cbn in *.
    destruct Hf as (HΦ2 & Hf). split; [by apply Forall_app|]. destruct o as [b|e|msg].
    + destruct Hf as (<- & Hs2 & HR). by rewrite fmap_app, all_succeed_app.
    + destruct Hf; [left; by apply stopped_by_failure_app|right; by apply stopped_by_itself_app].
    + by apply stopped_by_itself_app.
  - split; [done|].
    destruct Hp; [left; by apply stopped_by_failure_longer|right; by apply stopped_by_itself_longer].
  - split; [done|]. by apply stopped_by_itself_longer.
Qed.

Lemma implements_weaken {A} (p : prog C Er A) plan (Q Q' : A → Prop) (P P' : option Er → Prop) :
  implements p plan Q P → (∀ a, Q a → Q' a) → (∀ o, P o → P' o) → implements p plan Q' P'.
Proof.
  unfold implements, stopped_by_itself. intros Hp HQ HP past. specialize (Hp past).
  destruct (run w past p) as [tr []]; intuition.
Qed.

(** A call that cannot fail. *)
Lemma implements_call {X} (c : C X) l (Q : X → Prop) P :
  label c = l → (∀ x, failure c x = None) →
  (∀ past, Φ (Event c (w past _ c)) ∧ Q (w past _ c)) → implements (call c) [l] Q P.
Proof.
  intros <- Hf HQ past. cbn. destruct (HQ past). split_and!; [|done| |done].
  - by apply Forall_singleton.
  - constructor; [apply Hf|constructor].
Qed.

(** A fallible call whose error is returned. *)
Lemma implements_try {A E1} (into : E1 → Er) (c : C (result A E1)) l (Q : A → Prop) P :
  label c = l →
  (∀ r, failure c r = match r with Ok _ => None | Err e => Some (into e) end) →
  (∀ past, Φ (Event c (w past _ c))) → (∀ past a, w past _ c = Ok a → Q a) →
  implements (try_call into c) [l] Q P.
Proof.
  intros <- Hf HΦ HQ past. specialize (HΦ past). specialize (HQ past). cbn.
  unfold ev_failure. specialize (Hf (w past _ c)).
  set (x := w past _ c) in *. clearbody x. destruct x as [a|e]; cbn.
  - split_and!; [by apply Forall_singleton|done|by apply Forall_singleton|by apply HQ].
  - split; [by apply Forall_singleton|]. left. split; [reflexivity|].
    exists [], (Event c (Err e)). by split_and!; [|constructor|].
Qed.

Lemma implements_in_plan {A} (p : prog C Er A) plan Q P past l :
  implements p plan Q P → l ∈ ev_label <$> (run w past p).1 → l ∈ plan.
Proof.
  assert (∀ tr plan P, stopped_by_itself tr plan P → l ∈ ev_label <$> tr → l ∈ plan) as Hself.
  { intros tr plan' P' ((l' & rest & ->) & _) Hl. apply elem_of_app. by left. }
  intros Hp. specialize (Hp past). destruct (run w past p) as [tr []]; cbn; destruct Hp as (_ & Hp).
  - by destruct Hp as (<- & _).
  - destruct Hp as [(Hp & _)|Hp]; [intros Hl; by eapply elem_of_prefix|by eapply Hself].
  - by eapply Hself.
Qed.
End Judgement.
End Plans.

#[global] Arguments implements {C L Er I} w Φ {A} p plan Q stops.

(** All events satisfy what follows from what they satisfy. *)
Lemma implements_events {C L Er A} {I : Interface C L Er} (w : World C) (Φ Φ' : event C → Prop)
    (p : prog C Er A) plan Q P :
  (∀ ev, Φ ev → Φ' ev) → implements w Φ p plan Q P → implements w Φ' p plan Q P.
Proof.
  intros HΦ Hp past. specialize (Hp past). destruct (run w past p) as [tr o].
  destruct Hp as [Hev Ho]. split; [by eapply Forall_impl|done].
Qed.

(** A component that is a program over included calls, with errors of its own. *)
Section Translate.
  Context {C D : Type → Type} {L M Er Er' : Type} {I : Interface C L Er} {J : Interface D M Er'}.
  Variables (f : ∀ X, C X → D X) (g : L → M) (conv : Er → Er').
  Hypothesis label_f : ∀ X (c : C X), label (f _ c) = g (label c).
  Hypothesis failure_f : ∀ X (c : C X) x, failure (f _ c) x = conv <$> failure c x.

Lemma label_inject (tr : list (event C)) : ev_label <$> (inject f <$> tr) = g <$> (ev_label <$> tr).
Proof. rewrite <- !list_fmap_compose. apply list_fmap_ext. intros ? ev _. apply label_f. Qed.

Lemma succeed_inject (tr : list (event C)) : all_succeed tr → all_succeed (inject f <$> tr).
Proof.
  intros Hs. apply Forall_fmap. eapply Forall_impl; [exact Hs|]. intros ev Hev.
  unfold compose, ev_failure in *. cbn. by rewrite failure_f, Hev.
Qed.

Lemma stopped_by_itself_inject (tr : list (event C)) plan (P P' : Prop) :
  (P → P') → stopped_by_itself tr plan P → stopped_by_itself (inject f <$> tr) (g <$> plan) P'.
Proof.
  intros HP ((l & rest & ->) & Hs & H). split_and!; [|by apply succeed_inject|auto].
  exists (g l), (g <$> rest). by rewrite label_inject, fmap_app.
Qed.

Lemma stopped_by_failure_inject (tr : list (event C)) plan e :
  stopped_by_failure tr plan e → stopped_by_failure (inject f <$> tr) (g <$> plan) (conv e).
Proof.
  intros ((k & ->) & Hex). split; [rewrite label_inject, fmap_app; by apply prefix_app_r|].
  destruct Hex as (tr' & ev & -> & Hs & He). exists (inject f <$> tr'), (inject f ev).
  rewrite fmap_app. split_and!; [done|by apply succeed_inject|].
  unfold ev_failure in *. cbn. by rewrite failure_f, He.
Qed.

Lemma implements_translate {A} (w : World D) (Φ : event D → Prop) (p : prog C Er A) plan Q P P' :
  (∀ o, P o → P' (conv <$> o)) →
  (∀ past, implements (restrict f w past) (λ ev, Φ (inject f ev)) p plan Q P) →
  implements w Φ (convert_error conv (translate f p)) (g <$> plan) Q P'.
Proof.
  intros HP Hp past. specialize (Hp past []).
  pose proof (run_translate f w past [] p) as Ht. rewrite fmap_nil, app_nil_r in Ht.
  rewrite run_convert_error, Ht. cbn. destruct (run (restrict f w past) [] p) as [tr o]. cbn in *.
  destruct Hp as (HΦ & Ho). split; [by apply Forall_fmap|]. destruct o as [a|e|msg].
  - rewrite label_inject. destruct Ho as (-> & Hs & HQ). by split_and!; [|apply succeed_inject|].
  - destruct Ho as [Ho|Ho]; [left; by apply stopped_by_failure_inject|right].
    eapply stopped_by_itself_inject; [|exact Ho]. apply (HP (Some e)).
  - eapply stopped_by_itself_inject; [|exact Ho]. apply (HP None).
Qed.
End Translate.

