(* ===== verification/Frame.v ===== *)
(** The part of FRAME the pallets stand on, as an interface.

    FRAME (frame_support, frame_system, sp_runtime, bounded-collections) is not
    part of this repository.  Its storage maps, its transactional layer around
    a dispatchable, its bounded vectors and its saturating conversions are the
    operations of the class [Frame]; the laws of the class state their
    documented behaviour.  Every pallet is modelled and every theorem is
    proved against the class alone.  [Concrete] gives an instance. *)

From S2P Require Export Prelude.
From stdpp Require Export vector.
From Stdlib Require Export Strings.Byte.
#[local] Open Scope Z_scope.

#[global] Instance byte_eq_dec : EqDecision Byte.byte := Byte.byte_eq_dec.

(** [[u8; 32]]. *)
Abbreviation bytes32 := (vec Byte.byte 32).

(** A storage item of a pallet: how to read and to overwrite it in the pallet's
    state. *)
Record StorageItem (S V : Type) : Type := {
  item_get : S → V;
  item_set : V → S → S
}.
Arguments item_get {S V} _ _.
Arguments item_set {S V} _ _ _.

Class Frame := {
  (** [StorageMap] (a [StorageDoubleMap] is a map over pairs of keys). *)
  smap : ∀ (K : Type) {HE : EqDecision K} {HC : Countable K} (V : Type), Type;
  sm_empty : ∀ {K} {HE : EqDecision K} {HC : Countable K} {V}, smap K V;
  sm_get : ∀ {K} {HE : EqDecision K} {HC : Countable K} {V}, smap K V → K → option V;
  sm_insert : ∀ {K} {HE : EqDecision K} {HC : Countable K} {V}, K → V → smap K V → smap K V;
  sm_remove : ∀ {K} {HE : EqDecision K} {HC : Countable K} {V}, K → smap K V → smap K V;

  (** [try_mutate] and [try_mutate_exists] of a map whose query is an option:
      the closure gets the value under the key and gives back the new one. *)
  try_mutate : ∀ {S E A K} {HE : EqDecision K} {HC : Countable K} {V},
    StorageItem S (smap K V) → K → (option V → ST S E (option V * A)) → ST S E A;
  (** [try_mutate] of a map whose query is a value with default [d]. *)
  try_mutate_value : ∀ {S E A K} {HE : EqDecision K} {HC : Countable K} {V},
    V → StorageItem S (smap K V) → K → (V → ST S E (V * A)) → ST S E A;

  (** The storage layer the [pallet::call] macro puts around a dispatchable. *)
  with_storage_layer : ∀ {S E A}, ST S E A → ST S E A;

  (** [BoundedVec]: a vector with at most [n] elements. *)
  bv_try_push : ∀ {A}, Z → list A → A → option (list A);
  bv_try_from : ∀ {A}, Z → list A → option (list A);

  (** [saturated_into] the unsigned type whose largest value is the first argument. *)
  saturated_into : Z → Z → Z;

  sm_get_empty : ∀ {K} {HE : EqDecision K} {HC : Countable K} {V} (k : K),
    sm_get (sm_empty : smap K V) k = None;
  sm_get_insert : ∀ {K} {HE : EqDecision K} {HC : Countable K} {V} (m : smap K V) k k' v,
    sm_get (sm_insert k v m) k' = if decide (k = k') then Some v else sm_get m k';
  sm_get_remove : ∀ {K} {HE : EqDecision K} {HC : Countable K} {V} (m : smap K V) k k',
    sm_get (sm_remove k m) k' = if decide (k = k') then None else sm_get m k';
  try_mutate_run : ∀ {S E A K} {HE : EqDecision K} {HC : Countable K} {V}
      (I : StorageItem S (smap K V)) k (f : option V → ST S E (option V * A)) s,
    try_mutate I k f s =
      match f (sm_get (item_get I s) k) s with
      | (s', Ok (Some v, a)) => (item_set I (sm_insert k v (item_get I s')) s', Ok a)
      | (s', Ok (None, a)) => (item_set I (sm_remove k (item_get I s')) s', Ok a)
      | (s', Err e) => (s', Err e)
      end;
  try_mutate_value_run : ∀ {S E A K} {HE : EqDecision K} {HC : Countable K} {V} d
      (I : StorageItem S (smap K V)) k (f : V → ST S E (V * A)) s,
    try_mutate_value d I k f s =
      match f (default d (sm_get (item_get I s) k)) s with
      | (s', Ok (v, a)) => (item_set I (sm_insert k v (item_get I s')) s', Ok a)
      | (s', Err e) => (s', Err e)
      end;
  with_storage_layer_run : ∀ {S E A} (m : ST S E A) s,
    with_storage_layer m s =
      match m s with (s', Ok a) => (s', Ok a) | (_, Err e) => (s, Err e) end;
  bv_try_push_eq : ∀ {A} n (l : list A) x,
    bv_try_push n l x = if Z.of_nat (length l) <? n then Some (l ++ [x]) else None;
  bv_try_from_eq : ∀ {A} n (l : list A),
    bv_try_from n l = if Z.of_nat (length l) <=? n then Some l else None;
  saturated_into_eq : ∀ m x, 0 ≤ x → saturated_into m x = Z.min x m
}.

(** frame_system's [Config]: accounts and origins.  [signed] is [RawOrigin::Signed(who).into()], [ensure_signed_opt origin] is the
    account [ensure_signed(origin)] succeeds with. *)
Class System := {
  AccountId : Type;
  AccountId_eq_dec :: EqDecision AccountId;
  AccountId_countable :: Countable AccountId;
  RuntimeOrigin : Type;
  ensure_signed_opt : RuntimeOrigin → option AccountId;
  signed : AccountId → RuntimeOrigin;
  (** [RawOrigin::Root.into()], and the test of [frame_system::EnsureRoot]. *)
  root : RuntimeOrigin;
  ensure_root : RuntimeOrigin → bool;
  ensure_signed_signed : ∀ who, ensure_signed_opt (signed who) = Some who;
  ensure_root_root : ensure_root root = true;
  ensure_root_signed : ∀ who, ensure_root (signed who) = false;
  ensure_signed_root : ensure_signed_opt root = None
}.

(** What a call reads of the block it runs in: [T::Time::now().as_millis()],
    a [u128], and [frame_system::Pallet::block_number()]. *)
Record Env : Type := {
  now_as_millis : Z;
  block_number : Z
}.

(** [sp_runtime::DispatchError], of which the pallets produce these cases. *)
Inductive DispatchError (E : Type) : Type :=
| BadOrigin
| CannotLookup
| ModuleError (e : E).
Arguments BadOrigin {E}.
Arguments CannotLookup {E}.
Arguments ModuleError {E} e.

#[global] Instance DispatchError_eq_dec `{EqDecision E} : EqDecision (DispatchError E).
Proof. solve_decision. Defined.

(** A dispatchable's body: errors of the pallet are wrapped as it returns. *)
Abbreviation Dispatch S E := (ST S (DispatchError E)).

Section Ops.
  Context {F : Frame} {Sys : System} {S E : Type}.

(** [StorageValue::get], [StorageValue::put]. *)
Definition get_value {V} (I : StorageItem S V) : ST S E V := gets (item_get I).
Definition put_value {V} (I : StorageItem S V) (v : V) : ST S E unit := modify (item_set I v).

(** [StorageValue::try_mutate]: the value is written when the closure succeeds. *)
Definition try_mutate_cell {V} (I : StorageItem S V) (f : V → ST S E V) : ST S E unit :=
  v ← get_value I; v' ← f v; put_value I v'.

(** [StorageMap::get], [insert], [contains_key] and the infallible [mutate]. *)
Definition get_map `{Countable K} {V} (I : StorageItem S (smap K V)) (k : K) : ST S E (option V) :=
  gets (λ s, sm_get (item_get I s) k).
Definition insert_map `{Countable K} {V} (I : StorageItem S (smap K V)) (k : K) (v : V) : ST S E unit :=
  modify (λ s, item_set I (sm_insert k v (item_get I s)) s).
Definition contains_key `{Countable K} {V} (I : StorageItem S (smap K V)) (k : K) : ST S E bool :=
  gets (λ s, bool_decide (is_Some (sm_get (item_get I s) k))).
Definition mutate `{Countable K} {V} (I : StorageItem S (smap K V)) (k : K)
    (f : option V → option V) : ST S E unit :=
  try_mutate I k (λ o, mret (f o, tt)).
End Ops.

Section Origins.
  Context {Sys : System} {S E : Type}.

(** [ensure_signed(origin)?]. *)
Definition ensure_signed (origin : RuntimeOrigin) : Dispatch S E AccountId :=
  ok_or (ensure_signed_opt origin) BadOrigin.

(** [O::ensure_origin(origin)?] for a configured origin [O], given as its test. *)
Definition ensure_origin (O : RuntimeOrigin → bool) (origin : RuntimeOrigin) : Dispatch S E unit :=
  ensure (O origin) BadOrigin.

(** [o.ok_or(Error::<T>::e)?] and [ensure!(b, Error::<T>::e)]. *)
Definition ok_or_err {A} (o : option A) (e : E) : Dispatch S E A := ok_or o (ModuleError e).
Definition ensure_err (b : bool) (e : E) : Dispatch S E unit := ensure b (ModuleError e).
End Origins.

(** * What the operations do to a state *)

Section RunOps.
  Context {F : Frame} {Sys : System} {S E : Type}.
  Implicit Types s : S.

Lemma run_get_value {V} (I : StorageItem S V) s :
  (get_value I : ST S E V) s = (s, Ok (item_get I s)).
Proof. reflexivity. Qed.

Lemma run_put_value {V} (I : StorageItem S V) v s :
  (put_value I v : ST S E unit) s = (item_set I v s, Ok tt).
Proof. reflexivity. Qed.

Lemma run_try_mutate_cell {V} (I : StorageItem S V) (f : V → ST S E V) s :
  try_mutate_cell I f s =
    match f (item_get I s) s with
    | (s', Ok v) => (item_set I v s', Ok tt)
    | (s', Err e) => (s', Err e)
    end.
Proof. reflexivity. Qed.

Lemma run_get_map `{Countable K} {V} (I : StorageItem S (smap K V)) k s :
  (get_map I k : ST S E (option V)) s = (s, Ok (sm_get (item_get I s) k)).
Proof. reflexivity. Qed.

Lemma run_insert_map `{Countable K} {V} (I : StorageItem S (smap K V)) k v s :
  (insert_map I k v : ST S E unit) s = (item_set I (sm_insert k v (item_get I s)) s, Ok tt).
Proof. reflexivity. Qed.

Lemma run_contains_key `{Countable K} {V} (I : StorageItem S (smap K V)) k s :
  (contains_key I k : ST S E bool) s = (s, Ok (bool_decide (is_Some (sm_get (item_get I s) k)))).
Proof. reflexivity. Qed.

Lemma run_mutate `{Countable K} {V} (I : StorageItem S (smap K V)) k f s :
  (mutate I k f : ST S E unit) s =
    (item_set I (match f (sm_get (item_get I s) k) with
                 | Some v => sm_insert k v (item_get I s)
                 | None => sm_remove k (item_get I s)
                 end) s, Ok tt).
Proof.
  unfold mutate. rewrite try_mutate_run, run_ret. by destruct (f _).
Qed.

Lemma run_ensure_signed origin s :
  (ensure_signed origin : Dispatch S E AccountId) s =
    (s, match ensure_signed_opt origin with Some who => Ok who | None => Err BadOrigin end).
Proof. apply run_ok_or. Qed.

Lemma run_ensure_origin O origin s :
  (ensure_origin O origin : Dispatch S E unit) s = (s, if O origin then Ok tt else Err BadOrigin).
Proof. apply run_ensure. Qed.

Lemma run_ok_or_err {A} (o : option A) (e : E) s :
  (ok_or_err o e : Dispatch S E A) s =
    (s, match o with Some a => Ok a | None => Err (ModuleError e) end).
Proof. apply run_ok_or. Qed.

Lemma run_ensure_err b (e : E) s :
  (ensure_err b e : Dispatch S E unit) s = (s, if b then Ok tt else Err (ModuleError e)).
Proof. apply run_ensure. Qed.

(** A dispatchable that fails leaves no trace in the storage. *)
Lemma storage_layer_err {A} (m : ST S E A) s s' e :
  with_storage_layer m s = (s', Err e) → s' = s.
Proof.
  rewrite with_storage_layer_run. destruct (m s) as [? [?|?]]; congruence.
Qed.

(** A dispatchable that succeeds keeps the writes of its body. *)
Lemma storage_layer_ok {A} (m : ST S E A) s s' a :
  with_storage_layer m s = (s', Ok a) → m s = (s', Ok a).
Proof. rewrite with_storage_layer_run. destruct (m s) as [? [?|?]]; congruence. Qed.

Lemma storage_layer_ok_intro {A} (m : ST S E A) s s' a :
  m s = (s', Ok a) → with_storage_layer m s = (s', Ok a).
Proof. intros Hm. by rewrite with_storage_layer_run, Hm. Qed.

(** The same, when the result is given apart from the state. *)
Lemma storage_layer_snd {A} (m : ST S E A) s :
  snd (with_storage_layer m s) = snd (m s).
Proof. rewrite with_storage_layer_run. by destruct (m s) as [? [?|?]]. Qed.

(** Whatever a dispatchable does, a property that its successful runs
    preserve is preserved. *)
Lemma storage_layer_preserves {A} (P : S → Prop) (m : ST S E A) s :
  P s → (∀ s' a, m s = (s', Ok a) → P s') → P (fst (with_storage_layer m s)).
Proof.
  intros Hs Hok. rewrite with_storage_layer_run.
  destruct (m s) as [s' [a|e]]; simpl; eauto.
Qed.
End RunOps.

Section MapLemmas.
  Context {F : Frame} {K : Type} `{Countable K} {V : Type}.
  Implicit Types (m : smap K V) (k : K) (v : V).

Lemma sm_get_insert_eq m k v : sm_get (sm_insert k v m) k = Some v.
Proof. rewrite sm_get_insert. by case_decide. Qed.

Lemma sm_get_insert_ne m k k' v : k ≠ k' → sm_get (sm_insert k v m) k' = sm_get m k'.
Proof. intros ?. rewrite sm_get_insert. by case_decide. Qed.

Lemma sm_get_remove_eq m k : sm_get (sm_remove k m) k = None.
Proof. rewrite sm_get_remove. by case_decide. Qed.

Lemma sm_get_remove_ne m k k' : k ≠ k' → sm_get (sm_remove k m) k' = sm_get m k'.
Proof. intros ?. rewrite sm_get_remove. by case_decide. Qed.

(** An insertion keeps the keys that are there. *)
Lemma sm_insert_mono m k k' v :
  is_Some (sm_get m k') → is_Some (sm_get (sm_insert k v m) k').
Proof. rewrite sm_get_insert. case_decide; eauto. Qed.

(** A property of every entry survives an insertion that has it, when it is
    stable under the insertion. *)
Lemma sm_insert_forall (P Q : K → V → Prop) m k v :
  (∀ k' v', sm_get m k' = Some v' → P k' v') →
  (∀ k' v', k ≠ k' → P k' v' → Q k' v') → Q k v →
  ∀ k' v', sm_get (sm_insert k v m) k' = Some v' → Q k' v'.
Proof.
  intros Hm HPQ Hv k' v'. rewrite sm_get_insert. case_decide; intros; simplify_eq; eauto.
Qed.

Lemma sm_remove_forall (P Q : K → V → Prop) m k :
  (∀ k' v', sm_get m k' = Some v' → P k' v') →
  (∀ k' v', k ≠ k' → P k' v' → Q k' v') →
  ∀ k' v', sm_get (sm_remove k m) k' = Some v' → Q k' v'.
Proof. intros Hm HPQ k' v'. rewrite sm_get_remove. case_decide; intros; simplify_eq; eauto. Qed.
End MapLemmas.

#[export] Hint Resolve sm_insert_mono : core.

#[export] Hint Rewrite @run_get_value @run_put_value @run_try_mutate_cell @run_get_map @run_insert_map
  @run_contains_key @run_mutate @run_ensure_signed @run_ensure_origin
  @run_ok_or_err @run_ensure_err @try_mutate_run @try_mutate_value_run
  @bv_try_push_eq @bv_try_from_eq : st.

Create Rewrite HintDb sm.
#[export] Hint Rewrite @sm_get_empty @sm_get_insert @sm_get_remove : sm.

(** * Tactics *)

(** The length test of a vector literal is decided by computation. *)
Ltac closed_test t :=
  lazymatch eval vm_compute in t with true => constr:(true) | false => constr:(false) end.
Ltac eval_tests :=
  repeat match goal with
  | |- context [Z.of_nat (length ?l) <=? ?n] =>
      let t := constr:(Z.of_nat (length l) <=? n) in let b := closed_test t in change t with b
  end.
Ltac eval_tests_in H :=
  repeat match type of H with
  | context [Z.of_nat (length ?l) <=? ?n] =>
      let t := constr:(Z.of_nat (length l) <=? n) in let b := closed_test t in change t with b in H
  end.

Create HintDb items discriminated.

(** Run the body of a call on a symbolic state, in the goal or a hypothesis.
    The storage items of a pallet are the hints of the base [items]. *)
Ltac st_run :=
  repeat (progress (autorewrite with st; eval_tests; autounfold with items; cbn)).
Ltac st_run_in H :=
  repeat (progress (autorewrite with st in H; eval_tests_in H; autounfold with items in H; cbn in H)).

(** Split a hypothesis on every test the code makes, dropping the branches
    that end otherwise. *)
Ltac split_tests H :=
  repeat (match type of H with
          | context [match ?x with _ => _ end] =>
              lazymatch x with
              | context [match _ with _ => _ end] => fail
              | _ <$> ?y => first [ match goal with E : y = _ |- _ => rewrite E in H end
                                  | destruct y eqn:? ]
              | _ => first [ match goal with E : x = _ |- _ => rewrite E in H end
                           | destruct x eqn:? ]
              end
          end; try discriminate H; st_run_in H).

(** Turn boolean tests into propositions. *)
Ltac bools :=
  repeat match goal with
  | H : bool_decide _ = true |- _ => apply bool_decide_eq_true in H
  | H : bool_decide _ = false |- _ => apply bool_decide_eq_false in H
  | H : negb _ = true |- _ => apply negb_true_iff in H
  | H : negb _ = false |- _ => apply negb_false_iff in H
  | H : (_ && _)%bool = true |- _ => apply andb_true_iff in H as [? ?]
  | H : (_ || _)%bool = true |- _ => apply orb_true_iff in H
  | H : (_ || _)%bool = false |- _ => apply orb_false_iff in H as [? ?]
  | H : (_ <=? _) = true |- _ => apply Z.leb_le in H
  | H : (_ <=? _) = false |- _ => apply Z.leb_gt in H
  | H : (_ <? _) = true |- _ => apply Z.ltb_lt in H
  | H : (_ <? _) = false |- _ => apply Z.ltb_ge in H
  | H : (_ =? _) = true |- _ => apply Z.eqb_eq in H
  | H : (_ =? _) = false |- _ => apply Z.eqb_neq in H
  end.

(** A successful call, with the tests it passed and the state it left. *)
Ltac inv_ok H :=
  apply storage_layer_ok in H; st_run_in H; split_tests H; bools; simplify_eq.

(** Reads of maps after writes. *)
Ltac sm_simp := repeat (progress (autorewrite with sm in *; simpl in *)).
Ltac sm_cases :=
  repeat (autorewrite with sm in *; simpl in *;
          try match goal with
              | H : context [decide (?a = ?b)] |- _ => destruct (decide (a = b)); simplify_eq
              | |- context [decide (?a = ?b)] => destruct (decide (a = b)); simplify_eq
              end).

(** * References *)

(** The result of a reference, a storage or an error, as that of a dispatchable. *)
Definition concluded {S E} (s : S) (r : result S E) : S * result unit E :=
  match r with Ok s' => (s', Ok tt) | Err e => (s, Err e) end.

(** The auxiliary definitions of references. *)
Create HintDb reference discriminated.

(** A dispatchable against its reference: split on every test of the code and of the
    reference; branches that disagree on a test are contradictory. *)
Ltac run_reference :=
  autounfold with reference; rewrite ?with_storage_layer_run; st_run;
  repeat (lazymatch goal with
          | |- context [match ?x with _ => _ end] =>
              let rec inner x := lazymatch x with
                | context [match ?y with _ => _ end] => inner y
                | _ <$> ?y => inner y
                | _ => first [ match goal with E : x = _ |- _ => rewrite E end | destruct x eqn:? ]
                end in inner x
          end; st_run; try done);
  bools; try (exfalso; intuition (congruence || lia));
  autounfold with reference; cbn; rewrite ?app_nil_r, <- ?app_assoc; try done; try congruence.
