(* ===== verification/Weights.v ===== *)
(** Weights (sp_weights) and the runtime's weight constants
    (src/runtime/src/weights/). *)

From S2P Require Export Prelude.
#[local] Open Scope Z_scope.

(** A weight: reference time and proof size, [u64]s. *)
Record Weight : Type := { ref_time : Z; proof_size : Z }.

#[global] Instance Weight_eq_dec : EqDecision Weight.
Proof. solve_decision. Defined.

(** The comparisons of weights hold in both components. *)
Definition all_lte (w1 w2 : Weight) : bool :=
  (ref_time w1 <=? ref_time w2) && (proof_size w1 <=? proof_size w2).
Definition all_lt (w1 w2 : Weight) : bool :=
  (ref_time w1 <? ref_time w2) && (proof_size w1 <? proof_size w2).

(** Operations on both components. *)
Definition zero_weight : Weight := {| ref_time := 0; proof_size := 0 |}.
Definition weight_map (f : Z → Z) (w : Weight) : Weight :=
  {| ref_time := f (ref_time w); proof_size := f (proof_size w) |}.
Definition weight_zip (f : Z → Z → Z) (w1 w2 : Weight) : Weight :=
  {| ref_time := f (ref_time w1) (ref_time w2); proof_size := f (proof_size w1) (proof_size w2) |}.
Definition weight_add : Weight → Weight → Weight := weight_zip Z.add.
Definition weight_sub : Weight → Weight → Weight := weight_zip Z.sub.
Definition weight_sat_sub : Weight → Weight → Weight := weight_zip sat_sub.
Definition weight_max : Weight → Weight → Weight := weight_zip Z.max.
Definition weight_sat_div (w : Weight) (n : Z) : Weight := weight_map (λ x, x / n) w.

Lemma all_lte_spec w1 w2 :
  all_lte w1 w2 = true ↔ ref_time w1 ≤ ref_time w2 ∧ proof_size w1 ≤ proof_size w2.
Proof. unfold all_lte. by rewrite andb_true_iff, !Z.leb_le. Qed.

Lemma all_lt_spec w1 w2 :
  all_lt w1 w2 = true ↔ ref_time w1 < ref_time w2 ∧ proof_size w1 < proof_size w2.
Proof. unfold all_lt. by rewrite andb_true_iff, !Z.ltb_lt. Qed.

Lemma weight_eq w1 w2 : ref_time w1 = ref_time w2 → proof_size w1 = proof_size w2 → w1 = w2.
Proof. destruct w1, w2; simpl; congruence. Qed.

Lemma weight_eq_iff w1 w2 : w1 = w2 ↔ ref_time w1 = ref_time w2 ∧ proof_size w1 = proof_size w2.
Proof. split; [by intros ->|]. intros []. by apply weight_eq. Qed.

(** * The weight constants *)

Section Weights.

(** [frame_support::weights::constants]: the reference time of a nanosecond, a
    microsecond and a millisecond, in the [u64] of weights. *)
Variables (WEIGHT_REF_TIME_PER_NANOS WEIGHT_REF_TIME_PER_MICROS WEIGHT_REF_TIME_PER_MILLIS : Z).

Definition BlockExecutionWeight : Weight :=
  {| ref_time := sat_mul u64_max WEIGHT_REF_TIME_PER_NANOS 5000000; proof_size := 0 |}.
Definition ExtrinsicBaseWeight : Weight :=
  {| ref_time := sat_mul u64_max WEIGHT_REF_TIME_PER_NANOS 125000; proof_size := 0 |}.

Record RuntimeDbWeight : Type := { read : Z; write : Z }.

Definition RocksDbWeight : RuntimeDbWeight :=
  {| read := 25000 * WEIGHT_REF_TIME_PER_NANOS; write := 100000 * WEIGHT_REF_TIME_PER_NANOS |}.
Definition ParityDbWeight : RuntimeDbWeight :=
  {| read := 8000 * WEIGHT_REF_TIME_PER_NANOS; write := 50000 * WEIGHT_REF_TIME_PER_NANOS |}.

(** The [sane] tests: the read and write weights of a database. *)
Definition sane_db (w : RuntimeDbWeight) : Prop :=
  WEIGHT_REF_TIME_PER_MICROS ≤ read w ≤ WEIGHT_REF_TIME_PER_MILLIS ∧
  WEIGHT_REF_TIME_PER_MICROS ≤ write w ≤ WEIGHT_REF_TIME_PER_MILLIS.

(** The [sane] tests of the four weight files pass for the units of time. *)
Lemma weights_sane :
  0 < WEIGHT_REF_TIME_PER_NANOS ≤ 1000 →
  WEIGHT_REF_TIME_PER_MICROS = 1000 * WEIGHT_REF_TIME_PER_NANOS →
  WEIGHT_REF_TIME_PER_MILLIS = 1000 * WEIGHT_REF_TIME_PER_MICROS →
  (100 * WEIGHT_REF_TIME_PER_MICROS ≤ ref_time BlockExecutionWeight ≤ 50 * WEIGHT_REF_TIME_PER_MILLIS) ∧
  (10 * WEIGHT_REF_TIME_PER_MICROS ≤ ref_time ExtrinsicBaseWeight ≤ WEIGHT_REF_TIME_PER_MILLIS) ∧
  sane_db RocksDbWeight ∧ sane_db ParityDbWeight.
Proof.
  unfold BlockExecutionWeight, ExtrinsicBaseWeight, sane_db, sat_mul, u64_max; simpl. lia.
Qed.

End Weights.

