(* ===== verification/Concrete.v ===== *)
(** Concrete instances of the interfaces of [Frame]: storage maps as [gmap]s,
    and accounts and origins as in the pallet's mock runtime
    (src/pallets/member-registry/src/mock.rs: [AccountId = u64], root and
    signed origins).  The witnesses evaluate the model at these instances. *)

From S2P Require Export Frame.
From stdpp Require Import gmap.
#[local] Open Scope Z_scope.

(** ** Storage *)

Definition concrete_frame : Frame.
Proof.
  refine {|
    smap := λ K HE HC V, gmap K V;
    sm_empty := λ K HE HC V, ∅;
    sm_get := λ K HE HC V m k, m !! k;
    sm_insert := λ K HE HC V k v m, <[k := v]> m;
    sm_remove := λ K HE HC V k m, delete k m;
    try_mutate := λ S E A K HE HC V I k f s,
      match f (item_get I s !! k) s with
      | (s', Ok (Some v, a)) => (item_set I (<[k := v]> (item_get I s')) s', Ok a)
      | (s', Ok (None, a)) => (item_set I (delete k (item_get I s')) s', Ok a)
      | (s', Err e) => (s', Err e)
      end;
    try_mutate_value := λ S E A K HE HC V d I k f s,
      match f (default d (item_get I s !! k)) s with
      | (s', Ok (v, a)) => (item_set I (<[k := v]> (item_get I s')) s', Ok a)
      | (s', Err e) => (s', Err e)
      end;
    with_storage_layer := λ S E A m s,
      match m s with (s', Ok a) => (s', Ok a) | (_, Err e) => (s, Err e) end;
    bv_try_push := λ A n l x, if Z.of_nat (length l) <? n then Some (l ++ [x]) else None;
    bv_try_from := λ A n l, if Z.of_nat (length l) <=? n then Some l else None;
    saturated_into := λ m x, Z.min x m
  |}; try reflexivity.
  - intros. apply lookup_insert.
  - intros. apply lookup_delete.
Defined.

(** ** Accounts and origins *)

Inductive MockOrigin : Type := MockRoot | MockSigned (who : Z) | MockNone.

Definition concrete_system : System.
Proof.
  refine {|
    AccountId := Z;
    RuntimeOrigin := MockOrigin;
    ensure_signed_opt := λ o, match o with MockSigned who => Some who | _ => None end;
    signed := MockSigned;
    root := MockRoot;
    ensure_root := λ o, match o with MockRoot => true | _ => false end
  |}; reflexivity.
Defined.

(** Account number [z], and the origins of an extrinsic it signs, of root and
    of no one. *)
Definition user (z : Z) : @AccountId concrete_system := z.
Definition by_user (z : Z) : @RuntimeOrigin concrete_system := MockSigned z.
Definition by_root : @RuntimeOrigin concrete_system := MockRoot.
Definition by_none : @RuntimeOrigin concrete_system := MockNone.
