(* ===== verification/MemberRegistry.v ===== *)
(** pallet-member-registry (src/pallets/member-registry/src/lib.rs): clubs,
    officers, attestations and members.  The dispatchables are modelled whole,
    in the order of the source's statements. *)

From S2P Require Export Frame Weights.
#[local] Open Scope Z_scope.

(** ** Data *)

Abbreviation ClubId := Z (only parsing).
Abbreviation RoleId := Z (only parsing).
Abbreviation AttestationId := Z (only parsing).
Abbreviation Moment := Z (only parsing).

Inductive MemberStatus : Type := Active | Suspended | Removed.

#[global] Instance MemberStatus_eq_dec : EqDecision MemberStatus.
Proof. solve_decision. Defined.

(** Stored information about a member. *)
Record MemberInfo : Type := {
  mi_clubs : list ClubId;      (* BoundedVec<ClubId, ConstU32<8>> *)
  mi_roles : list RoleId;      (* BoundedVec<RoleId, ConstU32<8>> *)
  mi_joined_at : Moment;
  mi_status : MemberStatus;
  mi_metadata : option bytes32
}.

#[global] Instance MemberInfo_eq_dec : EqDecision MemberInfo.
Proof. solve_decision. Defined.

(** Stored information about a club. *)
Record ClubInfo `{System} : Type := {
  ci_name : list Byte.byte;    (* BoundedVec<u8, ConstU32<64>> *)
  ci_admin : AccountId;
  ci_officers : list AccountId; (* BoundedVec<AccountId, ConstU32<32>> *)
  ci_members_count : Z;        (* u32 *)
  ci_metadata : option bytes32
}.

(** Attestation created by an officer approving a subject to join a club. *)
Record Attestation `{System} : Type := {
  att_subject : AccountId;
  att_club : ClubId;
  att_attestor : AccountId;
  att_created_at : Moment;
  att_expires_at : option Moment;
  att_used : bool;
  att_metadata : option bytes32
}.

Inductive Event `{System} : Type :=
| ClubCreated (club : ClubId) (admin : AccountId)
| OfficerAdded (club : ClubId) (officer : AccountId)
| OfficerRemoved (club : ClubId) (officer : AccountId)
| MemberRegistered (who : AccountId) (club : ClubId)
| MemberRemoved (who : AccountId) (club : ClubId)
| RoleAssigned (who : AccountId) (role : RoleId)
| AttestationCreated (id : AttestationId) (subject : AccountId) (club : ClubId) (attestor : AccountId)
| AttestationUsedEvent (id : AttestationId) (subject : AccountId) (club : ClubId)
| AttestationRevoked (id : AttestationId).

Inductive Error : Type :=
| ClubNotFound
| AlreadyMember
| NotMember
| NotClubAdmin
| NotOfficer
| MemberNotFound
| Overflow
| AttestationNotFound
| AttestationExpired
| AttestationUsed
| AttestorNotAuthorized
| InvalidInput.

#[global] Instance Error_eq_dec : EqDecision Error.
Proof. solve_decision. Defined.

(** The associated types of [Config] that decide something.  [Time] is read
    through the environment of a call. *)
Class Config `{System} := {
  RootClubAdminOrigin : RuntimeOrigin → bool
}.

(** ** Storage *)

Record State `{Frame, System} : Type := mkState {
  st_members : smap AccountId MemberInfo;
  st_clubs : smap ClubId ClubInfo;
  st_next_club_id : ClubId;
  st_next_attestation_id : AttestationId;
  st_attestations : smap AttestationId Attestation;
  st_events : list Event  (* the events deposited so far, oldest first *)
}.

Arguments mkState {_ _}.

Section Storage.
  Context {F : Frame} {Sys : System}.

Definition Members : StorageItem State (smap AccountId MemberInfo) := {|
  item_get := st_members;
  item_set v s := mkState v (st_clubs s) (st_next_club_id s) (st_next_attestation_id s)
                    (st_attestations s) (st_events s)
|}.

Definition Clubs : StorageItem State (smap ClubId ClubInfo) := {|
  item_get := st_clubs;
  item_set v s := mkState (st_members s) v (st_next_club_id s) (st_next_attestation_id s)
                    (st_attestations s) (st_events s)
|}.

Definition NextClubId : StorageItem State ClubId := {|
  item_get := st_next_club_id;
  item_set v s := mkState (st_members s) (st_clubs s) v (st_next_attestation_id s)
                    (st_attestations s) (st_events s)
|}.

Definition NextAttestationId : StorageItem State AttestationId := {|
  item_get := st_next_attestation_id;
  item_set v s := mkState (st_members s) (st_clubs s) (st_next_club_id s) v
                    (st_attestations s) (st_events s)
|}.

Definition Attestations : StorageItem State (smap AttestationId Attestation) := {|
  item_get := st_attestations;
  item_set v s := mkState (st_members s) (st_clubs s) (st_next_club_id s)
                    (st_next_attestation_id s) v (st_events s)
|}.

Definition deposit_event (e : Event) : Dispatch State Error unit :=
  modify (λ s, mkState (st_members s) (st_clubs s) (st_next_club_id s)
                 (st_next_attestation_id s) (st_attestations s) (st_events s ++ [e])).

(** The storage before the first call: the pallet has no genesis config. *)
Definition genesis : State := mkState sm_empty sm_empty 0 0 sm_empty [].

Lemma run_registry_event e s :
  deposit_event e s =
    (mkState (st_members s) (st_clubs s) (st_next_club_id s)
       (st_next_attestation_id s) (st_attestations s) (st_events s ++ [e]), Ok tt).
Proof. reflexivity. Qed.

End Storage.

#[export] Hint Unfold Members Clubs NextClubId NextAttestationId Attestations : items.
#[export] Hint Rewrite @run_registry_event : st.

(** ** Dispatchables *)

Section Calls.
  Context {F : Frame} {Sys : System} {Cfg : Config}.
  Implicit Types (env : Env) (origin : RuntimeOrigin).

(** [T::Time::now().as_millis().saturated_into::<Moment>()]. *)
Definition now_millis env : Moment := saturated_into u64_max (now_as_millis env).

(** [acct == admin || officers.iter().any(|o| o == acct)], the authorisation
    test of the pallet. *)
Definition authorized (club_info : ClubInfo) (acct : AccountId) : bool :=
  bool_decide (acct = ci_admin club_info) ||
  existsb (λ o, bool_decide (o = acct)) (ci_officers club_info).

(** [c.members_count = c.members_count.saturating_add(1)], and the converse. *)
Definition set_members_count (n : Z) (c : ClubInfo) : ClubInfo :=
  {| ci_name := ci_name c; ci_admin := ci_admin c; ci_officers := ci_officers c;
     ci_members_count := n; ci_metadata := ci_metadata c |}.

Definition set_officers (os : list AccountId) (c : ClubInfo) : ClubInfo :=
  {| ci_name := ci_name c; ci_admin := ci_admin c; ci_officers := os;
     ci_members_count := ci_members_count c; ci_metadata := ci_metadata c |}.

Definition count_up (maybe : option ClubInfo) : option ClubInfo :=
  (λ c, set_members_count (sat_add u32_max (ci_members_count c) 1) c) <$> maybe.

Definition count_down (maybe : option ClubInfo) : option ClubInfo :=
  (λ c, set_members_count (sat_sub (ci_members_count c) 1) c) <$> maybe.

Definition create_club env origin (name : list Byte.byte) (admin : AccountId)
    (metadata : option bytes32) : Dispatch State Error unit :=
  with_storage_layer (
    ensure_origin RootClubAdminOrigin origin;;
    id ← get_value NextClubId;
    officers ← ok_or_err (bv_try_from 32 []) Overflow;
    let club := {| ci_name := name; ci_admin := admin; ci_officers := officers;
                   ci_members_count := 0; ci_metadata := metadata |} in
    insert_map Clubs id club;;
    put_value NextClubId (sat_add u32_max id 1);;
    deposit_event (ClubCreated id admin)).

Definition add_officer env origin (club : ClubId) (officer : AccountId)
    : Dispatch State Error unit :=
  with_storage_layer (
    who ← ensure_signed origin;
    try_mutate Clubs club (λ maybe,
      c ← ok_or_err maybe ClubNotFound;
      ensure_err (bool_decide (ci_admin c = who)) NotClubAdmin;;
      officers ← ok_or_err (bv_try_push 32 (ci_officers c) officer) Overflow;
      mret (Some (set_officers officers c), tt));;
    deposit_event (OfficerAdded club officer)).

Definition remove_officer env origin (club : ClubId) (officer : AccountId)
    : Dispatch State Error unit :=
  with_storage_layer (
    who ← ensure_signed origin;
    try_mutate Clubs club (λ maybe,
      c ← ok_or_err maybe ClubNotFound;
      ensure_err (bool_decide (ci_admin c = who)) NotClubAdmin;;
      let c' := match position (λ o, bool_decide (o = officer)) (ci_officers c) with
                | Some pos => set_officers (swap_remove pos (ci_officers c)) c
                | None => c
                end in
      mret (Some c', tt));;
    deposit_event (OfficerRemoved club officer)).

Definition create_attestation env origin (subject : AccountId) (club : ClubId)
    (expires_at : option Moment) (metadata : option bytes32) : Dispatch State Error unit :=
  with_storage_layer (
    attestor ← ensure_signed origin;
    maybe_club ← get_map Clubs club;
    club_info ← ok_or_err maybe_club ClubNotFound;
    ensure_err (authorized club_info attestor) AttestorNotAuthorized;;
    let now := now_millis env in
    id ← get_value NextAttestationId;
    let att := {| att_subject := subject; att_club := club; att_attestor := attestor;
                  att_created_at := now; att_expires_at := expires_at; att_used := false;
                  att_metadata := metadata |} in
    insert_map Attestations id att;;
    put_value NextAttestationId (sat_add u64_max id 1);;
    deposit_event (AttestationCreated id subject club attestor)).

(** [MemberInfo { clubs: [club], roles: [], joined_at, status: Active, metadata: None }]. *)
Definition new_member (clubs : list ClubId) (roles : list RoleId) (joined_at : Moment) : MemberInfo :=
  {| mi_clubs := clubs; mi_roles := roles; mi_joined_at := joined_at;
     mi_status := Active; mi_metadata := None |}.

Definition mark_used (att : Attestation) : Attestation :=
  {| att_subject := att_subject att; att_club := att_club att; att_attestor := att_attestor att;
     att_created_at := att_created_at att; att_expires_at := att_expires_at att;
     att_used := true; att_metadata := att_metadata att |}.

Definition register_member env origin (attestation_id : AttestationId)
    : Dispatch State Error unit :=
  with_storage_layer (
    who ← ensure_signed origin;
    try_mutate Attestations attestation_id (λ maybe_att,
      att ← ok_or_err maybe_att AttestationNotFound;
      ensure_err (negb (att_used att)) AttestationUsed;;
      ensure_err (bool_decide (att_subject att = who)) InvalidInput;;
      match att_expires_at att with
      | Some exp => ensure_err (now_millis env <=? exp) AttestationExpired
      | None => mret tt
      end;;
      maybe_club ← get_map Clubs (att_club att);
      club_info ← ok_or_err maybe_club ClubNotFound;
      ensure_err (authorized club_info (att_attestor att)) AttestorNotAuthorized;;
      is_member ← contains_key Members who;
      ensure_err (negb is_member) AlreadyMember;;
      clubs ← ok_or_err (bv_try_from 8 [att_club att]) Overflow;
      roles ← ok_or_err (bv_try_from 8 []) Overflow;
      let member := new_member clubs roles (att_created_at att) in
      insert_map Members who member;;
      mutate Clubs (att_club att) count_up;;
      let club_id := att_club att in
      deposit_event (MemberRegistered who club_id);;
      deposit_event (AttestationUsedEvent attestation_id who club_id);;
      mret (Some (mark_used att), tt))).

Definition add_member_admin env origin (subject : AccountId) (club : ClubId)
    : Dispatch State Error unit :=
  with_storage_layer (
    who ← ensure_signed origin;
    maybe_club ← get_map Clubs club;
    club_info ← ok_or_err maybe_club ClubNotFound;
    ensure_err (bool_decide (who = ci_admin club_info)) NotClubAdmin;;
    is_member ← contains_key Members subject;
    ensure_err (negb is_member) AlreadyMember;;
    let now := now_millis env in
    clubs ← ok_or_err (bv_try_from 8 [club]) Overflow;
    roles ← ok_or_err (bv_try_from 8 []) Overflow;
    let member := new_member clubs roles now in
    insert_map Members subject member;;
    mutate Clubs club count_up;;
    deposit_event (MemberRegistered subject club)).

Definition set_status (st : MemberStatus) (m : MemberInfo) : MemberInfo :=
  {| mi_clubs := mi_clubs m; mi_roles := mi_roles m; mi_joined_at := mi_joined_at m;
     mi_status := st; mi_metadata := mi_metadata m |}.

Definition set_roles (roles : list RoleId) (m : MemberInfo) : MemberInfo :=
  {| mi_clubs := mi_clubs m; mi_roles := roles; mi_joined_at := mi_joined_at m;
     mi_status := mi_status m; mi_metadata := mi_metadata m |}.

Definition remove_member_admin env origin (subject : AccountId) (club : ClubId)
    : Dispatch State Error unit :=
  with_storage_layer (
    who ← ensure_signed origin;
    maybe_club ← get_map Clubs club;
    club_info ← ok_or_err maybe_club ClubNotFound;
    ensure_err (bool_decide (who = ci_admin club_info)) NotClubAdmin;;
    try_mutate Members subject (λ maybe,
      m ← ok_or_err maybe MemberNotFound;
      mret (Some (set_status Removed m), tt));;
    mutate Clubs club count_down;;
    deposit_event (MemberRemoved subject club)).

Definition set_role env origin (subject : AccountId) (role : RoleId)
    : Dispatch State Error unit :=
  with_storage_layer (
    ensure_origin RootClubAdminOrigin origin;;
    try_mutate Members subject (λ maybe,
      m ← ok_or_err maybe MemberNotFound;
      roles ← ok_or_err (bv_try_push 8 (mi_roles m) role) Overflow;
      mret (Some (set_roles roles m), tt));;
    deposit_event (RoleAssigned subject role)).

Definition revoke_attestation env origin (attestation_id : AttestationId)
    : Dispatch State Error unit :=
  with_storage_layer (
    who ← ensure_signed origin;
    try_mutate Attestations attestation_id (λ maybe,
      att ← ok_or_err maybe AttestationNotFound;
      maybe_club ← get_map Clubs (att_club att);
      club_info ← ok_or_err maybe_club ClubNotFound;
      (if bool_decide (who ≠ att_attestor att) && bool_decide (who ≠ ci_admin club_info)
       then throw (ModuleError NotClubAdmin) else mret tt);;
      mret (None, tt));;
    deposit_event (AttestationRevoked attestation_id)).

(** ** Helpers read by other pallets *)

Definition is_officer_or_admin (acct : AccountId) (club : ClubId) : ST State Error bool :=
  maybe_club ← get_map Clubs club;
  club_info ← ok_or maybe_club ClubNotFound;
  mret (authorized club_info acct).

Definition is_member (who : AccountId) (s : State) : bool :=
  bool_decide (is_Some (sm_get (st_members s) who)).

Definition member_clubs (who : AccountId) (s : State) : option (list ClubId) :=
  mi_clubs <$> sm_get (st_members s) who.

(** ** The pallet as a transition system *)

(** [enum Call], the dispatchables with their arguments. *)
Inductive Call : Type :=
| CreateClub (name : list Byte.byte) (admin : AccountId) (metadata : option bytes32)
| AddOfficer (club : ClubId) (officer : AccountId)
| RemoveOfficer (club : ClubId) (officer : AccountId)
| CreateAttestation (subject : AccountId) (club : ClubId) (expires_at : option Moment)
    (metadata : option bytes32)
| RegisterMember (attestation_id : AttestationId)
| AddMemberAdmin (subject : AccountId) (club : ClubId)
| RemoveMemberAdmin (subject : AccountId) (club : ClubId)
| SetRole (subject : AccountId) (role : RoleId)
| RevokeAttestation (attestation_id : AttestationId).

Definition dispatch env origin (c : Call) : Dispatch State Error unit :=
  match c with
  | CreateClub name admin md => create_club env origin name admin md
  | AddOfficer club officer => add_officer env origin club officer
  | RemoveOfficer club officer => remove_officer env origin club officer
  | CreateAttestation subject club exp md => create_attestation env origin subject club exp md
  | RegisterMember id => register_member env origin id
  | AddMemberAdmin subject club => add_member_admin env origin subject club
  | RemoveMemberAdmin subject club => remove_member_admin env origin subject club
  | SetRole subject role => set_role env origin subject role
  | RevokeAttestation id => revoke_attestation env origin id
  end.

End Calls.

#[export] Hint Unfold count_up count_down : items.
#[global] Arguments now_millis : simpl never.
#[global] Arguments authorized : simpl never.

(** * Weights *)

(** The trait [WeightInfo], and the weight each dispatchable is annotated with. *)
Record WeightInfo : Type := {
  w_create_club : Weight;
  w_add_officer : Weight;
  w_remove_officer : Weight;
  w_create_attestation : Weight;
  w_register_member : Weight;
  w_add_member_admin : Weight;
  w_remove_member_admin : Weight;
  w_set_role : Weight
}.

Definition call_weight `{System} (w : WeightInfo) (c : Call) : Weight :=
  match c with
  | CreateClub _ _ _ => w_create_club w
  | AddOfficer _ _ => w_add_officer w
  | RemoveOfficer _ _ => w_remove_officer w
  | CreateAttestation _ _ _ _ => w_create_attestation w
  | RegisterMember _ => w_register_member w
  | AddMemberAdmin _ _ => w_add_member_admin w
  | RemoveMemberAdmin _ _ => w_remove_member_admin w
  | SetRole _ _ => w_set_role w
  | RevokeAttestation _ => w_create_attestation w
  end.
