(* ===== verification/RegistryLemmas.v ===== *)
(** Inversion lemmas of pallet-member-registry: for each dispatchable of
    [MemberRegistry], the tests a successful call passed and the storage it
    left.  The properties of [RegistryProps] rest on these alone. *)

From S2P Require Export MemberRegistry.
#[local] Open Scope Z_scope.

Section Inversion.
  Context {F : Frame} {Sys : System} {Cfg : Config}.
  Implicit Types (env : Env) (origin : RuntimeOrigin) (s : State).

Lemma create_club_ok env origin name admin md s s' u :
  create_club env origin name admin md s = (s', Ok u) →
  RootClubAdminOrigin origin = true ∧
  s' = mkState (st_members s)
         (sm_insert (st_next_club_id s)
            {| ci_name := name; ci_admin := admin; ci_officers := [];
               ci_members_count := 0; ci_metadata := md |} (st_clubs s))
         (sat_add u32_max (st_next_club_id s) 1) (st_next_attestation_id s)
         (st_attestations s)
         (st_events s ++ [ClubCreated (st_next_club_id s) admin]).
Proof. unfold create_club. intros Hr. by inv_ok Hr. Qed.

Lemma add_officer_ok env origin club officer s s' u :
  add_officer env origin club officer s = (s', Ok u) →
  ∃ c, sm_get (st_clubs s) club = Some c ∧
  ensure_signed_opt origin = Some (ci_admin c) ∧
  Z.of_nat (length (ci_officers c)) < 32 ∧
  s' = mkState (st_members s)
         (sm_insert club (set_officers (ci_officers c ++ [officer]) c) (st_clubs s))
         (st_next_club_id s) (st_next_attestation_id s) (st_attestations s)
         (st_events s ++ [OfficerAdded club officer]).
Proof. unfold add_officer. intros Hr. inv_ok Hr. eauto 10. Qed.

Lemma remove_officer_ok env origin club officer s s' u :
  remove_officer env origin club officer s = (s', Ok u) →
  ∃ c c', sm_get (st_clubs s) club = Some c ∧
  ensure_signed_opt origin = Some (ci_admin c) ∧
  c' = match position (λ o, bool_decide (o = officer)) (ci_officers c) with
       | Some pos => set_officers (swap_remove pos (ci_officers c)) c
       | None => c
       end ∧
  s' = mkState (st_members s) (sm_insert club c' (st_clubs s))
         (st_next_club_id s) (st_next_attestation_id s) (st_attestations s)
         (st_events s ++ [OfficerRemoved club officer]).
Proof.
  unfold remove_officer. intros Hr. inv_ok Hr;
    do 2 eexists; (split; [reflexivity|]); (split; [reflexivity|]);
    match goal with E : position _ _ = _ |- _ => rewrite E end; done.
Qed.

Lemma create_attestation_ok env origin subject club exp md s s' u :
  create_attestation env origin subject club exp md s = (s', Ok u) →
  ∃ c attestor, sm_get (st_clubs s) club = Some c ∧
  ensure_signed_opt origin = Some attestor ∧
  authorized c attestor = true ∧
  s' = mkState (st_members s) (st_clubs s) (st_next_club_id s)
         (sat_add u64_max (st_next_attestation_id s) 1)
         (sm_insert (st_next_attestation_id s)
            {| att_subject := subject; att_club := club; att_attestor := attestor;
               att_created_at := now_millis env; att_expires_at := exp; att_used := false;
               att_metadata := md |} (st_attestations s))
         (st_events s ++ [AttestationCreated (st_next_attestation_id s) subject club attestor]).
Proof. unfold create_attestation. intros Hr. inv_ok Hr. eauto 10. Qed.

(** The conditions [register_member] tests, in the source's order. *)
Definition registrable env s (who : AccountId) (att : Attestation) (c : ClubInfo) : Prop :=
  att_used att = false ∧
  att_subject att = who ∧
  (∀ exp, att_expires_at att = Some exp → now_millis env ≤ exp) ∧
  sm_get (st_clubs s) (att_club att) = Some c ∧
  authorized c (att_attestor att) = true ∧
  sm_get (st_members s) who = None.

(** The club with one member more. *)
Definition club_plus (c : ClubInfo) : ClubInfo :=
  set_members_count (sat_add u32_max (ci_members_count c) 1) c.
Definition club_minus (c : ClubInfo) : ClubInfo :=
  set_members_count (sat_sub (ci_members_count c) 1) c.

Lemma register_member_ok env origin id s s' u :
  register_member env origin id s = (s', Ok u) →
  ∃ who att c, ensure_signed_opt origin = Some who ∧
  sm_get (st_attestations s) id = Some att ∧
  registrable env s who att c ∧
  s' = mkState (sm_insert who (new_member [att_club att] [] (att_created_at att)) (st_members s))
         (sm_insert (att_club att) (club_plus c) (st_clubs s))
         (st_next_club_id s) (st_next_attestation_id s)
         (sm_insert id (mark_used att) (st_attestations s))
         ((st_events s ++ [MemberRegistered who (att_club att)])
            ++ [AttestationUsedEvent id who (att_club att)]).
Proof.
  unfold register_member. intros Hr. inv_ok Hr;
    do 3 eexists; (split; [try eassumption; done|]); (split; [try eassumption; done|]);
    (split; [|reflexivity]); split_and!; try done;
    try (by apply eq_None_not_Some); intros; by simplify_eq.
Qed.

Lemma add_member_admin_ok env origin subject club s s' u :
  add_member_admin env origin subject club s = (s', Ok u) →
  ∃ c, sm_get (st_clubs s) club = Some c ∧
  ensure_signed_opt origin = Some (ci_admin c) ∧
  sm_get (st_members s) subject = None ∧
  s' = mkState (sm_insert subject (new_member [club] [] (now_millis env)) (st_members s))
         (sm_insert club (club_plus c) (st_clubs s))
         (st_next_club_id s) (st_next_attestation_id s) (st_attestations s)
         (st_events s ++ [MemberRegistered subject club]).
Proof.
  unfold add_member_admin. intros Hr. inv_ok Hr.
  eexists. split_and!; [done | done | by apply eq_None_not_Some | done].
Qed.

Lemma remove_member_admin_ok env origin subject club s s' u :
  remove_member_admin env origin subject club s = (s', Ok u) →
  ∃ c m, sm_get (st_clubs s) club = Some c ∧
  ensure_signed_opt origin = Some (ci_admin c) ∧
  sm_get (st_members s) subject = Some m ∧
  s' = mkState (sm_insert subject (set_status Removed m) (st_members s))
         (sm_insert club (club_minus c) (st_clubs s))
         (st_next_club_id s) (st_next_attestation_id s) (st_attestations s)
         (st_events s ++ [MemberRemoved subject club]).
Proof. unfold remove_member_admin. intros Hr. inv_ok Hr. eauto 10. Qed.

Lemma set_role_ok env origin subject role s s' u :
  set_role env origin subject role s = (s', Ok u) →
  ∃ m, RootClubAdminOrigin origin = true ∧
  sm_get (st_members s) subject = Some m ∧
  Z.of_nat (length (mi_roles m)) < 8 ∧
  s' = mkState (sm_insert subject (set_roles (mi_roles m ++ [role]) m) (st_members s))
         (st_clubs s) (st_next_club_id s) (st_next_attestation_id s) (st_attestations s)
         (st_events s ++ [RoleAssigned subject role]).
Proof. unfold set_role. intros Hr. inv_ok Hr. eauto 10. Qed.

Lemma revoke_attestation_ok env origin id s s' u :
  revoke_attestation env origin id s = (s', Ok u) →
  ∃ who att c, ensure_signed_opt origin = Some who ∧
  sm_get (st_attestations s) id = Some att ∧
  sm_get (st_clubs s) (att_club att) = Some c ∧
  (who = att_attestor att ∨ who = ci_admin c) ∧
  s' = mkState (st_members s) (st_clubs s) (st_next_club_id s) (st_next_attestation_id s)
         (sm_remove id (st_attestations s))
         (st_events s ++ [AttestationRevoked id]).
Proof.
  unfold revoke_attestation. intros Hr. inv_ok Hr.
  do 3 eexists. do 3 (split; [by eauto|]). split; [|reflexivity].
  match goal with Hb : (_ && _)%bool = false |- _ => apply andb_false_iff in Hb as [Hb|Hb] end;
    bools; [left|right]; by apply dec_stable.
Qed.

(** A failed call leaves the storage as it was. *)
Lemma registry_dispatch_err env origin c s s' e :
  dispatch env origin c s = (s', Err e) → s' = s.
Proof. destruct c; apply storage_layer_err. Qed.

End Inversion.

(** Case analysis on a successful call. *)
Ltac inv_dispatch Hd :=
  lazymatch type of Hd with
  | dispatch _ _ ?c _ = _ =>
      destruct c; cbn [dispatch] in Hd;
      [ apply create_club_ok in Hd as (?Horig & ->)
      | apply add_officer_ok in Hd as (?cl & ?Hclub & ?Horig & ?Hlen & ->)
      | apply remove_officer_ok in Hd as (?cl & ?cl' & ?Hclub & ?Horig & ?Hcl' & ->)
      | apply create_attestation_ok in Hd as (?cl & ?who & ?Hclub & ?Horig & ?Hauth & ->)
      | apply register_member_ok in Hd as (?who & ?att & ?cl & ?Horig & ?Hatt & ?Hreg & ->)
      | apply add_member_admin_ok in Hd as (?cl & ?Hclub & ?Horig & ?Hnone & ->)
      | apply remove_member_admin_ok in Hd as (?cl & ?m & ?Hclub & ?Horig & ?Hmem & ->)
      | apply set_role_ok in Hd as (?m & ?Horig & ?Hmem & ?Hlen & ->)
      | apply revoke_attestation_ok in Hd as (?who & ?att & ?cl & ?Horig & ?Hatt & ?Hclub & ?Hby & ->) ]
  end.
