(* ===== verification/RegistrySpec.v ===== *)
(** The member registry against a reference: for every call the first refusal that
    applies, and otherwise the storage it leaves. *)

From S2P Require Export RegistryLemmas.
#[local] Open Scope Z_scope.

Section Reference.
  Context {F : Frame} {Sys : System} {Cfg : Config}.
  Implicit Types (env : Env) (origin : RuntimeOrigin) (s : State).

(** Updates of the storage: one club, one member, with the event of it. *)
Definition with_club (id : ClubId) (c : ClubInfo) (evs : list Event) s : State :=
  mkState (st_members s) (sm_insert id c (st_clubs s)) (st_next_club_id s)
    (st_next_attestation_id s) (st_attestations s) (st_events s ++ evs).
Definition with_member (who : AccountId) (m : MemberInfo) s : State :=
  mkState (sm_insert who m (st_members s)) (st_clubs s) (st_next_club_id s)
    (st_next_attestation_id s) (st_attestations s) (st_events s).
Definition with_attestations (atts : smap AttestationId Attestation) (evs : list Event) s : State :=
  mkState (st_members s) (st_clubs s) (st_next_club_id s) (st_next_attestation_id s) atts
    (st_events s ++ evs).

(** The signer of a call about a club, with the club. *)
Definition signer_and_club origin (club : ClubId) s (k : AccountId → ClubInfo → result State (DispatchError Error)) :
    result State (DispatchError Error) :=
  match ensure_signed_opt origin, sm_get (st_clubs s) club with
  | None, _ => Err BadOrigin
  | Some _, None => Err (ModuleError ClubNotFound)
  | Some who, Some c => k who c
  end.

(** The same for a call that only the club's admin may make. *)
Definition by_admin origin (club : ClubId) s (k : ClubInfo → result State (DispatchError Error)) :
    result State (DispatchError Error) :=
  signer_and_club origin club s (λ who c,
    if decide (who = ci_admin c) then k c else Err (ModuleError NotClubAdmin)).

(** The signer of a call about an attestation, with the attestation. *)
Definition signer_and_attestation origin (id : AttestationId) s
    (k : AccountId → Attestation → result State (DispatchError Error)) : result State (DispatchError Error) :=
  match ensure_signed_opt origin, sm_get (st_attestations s) id with
  | None, _ => Err BadOrigin
  | Some _, None => Err (ModuleError AttestationNotFound)
  | Some who, Some att => k who att
  end.

Definition expired env (att : Attestation) : bool :=
  match att_expires_at att with Some exp => bool_decide (exp < now_millis env) | None => false end.

Definition reference env origin (call : Call) s : result State (DispatchError Error) :=
  match call with
  | CreateClub name admin md =>
      if RootClubAdminOrigin origin then
        let id := st_next_club_id s in
        let c := {| ci_name := name; ci_admin := admin; ci_officers := []; ci_members_count := 0;
                    ci_metadata := md |} in
        Ok (mkState (st_members s) (sm_insert id c (st_clubs s)) (Z.min (id + 1) u32_max)
              (st_next_attestation_id s) (st_attestations s) (st_events s ++ [ClubCreated id admin]))
      else Err BadOrigin
  | AddOfficer club officer =>
      by_admin origin club s (λ c,
        if decide (Z.of_nat (length (ci_officers c)) < 32)
        then Ok (with_club club (set_officers (ci_officers c ++ [officer]) c) [OfficerAdded club officer] s)
        else Err (ModuleError Overflow))
  | RemoveOfficer club officer =>
      by_admin origin club s (λ c,
        let officers := match position (λ o, bool_decide (o = officer)) (ci_officers c) with
                        | Some pos => swap_remove pos (ci_officers c)
                        | None => ci_officers c
                        end in
        Ok (with_club club (set_officers officers c) [OfficerRemoved club officer] s))
  | CreateAttestation subject club exp md =>
      signer_and_club origin club s (λ attestor c,
        if authorized c attestor then
          let id := st_next_attestation_id s in
          let att := {| att_subject := subject; att_club := club; att_attestor := attestor;
                        att_created_at := now_millis env; att_expires_at := exp; att_used := false;
                        att_metadata := md |} in
          Ok (mkState (st_members s) (st_clubs s) (st_next_club_id s) (Z.min (id + 1) u64_max)
                (sm_insert id att (st_attestations s))
                (st_events s ++ [AttestationCreated id subject club attestor]))
        else Err (ModuleError AttestorNotAuthorized))
  | RegisterMember id =>
      signer_and_attestation origin id s (λ who att,
        if att_used att then Err (ModuleError AttestationUsed)
        else if decide (att_subject att ≠ who) then Err (ModuleError InvalidInput)
        else if expired env att then Err (ModuleError AttestationExpired)
        else match sm_get (st_clubs s) (att_club att) with
        | None => Err (ModuleError ClubNotFound)
        | Some c =>
            if negb (authorized c (att_attestor att)) then Err (ModuleError AttestorNotAuthorized)
            else match sm_get (st_members s) who with
            | Some _ => Err (ModuleError AlreadyMember)
            | None =>
                Ok (with_attestations (sm_insert id (mark_used att) (st_attestations s)) []
                   (with_club (att_club att) (club_plus c)
                      [MemberRegistered who (att_club att); AttestationUsedEvent id who (att_club att)]
                   (with_member who (new_member [att_club att] [] (att_created_at att)) s)))
            end
        end)
  | AddMemberAdmin subject club =>
      by_admin origin club s (λ c,
        match sm_get (st_members s) subject with
        | Some _ => Err (ModuleError AlreadyMember)
        | None => Ok (with_club club (club_plus c) [MemberRegistered subject club]
                    (with_member subject (new_member [club] [] (now_millis env)) s))
        end)
  | RemoveMemberAdmin subject club =>
      by_admin origin club s (λ c,
        match sm_get (st_members s) subject with
        | None => Err (ModuleError MemberNotFound)
        | Some m => Ok (with_club club (club_minus c) [MemberRemoved subject club]
                      (with_member subject (set_status Removed m) s))
        end)
  | SetRole subject role =>
      if RootClubAdminOrigin origin then
        match sm_get (st_members s) subject with
        | None => Err (ModuleError MemberNotFound)
        | Some m =>
            if decide (Z.of_nat (length (mi_roles m)) < 8)
            then Ok (with_attestations (st_attestations s) [RoleAssigned subject role]
                       (with_member subject (set_roles (mi_roles m ++ [role]) m) s))
            else Err (ModuleError Overflow)
        end
      else Err BadOrigin
  | RevokeAttestation id =>
      signer_and_attestation origin id s (λ who att,
        match sm_get (st_clubs s) (att_club att) with
        | None => Err (ModuleError ClubNotFound)
        | Some c =>
            if decide (who = att_attestor att ∨ who = ci_admin c)
            then Ok (with_attestations (sm_remove id (st_attestations s)) [AttestationRevoked id] s)
            else Err (ModuleError NotClubAdmin)
        end)
  end.

Lemma set_officers_self c : set_officers (ci_officers c) c = c.
Proof. by destruct c. Qed.
#[local] Hint Rewrite set_officers_self : st.
#[local] Hint Unfold by_admin signer_and_club signer_and_attestation expired
  with_attestations with_club with_member : reference.

(** C7: every call of the member registry does what the reference says, on every
    branch: it is refused with the first of the listed errors that applies, then
    nothing has changed, or it leaves exactly the storage listed. *)
Theorem registry_reference env origin c s :
  dispatch env origin c s = concluded s (reference env origin c s).
Proof.
  destruct c; cbn [dispatch reference].
  - unfold create_club. run_reference.
  - unfold add_officer. run_reference.
  - unfold remove_officer. run_reference.
  - unfold create_attestation. run_reference.
  - unfold register_member. run_reference.
  - unfold add_member_admin. run_reference.
  - unfold remove_member_admin. run_reference.
  - unfold set_role. run_reference.
  - unfold revoke_attestation. run_reference.
    + by destruct o.
    + match goal with Hb : (_ && _)%bool = false |- _ => apply andb_false_iff in Hb as [Hb|Hb] end;
        bools; destruct n; [left|right]; by apply dec_stable.
Qed.
End Reference.
