(* ===== verification/RegistryProps.v ===== *)
(** Properties of pallet-member-registry: the storage invariant, who may
    register whom, what a registration does, and where the pallet departs from
    its documentation. *)

From S2P Require Export RegistryLemmas.
#[local] Open Scope Z_scope.

(** * The transition system *)

Section Steps.
  Context {F : Frame} {Sys : System} {Cfg : Config}.
  Implicit Types (env : Env) (origin : RuntimeOrigin) (s : State).

(** The arguments of a call are values of their Rust types. *)
Definition call_wf (c : Call) : Prop :=
  match c with
  | CreateClub name _ _ => Z.of_nat (length name) ≤ 64
  | CreateAttestation _ _ (Some exp) _ => in_range u64_max exp
  | SetRole _ role => in_range u8_max role
  | _ => True
  end.

Definition env_wf env : Prop := 0 ≤ now_as_millis env.

(** One extrinsic, successful or not. *)
Definition step s s' : Prop :=
  ∃ env origin c, env_wf env ∧ call_wf c ∧ s' = fst (dispatch env origin c s).

Definition reach : State → Prop := reachable (λ s, s = genesis) step.

(** * The storage invariant *)

(** Identifiers are handed out in order until the counter saturates. *)
Definition id_wf (max next id : Z) : Prop := 0 ≤ id ≤ max ∧ (id < next ∨ next = max).

Definition club_wf s (id : ClubId) (c : ClubInfo) : Prop :=
  id_wf u32_max (st_next_club_id s) id ∧
  Z.of_nat (length (ci_name c)) ≤ 64 ∧
  Z.of_nat (length (ci_officers c)) ≤ 32 ∧
  in_range u32_max (ci_members_count c).

Definition member_wf s (m : MemberInfo) : Prop :=
  (∃ club, mi_clubs m = [club] ∧ is_Some (sm_get (st_clubs s) club)) ∧
  Z.of_nat (length (mi_roles m)) ≤ 8 ∧
  in_range u64_max (mi_joined_at m) ∧
  mi_status m ≠ Suspended ∧
  mi_metadata m = None.

Definition attestation_wf s (id : AttestationId) (a : Attestation) : Prop :=
  id_wf u64_max (st_next_attestation_id s) id ∧
  is_Some (sm_get (st_clubs s) (att_club a)) ∧
  in_range u64_max (att_created_at a) ∧
  (att_used a = true → ∃ m, sm_get (st_members s) (att_subject a) = Some m ∧
     mi_clubs m = [att_club a] ∧ mi_joined_at m = att_created_at a).

Record wf s : Prop := {
  wf_next_club : in_range u32_max (st_next_club_id s);
  wf_next_attestation : in_range u64_max (st_next_attestation_id s);
  wf_clubs : ∀ id c, sm_get (st_clubs s) id = Some c → club_wf s id c;
  wf_members : ∀ who m, sm_get (st_members s) who = Some m → member_wf s m;
  wf_attestations : ∀ id a, sm_get (st_attestations s) id = Some a → attestation_wf s id a
}.

Lemma now_millis_range env : env_wf env → in_range u64_max (now_millis env).
Proof.
  unfold env_wf, now_millis, in_range. intros Hn. rewrite saturated_into_eq by done.
  unfold u64_max. lia.
Qed.

Lemma id_wf_next max next id : id_wf max next id → id_wf max (sat_add max next 1) id.
Proof. unfold id_wf, sat_add. lia. Qed.

Lemma id_wf_new max next : in_range max next → id_wf max (sat_add max next 1) next.
Proof. unfold id_wf, sat_add, in_range. lia. Qed.

Lemma club_wf_plus s id c : club_wf s id c → club_wf s id (club_plus c).
Proof. intros (? & ? & ? & ?). split_and!; try done. by apply sat_add_range. Qed.

Lemma club_wf_minus s id c : club_wf s id c → club_wf s id (club_minus c).
Proof. intros (? & ? & ? & ?). split_and!; try done. by apply sat_sub_range. Qed.

Lemma member_wf_removed s m : member_wf s m → member_wf s (set_status Removed m).
Proof. intros (? & ? & ? & ? & ?). by split_and!. Qed.

Hint Resolve id_wf_next id_wf_new now_millis_range sat_add_range club_wf_plus
  club_wf_minus member_wf_removed sm_get_insert_eq : core.

(** Replacing a club by one with the same bounds keeps the invariant. *)
Lemma wf_update_club s club c c' evs :
  wf s → sm_get (st_clubs s) club = Some c → club_wf s club c' →
  wf (mkState (st_members s) (sm_insert club c' (st_clubs s)) (st_next_club_id s)
        (st_next_attestation_id s) (st_attestations s) evs).
Proof.
  intros [Hn Ha Hc Hm Hatt] Hget Hc'. split; simpl; eauto.
  - eapply (sm_insert_forall (club_wf s) (club_wf s)); eauto.
  - intros who m Hw. destruct (Hm _ _ Hw) as ((k & ? & ?) & ?). split; simpl; eauto.
  - intros id a Hg. destruct (Hatt _ _ Hg) as (? & ? & ? & ?). split_and!; simpl; eauto.
Qed.

(** Replacing the record of a member by one with the same clubs and date. *)
Lemma wf_update_member s who m m' evs :
  wf s → sm_get (st_members s) who = Some m → member_wf s m' →
  mi_clubs m' = mi_clubs m → mi_joined_at m' = mi_joined_at m →
  wf (mkState (sm_insert who m' (st_members s)) (st_clubs s) (st_next_club_id s)
        (st_next_attestation_id s) (st_attestations s) evs).
Proof.
  intros [Hn Ha Hc Hm Hatt] Hget Hm' Hcl Hj. split; simpl; eauto.
  - eapply (sm_insert_forall (λ _, member_wf s) (λ _, member_wf s)); eauto.
  - intros id a Hg. destruct (Hatt _ _ Hg) as (Hid & Hcb & Hr & Hu). split_and!; eauto.
    intros (mm & Hmm & ? & ?)%Hu. simpl. rewrite sm_get_insert.
    case_decide; [subst|by eauto]. exists m'. rewrite Hcl, Hj. by simplify_eq.
Qed.

(** Recording a new member. *)
Lemma wf_new_member s who club c t evs :
  wf s → sm_get (st_members s) who = None → sm_get (st_clubs s) club = Some c →
  in_range u64_max t →
  wf (mkState (sm_insert who (new_member [club] [] t) (st_members s)) (st_clubs s)
        (st_next_club_id s) (st_next_attestation_id s) (st_attestations s) evs).
Proof.
  intros [Hn Ha Hc Hm Hatt] Hnone Hclub Ht. split; simpl; eauto.
  - eapply (sm_insert_forall (λ _, member_wf s) (λ _, member_wf s)); eauto.
    unfold member_wf, new_member; simpl. split_and!; eauto; lia.
  - intros id a Hg. destruct (Hatt _ _ Hg) as (Hid & Hcb & Hr & Hu). split_and!; eauto.
    intros (mm & Hmm & ? & ?)%Hu. simpl. rewrite sm_get_insert.
    case_decide; [congruence|by eauto].
Qed.

(** Replacing an attestation by one about the same club. *)
Lemma wf_update_attestation s id a a' evs :
  wf s → sm_get (st_attestations s) id = Some a → attestation_wf s id a' →
  wf (mkState (st_members s) (st_clubs s) (st_next_club_id s) (st_next_attestation_id s)
        (sm_insert id a' (st_attestations s)) evs).
Proof.
  intros [Hn Ha Hc Hm Hatt] Hget Ha'. split; simpl; eauto.
  eapply (sm_insert_forall (attestation_wf s) (attestation_wf s)); eauto.
Qed.

Lemma dispatch_preserves_wf env origin c s s' u :
  env_wf env → call_wf c → wf s → dispatch env origin c s = (s', Ok u) → wf s'.
Proof.
  intros He Hc Hwf Hd. pose proof Hwf as [Hn Ha Hcl Hm Hatts].
  inv_dispatch Hd; simpl in Hc.
  - split; simpl; eauto.
    + apply sat_add_range; [done|lia].
    + eapply (sm_insert_forall (club_wf s)); [done| |].
      * intros k v _ (? & ? & ? & ?). split_and!; simpl; eauto.
      * unfold club_wf, in_range, u32_max; simpl. split_and!; eauto; lia.
    + intros who m Hw. destruct (Hm _ _ Hw) as ((k & ? & ?) & ?). split; simpl; eauto.
    + intros id a Hg. destruct (Hatts _ _ Hg) as (? & ? & ? & ?). split_and!; simpl; eauto.
  - eapply wf_update_club; eauto. destruct (Hcl _ _ Hclub) as (? & ? & ? & ?).
    split_and!; simpl; eauto. rewrite length_app; simpl. lia.
  - eapply wf_update_club; eauto. destruct (Hcl _ _ Hclub) as (? & ? & Ho & ?).
    subst. case_match; split_and!; simpl; eauto.
    pose proof (length_swap_remove n (ci_officers cl)). lia.
  - split; simpl; eauto.
    + apply sat_add_range; [done|lia].
    + eapply (sm_insert_forall (attestation_wf s)); [done| |].
      * intros k v _ (? & ? & ? & ?). split_and!; simpl; eauto.
      * split_and!; simpl; eauto. done.
  - destruct Hreg as (Hused & Hsub & Hexp & Hclub & Hau & Hnone).
    destruct (Hatts _ _ Hatt) as (Hid & _ & Ht & _).
    pose proof (wf_new_member s who (att_club att) cl (att_created_at att) [] Hwf Hnone Hclub Ht) as W.
    eapply (wf_update_club _ (att_club att) cl (club_plus cl) []) in W; [|done|by eauto].
    eapply (wf_update_attestation _ attestation_id att (mark_used att)) in W; [done|done|].
    split_and!; simpl; eauto. intros _. subst who. eauto.
  - pose proof (wf_new_member s subject club cl (now_millis env) [] Hwf Hnone Hclub
                  (now_millis_range _ He)) as W.
    eapply (wf_update_club _ club cl (club_plus cl)) in W; [done|done|by eauto].
  - pose proof Hwf as W.
    eapply (wf_update_member _ subject m (set_status Removed m) []) in W; eauto.
    eapply (wf_update_club _ club cl (club_minus cl)) in W; [done|done|by eauto].
  - eapply wf_update_member; eauto.
    destruct (Hm _ _ Hmem) as (? & ? & ? & ? & ?). split_and!; simpl; eauto.
    rewrite length_app; simpl. lia.
  - split; simpl; eauto.
    eapply (sm_remove_forall (attestation_wf s) (attestation_wf s)); eauto.
Qed.

(** What every successful call does, every step does. *)
Lemma step_ok (R : State → State → Prop) s s' :
  R s s →
  (∀ env origin c u, env_wf env → call_wf c → dispatch env origin c s = (s', Ok u) → R s s') →
  step s s' → R s s'.
Proof.
  intros Hr Hok (env & origin & c & He & Hc & ->).
  destruct (dispatch env origin c s) as [s' [u|e]] eqn:Hd; simpl in *; eauto.
  apply registry_dispatch_err in Hd as ->. done.
Qed.

Lemma wf_genesis : wf genesis.
Proof.
  split; simpl; intros; sm_simp; try done; unfold in_range, u32_max, u64_max; lia.
Qed.

Lemma registry_invariant_lemma s : reach s → wf s.
Proof.
  apply reachable_ind; [by intros ? ->; apply wf_genesis|].
  intros x y Hx. apply (step_ok (λ _ y, wf y)); eauto using dispatch_preserves_wf.
Qed.

(** C12: in every reachable state of the member registry, club and attestation
    identifiers lie below their counters, officer and role lists respect the
    bounds of their vectors, every member belongs to exactly one club, which
    exists, no member is suspended, and every attestation marked used has
    produced the membership of its subject in its club. *)
Theorem registry_invariant s : reach s → wf s.
Proof. apply registry_invariant_lemma. Qed.

(** * Registration *)

(** [register_member] succeeds exactly when the caller presents an existing,
    unused attestation about itself that has not expired, whose club exists,
    whose attestor is still admin or officer of the club, and the caller is not
    a member yet.  It then stores the caller as an active member of that one
    club since the attestation's date, marks the attestation used, raises the
    club's counter by one (saturating), and changes nothing else.  A call that
    fails changes nothing at all. *)
Theorem register_member_correct env origin id s :
  (is_ok (snd (register_member env origin id s)) = true ↔
     ∃ who att c, ensure_signed_opt origin = Some who ∧
       sm_get (st_attestations s) id = Some att ∧ registrable env s who att c) ∧
  (∀ s' e, register_member env origin id s = (s', Err e) → s' = s) ∧
  (∀ s' u who att, register_member env origin id s = (s', Ok u) →
     ensure_signed_opt origin = Some who → sm_get (st_attestations s) id = Some att →
     sm_get (st_members s') who = Some (new_member [att_club att] [] (att_created_at att)) ∧
     (∀ k, k ≠ who → sm_get (st_members s') k = sm_get (st_members s) k) ∧
     sm_get (st_attestations s') id = Some (mark_used att) ∧
     (∀ k, k ≠ id → sm_get (st_attestations s') k = sm_get (st_attestations s) k) ∧
     sm_get (st_clubs s') (att_club att) = club_plus <$> sm_get (st_clubs s) (att_club att) ∧
     (∀ k, k ≠ att_club att → sm_get (st_clubs s') k = sm_get (st_clubs s) k) ∧
     st_next_club_id s' = st_next_club_id s ∧
     st_next_attestation_id s' = st_next_attestation_id s ∧
     st_events s' = st_events s ++ [MemberRegistered who (att_club att);
                                    AttestationUsedEvent id who (att_club att)]).
Proof.
  split; [split|split].
  - intros Hok. destruct (register_member env origin id s) as [s' [u|e]] eqn:Hr; [|done].
    apply register_member_ok in Hr as (who & att & c & ? & ? & ? & _). by exists who, att, c.
  - intros (who & att & c & Ho & Ha & Hused & Hsub & Hexp & Hc & Hauth & Hnone).
    unfold register_member. rewrite storage_layer_snd. st_run. rewrite Ho. st_run.
    rewrite Ha. st_run. rewrite Hused. st_run. rewrite bool_decide_eq_true_2 by done. st_run.
    destruct (att_expires_at att) as [exp|] eqn:Hex.
    all: try (rewrite (proj2 (Z.leb_le (now_millis env) exp)) by (by apply Hexp)).
    all: st_run; rewrite Hc; st_run; rewrite Hauth; st_run; rewrite Hnone; st_run; done.
  - intros s' e. apply storage_layer_err.
  - intros s' u who att Hr Ho Ha.
    apply register_member_ok in Hr as (who' & att' & c & ? & ? & Hreg & ->).
    destruct Hreg as (_ & _ & _ & Hc & _). simplify_eq. simpl. rewrite Hc, <- app_assoc.
    split_and!; try done; intros; rewrite ?sm_get_insert_eq, ?sm_get_insert_ne by done; done.
Qed.

(** C32: an account becomes a member only by one of two routes: it registers
    itself with an attestation for it that is unused and unexpired and whose
    attestor is authorised in the club at that moment, or the club's admin adds
    it.  Either way it starts active, in that single club, with no role. *)
Theorem new_member_authorised env origin c s s' u who m :
  dispatch env origin c s = (s', Ok u) →
  sm_get (st_members s) who = None → sm_get (st_members s') who = Some m →
  ∃ club ci, sm_get (st_clubs s) club = Some ci ∧
    m = new_member [club] [] (mi_joined_at m) ∧
    ((c = AddMemberAdmin who club ∧ ensure_signed_opt origin = Some (ci_admin ci)) ∨
     (∃ id att, c = RegisterMember id ∧ ensure_signed_opt origin = Some who ∧
        sm_get (st_attestations s) id = Some att ∧ att_club att = club ∧
        registrable env s who att ci)).
Proof.
  intros Hd Hnew Hm. inv_dispatch Hd; simpl in Hm; try congruence;
    rewrite sm_get_insert in Hm; case_decide; simplify_eq.
  - destruct Hreg as (? & ? & ? & Hcl & ? & ?). exists (att_club att), cl.
    split_and!; try done. right. exists attestation_id, att. by split_and!.
  - exists club, cl. split_and!; eauto.
Qed.

(** ** Membership over time *)

(** How the record of a member can change. *)
Definition member_evolves (m m' : MemberInfo) : Prop :=
  mi_clubs m' = mi_clubs m ∧ mi_joined_at m' = mi_joined_at m ∧
  (∃ more, mi_roles m' = mi_roles m ++ more) ∧
  (mi_status m' = mi_status m ∨ mi_status m' = Removed).

#[global] Instance member_evolves_preorder : PreOrder member_evolves.
Proof.
  split.
  - intros m. split_and!; try done; [exists []; by rewrite app_nil_r | by left].
  - intros m1 m2 m3 (? & ? & [r1 Hr1] & ?) (? & ? & [r2 Hr2] & ?).
    split_and!; [congruence|congruence| |].
    + exists (r1 ++ r2). by rewrite Hr2, Hr1, app_assoc.
    + intuition congruence.
Qed.

Lemma step_member s s' who m :
  step s s' → sm_get (st_members s) who = Some m →
  ∃ m', sm_get (st_members s') who = Some m' ∧ member_evolves m m'.
Proof.
  intros Hst Hm. revert Hst.
  apply (step_ok (λ _ s', ∃ m', sm_get (st_members s') who = Some m' ∧ member_evolves m m')).
  { by exists m. }
  intros env origin c u _ _ Hd.
  inv_dispatch Hd; simpl; try (by exists m); rewrite sm_get_insert; case_decide; simplify_eq;
    try (by exists m).
  - destruct Hreg as (? & ? & ? & ? & ? & ?). congruence.
  - eexists; split; [done|]. split_and!; try done; [exists []; by rewrite app_nil_r | by right].
  - eexists; split; [done|]. split_and!; try done; [by eexists | by left].
Qed.

Lemma membership_evolves s s' who m :
  rtc step s s' → sm_get (st_members s) who = Some m →
  ∃ m', sm_get (st_members s') who = Some m' ∧ member_evolves m m'.
Proof.
  intros Hr. revert m. induction Hr as [|x y z Hxy Hyz IH]; intros m Hm; [by exists m|].
  destruct (step_member _ _ _ _ Hxy Hm) as (m1 & Hm1 & He1).
  destruct (IH _ Hm1) as (m2 & Hm2 & He2). exists m2. split; [done|by transitivity m1].
Qed.

(** C33: membership is permanent and its terms are fixed: whatever calls follow,
    a member's record stays, with the same club and the same date; roles are
    only added, and the status changes only to [Removed]. *)
Theorem membership_permanent s s' who m :
  rtc step s s' → sm_get (st_members s) who = Some m →
  ∃ m', sm_get (st_members s') who = Some m' ∧ member_evolves m m'.
Proof. apply membership_evolves. Qed.

(** C34: removal is final, yet leaves the account a member.  After a successful
    [remove_member_admin] the record stays with status [Removed] through every
    later call, [is_member] keeps answering [true], and neither
    [register_member] nor [add_member_admin] can ever bring the account back. *)
Theorem removal_is_final env origin subject club s s' u s'' :
  remove_member_admin env origin subject club s = (s', Ok u) → rtc step s' s'' →
  (∃ m, sm_get (st_members s'') subject = Some m ∧ mi_status m = Removed) ∧
  is_member subject s'' = true ∧
  (∀ env2 origin2 id, ensure_signed_opt origin2 = Some subject →
     is_ok (snd (register_member env2 origin2 id s'')) = false) ∧
  (∀ env2 origin2 club2, is_ok (snd (add_member_admin env2 origin2 subject club2 s'')) = false).
Proof.
  intros Hr Hs. apply remove_member_admin_ok in Hr as (c & m & _ & _ & Hm & ->).
  destruct (membership_evolves _ _ subject (set_status Removed m) Hs)
    as (m' & Hm' & _ & _ & _ & Hst); [apply sm_get_insert_eq|].
  split_and!.
  - exists m'. split; [done|]. by destruct Hst.
  - apply bool_decide_eq_true. by rewrite Hm'.
  - intros env2 origin2 id Ho.
    destruct (register_member env2 origin2 id s'') as [? [?|?]] eqn:Hr; [|done].
    apply register_member_ok in Hr as (who & att & c' & ? & _ & (_ & _ & _ & _ & _ & ?) & _).
    congruence.
  - intros env2 origin2 club2.
    destruct (add_member_admin env2 origin2 subject club2 s'') as [? [?|?]] eqn:Hr; [|done].
    apply add_member_admin_ok in Hr as (c' & _ & _ & ? & _). congruence.
Qed.

(** * Attestations are spent once *)

(** The attestation [id] can no longer be used to register. *)
Definition spent s (id : AttestationId) : Prop :=
  id < st_next_attestation_id s ∧
  ∀ att, sm_get (st_attestations s) id = Some att → att_used att = true.

Lemma spent_step s s' id :
  in_range u64_max (st_next_attestation_id s) → step s s' → spent s id → spent s' id.
Proof.
  intros Hn Hst. revert Hst. apply (step_ok (λ s s', spent s id → spent s' id)); [done|].
  intros env origin c u _ _ Hd [Hlt Hu]. split.
  - inv_dispatch Hd; simpl; try done. unfold sat_add, in_range in *. lia.
  - intros a. inv_dispatch Hd; simpl; try (exact (Hu a)); rewrite ?sm_get_insert, ?sm_get_remove;
      case_decide; intros; simplify_eq; eauto. lia.
Qed.

Lemma spent_forever s s' id : wf s → rtc step s s' → spent s id → spent s' id.
Proof.
  intros Hwf Hr. revert Hwf. induction Hr as [|x y z Hxy _ IH]; [done|].
  intros Hwf Hs. apply IH.
  - revert Hxy. apply (step_ok (λ _ y, wf y)); eauto using dispatch_preserves_wf.
  - eapply spent_step; eauto. apply Hwf.
Qed.

(** C13: an attestation that has been used to register, or revoked, is spent for
    good: no later call of [register_member] with its identifier succeeds,
    whoever makes it.  (The last identifier, [u64::MAX], is excepted: the
    saturating counter hands it out again.) *)
Theorem attestation_single_use env origin c id s s' u s'' env2 origin2 :
  reach s → id < u64_max → env_wf env → call_wf c →
  c = RegisterMember id ∨ c = RevokeAttestation id →
  dispatch env origin c s = (s', Ok u) → rtc step s' s'' →
  is_ok (snd (register_member env2 origin2 id s'')) = false.
Proof.
  intros Hre Hid He Hc Hcall Hd Hr. apply registry_invariant_lemma in Hre as Hwf.
  assert (wf s') as Hwf' by eauto using dispatch_preserves_wf.
  assert (spent s' id) as Hsp.
  { destruct Hcall as [-> | ->]; simpl in Hd.
    - apply register_member_ok in Hd as (who & att & cl & _ & Ha & _ & ->).
      destruct (wf_attestations _ Hwf _ _ Ha) as ([? ?] & _).
      split; simpl; [lia|]. intros a. rewrite sm_get_insert_eq. by intros [= <-].
    - apply revoke_attestation_ok in Hd as (who & att & cl & _ & Ha & _ & _ & ->).
      destruct (wf_attestations _ Hwf _ _ Ha) as ([? ?] & _).
      split; simpl; [lia|]. intros a. by rewrite sm_get_remove_eq. }
  eapply spent_forever in Hsp as [_ Hsp]; [|done|done].
  destruct (register_member env2 origin2 id s'') as [? [?|?]] eqn:Hr2; [|done].
  apply register_member_ok in Hr2 as (who & att & cl & _ & Ha & (Hu & _) & _).
  by rewrite (Hsp _ Ha) in Hu.
Qed.

(** * Clubs and officers *)

(** While the club counter has not saturated, a call never changes the
    name, the admin or the metadata of a club that exists, and it changes the
    club's officers only when the club's admin signed it. *)
Theorem club_governance env origin c s s' r id ci :
  wf s → st_next_club_id s < u32_max →
  dispatch env origin c s = (s', r) → sm_get (st_clubs s) id = Some ci →
  ∃ ci', sm_get (st_clubs s') id = Some ci' ∧
    ci_name ci' = ci_name ci ∧ ci_admin ci' = ci_admin ci ∧ ci_metadata ci' = ci_metadata ci ∧
    (ci_officers ci' ≠ ci_officers ci → ensure_signed_opt origin = Some (ci_admin ci)).
Proof.
  intros Hwf Hsat Hd Hid. destruct r as [u|e].
  2:{ apply registry_dispatch_err in Hd as ->. by exists ci. }
  destruct (wf_clubs _ Hwf _ _ Hid) as ([_ Hlt] & _).
  inv_dispatch Hd; simpl; try (by exists ci);
    rewrite sm_get_insert; case_decide; subst; try lia; try (by exists ci); eexists;
    (split; [reflexivity|]); simplify_eq; try (by split_and!).
  - case_match; by split_and!.
  - destruct Hreg as (_ & _ & _ & Hcl & _). simplify_eq. by split_and!.
Qed.

Lemma authorized_iff c acct :
  authorized c acct = true ↔ acct = ci_admin c ∨ (1 ≤ occurrences acct (ci_officers c))%nat.
Proof. unfold authorized. by rewrite orb_true_iff, bool_decide_eq_true, occurrences_existsb. Qed.

Lemma remove_officer_effect env origin club officer s s' u c :
  remove_officer env origin club officer s = (s', Ok u) →
  sm_get (st_clubs s) club = Some c →
  ∃ c', sm_get (st_clubs s') club = Some c' ∧
    (∀ o, occurrences o (ci_officers c') =
          (occurrences o (ci_officers c) - if decide (o = officer) then 1 else 0)%nat) ∧
    (authorized c' officer = true ↔
       officer = ci_admin c ∨ (2 ≤ occurrences officer (ci_officers c))%nat).
Proof.
  intros Hr Hc. apply remove_officer_ok in Hr as (c1 & c' & Hc1 & _ & Hc' & ->).
  rewrite Hc in Hc1. simplify_eq. eexists. split; [apply sm_get_insert_eq|].
  rewrite authorized_iff.
  destruct (position _ _) as [n|] eqn:Hp; simpl.
  - apply position_Some in Hp as (x & Hx & <-%bool_decide_eq_true).
    apply swap_remove_perm in Hx.
    assert (∀ o, occurrences o (ci_officers c1) =
      ((if decide (x = o) then 1 else 0) + occurrences o (swap_remove n (ci_officers c1)))%nat) as Hocc.
    { intros o. by rewrite (occurrences_perm _ _ _ Hx), occurrences_cons. }
    split; [|rewrite (Hocc x), decide_True by done; intuition lia].
    intros o. rewrite (Hocc o). repeat case_decide; congruence || lia.
  - apply position_None in Hp.
    assert (occurrences officer (ci_officers c1) = 0)%nat as Hz.
    { apply not_true_iff_false in Hp. rewrite occurrences_existsb in Hp. lia. }
    split; [|intuition lia]. intros o. case_decide; subst; lia.
Qed.

(** A successful [remove_officer] takes exactly one occurrence of the
    account off the officer list (none when it is not there) and touches no
    other officer.  Hence the removed account keeps its authority exactly when
    it is the admin or was listed at least twice. *)
Theorem remove_officer_correct env origin club officer s s' u c :
  remove_officer env origin club officer s = (s', Ok u) →
  sm_get (st_clubs s) club = Some c →
  ∃ c', sm_get (st_clubs s') club = Some c' ∧
    (∀ o, occurrences o (ci_officers c') =
          (occurrences o (ci_officers c) - if decide (o = officer) then 1 else 0)%nat) ∧
    (authorized c' officer = true ↔
       officer = ci_admin c ∨ (2 ≤ occurrences officer (ci_officers c))%nat).
Proof.
  apply remove_officer_effect.
Qed.

(** An officer added twice and removed once is still an officer: nothing in
    [add_officer] prevents the second entry, and [remove_officer] takes off
    one entry only. *)
Theorem removed_officer_keeps_authority env1 env2 env3 origin club officer s s1 s2 s3 u1 u2 u3 :
  add_officer env1 origin club officer s = (s1, Ok u1) →
  add_officer env2 origin club officer s1 = (s2, Ok u2) →
  remove_officer env3 origin club officer s2 = (s3, Ok u3) →
  is_officer_or_admin officer club s3 = (s3, Ok true).
Proof.
  intros H1 H2 H3.
  apply add_officer_ok in H1 as (c & Hc & _ & _ & ->).
  apply add_officer_ok in H2 as (c1 & Hc1 & _ & _ & ->). simpl in Hc1.
  rewrite sm_get_insert_eq in Hc1. simplify_eq.
  eapply remove_officer_effect in H3 as (c' & Hc' & _ & Hauth); [|apply sm_get_insert_eq].
  unfold is_officer_or_admin. st_run. rewrite Hc'. st_run. do 2 f_equal. apply Hauth.
  right. simpl. rewrite !occurrences_app, !occurrences_cons, !decide_True by done. lia.
Qed.

(** While the counter has not saturated, [create_club] stores the new club
    under an identifier no club had, with no officers and no members, makes
    the given account its admin, and leaves every other club alone. *)
Theorem create_club_fresh env origin name admin md s s' u :
  wf s → st_next_club_id s < u32_max →
  create_club env origin name admin md s = (s', Ok u) →
  RootClubAdminOrigin origin = true ∧
  sm_get (st_clubs s) (st_next_club_id s) = None ∧
  sm_get (st_clubs s') (st_next_club_id s) =
    Some {| ci_name := name; ci_admin := admin; ci_officers := [];
            ci_members_count := 0; ci_metadata := md |} ∧
  (∀ id, id ≠ st_next_club_id s → sm_get (st_clubs s') id = sm_get (st_clubs s) id) ∧
  st_next_club_id s' = st_next_club_id s + 1 ∧
  st_members s' = st_members s ∧ st_attestations s' = st_attestations s.
Proof.
  intros Hwf Hlt Hr. apply create_club_ok in Hr as (? & ->). simpl. split_and!; try done.
  - destruct (sm_get (st_clubs s) (st_next_club_id s)) as [c|] eqn:Hc; [|done].
    apply (wf_clubs _ Hwf) in Hc as ([_ ?] & _). lia.
  - intros id Hid. by apply sm_get_insert_ne.
  - apply sat_add_exact. lia.
Qed.

(** Once the club counter is at [u32::MAX] it stays there, and the second
    club created from then on replaces the first: the earlier club's admin,
    officers and member count are lost. *)
Theorem create_club_saturated_overwrites env1 env2 origin1 origin2
    name1 admin1 md1 name2 admin2 md2 s s1 s2 u1 u2 :
  st_next_club_id s = u32_max →
  create_club env1 origin1 name1 admin1 md1 s = (s1, Ok u1) →
  create_club env2 origin2 name2 admin2 md2 s1 = (s2, Ok u2) →
  (ci_admin <$> sm_get (st_clubs s1) u32_max) = Some admin1 ∧
  (ci_admin <$> sm_get (st_clubs s2) u32_max) = Some admin2 ∧
  st_next_club_id s2 = u32_max.
Proof.
  intros Hs H1 H2. apply create_club_ok in H1 as (_ & ->). apply create_club_ok in H2 as (_ & ->).
  simpl. assert (sat_add u32_max (st_next_club_id s) 1 = u32_max) as -> by (rewrite Hs; done).
  rewrite Hs, !sm_get_insert_eq. by split_and!.
Qed.

(** * The member counter *)

(** The number of members of [club] as the events report it. *)
Definition count_event (club : ClubId) (n : Z) (e : Event) : Z :=
  match e with
  | ClubCreated c _ => if decide (c = club) then 0 else n
  | MemberRegistered _ c => if decide (c = club) then sat_add u32_max n 1 else n
  | MemberRemoved _ c => if decide (c = club) then sat_sub n 1 else n
  | _ => n
  end.

Definition replay_count (club : ClubId) (evs : list Event) : Z := foldl (count_event club) 0 evs.

(** C40: The stored member counter of a club is what an indexer obtains by
    replaying the pallet's events: reset at creation, one up (saturating) per
    registration, one down (saturating) per removal. *)
Theorem members_count_replay s id c :
  reach s → sm_get (st_clubs s) id = Some c →
  ci_members_count c = replay_count id (st_events s).
Proof.
  intros Hre. revert s Hre id c.
  apply (reachable_ind _ _ (λ s, ∀ id c, sm_get (st_clubs s) id = Some c →
    ci_members_count c = replay_count id (st_events s))).
  { intros ? -> id c. simpl. by rewrite sm_get_empty. }
  intros s s' IH. apply (step_ok (λ _ s', ∀ id c, sm_get (st_clubs s') id = Some c →
    ci_members_count c = replay_count id (st_events s'))); [done|].
  intros env origin c u _ _ Hd id ci.
  inv_dispatch Hd; simpl; unfold replay_count in *; rewrite ?foldl_app; simpl;
    rewrite ?sm_get_insert; try (by apply IH); case_decide; intros; simplify_eq; simpl;
    try (by apply IH); try done.
  - rewrite <- (IH _ _ Hclub). by case_match.
  - destruct Hreg as (_ & _ & _ & Hcl & _). by rewrite <- (IH _ _ Hcl).
  - by rewrite <- (IH _ _ Hclub).
  - by rewrite <- (IH _ _ Hclub).
Qed.

(** The counter is not the number of members.  [remove_member_admin] asks
    for the admin of the club it is given and for a member record, and never
    whether that member belongs to that club: the admin of one club can remove
    a member of another, which lowers the counter of the wrong club and leaves
    the counter of the member's club as it was. *)
Theorem remove_member_crosses_clubs env origin subject club ci m s :
  sm_get (st_clubs s) club = Some ci → ensure_signed_opt origin = Some (ci_admin ci) →
  sm_get (st_members s) subject = Some m → club ∉ mi_clubs m →
  ∃ s', remove_member_admin env origin subject club s = (s', Ok tt) ∧
    (mi_status <$> sm_get (st_members s') subject) = Some Removed ∧
    (ci_members_count <$> sm_get (st_clubs s') club) = Some (sat_sub (ci_members_count ci) 1) ∧
    (∀ own, own ∈ mi_clubs m → sm_get (st_clubs s') own = sm_get (st_clubs s) own).
Proof.
  intros Hc Ho Hm Hnin. eexists. split.
  { unfold remove_member_admin. apply storage_layer_ok_intro. st_run. rewrite Ho. st_run.
    rewrite Hc. st_run. rewrite bool_decide_eq_true_2 by done. st_run. rewrite Hm. st_run.
    rewrite Hc. st_run. reflexivity. }
  simpl. rewrite !sm_get_insert_eq. split_and!; try done.
  intros own Hown. apply sm_get_insert_ne. by intros ->.
Qed.

End Steps.
