(* ===== verification/RegistryLiveness.v ===== *)
(** Whoever the admin of a club attests for can join it: only revoking the attestation
    or joining otherwise takes the chance away. *)

From S2P Require Export RegistryProps.
#[local] Open Scope Z_scope.

Section RegistryLiveness.
  Context {F : Frame} {Sys : System} {Cfg : Config}.
  Implicit Types (env : Env) (origin : RuntimeOrigin) (s : State).

(** The club [club] exists under its admin, who attested as [att] under [id]; the
    subject is a member, or the attestation was revoked, or it stands. *)
Definition invited s (id : AttestationId) (att : Attestation) : Prop :=
  in_range u64_max (st_next_attestation_id s) ∧ id < st_next_attestation_id s ∧
  in_range u32_max (st_next_club_id s) ∧ att_club att < st_next_club_id s ∧
  (∃ c, sm_get (st_clubs s) (att_club att) = Some c ∧ ci_admin c = att_attestor att) ∧
  (is_Some (sm_get (st_members s) (att_subject att)) ∨ AttestationRevoked id ∈ st_events s ∨
   sm_get (st_attestations s) id = Some att ∧ att_used att = false).

Lemma invited_step s s' id att : step s s' → invited s id att → invited s' id att.
Proof.
  intros Hst. revert Hst. apply (step_ok (λ s s', invited s id att → invited s' id att)); [done|].
  intros env origin call u _ _ Hd ([Hn0 Hn] & Hid & [Hc0 Hc] & Hcl & (c & Hclub' & Hadm) & Hopen).
  inv_dispatch Hd; unfold invited, in_range, sat_add in *; simpl.
  all: split_and!; try lia.
  all: try match goal with H : registrable _ _ _ _ _ |- _ => destruct H as (? & ? & ? & ? & ? & ?) end.
  all: rewrite ?sm_get_insert, ?sm_get_remove; repeat case_decide; simplify_eq; try lia.
  all: try (eexists; split; [done|first [done | by repeat case_match; simplify_eq | cbn; congruence]]).
  all: try (left; by eauto).
  all: destruct Hopen as [Hm|[Hrev|[Hatt' Hused]]];
    [left; by eauto | right; left; set_solver | simplify_eq; try done; try (right; right; by split)].
  all: right; left; set_solver.
Qed.

Lemma invited_later s s' id att : rtc step s s' → invited s id att → invited s' id att.
Proof.
  apply (rtc_preserves step (λ s, invited s id att)). intros x y Hx Hxy. by eapply invited_step.
Qed.

(** C14: an invitation by the admin stands.  The admin of a club attests for an account.
    Whatever calls follow, until the last identifiers are handed out, the account is a
    member, or the attestation was revoked, or the account can join: before the
    attestation expires, [register_member] succeeds and makes it a member of the
    club. *)
Theorem invited_account_joins env origin subject club exp md c s s1 u s' :
  wf s → club < u32_max → st_next_attestation_id s < u64_max →
  sm_get (st_clubs s) club = Some c → ensure_signed_opt origin = Some (ci_admin c) →
  create_attestation env origin subject club exp md s = (s1, Ok u) → rtc step s1 s' →
  let id := st_next_attestation_id s in
  is_Some (sm_get (st_members s') subject) ∨ AttestationRevoked id ∈ st_events s' ∨
  ∀ env2 origin2, ensure_signed_opt origin2 = Some subject → (∀ t, exp = Some t → now_millis env2 ≤ t) →
    ∃ s2, register_member env2 origin2 id s' = (s2, Ok tt) ∧
      ∃ m, sm_get (st_members s2) subject = Some m ∧ mi_clubs m = [club].
Proof.
  intros Hwf Hcl Hid Hc Ho Hatt Hr id.
  apply create_attestation_ok in Hatt as (c' & who & Hc' & Ho' & _ & ->). simplify_eq.
  pose proof (wf_next_attestation _ Hwf) as [Hn0 Hn]. pose proof (wf_next_club _ Hwf) as [Hc0 Hc1].
  destruct (wf_clubs _ Hwf _ _ Hc) as ([[? ?] ?] & _).
  set (att := {| att_subject := subject; att_club := club; att_attestor := ci_admin c;
    att_created_at := now_millis env; att_expires_at := exp; att_used := false; att_metadata := md |}) in *.
  assert (invited s' id att) as (_ & _ & _ & _ & (c2 & Hc2 & Hadm) & Hopen).
  { eapply invited_later; [exact Hr|]. unfold invited, in_range, sat_add; cbn. fold id. split_and!; try lia.
    - by exists c.
    - rewrite sm_get_insert_eq. auto. }
  destruct (sm_get (st_members s') subject) as [m|] eqn:Hm; [left; by eexists|].
  destruct Hopen as [[m Hm']|[Hrev|[Hst _]]]; [cbn in Hm'; congruence|auto|].
  right; right. intros env2 origin2 Ho2 Hexp.
  destruct (register_member env2 origin2 id s') as [s2 r] eqn:Hreg.
  destruct (register_member_correct env2 origin2 id s') as ([_ Hok] & _ & Heff).
  rewrite Hreg in Hok, Heff. cbn in Hok. destruct r as [[]|e].
  - exists s2. split; [done|]. destruct (Heff s2 tt subject att eq_refl Ho2 Hst) as [Hmem _].
    eexists. by split.
  - discriminate Hok. exists subject, att, c2. split_and!; try done. unfold registrable. split_and!; try done.
    apply authorized_iff. left. by rewrite Hadm.
Qed.
End RegistryLiveness.
