(* ===== verification/MockRuntime.v ===== *)
(** The mock runtime of pallet-member-registry (src/pallets/member-registry/src/
    mock.rs) and its tests (tests.rs), replayed on the model; and the witnesses
    of the theorems of [RegistryProps] and [RegistryLiveness], evaluated in that runtime. *)

From S2P Require Export Concrete RegistryProps RegistryLiveness.
#[local] Open Scope Z_scope.

#[local] Existing Instance concrete_frame.
#[local] Existing Instance concrete_system.

(** [impl pallet_member_registry::Config for Test]: clubs are created by root. *)
Definition Test_config : Config := {| RootClubAdminOrigin := ensure_root |}.
#[local] Existing Instance Test_config.

(** [impl WeightInfo for DummyWeight]: every call is free. *)
Definition Test_DummyWeight : WeightInfo := {|
  w_create_club := zero_weight; w_add_officer := zero_weight; w_remove_officer := zero_weight;
  w_create_attestation := zero_weight; w_register_member := zero_weight; w_add_member_admin := zero_weight;
  w_remove_member_admin := zero_weight; w_set_role := zero_weight
|}.

Lemma test_calls_are_free c : call_weight Test_DummyWeight c = zero_weight.
Proof. by destruct c. Qed.

(** The balances of [new_test_ext], and the existential deposit. *)
Definition Test_ExistentialDeposit : Z := 1.
Definition test_balances : list (Z * Z) :=
  [(1, 1000000); (2, 1000000); (3, 1000000); (10, 1000000); (99, 1000000)].

(** No account is endowed twice or with dust; the club admin of the tests has a balance. *)
Lemma test_balances_valid :
  NoDup test_balances.*1 ∧ Forall (λ b, Test_ExistentialDeposit ≤ b.2) test_balances ∧ 10 ∈ test_balances.*1.
Proof.
  split_and!; [|repeat constructor; vm_compute; congruence|cbn; set_solver].
  apply (bool_decide_unpack _). vm_compute. done.
Qed.

(** The environment [new_test_ext] sets: block 1, timestamp 1. *)
Definition new_test_ext : Env := {| now_as_millis := 1; block_number := 1 |}.

Definition run_test (s : State) (oc : RuntimeOrigin * Call) : State :=
  fst (dispatch new_test_ext (fst oc) (snd oc) s).

(** The outcome of a call in the state the earlier ones leave. *)
Fixpoint outcomes (s : State) (cs : list (RuntimeOrigin * Call))
    : list (result unit (DispatchError Error)) :=
  match cs with
  | [] => []
  | c :: cs => snd (dispatch new_test_ext (fst c) (snd c) s) :: outcomes (run_test s c) cs
  end.

(** [b"Developers"] and [b"ClubX"]. *)
Definition Developers : list Byte.byte :=
  [Byte.x44; Byte.x65; Byte.x76; Byte.x65; Byte.x6c; Byte.x6f; Byte.x70; Byte.x65; Byte.x72; Byte.x73].
Definition ClubX : list Byte.byte := [Byte.x43; Byte.x6c; Byte.x75; Byte.x62; Byte.x58].

(** The calls of the test [member_registry_core_flows]. *)
Definition member_registry_core_flows : list (RuntimeOrigin * Call) :=
  [ (by_root, CreateClub Developers (user 10) None);
    (by_user 10, AddOfficer 0 (user 2));
    (by_user 2, CreateAttestation (user 3) 0 None None);
    (by_user 3, RegisterMember 0);
    (by_user 10, AddMemberAdmin (user 4) 0);
    (by_user 10, RemoveMemberAdmin (user 4) 0);
    (by_user 2, CreateAttestation (user 5) 0 None None);
    (by_user 2, RevokeAttestation 1) ].

(** The calls of the test [attestation_invalid_and_double_use]. *)
Definition attestation_invalid_and_double_use : list (RuntimeOrigin * Call) :=
  [ (by_root, CreateClub ClubX (user 20) None);
    (by_user 20, AddOfficer 0 (user 2));
    (by_user 2, CreateAttestation (user 5) 0 None None);
    (by_user 5, RegisterMember 0);
    (by_user 5, RegisterMember 0);
    (by_user 3, CreateAttestation (user 6) 0 None None) ].

(** The pallet's own tests hold of the model.  In [core_flows] every call
    succeeds, the club exists under its admin, accounts 3 and 4 are members,
    account 4 is removed, attestation 0 is about account 3 and attestation 1 is
    gone; in [double_use] the second registration fails with [AttestationUsed]
    and the outsider's attestation with [AttestorNotAuthorized], and neither
    changes anything. *)
Theorem registry_tests_pass :
  (let s := foldl run_test genesis member_registry_core_flows in
   outcomes genesis member_registry_core_flows = replicate 8 (Ok tt) ∧
   (ci_admin <$> sm_get (st_clubs s) 0) = Some (user 10) ∧
   (mi_status <$> sm_get (st_members s) (user 3)) = Some Active ∧
   (mi_status <$> sm_get (st_members s) (user 4)) = Some Removed ∧
   (att_subject <$> sm_get (st_attestations s) 0) = Some (user 3) ∧
   sm_get (st_attestations s) 1 = None) ∧
  outcomes genesis attestation_invalid_and_double_use =
    replicate 4 (Ok tt) ++ [Err (ModuleError AttestationUsed); Err (ModuleError AttestorNotAuthorized)] ∧
  foldl run_test genesis attestation_invalid_and_double_use =
    foldl run_test genesis (take 4 attestation_invalid_and_double_use).
Proof. vm_compute. by split_and!. Qed.

(** * Witnesses *)

(** The states after the first [n] calls of the core flows. *)
Definition flow (n : nat) : State := foldl run_test genesis (take n member_registry_core_flows).

Lemma run_reach cs : Forall (λ oc, call_wf (snd oc)) cs → reach (foldl run_test genesis cs).
Proof.
  apply (reachable_foldl _ _ _ (λ oc, call_wf (snd oc))); [|done].
  intros s [o c] Hc. by exists new_test_ext, o, c.
Qed.

Lemma flow_reach n : reach (flow n).
Proof. apply run_reach, Forall_take. repeat constructor. simpl. lia. Qed.

Lemma registry_invariant_witness :
  wf (flow 8) ∧ (mi_clubs <$> sm_get (st_members (flow 8)) (user 3)) = Some [0].
Proof. split; [|reflexivity]. apply registry_invariant. apply (flow_reach 8). Defined.

Lemma register_member_correct_witness :
  is_ok (snd (register_member new_test_ext (by_user 3) 0 (flow 3))) = true ∧
  sm_get (st_members (flow 4)) (user 3) = Some (new_member [0] [] 1).
Proof.
  split; [reflexivity|].
  destruct (register_member_correct new_test_ext (by_user 3) 0 (flow 3)) as (_ & _ & H).
  destruct (H (flow 4) tt (user 3)
    {| att_subject := user 3; att_club := 0; att_attestor := user 2; att_created_at := 1;
       att_expires_at := None; att_used := false; att_metadata := None |}) as [H1 _];
    [vm_compute; reflexivity | reflexivity | vm_compute; reflexivity | exact H1].
Defined.

Lemma new_member_authorised_witness :
  ∃ club ci, sm_get (st_clubs (flow 4)) club = Some ci ∧
    ensure_signed_opt (by_user 10) = Some (ci_admin ci).
Proof.
  destruct (new_member_authorised new_test_ext (by_user 10) (AddMemberAdmin (user 4) 0) (flow 4) (flow 5)
    tt (user 4) (new_member [0] [] 1)) as (club & ci & H1 & _ & H2);
    [vm_compute; reflexivity | vm_compute; reflexivity | vm_compute; reflexivity |].
  exists club, ci. split; [exact H1|]. destruct H2 as [[_ H2]|(id & att & H2 & _)]; [exact H2|discriminate H2].
Defined.

Lemma flow_step n oc : member_registry_core_flows !! n = Some oc → call_wf (snd oc) →
  rtc step (flow n) (flow (S n)).
Proof.
  intros Hn Hc. unfold flow. rewrite (take_S_r _ _ _ Hn), foldl_snoc.
  apply rtc_once. by exists new_test_ext, (fst oc), (snd oc).
Qed.

Lemma membership_permanent_witness :
  ∃ m', sm_get (st_members (flow 6)) (user 4) = Some m' ∧ member_evolves (new_member [0] [] 1) m' ∧
    mi_status m' = Removed.
Proof.
  destruct (membership_permanent (flow 5) (flow 6) (user 4) (new_member [0] [] 1)) as (m' & H1 & H2);
    [by eapply (flow_step 5) | vm_compute; reflexivity |].
  exists m'. split; [exact H1|]. split; [exact H2|]. vm_compute in H1. by injection H1 as <-.
Defined.

Lemma removal_is_final_witness :
  is_member (user 4) (flow 7) = true ∧
  is_ok (snd (add_member_admin new_test_ext (by_user 10) (user 4) 0 (flow 7))) = false.
Proof.
  destruct (removal_is_final new_test_ext (by_user 10) (user 4) 0 (flow 5) (flow 6) tt (flow 7))
    as (_ & H1 & _ & H2); [vm_compute; reflexivity | by eapply (flow_step 6) |].
  split; [exact H1 | apply H2].
Defined.

Lemma attestation_single_use_witness :
  is_ok (snd (register_member new_test_ext (by_user 5) 1 (flow 8))) = false.
Proof.
  apply (attestation_single_use new_test_ext (by_user 2) (RevokeAttestation 1) 1 (flow 7) (flow 8) tt (flow 8)).
  - apply (flow_reach 7).
  - reflexivity.
  - done.
  - done.
  - right. reflexivity.
  - vm_compute. reflexivity.
  - apply rtc_refl.
Defined.

Definition developers_club (officers : list AccountId) (n : Z) : ClubInfo :=
  {| ci_name := Developers; ci_admin := user 10; ci_officers := officers; ci_members_count := n;
     ci_metadata := None |}.

Lemma club_governance_witness :
  ∃ ci', sm_get (st_clubs (flow 2)) 0 = Some ci' ∧ ci_admin ci' = user 10 ∧ ci_officers ci' = [user 2] ∧
    ensure_signed_opt (by_user 10) = Some (user 10).
Proof.
  destruct (club_governance new_test_ext (by_user 10) (AddOfficer 0 (user 2)) (flow 1) (flow 2) (Ok tt) 0
    (developers_club [] 0)) as (ci' & H1 & _ & H2 & _ & H3).
  - apply registry_invariant_lemma. apply (flow_reach 1).
  - reflexivity.
  - vm_compute. reflexivity.
  - vm_compute. reflexivity.
  - exists ci'. split; [exact H1|]. split; [exact H2|].
    vm_compute in H1. injection H1 as <-. split; [reflexivity|]. apply H3. discriminate.
Defined.

Definition after_call (oc : RuntimeOrigin * Call) (s : State) : State := run_test s oc.

Lemma remove_officer_correct_witness :
  let s' := after_call (by_user 10, RemoveOfficer 0 (user 2)) (flow 2) in
  ∃ c', sm_get (st_clubs s') 0 = Some c' ∧ ¬ (authorized c' (user 2) = true).
Proof.
  intros s'.
  destruct (remove_officer_correct new_test_ext (by_user 10) 0 (user 2) (flow 2) s' tt
    (developers_club [user 2] 0)) as (c' & H1 & _ & H2);
    [vm_compute; reflexivity | vm_compute; reflexivity |].
  exists c'. split; [exact H1|]. intros Ha. apply H2 in Ha.
  destruct Ha as [Ha|Ha]; vm_compute in Ha; [discriminate Ha | lia].
Defined.

Lemma removed_officer_keeps_authority_witness :
  let s2 := after_call (by_user 10, AddOfficer 0 (user 2)) (flow 2) in
  let s3 := after_call (by_user 10, RemoveOfficer 0 (user 2)) s2 in
  is_officer_or_admin (user 2) 0 s3 = (s3, Ok true).
Proof.
  intros s2 s3.
  apply (removed_officer_keeps_authority new_test_ext new_test_ext new_test_ext (by_user 10) 0 (user 2)
    (flow 1) (flow 2) s2 s3 tt tt tt); vm_compute; reflexivity.
Defined.

Lemma create_club_fresh_witness :
  let s' := after_call (by_root, CreateClub ClubX (user 20) None) (flow 8) in
  sm_get (st_clubs (flow 8)) 1 = None ∧ (ci_admin <$> sm_get (st_clubs s') 1) = Some (user 20).
Proof.
  intros s'.
  destruct (create_club_fresh new_test_ext by_root ClubX (user 20) None (flow 8) s' tt)
    as (_ & H1 & H2 & _).
  - apply registry_invariant_lemma. apply (flow_reach 8).
  - reflexivity.
  - vm_compute. reflexivity.
  - split; [exact H1|].
    change (ci_admin <$> sm_get (st_clubs s') (st_next_club_id (flow 8)) = Some (user 20)).
    by rewrite H2.
Defined.

(** A registry whose club counter has saturated. *)
Definition saturated_state : State := mkState sm_empty sm_empty u32_max 0 sm_empty [].

Lemma create_club_saturated_overwrites_witness :
  let s1 := after_call (by_root, CreateClub ClubX (user 20) None) saturated_state in
  let s2 := after_call (by_root, CreateClub Developers (user 10) None) s1 in
  (ci_admin <$> sm_get (st_clubs s1) u32_max) = Some (user 20) ∧
  (ci_admin <$> sm_get (st_clubs s2) u32_max) = Some (user 10).
Proof.
  intros s1 s2.
  destruct (create_club_saturated_overwrites new_test_ext new_test_ext by_root by_root ClubX (user 20) None
    Developers (user 10) None saturated_state s1 s2 tt tt) as (H1 & H2 & _);
    [reflexivity | vm_compute; reflexivity | vm_compute; reflexivity |].
  split; [exact H1 | exact H2].
Defined.

Lemma members_count_replay_witness :
  ci_members_count (developers_club [user 2] 1) = replay_count 0 (st_events (flow 8)).
Proof. apply (members_count_replay (flow 8)); [apply (flow_reach 8) | vm_compute; reflexivity]. Defined.

(** Two clubs: the admin of club 1 removes a member of club 0. *)
Definition two_clubs : State := after_call (by_root, CreateClub ClubX (user 20) None) (flow 5).

Lemma remove_member_crosses_clubs_witness :
  ∃ s', remove_member_admin new_test_ext (by_user 20) (user 4) 1 two_clubs = (s', Ok tt) ∧
    (mi_status <$> sm_get (st_members s') (user 4)) = Some Removed.
Proof.
  destruct (remove_member_crosses_clubs new_test_ext (by_user 20) (user 4) 1
    {| ci_name := ClubX; ci_admin := user 20; ci_officers := []; ci_members_count := 0; ci_metadata := None |}
    (new_member [0] [] 1) two_clubs) as (s' & H1 & H2 & _);
    [vm_compute; reflexivity | reflexivity | vm_compute; reflexivity | |].
  - intros Hin. apply list_elem_of_singleton in Hin. discriminate Hin.
  - exists s'. split; [exact H1 | exact H2].
Defined.

(** The admin invites account 7 and appoints an officer; then account 7 joins. *)
Definition invited_state : State := after_call (by_user 10, CreateAttestation (user 7) 0 None None) (flow 1).

Lemma invited_account_joins_witness :
  let s2 := after_call (by_user 10, AddOfficer 0 (user 2)) invited_state in
  ∃ s3, register_member new_test_ext (by_user 7) 0 s2 = (s3, Ok tt) ∧
    ∃ m, sm_get (st_members s3) (user 7) = Some m ∧ mi_clubs m = [0].
Proof.
  intros s2.
  destruct (invited_account_joins new_test_ext (by_user 10) (user 7) 0 None None (developers_club [] 0)
    (flow 1) invited_state tt s2) as [Hm|[Hr|Hj]].
  - apply registry_invariant_lemma. apply (flow_reach 1).
  - reflexivity.
  - reflexivity.
  - vm_compute. reflexivity.
  - reflexivity.
  - vm_compute. reflexivity.
  - apply rtc_once. by exists new_test_ext, (by_user 10), (AddOfficer 0 (user 2)).
  - exfalso. vm_compute in Hm. destruct Hm as [? Hm]. discriminate Hm.
  - exfalso. vm_compute in Hr. apply list_elem_of_In in Hr. simpl in Hr. intuition discriminate.
  - apply (Hj new_test_ext (by_user 7)); [reflexivity | discriminate].
Defined.
