(* ===== verification/Tcc.v ===== *)
(** pallet-tcc (src/pallets/tcc/src/lib.rs): the $TCC asset wrapper.  The calls
    into pallet-assets are commented out in the source, so what the pallet does
    is keep a flag and a cached total supply, and report events. *)

From S2P Require Export Frame Weights.
#[local] Open Scope Z_scope.

(** [Config]: asset identifier, balance width, origins and account lookup are
    the runtime's. [Balance_max] is the largest value of [T::Balance]. *)
Class Config `{System} := {
  AssetId : Type;
  TccAssetId : AssetId;
  Balance_max : Z;
  Balance_max_pos : 0 < Balance_max;
  InstantiateOrigin : RuntimeOrigin → bool;
  MintOrigin : RuntimeOrigin → bool;
  BurnOrigin : RuntimeOrigin → bool;
  LookupSource : Type;
  lookup_opt : LookupSource → option AccountId
}.

Inductive Event `{Config} : Type :=
| AssetInstantiatedEvent (asset_id : AssetId) (owner : AccountId)
| Minted (to : AccountId) (amount : Z)
| Burned (from : AccountId) (amount : Z)
| Transferred (from to : AccountId) (amount : Z).

Inductive Error : Type :=
| AlreadyInstantiated
| NotInstantiated
| NotAuthorized
| AssetOperationFailed
| TransferFailed
| SupplyOverflow.

#[global] Instance Tcc_Error_eq_dec : EqDecision Error.
Proof. solve_decision. Defined.

(** ** Storage *)

Record State `{Config} : Type := mkState {
  st_asset_instantiated : bool;
  st_cached_total_supply : Z;
  st_events : list Event
}.

Arguments mkState {_ _}.

Section Calls.
  Context {F : Frame} {Sys : System} {Cfg : Config}.
  Implicit Types (origin : RuntimeOrigin) (amount : Z).

Definition AssetInstantiated : StorageItem State bool := {|
  item_get := st_asset_instantiated;
  item_set v s := mkState v (st_cached_total_supply s) (st_events s)
|}.

Definition CachedTotalSupply : StorageItem State Z := {|
  item_get := st_cached_total_supply;
  item_set v s := mkState (st_asset_instantiated s) v (st_events s)
|}.

Definition deposit_event (e : Event) : Dispatch State Error unit :=
  modify (λ s, mkState (st_asset_instantiated s) (st_cached_total_supply s) (st_events s ++ [e])).

(** [T::Lookup::lookup(source)?]. *)
Definition lookup_account (source : LookupSource) : Dispatch State Error AccountId :=
  ok_or (lookup_opt source) CannotLookup.

(** ** Dispatchables *)

Definition instantiate_asset origin (owner : LookupSource) (min_balance : Z) (is_sufficient : bool)
    : Dispatch State Error unit :=
  with_storage_layer (
    ensure_origin InstantiateOrigin origin;;
    done ← get_value AssetInstantiated;
    ensure_err (negb done) AlreadyInstantiated;;
    let asset_id := TccAssetId in
    owner ← lookup_account owner;
    put_value AssetInstantiated true;;
    put_value CachedTotalSupply 0;;
    deposit_event (AssetInstantiatedEvent asset_id owner)).

Definition mint origin (to : LookupSource) amount : Dispatch State Error unit :=
  with_storage_layer (
    ensure_origin MintOrigin origin;;
    instantiated ← get_value AssetInstantiated;
    ensure_err instantiated NotInstantiated;;
    to ← lookup_account to;
    try_mutate_cell CachedTotalSupply (λ supply,
      ok_or_err (checked_add Balance_max supply amount) SupplyOverflow);;
    deposit_event (Minted to amount)).

Definition burn origin (from : LookupSource) amount : Dispatch State Error unit :=
  with_storage_layer (
    ensure_origin BurnOrigin origin;;
    instantiated ← get_value AssetInstantiated;
    ensure_err instantiated NotInstantiated;;
    from ← lookup_account from;
    try_mutate_cell CachedTotalSupply (λ supply,
      ok_or_err (checked_sub supply amount) SupplyOverflow);;
    deposit_event (Burned from amount)).

Definition transfer origin (to : LookupSource) amount : Dispatch State Error unit :=
  with_storage_layer (
    who ← ensure_signed origin;
    instantiated ← get_value AssetInstantiated;
    ensure_err instantiated NotInstantiated;;
    to ← lookup_account to;
    deposit_event (Transferred who to amount)).

(** ** Helpers *)

Definition asset_exists (s : State) : bool := st_asset_instantiated s.

Definition balance_of (who : AccountId) (s : State) : Z := 0.

Definition total_supply (s : State) : Z :=
  let cached := st_cached_total_supply s in
  if negb (cached =? 0) then cached else cached.

(** ** Genesis *)

Record GenesisConfig : Type := {
  gc_instantiate_asset : bool;
  gc_cached_total : Z
}.

Definition GenesisConfig_default : GenesisConfig :=
  {| gc_instantiate_asset := false; gc_cached_total := 0 |}.

(** The storage [build] starts from holds the defaults of its values. *)
Definition genesis_build (gc : GenesisConfig) : State :=
  let s := mkState false 0 [] in
  if gc_instantiate_asset gc then
    item_set CachedTotalSupply (gc_cached_total gc) (item_set AssetInstantiated true s)
  else s.

Inductive Call : Type :=
| InstantiateAsset (owner : LookupSource) (min_balance : Z) (is_sufficient : bool)
| Mint (to : LookupSource) (amount : Z)
| Burn (from : LookupSource) (amount : Z)
| Transfer (to : LookupSource) (amount : Z).

Definition dispatch origin (c : Call) : Dispatch State Error unit :=
  match c with
  | InstantiateAsset owner mb suff => instantiate_asset origin owner mb suff
  | Mint to amount => mint origin to amount
  | Burn from amount => burn origin from amount
  | Transfer to amount => transfer origin to amount
  end.

Lemma run_tcc_event e s :
  deposit_event e s =
    (mkState (st_asset_instantiated s) (st_cached_total_supply s) (st_events s ++ [e]), Ok tt).
Proof. reflexivity. Qed.

Lemma run_tcc_lookup source s :
  lookup_account source s =
    (s, match lookup_opt source with Some who => Ok who | None => Err CannotLookup end).
Proof. apply run_ok_or. Qed.

End Calls.

#[export] Hint Unfold AssetInstantiated CachedTotalSupply : items.
#[export] Hint Rewrite @run_tcc_event @run_tcc_lookup : st.

(** * Weights *)

(** The trait [WeightInfo], and the weight each dispatchable is annotated with. *)
Record WeightInfo : Type := {
  w_instantiate_asset : Weight;
  w_mint : Weight;
  w_burn : Weight;
  w_transfer : Weight
}.

Definition call_weight `{Config} (w : WeightInfo) (c : Call) : Weight :=
  match c with
  | InstantiateAsset _ _ _ => w_instantiate_asset w
  | Mint _ _ => w_mint w
  | Burn _ _ => w_burn w
  | Transfer _ _ => w_transfer w
  end.
