(* ===== verification/TccProps.v ===== *)
(** Properties of pallet-tcc: conservation of the cached supply, the effect of
    each call, and what the calls do not do. *)

From S2P Require Export Concrete Tcc.
#[local] Open Scope Z_scope.

Section TccProps.
  Context {F : Frame} {Sys : System} {Cfg : Config}.
  Implicit Types (origin : RuntimeOrigin) (s : State) (amount : Z).

(** * Inversion lemmas *)

Lemma instantiate_asset_ok origin owner mb suff s s' u :
  instantiate_asset origin owner mb suff s = (s', Ok u) →
  InstantiateOrigin origin = true ∧ st_asset_instantiated s = false ∧
  ∃ who, lookup_opt owner = Some who ∧
    s' = mkState true 0 (st_events s ++ [AssetInstantiatedEvent TccAssetId who]).
Proof. unfold instantiate_asset. intros Hr. inv_ok Hr. eauto 10. Qed.

Lemma mint_ok origin to amount s s' u :
  mint origin to amount s = (s', Ok u) →
  MintOrigin origin = true ∧ st_asset_instantiated s = true ∧
  st_cached_total_supply s + amount ≤ Balance_max ∧
  ∃ who, lookup_opt to = Some who ∧
    s' = mkState true (st_cached_total_supply s + amount) (st_events s ++ [Minted who amount]).
Proof.
  unfold mint. intros Hr. inv_ok Hr. unfold checked_add in *. case_match; simplify_eq. bools.
  rewrite Heqb0. eauto 10.
Qed.

Lemma burn_ok origin from amount s s' u :
  burn origin from amount s = (s', Ok u) →
  BurnOrigin origin = true ∧ st_asset_instantiated s = true ∧
  amount ≤ st_cached_total_supply s ∧
  ∃ who, lookup_opt from = Some who ∧
    s' = mkState true (st_cached_total_supply s - amount) (st_events s ++ [Burned who amount]).
Proof.
  unfold burn. intros Hr. inv_ok Hr. unfold checked_sub in *. case_match; simplify_eq. bools.
  rewrite Heqb0. eauto 10.
Qed.

Lemma transfer_ok origin to amount s s' u :
  transfer origin to amount s = (s', Ok u) →
  st_asset_instantiated s = true ∧
  ∃ who dest, ensure_signed_opt origin = Some who ∧ lookup_opt to = Some dest ∧
    s' = mkState true (st_cached_total_supply s) (st_events s ++ [Transferred who dest amount]).
Proof. unfold transfer. intros Hr. inv_ok Hr. rewrite Heqb. eauto 10. Qed.

Lemma tcc_dispatch_err origin c s s' e : dispatch origin c s = (s', Err e) → s' = s.
Proof. destruct c; apply storage_layer_err. Qed.

(** * The transition system *)

Definition call_wf (c : Call) : Prop :=
  match c with
  | InstantiateAsset _ x _ | Mint _ x | Burn _ x | Transfer _ x => in_range Balance_max x
  end.

Definition gc_wf (gc : GenesisConfig) : Prop := in_range Balance_max (gc_cached_total gc).

Definition step s s' : Prop :=
  ∃ origin c, call_wf c ∧ s' = fst (dispatch origin c s).

Definition reach (gc : GenesisConfig) : State → Prop := reachable (λ s, s = genesis_build gc) step.

(** What an event says about the supply. *)
Definition supply_event (n : Z) (e : Event) : Z :=
  match e with
  | Minted _ amount => n + amount
  | Burned _ amount => n - amount
  | _ => n
  end.

Definition replay_supply (start : Z) (evs : list Event) : Z := foldl supply_event start evs.

Definition initial_supply (gc : GenesisConfig) : Z :=
  if gc_instantiate_asset gc then gc_cached_total gc else 0.

(** * Conservation *)

(** The invariant: the supply is the replay of the events, within the width of
    the balance type, and nothing has happened before instantiation. *)
Definition supply_inv (gc : GenesisConfig) s : Prop :=
  st_cached_total_supply s = replay_supply (initial_supply gc) (st_events s) ∧
  in_range Balance_max (st_cached_total_supply s) ∧
  (st_asset_instantiated s = false →
     st_events s = [] ∧ st_cached_total_supply s = 0 ∧ gc_instantiate_asset gc = false).

Lemma supply_step gc origin c s s' u :
  call_wf c → supply_inv gc s → dispatch origin c s = (s', Ok u) → supply_inv gc s'.
Proof.
  intros Hc (Hrep & Hrange & Hpre) Hd. unfold in_range in *. pose proof Balance_max_pos.
  destruct c; simpl in Hd, Hc; unfold in_range in Hc.
  - apply instantiate_asset_ok in Hd as (_ & Hf & who & _ & ->).
    destruct (Hpre Hf) as (Hev & Hz & Hgc). unfold supply_inv, initial_supply; simpl.
    rewrite Hev, Hgc. unfold in_range. split_and!; done || lia.
  - apply mint_ok in Hd as (_ & _ & Hle & who & _ & ->).
    unfold supply_inv, replay_supply, in_range in *; simpl. rewrite foldl_app; simpl.
    split_and!; done || lia.
  - apply burn_ok in Hd as (_ & _ & Hle & who & _ & ->).
    unfold supply_inv, replay_supply, in_range in *; simpl. rewrite foldl_app; simpl.
    split_and!; done || lia.
  - apply transfer_ok in Hd as (_ & who & dest & _ & _ & ->).
    unfold supply_inv, replay_supply, in_range in *; simpl. rewrite foldl_app; simpl.
    split_and!; done || lia.
Qed.

(** C35: conservation of $TCC.  From any genesis whose total is a balance, in
    every reachable state the cached total supply (and so [total_supply]) is
    the genesis supply plus everything minted minus everything burned
    according to the events, it is a value of the balance type, and before
    instantiation it is zero with no event at all. *)
Theorem supply_conservation gc s :
  gc_wf gc → reach gc s →
  total_supply s = replay_supply (initial_supply gc) (st_events s) ∧
  in_range Balance_max (total_supply s) ∧
  (asset_exists s = false → st_events s = [] ∧ total_supply s = 0).
Proof.
  intros Hgc Hre. assert (supply_inv gc s) as (H1 & H2 & H3).
  { revert s Hre. apply reachable_ind.
    - intros ? ->. unfold supply_inv, initial_supply, genesis_build, gc_wf in *.
      pose proof Balance_max_pos. destruct (gc_instantiate_asset gc); simpl; split_and!; try done.
      unfold in_range. lia.
    - intros x y Hx (origin & c & Hc & ->).
      destruct (dispatch origin c x) as [y [u|e]] eqn:Hd; simpl.
      + by eapply supply_step.
      + by apply tcc_dispatch_err in Hd as ->. }
  unfold total_supply, asset_exists. case_match; split_and!; try done; intros Hf; by apply H3 in Hf as (? & ? & ?).
Qed.

(** * The calls *)

(** [mint] on every branch: it is refused, with nothing changed, for a wrong
    origin, before instantiation, for an account that does not resolve and
    when the supply would leave the balance type, in this order; otherwise the
    supply grows by exactly the amount. *)
Theorem mint_outcome origin to amount s :
  mint origin to amount s =
    if MintOrigin origin then
      if st_asset_instantiated s then
        match lookup_opt to with
        | None => (s, Err CannotLookup)
        | Some who =>
            if decide (st_cached_total_supply s + amount ≤ Balance_max)
            then (mkState true (st_cached_total_supply s + amount)
                    (st_events s ++ [Minted who amount]), Ok tt)
            else (s, Err (ModuleError SupplyOverflow))
        end
      else (s, Err (ModuleError NotInstantiated))
    else (s, Err BadOrigin).
Proof.
  unfold mint. rewrite with_storage_layer_run. st_run.
  destruct (MintOrigin origin); st_run; [|done].
  destruct (st_asset_instantiated s) eqn:Hi; st_run; [|done].
  destruct (lookup_opt to); st_run; [|done]. unfold checked_add.
  destruct (Z.leb_spec (st_cached_total_supply s + amount) Balance_max);
    case_decide; try lia; st_run; by rewrite ?Hi.
Qed.

(** A burn can always take back what was just minted: after a successful
    [mint], [burn] of the same amount by its origin succeeds, whatever
    resolvable account it names, and restores the supply; and it can never
    take more than the supply. *)
Theorem mint_burn_roundtrip origin origin' to from who amount s s' u :
  mint origin to amount s = (s', Ok u) → 0 ≤ st_cached_total_supply s →
  BurnOrigin origin' = true → lookup_opt from = Some who →
  (∃ s'', burn origin' from amount s' = (s'', Ok tt) ∧ total_supply s'' = total_supply s) ∧
  (∀ more, total_supply s' < more →
     burn origin' from more s' = (s', Err (ModuleError SupplyOverflow))).
Proof.
  intros Hm Hpos Hb Hl. apply mint_ok in Hm as (_ & _ & _ & dest & _ & ->).
  assert (∀ s, total_supply s = st_cached_total_supply s) as Hts
    by (intros x; unfold total_supply; by case_match).
  split.
  - eexists. split.
    + unfold burn. apply storage_layer_ok_intro. st_run. rewrite Hb. st_run. rewrite Hl. st_run.
      unfold checked_sub.
      destruct (Z.leb_spec amount (st_cached_total_supply s + amount)); [|lia]. st_run. reflexivity.
    + rewrite !Hts; simpl. lia.
  - intros more. rewrite Hts; simpl. intros Hmore. unfold burn. rewrite with_storage_layer_run.
    st_run. rewrite Hb. st_run. rewrite Hl. st_run. unfold checked_sub.
    destruct (Z.leb_spec more (st_cached_total_supply s + amount)); [lia|]. by st_run.
Qed.

(** A transfer moves nothing.  Once the asset is instantiated, any signed
    account can [transfer] any amount to any account that resolves: the call
    succeeds, reports the transfer, and leaves the supply and the balance of
    every account as they were, including amounts above the total supply. *)
Theorem transfer_moves_nothing origin who to dest amount s :
  st_asset_instantiated s = true → ensure_signed_opt origin = Some who →
  lookup_opt to = Some dest →
  ∃ s', transfer origin to amount s = (s', Ok tt) ∧
    st_events s' = st_events s ++ [Transferred who dest amount] ∧
    total_supply s' = total_supply s ∧
    ∀ acct, balance_of acct s' = balance_of acct s.
Proof.
  intros Hi Ho Hl. eexists. split.
  { unfold transfer. apply storage_layer_ok_intro. st_run. rewrite Ho. st_run. rewrite Hi. st_run.
    rewrite Hl. st_run. reflexivity. }
  done.
Qed.

Lemma instantiated_step s s' : step s s' → asset_exists s = true → asset_exists s' = true.
Proof.
  intros (origin & c & _ & ->) Hi. destruct (dispatch origin c s) as [s' [u|e]] eqn:Hd; simpl.
  - destruct c; simpl in Hd.
    + by apply instantiate_asset_ok in Hd as (_ & _ & who & _ & ->).
    + by apply mint_ok in Hd as (_ & _ & _ & who & _ & ->).
    + by apply burn_ok in Hd as (_ & _ & _ & who & _ & ->).
    + by apply transfer_ok in Hd as (_ & who & dest & _ & _ & ->).
  - by apply tcc_dispatch_err in Hd as ->.
Qed.

(** The asset is instantiated at most once.  After a successful
    [instantiate_asset] every later attempt, by anyone allowed to make it,
    fails with [AlreadyInstantiated] and changes nothing, whatever calls came
    in between. *)
Theorem instantiate_once origin owner mb suff s s' u s'' origin2 owner2 mb2 suff2 :
  instantiate_asset origin owner mb suff s = (s', Ok u) → rtc step s' s'' →
  InstantiateOrigin origin2 = true →
  instantiate_asset origin2 owner2 mb2 suff2 s'' = (s'', Err (ModuleError AlreadyInstantiated)).
Proof.
  intros Hr Hs Ho. apply instantiate_asset_ok in Hr as (_ & _ & who & _ & ->).
  eapply (rtc_preserves step (λ s, asset_exists s = true)) in Hs;
    [| intros x y Hx Hxy; by eapply instantiated_step | done].
  unfold instantiate_asset. rewrite with_storage_layer_run. st_run. rewrite Ho. st_run.
  unfold asset_exists in Hs. by rewrite Hs.
Qed.

End TccProps.

(** * Witnesses *)

#[local] Existing Instance concrete_frame.
#[local] Existing Instance concrete_system.

(** Root instantiates, mints and burns a balance of type [u128]; an account is
    looked up by itself. *)
Definition example_config : Config.
Proof.
  refine {| AssetId := Z; TccAssetId := 1; Balance_max := u128_max;
            InstantiateOrigin := ensure_root; MintOrigin := ensure_root; BurnOrigin := ensure_root;
            LookupSource := @AccountId concrete_system; lookup_opt := Some |}; done.
Defined.
#[local] Existing Instance example_config.

Definition example_call (s : State) (oc : @RuntimeOrigin concrete_system * Call) : State :=
  fst (dispatch (fst oc) (snd oc) s).

Definition example_calls : list (@RuntimeOrigin concrete_system * Call) :=
  [ (by_root, InstantiateAsset (user 1) 1 true);
    (by_root, Mint (user 2) 100);
    (by_user 2, Transfer (user 3) 500);
    (by_root, Burn (user 3) 30) ].

Definition example_state : State := foldl example_call (genesis_build GenesisConfig_default) example_calls.

Lemma tcc_example_reach : reach GenesisConfig_default example_state.
Proof.
  apply (reachable_foldl _ _ _ (λ oc, call_wf (snd oc))).
  - intros s [o c] Hc. by exists o, c.
  - done.
  - repeat constructor; vm_compute; discriminate.
Qed.

Lemma supply_conservation_witness :
  total_supply example_state = 70 ∧ replay_supply 0 (st_events example_state) = 70 ∧
  in_range Balance_max (total_supply example_state).
Proof.
  split; [reflexivity|]. split; [reflexivity|].
  apply (supply_conservation GenesisConfig_default example_state);
    [split; vm_compute; discriminate | apply tcc_example_reach].
Defined.

Lemma mint_burn_roundtrip_witness :
  let s' := example_call example_state (by_root, Mint (user 2) 5) in
  ∃ s'', burn by_root (user 9) 5 s' = (s'', Ok tt) ∧ total_supply s'' = 70.
Proof.
  intros s'.
  destruct (mint_burn_roundtrip (Cfg := example_config) by_root by_root (user 2) (user 9) (user 9) 5 example_state s' tt)
    as [(s'' & H1 & H2) _]; [vm_compute; reflexivity | vm_compute; discriminate | reflexivity | reflexivity |].
  exists s''. split; [exact H1|]. rewrite H2. reflexivity.
Defined.

Lemma transfer_moves_nothing_witness :
  ∃ s', transfer (by_user 2) (user 3) 1000 example_state = (s', Ok tt) ∧ total_supply s' = 70.
Proof.
  destruct (transfer_moves_nothing (Cfg := example_config) (by_user 2) (user 2) (user 3) (user 3) 1000 example_state)
    as (s' & H1 & _ & H2 & _); [reflexivity | reflexivity | reflexivity |].
  exists s'. split; [exact H1|]. rewrite H2. reflexivity.
Defined.

Lemma instantiate_once_witness :
  let s' := example_call (genesis_build GenesisConfig_default) (by_root, InstantiateAsset (user 1) 1 true) in
  instantiate_asset (Cfg := example_config) by_root (user 5) 2 false s' =
    (s', Err (ModuleError AlreadyInstantiated)).
Proof.
  intros s'.
  apply (instantiate_once (Cfg := example_config) by_root (user 1) 1 true
    (genesis_build GenesisConfig_default) s' tt s' by_root (user 5) 2 false);
    [vm_compute; reflexivity | apply rtc_refl | reflexivity].
Defined.
