(* ===== verification/TccSpec.v ===== *)
(** The token against a reference: the first refusal that applies, and otherwise
    the storage a call leaves. *)

From S2P Require Export TccProps.
#[local] Open Scope Z_scope.

Section Reference.
  Context {F : Frame} {Sys : System} {Cfg : Config}.
  Implicit Types (origin : RuntimeOrigin) (s : State).

(** A call on the instantiated asset, about an account that resolves. *)
Definition on_asset (allowed : bool) (source : LookupSource) s
    (k : AccountId → result State (DispatchError Error)) : result State (DispatchError Error) :=
  if negb allowed then Err BadOrigin
  else if negb (st_asset_instantiated s) then Err (ModuleError NotInstantiated)
  else match lookup_opt source with None => Err CannotLookup | Some who => k who end.

(** The supply changed to [n], and the event [e]. *)
Definition supply_to (n : Z) (e : Event) s : result State (DispatchError Error) :=
  if decide (0 ≤ n ≤ Balance_max)
  then Ok (mkState (st_asset_instantiated s) n (st_events s ++ [e]))
  else Err (ModuleError SupplyOverflow).

Definition reference origin (call : Call) s : result State (DispatchError Error) :=
  match call with
  | InstantiateAsset owner _ _ =>
      if negb (InstantiateOrigin origin) then Err BadOrigin
      else if st_asset_instantiated s then Err (ModuleError AlreadyInstantiated)
      else match lookup_opt owner with
           | None => Err CannotLookup
           | Some who => Ok (mkState true 0 (st_events s ++ [AssetInstantiatedEvent TccAssetId who]))
           end
  | Mint to amount =>
      on_asset (MintOrigin origin) to s (λ who,
        supply_to (st_cached_total_supply s + amount) (Minted who amount) s)
  | Burn from amount =>
      on_asset (BurnOrigin origin) from s (λ who,
        supply_to (st_cached_total_supply s - amount) (Burned who amount) s)
  | Transfer to amount =>
      match ensure_signed_opt origin with
      | None => Err BadOrigin
      | Some who => on_asset true to s (λ dest,
          Ok (mkState (st_asset_instantiated s) (st_cached_total_supply s)
                (st_events s ++ [Transferred who dest amount])))
      end
  end.

#[local] Hint Unfold on_asset supply_to checked_add checked_sub : reference.

(** C10: every call of the token does what the reference says, on every branch.
    Minting and burning change the supply by exactly the amount as long as it stays
    within the balance type, whoever the account is; a transfer changes nothing but
    the events. *)
Theorem tcc_reference origin c s :
  in_range Balance_max (st_cached_total_supply s) →
  match c with Mint _ amount | Burn _ amount => in_range Balance_max amount | _ => True end →
  dispatch origin c s = concluded s (reference origin c s).
Proof.
  unfold in_range. intros Hs Hc. destruct c; cbn [dispatch reference].
  - unfold instantiate_asset. run_reference.
  - unfold mint. run_reference.
  - unfold burn. run_reference.
  - unfold transfer. run_reference.
Qed.
End Reference.

(** * Witness *)

#[local] Existing Instance concrete_frame.
#[local] Existing Instance concrete_system.
#[local] Existing Instance example_config.

(** More than the supply of the example. *)
Definition excess_burn : Call := Burn (user 3) 71.

Lemma tcc_reference_witness :
  dispatch (Cfg := example_config) by_root excess_burn example_state =
    concluded example_state (Err (ModuleError SupplyOverflow)).
Proof.
  rewrite (tcc_reference (Cfg := example_config) by_root excess_burn example_state); [vm_compute; reflexivity|..];
    split; vm_compute; discriminate.
Defined.
