(* ===== verification/Badges.v ===== *)
(** pallet-badges (src/pallets/badges/src/lib.rs): badge classes, and badge
    instances that may be transferable or soulbound. *)

From S2P Require Export Frame Weights.
#[local] Open Scope Z_scope.

Abbreviation ClassId := Z (only parsing).
Abbreviation InstanceId := Z (only parsing).
Abbreviation ClubId := Z (only parsing).
Abbreviation Moment := Z (only parsing).

(** Information stored per badge class. *)
Record ClassInfo `{System} : Type := {
  ci_creator : AccountId;
  ci_club : option ClubId;
  ci_metadata_hash : bytes32;
  ci_default_transferable : bool;
  ci_default_soulbound : bool;
  ci_instances_count : Z   (* u32 *)
}.

(** Per-instance badge metadata and ownership. *)
Record BadgeInstance `{System} : Type := {
  bi_owner : AccountId;
  bi_issued_at : Moment;
  bi_issuer : AccountId;
  bi_uri_hash : bytes32;
  bi_transferable : bool;
  bi_soulbound : bool
}.

Inductive Event `{System} : Type :=
| ClassCreated (class : ClassId) (creator : AccountId) (club : option ClubId)
| BadgeIssued (class : ClassId) (instance : InstanceId) (to : AccountId)
| BadgeRevoked (class : ClassId) (instance : InstanceId)
| BadgeTransferred (class : ClassId) (instance : InstanceId) (from to : AccountId).

Inductive Error : Type :=
| ClassNotFound
| InstanceNotFound
| NotIssuer
| NotClassOwner
| NotClubAdminOrOfficer
| NotOwner
| NotTransferable
| Soulbound
| ClassLimitReached
| InstancesLimitReached
| InstancesIndexOverflow
| Overflow
| InvalidMetadata.

#[global] Instance Badges_Error_eq_dec : EqDecision Error.
Proof. solve_decision. Defined.

(** [Config]: the origin that may create classes and the two [u32] limits the
    calls consult.  The time provider is read through the environment. *)
Class Config `{System} := {
  ClassCreationOrigin : RuntimeOrigin → bool;
  MaxClasses : Z;
  MaxInstancesPerClass : Z;
  MaxClasses_range : in_range u32_max MaxClasses;
  MaxInstancesPerClass_range : in_range u32_max MaxInstancesPerClass
}.

(** ** Storage *)

Record State `{Frame, System} : Type := mkState {
  st_next_class_id : ClassId;
  st_next_instance_id : smap ClassId InstanceId;            (* ValueQuery *)
  st_classes : smap ClassId ClassInfo;
  st_badge_instances : smap (ClassId * InstanceId) BadgeInstance;
  st_class_instances : smap ClassId (list InstanceId);      (* BoundedVec<_, ConstU32<1024>> *)
  st_events : list Event
}.

Arguments mkState {_ _}.

Section Storage.
  Context {F : Frame} {Sys : System}.

Definition NextClassId : StorageItem State ClassId := {|
  item_get := st_next_class_id;
  item_set v s := mkState v (st_next_instance_id s) (st_classes s) (st_badge_instances s)
                    (st_class_instances s) (st_events s)
|}.

Definition NextInstanceId : StorageItem State (smap ClassId InstanceId) := {|
  item_get := st_next_instance_id;
  item_set v s := mkState (st_next_class_id s) v (st_classes s) (st_badge_instances s)
                    (st_class_instances s) (st_events s)
|}.

Definition Classes : StorageItem State (smap ClassId ClassInfo) := {|
  item_get := st_classes;
  item_set v s := mkState (st_next_class_id s) (st_next_instance_id s) v (st_badge_instances s)
                    (st_class_instances s) (st_events s)
|}.

Definition BadgeInstances : StorageItem State (smap (ClassId * InstanceId) BadgeInstance) := {|
  item_get := st_badge_instances;
  item_set v s := mkState (st_next_class_id s) (st_next_instance_id s) (st_classes s) v
                    (st_class_instances s) (st_events s)
|}.

Definition ClassInstances : StorageItem State (smap ClassId (list InstanceId)) := {|
  item_get := st_class_instances;
  item_set v s := mkState (st_next_class_id s) (st_next_instance_id s) (st_classes s)
                    (st_badge_instances s) v (st_events s)
|}.

Definition deposit_event (e : Event) : Dispatch State Error unit :=
  modify (λ s, mkState (st_next_class_id s) (st_next_instance_id s) (st_classes s)
                 (st_badge_instances s) (st_class_instances s) (st_events s ++ [e])).

(** [NextInstanceId::<T>::get(class)], zero when nothing is stored. *)
Definition get_next_instance_id {E} (class : ClassId) : ST State E InstanceId :=
  gets (λ s, default 0 (sm_get (st_next_instance_id s) class)).

Lemma run_badges_event e s :
  deposit_event e s =
    (mkState (st_next_class_id s) (st_next_instance_id s) (st_classes s)
       (st_badge_instances s) (st_class_instances s) (st_events s ++ [e]), Ok tt).
Proof. reflexivity. Qed.

Lemma run_get_next_instance_id {E} class s :
  (get_next_instance_id class : ST State E InstanceId) s =
    (s, Ok (default 0 (sm_get (st_next_instance_id s) class))).
Proof. reflexivity. Qed.

End Storage.

#[export] Hint Unfold NextClassId NextInstanceId Classes BadgeInstances ClassInstances : items.
#[export] Hint Rewrite @run_badges_event @run_get_next_instance_id : st.

(** ** Dispatchables *)

Section Calls.
  Context {F : Frame} {Sys : System} {Cfg : Config}.
  Implicit Types (env : Env) (origin : RuntimeOrigin).

Definition create_class env origin (metadata_hash : bytes32) (club : option ClubId)
    (default_transferable default_soulbound : bool) : Dispatch State Error unit :=
  with_storage_layer (
    ensure_origin ClassCreationOrigin origin;;
    who ← ensure_signed origin;
    class_id ← get_value NextClassId;
    let max_classes := MaxClasses in
    ensure_err (class_id <? max_classes) ClassLimitReached;;
    let info := {| ci_creator := who; ci_club := club; ci_metadata_hash := metadata_hash;
                   ci_default_transferable := default_transferable;
                   ci_default_soulbound := default_soulbound; ci_instances_count := 0 |} in
    insert_map Classes class_id info;;
    put_value NextClassId (sat_add u32_max class_id 1);;
    deposit_event (ClassCreated class_id who club)).

(** The permission test of [issue_badge] and [revoke_badge]; the registry lookup
    of the scoped case is commented out in the source. *)
Definition allowed (class_info : ClassInfo) (who : AccountId) : bool :=
  match ci_club class_info with
  | Some _club_id => if bool_decide (who = ci_creator class_info) then true else false
  | None => bool_decide (who = ci_creator class_info)
  end.

Definition count_instance (c : ClassInfo) : ClassInfo :=
  {| ci_creator := ci_creator c; ci_club := ci_club c; ci_metadata_hash := ci_metadata_hash c;
     ci_default_transferable := ci_default_transferable c;
     ci_default_soulbound := ci_default_soulbound c;
     ci_instances_count := sat_add u32_max (ci_instances_count c) 1 |}.

(** The closure of [ClassInstances::mutate]: start the index when there is none,
    then [let _ = vec.try_push(next_inst)]. *)
Definition record_in_index (next_inst : InstanceId) (maybe_vec : option (list InstanceId))
    : option (list InstanceId) :=
  let maybe_vec := match maybe_vec with
                   | None => bv_try_from 1024 []
                   | Some v => Some v
                   end in
  (λ v, default v (bv_try_push 1024 v next_inst)) <$> maybe_vec.

Definition issue_badge env origin (class : ClassId) (to : AccountId) (uri_hash : bytes32)
    (transferable soulbound : option bool) : Dispatch State Error unit :=
  with_storage_layer (
    issuer ← ensure_signed origin;
    try_mutate Classes class (λ maybe_class,
      class_info ← ok_or_err maybe_class ClassNotFound;
      ensure_err (allowed class_info issuer) NotIssuer;;
      next_inst ← get_next_instance_id class;
      let max_per_class := MaxInstancesPerClass in
      ensure_err (next_inst <? max_per_class) InstancesLimitReached;;
      let now := saturated_into u64_max (now_as_millis env) in
      let inst_transferable := default (ci_default_transferable class_info) transferable in
      let inst_soulbound := default (ci_default_soulbound class_info) soulbound in
      let instance := {| bi_owner := to; bi_issued_at := now; bi_issuer := issuer;
                         bi_uri_hash := uri_hash; bi_transferable := inst_transferable;
                         bi_soulbound := inst_soulbound |} in
      insert_map BadgeInstances (class, next_inst) instance;;
      let class_info := count_instance class_info in
      mutate ClassInstances class (record_in_index next_inst);;
      insert_map NextInstanceId class (sat_add u64_max next_inst 1);;
      deposit_event (BadgeIssued class next_inst to);;
      mret (Some class_info, tt))).

Definition revoke_badge env origin (class : ClassId) (instance : InstanceId)
    : Dispatch State Error unit :=
  with_storage_layer (
    who ← ensure_signed origin;
    maybe_class ← get_map Classes class;
    class_info ← ok_or_err maybe_class ClassNotFound;
    ensure_err (allowed class_info who) NotClassOwner;;
    try_mutate BadgeInstances (class, instance) (λ maybe,
      ok_or_err maybe InstanceNotFound;;
      mret (None, tt));;
    deposit_event (BadgeRevoked class instance)).

Definition set_owner (to : AccountId) (i : BadgeInstance) : BadgeInstance :=
  {| bi_owner := to; bi_issued_at := bi_issued_at i; bi_issuer := bi_issuer i;
     bi_uri_hash := bi_uri_hash i; bi_transferable := bi_transferable i;
     bi_soulbound := bi_soulbound i |}.

Definition transfer_badge env origin (class : ClassId) (instance : InstanceId) (to : AccountId)
    : Dispatch State Error unit :=
  with_storage_layer (
    who ← ensure_signed origin;
    try_mutate BadgeInstances (class, instance) (λ maybe,
      inst ← ok_or_err maybe InstanceNotFound;
      ensure_err (bool_decide (bi_owner inst = who)) NotOwner;;
      ensure_err (negb (bi_soulbound inst)) Soulbound;;
      ensure_err (bi_transferable inst) NotTransferable;;
      let prev := bi_owner inst in
      deposit_event (BadgeTransferred class instance prev to);;
      mret (Some (set_owner to inst), tt))).

(** ** Helpers *)

Definition owner_of (class : ClassId) (instance : InstanceId) (s : State) : option AccountId :=
  bi_owner <$> sm_get (st_badge_instances s) (class, instance).

Definition instance_metadata (class : ClassId) (instance : InstanceId) (s : State)
    : option BadgeInstance :=
  sm_get (st_badge_instances s) (class, instance).

Definition class_info (class : ClassId) (s : State) : option ClassInfo :=
  sm_get (st_classes s) class.

(** ** Genesis *)

Definition genesis_class (s : State) (entry : ClassId * ClassInfo) : State :=
  let '(class_id, info) := entry in
  let s := item_set Classes (sm_insert class_id info (st_classes s)) s in
  let next := st_next_class_id s in
  if next <=? class_id then item_set NextClassId (sat_add u32_max class_id 1) s else s.

Definition genesis_build (classes : list (ClassId * ClassInfo)) : State :=
  foldl genesis_class (mkState 0 sm_empty sm_empty sm_empty sm_empty []) classes.

Inductive Call : Type :=
| CreateClass (metadata_hash : bytes32) (club : option ClubId)
    (default_transferable default_soulbound : bool)
| IssueBadge (class : ClassId) (to : AccountId) (uri_hash : bytes32)
    (transferable soulbound : option bool)
| RevokeBadge (class : ClassId) (instance : InstanceId)
| TransferBadge (class : ClassId) (instance : InstanceId) (to : AccountId).

Definition dispatch env origin (c : Call) : Dispatch State Error unit :=
  match c with
  | CreateClass h club t sb => create_class env origin h club t sb
  | IssueBadge class to h t sb => issue_badge env origin class to h t sb
  | RevokeBadge class i => revoke_badge env origin class i
  | TransferBadge class i to => transfer_badge env origin class i to
  end.

End Calls.

#[global] Arguments allowed : simpl never.
#[global] Arguments record_in_index : simpl never.
#[global] Arguments count_instance : simpl never.
#[global] Arguments set_owner : simpl never.

(** * Weights *)

(** The trait [WeightInfo], and the weight each dispatchable is annotated with. *)
Record WeightInfo : Type := {
  w_create_class : Weight;
  w_issue_badge : Weight;
  w_revoke_badge : Weight;
  w_transfer_badge : Weight
}.

Definition call_weight `{System} (w : WeightInfo) (c : Call) : Weight :=
  match c with
  | CreateClass _ _ _ _ => w_create_class w
  | IssueBadge _ _ _ _ _ => w_issue_badge w
  | RevokeBadge _ _ => w_revoke_badge w
  | TransferBadge _ _ _ => w_transfer_badge w
  end.
