(* ===== verification/BadgesProps.v ===== *)
(** Properties of pallet-badges: the storage invariant, the life of a badge
    (issued once, moved only by its owner and only if it may move, revoked for
    good), and the refinement of an ownership ledger. *)

From S2P Require Export Badges Concrete.
From stdpp Require Export list_numbers functions.
#[local] Open Scope Z_scope.

Section BadgesProps.
  Context {F : Frame} {Sys : System} {Cfg : Config}.
  Implicit Types (env : Env) (origin : RuntimeOrigin) (s : State).

(** The identifier the next badge of [class] gets. *)
Definition next_instance s (class : ClassId) : Z := default 0 (sm_get (st_next_instance_id s) class).

(** The index of [class]. *)
Definition index s (class : ClassId) : list InstanceId := default [] (sm_get (st_class_instances s) class).

(** * Inversion lemmas *)

Lemma allowed_iff (c : ClassInfo) who : allowed c who = true ↔ who = ci_creator c.
Proof.
  unfold allowed. destruct (ci_club c); [case_bool_decide; split; congruence|].
  by rewrite bool_decide_eq_true.
Qed.

(** The badge [issue_badge] stores. *)
Definition issued env issuer (c : ClassInfo) to h (t sb : option bool) : BadgeInstance :=
  {| bi_owner := to; bi_issued_at := saturated_into u64_max (now_as_millis env);
     bi_issuer := issuer; bi_uri_hash := h;
     bi_transferable := default (ci_default_transferable c) t;
     bi_soulbound := default (ci_default_soulbound c) sb |}.

(** The index after the issue of [i]. *)
Definition push_index (i : InstanceId) (l : list InstanceId) : list InstanceId :=
  if Z.of_nat (length l) <? 1024 then l ++ [i] else l.

Lemma record_in_index_eq i o : record_in_index i o = Some (push_index i (default [] o)).
Proof.
  unfold record_in_index, push_index. rewrite bv_try_from_eq. destruct o as [l|]; simpl;
    rewrite bv_try_push_eq; by case_match.
Qed.

Lemma create_class_ok env origin h club t sb s s' u :
  create_class env origin h club t sb s = (s', Ok u) →
  ∃ who, ClassCreationOrigin origin = true ∧ ensure_signed_opt origin = Some who ∧
  st_next_class_id s < MaxClasses ∧
  s' = mkState (sat_add u32_max (st_next_class_id s) 1) (st_next_instance_id s)
         (sm_insert (st_next_class_id s)
            {| ci_creator := who; ci_club := club; ci_metadata_hash := h;
               ci_default_transferable := t; ci_default_soulbound := sb;
               ci_instances_count := 0 |} (st_classes s))
         (st_badge_instances s) (st_class_instances s)
         (st_events s ++ [ClassCreated (st_next_class_id s) who club]).
Proof. unfold create_class. intros Hr. inv_ok Hr. eauto 10. Qed.

Lemma issue_badge_ok env origin class to h t sb s s' u :
  issue_badge env origin class to h t sb s = (s', Ok u) →
  ∃ c, ensure_signed_opt origin = Some (ci_creator c) ∧
  sm_get (st_classes s) class = Some c ∧
  next_instance s class < MaxInstancesPerClass ∧
  s' = mkState (st_next_class_id s)
         (sm_insert class (sat_add u64_max (next_instance s class) 1) (st_next_instance_id s))
         (sm_insert class (count_instance c) (st_classes s))
         (sm_insert (class, next_instance s class) (issued env (ci_creator c) c to h t sb)
            (st_badge_instances s))
         (sm_insert class (push_index (next_instance s class) (index s class))
            (st_class_instances s))
         (st_events s ++ [BadgeIssued class (next_instance s class) to]).
Proof.
  unfold issue_badge. intros Hr. inv_ok Hr;
    match goal with H : allowed _ _ = true |- _ => apply allowed_iff in H as -> end;
    match goal with H : record_in_index _ _ = _ |- _ => rewrite record_in_index_eq in H; simplify_eq end.
  eexists. by split_and!.
Qed.

Lemma revoke_badge_ok env origin class i s s' u :
  revoke_badge env origin class i s = (s', Ok u) →
  ∃ c b, ensure_signed_opt origin = Some (ci_creator c) ∧
  sm_get (st_classes s) class = Some c ∧
  sm_get (st_badge_instances s) (class, i) = Some b ∧
  s' = mkState (st_next_class_id s) (st_next_instance_id s) (st_classes s)
         (sm_remove (class, i) (st_badge_instances s)) (st_class_instances s)
         (st_events s ++ [BadgeRevoked class i]).
Proof.
  unfold revoke_badge. intros Hr. inv_ok Hr.
  match goal with H : allowed _ _ = true |- _ => apply allowed_iff in H as -> end. eauto 10.
Qed.

Lemma transfer_badge_ok env origin class i to s s' u :
  transfer_badge env origin class i to s = (s', Ok u) →
  ∃ b, ensure_signed_opt origin = Some (bi_owner b) ∧
  sm_get (st_badge_instances s) (class, i) = Some b ∧
  bi_soulbound b = false ∧ bi_transferable b = true ∧
  s' = mkState (st_next_class_id s) (st_next_instance_id s) (st_classes s)
         (sm_insert (class, i) (set_owner to b) (st_badge_instances s)) (st_class_instances s)
         (st_events s ++ [BadgeTransferred class i (bi_owner b) to]).
Proof. unfold transfer_badge. intros Hr. inv_ok Hr. eauto 10. Qed.

Lemma badges_dispatch_err env origin c s s' e : dispatch env origin c s = (s', Err e) → s' = s.
Proof. destruct c; apply storage_layer_err. Qed.

Ltac inv_badges Hd :=
  lazymatch type of Hd with
  | dispatch _ _ ?c _ = _ =>
      destruct c; cbn [dispatch] in Hd;
      [ apply create_class_ok in Hd as (?who & ?Horig & ?Hsig & ?Hlt & ->)
      | apply issue_badge_ok in Hd as (?ci & ?Hsig & ?Hclass & ?Hlt & ->)
      | apply revoke_badge_ok in Hd as (?ci & ?b & ?Hsig & ?Hclass & ?Hbadge & ->)
      | apply transfer_badge_ok in Hd as (?b & ?Hsig & ?Hbadge & ?Hsoul & ?Htrans & ->) ]
  end.

(** * The transition system *)

(** One extrinsic, successful or not. *)
Definition step s s' : Prop :=
  ∃ env origin c, s' = fst (dispatch env origin c s).

Definition reach (g : list (ClassId * ClassInfo)) : State → Prop :=
  reachable (λ s, s = genesis_build g) step.

Lemma step_badges (R : State → State → Prop) s s' :
  R s s →
  (∀ env origin c u, dispatch env origin c s = (s', Ok u) → R s s') →
  step s s' → R s s'.
Proof.
  intros Hr Hok (env & origin & c & ->).
  destruct (dispatch env origin c s) as [s' [u|e]] eqn:Hd; simpl in *; eauto.
  apply badges_dispatch_err in Hd as ->. done.
Qed.

(** * The storage invariant *)

(** The classes of the genesis configuration are values of their types, their
    identifiers below the last [u32]. *)
Definition genesis_wf (g : list (ClassId * ClassInfo)) : Prop :=
  Forall (λ e, 0 ≤ fst e < u32_max ∧ in_range u32_max (ci_instances_count (snd e))) g.

(** The instance counter a class starts from: the genesis one, or zero. *)
Definition genesis_count (g : list (ClassId * ClassInfo)) (class : ClassId) : Z :=
  match sm_get (st_classes (genesis_build g)) class with
  | Some c => ci_instances_count c
  | None => 0
  end.

(** What the storage says about one class. *)
Definition class_wf (base : ClassId → Z) s (class : ClassId) (c : ClassInfo) : Prop :=
  0 ≤ class < st_next_class_id s ∧
  ci_instances_count c = Z.min (base class + next_instance s class) u32_max.

Record wf (base : ClassId → Z) s : Prop := {
  wf_next_class : in_range u32_max (st_next_class_id s);
  wf_base : ∀ class, 0 ≤ base class ∧ (st_next_class_id s ≤ class → base class = 0);
  wf_classes : ∀ class c, sm_get (st_classes s) class = Some c → class_wf base s class c;
  wf_next : ∀ class, 0 ≤ next_instance s class ∧
    (next_instance s class = 0 ∨
       next_instance s class ≤ MaxInstancesPerClass ∧ is_Some (sm_get (st_classes s) class));
  wf_badges : ∀ class i b, sm_get (st_badge_instances s) (class, i) = Some b →
    0 ≤ i < next_instance s class;
  wf_index : ∀ class, index s class = seqZ 0 (Z.min (next_instance s class) 1024)
}.

Lemma genesis_class_next g s :
  in_range u32_max (st_next_class_id s) → genesis_wf g →
  (∀ class c, sm_get (st_classes s) class = Some c →
     0 ≤ class < st_next_class_id s ∧ in_range u32_max (ci_instances_count c)) →
  let s' := foldl genesis_class s g in
  in_range u32_max (st_next_class_id s') ∧
  (∀ class c, sm_get (st_classes s') class = Some c →
     0 ≤ class < st_next_class_id s' ∧ in_range u32_max (ci_instances_count c)) ∧
  st_next_instance_id s' = st_next_instance_id s ∧
  st_badge_instances s' = st_badge_instances s ∧
  st_class_instances s' = st_class_instances s.
Proof.
  intros Hn Hg. revert s Hn. induction Hg as [|[k c] g [Hk Hc] Hg IH]; intros s Hn Hs; simpl; [done|].
  simpl in Hk, Hc. unfold in_range in Hn.
  pose proof (sat_add_exact u32_max k 1) as Hsat.
  destruct (Z.leb_spec (st_next_class_id s) k) as [Hle|Hgt]; (edestruct IH as (? & ? & ? & ? & ?);
    [..|split_and!; [eassumption|eassumption|eassumption..]]); unfold in_range; simpl; try lia;
    intros class c' Hc'; rewrite sm_get_insert in Hc'; case_decide; simplify_eq; try lia;
    try (split; [lia|done]); apply Hs in Hc' as [? ?]; split; done || lia.
Qed.

Lemma badges_wf_genesis g : genesis_wf g → wf (genesis_count g) (genesis_build g).
Proof.
  intros Hg.
  destruct (genesis_class_next g (mkState 0 sm_empty sm_empty sm_empty sm_empty []))
    as (Hn & Hc & Hi & Hb & Hx); [done|done|intros ??; simpl; by rewrite sm_get_empty|].
  fold (genesis_build g) in *. cbn [st_next_instance_id st_badge_instances st_class_instances] in Hi, Hb, Hx.
  assert (∀ class, next_instance (genesis_build g) class = 0) as Hz
    by (intros class; unfold next_instance; by rewrite Hi, sm_get_empty).
  split.
  - done.
  - intros class. unfold genesis_count. destruct (sm_get _ class) as [c|] eqn:Hget; [|done].
    apply Hc in Hget as [? [? ?]]. lia.
  - intros class c Hget. unfold class_wf. rewrite Hz. unfold genesis_count. rewrite Hget.
    apply Hc in Hget as [? [? ?]]. lia.
  - intros class. rewrite Hz. lia.
  - intros class i b. by rewrite Hb, sm_get_empty.
  - intros class. rewrite Hz. unfold index. rewrite Hx, sm_get_empty. done.
Qed.

Lemma push_index_seqZ n :
  0 ≤ n → push_index n (seqZ 0 (Z.min n 1024)) = seqZ 0 (Z.min (n + 1) 1024).
Proof.
  intros Hn. unfold push_index. rewrite length_seqZ, Z2Nat.id by lia.
  destruct (Z.ltb_spec (Z.min n 1024) 1024).
  - rewrite !Z.min_l by lia. by rewrite seqZ_app, Z.add_0_l by lia.
  - rewrite !Z.min_r by lia. done.
Qed.

Lemma badges_preserve_wf base env origin c s s' u :
  wf base s → dispatch env origin c s = (s', Ok u) → wf base s'.
Proof.
  intros Hwf Hd. pose proof Hwf as [Hn Hb Hc Hi Hbi Hx].
  pose proof MaxClasses_range as Hmc. pose proof MaxInstancesPerClass_range as Hmi.
  unfold in_range in *.
  inv_badges Hd.
  - assert (sat_add u32_max (st_next_class_id s) 1 = st_next_class_id s + 1) as Hs
      by (apply sat_add_exact; lia).
    split; unfold in_range, next_instance, index in *; simpl; rewrite ?Hs; try done; try lia.
    + intros k. destruct (Hb k) as [? Hk]. split; [done|]. intros. apply Hk. lia.
    + eapply (sm_insert_forall (class_wf base s)); [done| |].
      * intros k v _ [? ?]. unfold class_wf, next_instance in *; simpl. split; [lia|done].
      * unfold class_wf, next_instance; simpl. split; [lia|].
        destruct (Hb (st_next_class_id s)) as [_ ->]; [|lia].
        destruct (Hi (st_next_class_id s)) as [_ [->|[_ [ci Hci]]]]; [unfold u32_max; lia|].
        apply Hc in Hci as [? _]. lia.
    + intros k. destruct (Hi k) as [? [?|[? ?]]]; split; auto.
  - set (n := next_instance s class) in *.
    assert (0 ≤ n) as Hnn by apply Hi.
    assert (sat_add u64_max n 1 = n + 1) as Hs
      by (apply sat_add_exact; unfold u32_max, u64_max in *; lia).
    rewrite Hs.
    assert (∀ k a b c e, next_instance (mkState (st_next_class_id s)
              (sm_insert class (n + 1) (st_next_instance_id s)) a b c e) k =
              if decide (class = k) then n + 1 else next_instance s k) as Hni.
    { intros. unfold next_instance; simpl. rewrite sm_get_insert. by case_decide. }
    split; simpl; try done.
    + eapply (sm_insert_forall (class_wf base s)); [done| |].
      * intros k v Hk [? ?]. unfold class_wf; simpl. rewrite Hni, decide_False by done. done.
      * destruct (Hc _ _ Hclass) as [? Hcount]. fold n in Hcount.
        unfold class_wf; simpl. rewrite Hni, decide_True by done.
        rewrite Hcount. destruct (Hb class). unfold sat_add, u32_max in *. split; lia.
    + intros k. rewrite Hni. case_decide; subst.
      * split; [lia|]. right. rewrite sm_get_insert_eq. split; [lia|by eexists].
      * destruct (Hi k) as [? [?|[? ?]]]; split; auto.
    + intros k i b. rewrite Hni, sm_get_insert. intros Hget.
      destruct (decide ((class, n) = (k, i))); simplify_eq; [rewrite decide_True by done; lia|].
      apply Hbi in Hget. case_decide; subst; [fold n in Hget|]; lia.
    + intros k. rewrite Hni, (Hx class). unfold index; simpl. rewrite sm_get_insert. case_decide; subst.
      * simpl. by apply push_index_seqZ.
      * apply Hx.
  - split; try done. intros k i b' Hget. simpl in Hget. rewrite sm_get_remove in Hget.
    case_decide; [done|]. by apply Hbi in Hget.
  - split; try done. intros k i b' Hget. simpl in Hget. rewrite sm_get_insert in Hget.
    case_decide; simplify_eq; [by apply Hbi in Hbadge|by apply Hbi in Hget].
Qed.

Lemma badges_wf_lemma g s : genesis_wf g → reach g s → wf (genesis_count g) s.
Proof.
  intros Hg. apply reachable_ind; [by intros ? ->; apply badges_wf_genesis|].
  intros x y Hx. apply (step_badges (λ _ y, wf (genesis_count g) y)); eauto using badges_preserve_wf.
Qed.

(** C39: in every reachable state of the badges pallet, class identifiers lie
    below their counter; no class has more than [MaxInstancesPerClass] badges;
    every badge's identifier lies below its class's counter; a class's
    instance counter is its genesis value plus the badges ever issued (up to
    the [u32] bound); and the index of a class is exactly the list of the
    identifiers issued, cut at 1024. *)
Theorem badges_invariant g s : genesis_wf g → reach g s → wf (genesis_count g) s.
Proof. apply badges_wf_lemma. Qed.

(** * The life of a badge *)

(** What a call can do to the entry of one badge. *)
Definition badge_change (c : Call) (class : ClassId) (i : InstanceId) (signer : option AccountId)
    (cls : option ClassInfo) (o o' : option BadgeInstance) : Prop :=
  match o, o' with
  | None, None => True
  | None, Some b => ∃ to h t sb ci, c = IssueBadge class to h t sb ∧ cls = Some ci ∧
      signer = Some (ci_creator ci) ∧ bi_owner b = to ∧ bi_issuer b = ci_creator ci
  | Some b, None => c = RevokeBadge class i ∧ ∃ ci, cls = Some ci ∧ signer = Some (ci_creator ci)
  | Some b, Some b' => b' = b ∨
      ∃ to, c = TransferBadge class i to ∧ signer = Some (bi_owner b) ∧
        bi_soulbound b = false ∧ bi_transferable b = true ∧ b' = set_owner to b
  end.

Lemma dispatch_badge base env origin c s s' u class i :
  wf base s → dispatch env origin c s = (s', Ok u) →
  badge_change c class i (ensure_signed_opt origin) (sm_get (st_classes s) class)
    (sm_get (st_badge_instances s) (class, i)) (sm_get (st_badge_instances s') (class, i)).
Proof.
  intros Hwf Hd. unfold badge_change.
  inv_badges Hd; simpl; rewrite ?sm_get_insert, ?sm_get_remove; try case_decide; simplify_eq;
    try (by case_match; eauto).
  - destruct (sm_get (st_badge_instances s) _) as [b|] eqn:Hb.
    + apply (wf_badges _ _ Hwf) in Hb. lia.
    + do 5 eexists. by split_and!.
  - rewrite Hbadge. right. eexists. by split_and!.
Qed.

(** A relation kept by what calls do to the entry of a badge is kept by every
    run. *)
Lemma badge_run base class i (R : option BadgeInstance → option BadgeInstance → Prop) s s' :
  PreOrder R →
  (∀ c sg cls o o', (o = None → o' = None) → badge_change c class i sg cls o o' → R o o') →
  wf base s → i < next_instance s class → rtc step s s' →
  R (sm_get (st_badge_instances s) (class, i)) (sm_get (st_badge_instances s') (class, i)).
Proof.
  intros HR Hch Hwf Hi Hr. induction Hr as [s|s s1 s2 Hst _ IH]; [reflexivity|].
  assert (wf base s1 ∧ i < next_instance s1 class ∧
    R (sm_get (st_badge_instances s) (class, i)) (sm_get (st_badge_instances s1) (class, i)))
    as (Hwf1 & Hi1 & HR1); [|etransitivity; eauto].
  revert Hst. apply (step_badges (λ s s1, wf base s1 ∧ i < next_instance s1 class ∧
    R (sm_get (st_badge_instances s) (class, i)) (sm_get (st_badge_instances s1) (class, i))));
    [by split_and!|].
  intros env origin c u Hd. split_and!; [by eapply badges_preserve_wf| |].
  - inv_badges Hd; unfold next_instance in *; simpl; try done.
    rewrite sm_get_insert. case_decide; subst; simpl; [|done].
    pose proof (wf_next _ _ Hwf class). pose proof MaxInstancesPerClass_range.
    unfold next_instance, sat_add, in_range, u32_max, u64_max in *. lia.
  - eapply (Hch c); [|by eapply dispatch_badge].
    inv_badges Hd; simpl; rewrite ?sm_get_insert, ?sm_get_remove; try case_decide; simplify_eq;
      try done; try congruence. lia.
Qed.

(** How a badge evolves: all but the owner is fixed; the owner too, when the
    badge is soulbound or not transferable; and what is gone stays gone. *)
Definition badge_evolves (o o' : option BadgeInstance) : Prop :=
  match o, o' with
  | _, None => True
  | None, Some _ => False
  | Some b, Some b' => b' = set_owner (bi_owner b') b ∧
      (bi_soulbound b = true ∨ bi_transferable b = false → b' = b)
  end.

Lemma set_owner_self b : set_owner (bi_owner b) b = b.
Proof. by destruct b. Qed.

#[local] Instance badge_evolves_preorder : PreOrder badge_evolves.
Proof.
  split.
  - intros [b|]; simpl; [|done]. by rewrite set_owner_self.
  - intros [b1|] [b2|] [b3|]; simpl; try done. intros [H1 H1'] [H2 H2'].
    rewrite H1 in H2, H2'. split; [by rewrite H2|]. intros Hb.
    rewrite H2'; [rewrite <- H1; by apply H1'|done].
Qed.

Lemma badge_run_evolves base class i s s' :
  wf base s → i < next_instance s class → rtc step s s' →
  badge_evolves (sm_get (st_badge_instances s) (class, i))
    (sm_get (st_badge_instances s') (class, i)).
Proof.
  intros Hwf Hi Hr. eapply badge_run; eauto using badge_evolves_preorder. clear.
  intros c sg cls o o' Hnone. destruct o as [b|], o' as [b'|]; simpl; try done.
  - intros [-> | (to & _ & _ & Hs & Ht & ->)]; simpl; [by rewrite set_owner_self|].
    split; [done|]. intros [?|?]; congruence.
  - by specialize (Hnone eq_refl).
Qed.

(** C31: what the flags of a badge promise holds for ever.  Whatever calls
    follow, an issued badge keeps its issuer, date, metadata and flags as long
    as it exists; and a badge that is soulbound, or not transferable, also
    keeps its owner: the record either stays exactly as it is or is revoked. *)
Theorem soulbound_stays g s s' class i b :
  genesis_wf g → reach g s → rtc step s s' →
  instance_metadata class i s = Some b →
  (∀ b', instance_metadata class i s' = Some b' → b' = set_owner (bi_owner b') b) ∧
  (bi_soulbound b = true ∨ bi_transferable b = false →
     instance_metadata class i s' = Some b ∨ instance_metadata class i s' = None).
Proof.
  unfold instance_metadata. intros Hg Hre Hr Hb. apply badges_wf_lemma in Hre as Hwf; [|done].
  eapply badge_run_evolves in Hr as Hev; [|done|by eapply (wf_badges _ _ Hwf)].
  rewrite Hb in Hev. destruct (sm_get (st_badge_instances s') _) as [b'|]; [|split; [done|by right]].
  destruct Hev as [He Hs]. split; [by intros ? [= <-]|]. intros Hf. left. by rewrite (Hs Hf).
Qed.

(** Revocation is final: once [revoke_badge] has taken a badge away, no later
    call brings a badge with that identifier back, under any owner. *)
Theorem revoked_badge_stays_gone g env origin class i s s' u s'' :
  genesis_wf g → reach g s →
  revoke_badge env origin class i s = (s', Ok u) → rtc step s' s'' →
  owner_of class i s ≠ None ∧ owner_of class i s'' = None.
Proof.
  intros Hg Hre Hd Hr. apply badges_wf_lemma in Hre as Hwf; [|done].
  pose proof (badges_preserve_wf _ env origin (RevokeBadge class i) _ _ _ Hwf Hd) as Hwf'.
  apply revoke_badge_ok in Hd as (c & b & _ & _ & Hb & ->). unfold owner_of. rewrite Hb.
  split; [done|]. eapply (badge_run_evolves _ class i) in Hr; [|done|].
  - simpl in Hr. rewrite sm_get_remove_eq in Hr. simpl in Hr.
    by destruct (sm_get (st_badge_instances s'') _).
  - by apply (wf_badges _ _ Hwf) in Hb as [? ?].
Qed.

(** * The calls *)

(** [transfer_badge] on every branch: it is refused, with nothing changed,
    for an unsigned origin, a badge that does not exist, a caller who is not
    the owner, a soulbound badge and a badge that is not transferable, in this
    order; otherwise the badge's owner becomes [to] and nothing else but the
    event changes. *)
Theorem transfer_badge_outcome env origin class i to s :
  transfer_badge env origin class i to s =
    match ensure_signed_opt origin, sm_get (st_badge_instances s) (class, i) with
    | None, _ => (s, Err BadOrigin)
    | _, None => (s, Err (ModuleError InstanceNotFound))
    | Some who, Some b =>
        if decide (bi_owner b = who) then
          if bi_soulbound b then (s, Err (ModuleError Soulbound))
          else if bi_transferable b then
            (mkState (st_next_class_id s) (st_next_instance_id s) (st_classes s)
               (sm_insert (class, i) (set_owner to b) (st_badge_instances s)) (st_class_instances s)
               (st_events s ++ [BadgeTransferred class i who to]), Ok tt)
          else (s, Err (ModuleError NotTransferable))
        else (s, Err (ModuleError NotOwner))
    end.
Proof.
  unfold transfer_badge. rewrite with_storage_layer_run. st_run.
  destruct (ensure_signed_opt origin) as [who|]; st_run; [|done].
  destruct (sm_get (st_badge_instances s) (class, i)) as [b|] eqn:Hb; st_run; [|done].
  case_decide as Ho; [rewrite bool_decide_eq_true_2 by done | by rewrite bool_decide_eq_false_2 by done].
  subst who. st_run. destruct (bi_soulbound b); st_run; [done|].
  by destruct (bi_transferable b); st_run.
Qed.

(** [issue_badge] on every branch: an unsigned origin, an unknown class, a
    caller who is not the class's creator and a full class are refused in this
    order with nothing changed, and otherwise the badge is issued under the
    class's next identifier.  The scope of the class plays no part: officers
    and admins of the club a class is scoped to are refused with [NotIssuer]. *)
Theorem issue_badge_outcome env origin class to h t sb s :
  issue_badge env origin class to h t sb s =
    match ensure_signed_opt origin, sm_get (st_classes s) class with
    | None, _ => (s, Err BadOrigin)
    | _, None => (s, Err (ModuleError ClassNotFound))
    | Some issuer, Some c =>
        if decide (issuer = ci_creator c) then
          if decide (next_instance s class < MaxInstancesPerClass) then
            let i := next_instance s class in
            (mkState (st_next_class_id s)
               (sm_insert class (sat_add u64_max i 1) (st_next_instance_id s))
               (sm_insert class (count_instance c) (st_classes s))
               (sm_insert (class, i) (issued env issuer c to h t sb) (st_badge_instances s))
               (sm_insert class (push_index i (index s class)) (st_class_instances s))
               (st_events s ++ [BadgeIssued class i to]), Ok tt)
          else (s, Err (ModuleError InstancesLimitReached))
        else (s, Err (ModuleError NotIssuer))
    end.
Proof.
  unfold issue_badge. rewrite with_storage_layer_run. st_run.
  destruct (ensure_signed_opt origin) as [who|]; st_run; [|done].
  destruct (sm_get (st_classes s) class) as [c|] eqn:Hc; st_run; [|done].
  case_decide as Hw.
  2:{ destruct (allowed c who) eqn:Ha; [by apply allowed_iff in Ha|]. by st_run. }
  rewrite (proj2 (allowed_iff c who) Hw). st_run. fold (next_instance s class).
  case_decide as Hlt.
  2:{ rewrite (proj2 (Z.ltb_ge _ _)) by lia. by st_run. }
  rewrite (proj2 (Z.ltb_lt _ _)) by lia. st_run. rewrite record_in_index_eq. st_run. done.
Qed.

(** The index silently stops at 1024.  A class whose index holds 1024
    identifiers, but which has room left, still issues badges: the call
    succeeds, the badge exists, and its identifier is not recorded, with
    [InstancesIndexOverflow] never raised. *)
Theorem index_overflow_is_silent env origin class to h t sb c s :
  sm_get (st_classes s) class = Some c → ensure_signed_opt origin = Some (ci_creator c) →
  next_instance s class < MaxInstancesPerClass → 1024 ≤ Z.of_nat (length (index s class)) →
  ∃ s', issue_badge env origin class to h t sb s = (s', Ok tt) ∧
    owner_of class (next_instance s class) s' = Some to ∧
    index s' class = index s class.
Proof.
  intros Hc Ho Hlt Hlen.
  destruct (issue_badge env origin class to h t sb s) as [s' r] eqn:Hi.
  revert Hi. unfold issue_badge. rewrite with_storage_layer_run. st_run. rewrite Ho. st_run.
  rewrite Hc. st_run. rewrite (proj2 (allowed_iff c _) eq_refl). st_run. fold (next_instance s class).
  rewrite (proj2 (Z.ltb_lt _ _)) by lia. st_run. rewrite record_in_index_eq. st_run.
  fold (index s class). unfold push_index. rewrite (proj2 (Z.ltb_ge _ _)) by lia.
  intros [= <- <-]. eexists. split; [reflexivity|].
  split; [unfold owner_of | unfold index at 1]; simpl; by rewrite sm_get_insert_eq.
Qed.

(** A class is created by an account the configured origin admits, under an
    identifier no class had; its creator is the caller, it starts with no
    badges, and every other class, every badge and every index stay. *)
Theorem create_class_fresh g env origin h club t sb s s' u :
  genesis_wf g → reach g s → create_class env origin h club t sb s = (s', Ok u) →
  ∃ who id, ClassCreationOrigin origin = true ∧ ensure_signed_opt origin = Some who ∧
    id < MaxClasses ∧ class_info id s = None ∧
    class_info id s' = Some {| ci_creator := who; ci_club := club; ci_metadata_hash := h;
                               ci_default_transferable := t; ci_default_soulbound := sb;
                               ci_instances_count := 0 |} ∧
    next_instance s' id = 0 ∧ index s' id = [] ∧
    (∀ k, k ≠ id → class_info k s' = class_info k s) ∧
    st_badge_instances s' = st_badge_instances s.
Proof.
  intros Hg Hre Hd. apply badges_wf_lemma in Hre as Hwf; [|done].
  apply create_class_ok in Hd as (who & Ho & Hs & Hlt & ->). exists who, (st_next_class_id s).
  assert (sm_get (st_classes s) (st_next_class_id s) = None) as Hnone.
  { destruct (sm_get _ _) as [c|] eqn:Hc; [|done]. apply (wf_classes _ _ Hwf) in Hc as [? _]. lia. }
  assert (next_instance s (st_next_class_id s) = 0) as Hz.
  { destruct (wf_next _ _ Hwf (st_next_class_id s)) as [_ [?|[_ [c Hc]]]]; congruence. }
  unfold class_info; simpl. rewrite sm_get_insert_eq. split_and!; try done.
  - change (index s (st_next_class_id s) = []). by rewrite (wf_index _ _ Hwf), Hz.
  - intros k Hk. by apply sm_get_insert_ne.
Qed.

(** * Refinement of an ownership ledger *)

(** The specification: who created a class, how many badges it has issued, and
    for each badge that exists its owner and whether the owner may move it. *)
Record Ledger : Type := {
  lg_creator : ClassId → option AccountId;
  lg_issued : ClassId → Z;
  lg_entry : ClassId * InstanceId → option (AccountId * bool)
}.

(** Ledgers are compared entry by entry. *)
#[global] Instance ledger_equiv : Equiv Ledger := λ l l',
  (∀ k, lg_creator l k = lg_creator l' k) ∧ (∀ k, lg_issued l k = lg_issued l' k) ∧
  (∀ k, lg_entry l k = lg_entry l' k).

#[global] Instance ledger_equivalence : Equivalence (≡@{Ledger}).
Proof.
  split.
  - by intros l.
  - intros l l' (H1 & H2 & H3). split_and!; naive_solver.
  - intros l l' l'' (H1 & H2 & H3) (H1' & H2' & H3'). split_and!; intros; etrans; eauto.
Qed.

(** What an account may do to the ledger. *)
Inductive ledger_step (who : AccountId) (l : Ledger) : Ledger → Prop :=
| LedgerCreate class :
    lg_creator l class = None → lg_issued l class = 0 →
    ledger_step who l {| lg_creator := <[class := Some who]> (lg_creator l);
                         lg_issued := lg_issued l; lg_entry := lg_entry l |}
| LedgerIssue class to movable :
    lg_creator l class = Some who → lg_entry l (class, lg_issued l class) = None →
    ledger_step who l {| lg_creator := lg_creator l;
                         lg_issued := <[class := lg_issued l class + 1]> (lg_issued l);
                         lg_entry := <[(class, lg_issued l class) := Some (to, movable)]> (lg_entry l) |}
| LedgerRevoke class i :
    lg_creator l class = Some who → is_Some (lg_entry l (class, i)) →
    ledger_step who l {| lg_creator := lg_creator l; lg_issued := lg_issued l;
                         lg_entry := <[(class, i) := None]> (lg_entry l) |}
| LedgerMove k to :
    lg_entry l k = Some (who, true) →
    ledger_step who l {| lg_creator := lg_creator l; lg_issued := lg_issued l;
                         lg_entry := <[k := Some (to, true)]> (lg_entry l) |}.

Definition ledger_entry (b : BadgeInstance) : AccountId * bool :=
  (bi_owner b, bi_transferable b && negb (bi_soulbound b)).

(** The ledger a state stands for. *)
Definition abs s : Ledger := {|
  lg_creator class := ci_creator <$> sm_get (st_classes s) class;
  lg_issued := next_instance s;
  lg_entry k := ledger_entry <$> sm_get (st_badge_instances s) k
|}.

Lemma fmap_insert_fn `{Countable K} {V B} (f : V → B) (m : smap K V) k v k' :
  f <$> sm_get (sm_insert k v m) k' = <[k := Some (f v)]> (λ k, f <$> sm_get m k) k'.
Proof.
  rewrite sm_get_insert. case_decide; subst; [by rewrite fn_lookup_insert|].
  by rewrite fn_lookup_insert_ne.
Qed.

Lemma fmap_remove_fn `{Countable K} {V B} (f : V → B) (m : smap K V) k k' :
  f <$> sm_get (sm_remove k m) k' = <[k := None]> (λ k, f <$> sm_get m k) k'.
Proof.
  rewrite sm_get_remove. case_decide; subst; [by rewrite fn_lookup_insert|].
  by rewrite fn_lookup_insert_ne.
Qed.

(** C11: the pallet implements an ownership ledger: in a reachable state every
    successful call is signed and is one step of the ledger by its signer:
    a fresh class for its creator, a fresh badge by the class's creator, a
    revocation by the class's creator, or a move of a movable badge by its
    owner.  A call that fails is no step at all. *)
Theorem badges_refine_ledger g env origin c s s' r :
  genesis_wf g → reach g s → dispatch env origin c s = (s', r) →
  match r with
  | Ok _ => ∃ who l, ensure_signed_opt origin = Some who ∧ ledger_step who (abs s) l ∧ abs s' ≡ l
  | Err _ => s' = s
  end.
Proof.
  intros Hg Hre Hd. apply badges_wf_lemma in Hre as Hwf; [|done].
  destruct r as [u|e]; [|by eapply badges_dispatch_err].
  inv_badges Hd; do 2 eexists; (split; [eassumption|]).
  - split; [apply (LedgerCreate _ _ (st_next_class_id s))|]; simpl.
    + destruct (sm_get _ _) as [c|] eqn:Hc; [|done]. apply (wf_classes _ _ Hwf) in Hc as [? _]. lia.
    + destruct (wf_next _ _ Hwf (st_next_class_id s)) as [_ [?|[_ [c Hc]]]]; [done|].
      apply (wf_classes _ _ Hwf) in Hc as [? _]. lia.
    + split_and!; simpl; intros k; rewrite ?fmap_insert_fn; done.
  - split; [apply (LedgerIssue _ _ class to
      (default (ci_default_transferable ci) transferable && negb (default (ci_default_soulbound ci) soulbound)))|];
      simpl.
    + by rewrite Hclass.
    + destruct (sm_get (st_badge_instances s) _) as [b|] eqn:Hb; [|done]. apply (wf_badges _ _ Hwf) in Hb. lia.
    + split_and!; simpl; intros k; rewrite ?fmap_insert_fn; try done.
      * destruct (decide (class = k)) as [->|Hne].
        { rewrite fn_lookup_insert. simpl. by rewrite Hclass. }
        by rewrite fn_lookup_insert_ne.
      * unfold next_instance at 1; simpl. rewrite sm_get_insert. case_decide; subst; simpl.
        -- rewrite fn_lookup_insert. apply sat_add_exact. pose proof MaxInstancesPerClass_range.
           unfold in_range, u32_max, u64_max in *. lia.
        -- by rewrite fn_lookup_insert_ne.
  - split; [apply (LedgerRevoke _ _ class instance)|]; simpl.
    + by rewrite Hclass.
    + by rewrite Hbadge; eexists.
    + split_and!; simpl; intros k; rewrite ?fmap_remove_fn; done.
  - split; [apply (LedgerMove _ _ (class, instance) to)|]; simpl.
    + rewrite Hbadge. unfold ledger_entry; simpl. by rewrite Hsoul, Htrans.
    + split_and!; simpl; intros k; rewrite ?fmap_insert_fn; try done.
      unfold ledger_entry at 1, set_owner; simpl. by rewrite Hsoul, Htrans.
Qed.

End BadgesProps.

(** * Witnesses: the theorems at concrete states *)

#[local] Existing Instance concrete_frame.
#[local] Existing Instance concrete_system.

(** Any account may create a class; ten classes of at most 2000 badges. *)
Definition example_config : Config.
Proof.
  refine {| ClassCreationOrigin := λ o, match o with MockNone => false | _ => true end;
            MaxClasses := 10; MaxInstancesPerClass := 2000 |}; done.
Defined.
#[local] Existing Instance example_config.

Definition example_env : Env := {| now_as_millis := 1000; block_number := 1 |}.
Definition zero_hash : bytes32 := vreplicate 32 Byte.x00.
Definition example_call (s : State) (oc : RuntimeOrigin * Call) : State :=
  fst (dispatch example_env (fst oc) (snd oc) s).

(** Account 7 creates a class and issues a soulbound badge 0 and a movable badge 1 to account 8. *)
Definition example_calls : list (RuntimeOrigin * Call) :=
  [ (by_user 7, CreateClass zero_hash (Some 3) true false);
    (by_user 7, IssueBadge 0 (user 8) zero_hash None (Some true));
    (by_user 7, IssueBadge 0 (user 8) zero_hash None None) ].
Definition example_state : State := foldl example_call (genesis_build []) example_calls.

Lemma badges_example_reach cs : reach [] (foldl example_call (genesis_build []) cs).
Proof.
  apply (reachable_foldl _ _ _ (λ _, True)); [|done|by apply Forall_true].
  intros s [o c] _. by exists example_env, o, c.
Qed.

Lemma badges_invariant_witness :
  genesis_wf [] ∧ reach [] example_state ∧ wf (genesis_count []) example_state ∧
  index example_state 0 = [0; 1].
Proof.
  split_and!; [constructor | apply badges_example_reach | | reflexivity].
  apply (badges_invariant []); [constructor | apply badges_example_reach].
Defined.

Lemma soulbound_stays_witness :
  ∃ b, instance_metadata 0 0 example_state = Some b ∧ bi_soulbound b = true ∧
  instance_metadata 0 0 (example_call example_state (by_user 8, TransferBadge 0 0 (user 9)))
    = Some b.
Proof.
  eexists. split; [reflexivity|]. split; [reflexivity|].
  destruct (soulbound_stays [] example_state
    (example_call example_state (by_user 8, TransferBadge 0 0 (user 9))) 0 0
    (default {| bi_owner := user 0; bi_issued_at := 0; bi_issuer := user 0;
                bi_uri_hash := zero_hash; bi_transferable := true; bi_soulbound := true |}
       (instance_metadata 0 0 example_state))) as [_ Hs].
  - constructor.
  - apply badges_example_reach.
  - apply rtc_once. by exists example_env, (by_user 8), (TransferBadge 0 0 (user 9)).
  - reflexivity.
  - destruct Hs as [Hs|Hs]; [left; reflexivity | exact Hs | discriminate Hs].
Defined.

Lemma revoked_badge_stays_gone_witness :
  ∃ s', revoke_badge example_env (by_user 7) 0 1 example_state = (s', Ok tt) ∧
  owner_of 0 1 example_state = Some (user 8) ∧
  owner_of 0 1 (example_call s' (by_user 7, IssueBadge 0 (user 8) zero_hash None None)) = None.
Proof.
  eexists. split; [reflexivity|]. split; [reflexivity|].
  eapply (revoked_badge_stays_gone [] example_env (by_user 7) 0 1 example_state).
  - constructor.
  - apply badges_example_reach.
  - reflexivity.
  - apply rtc_once. by eexists example_env, (by_user 7), (IssueBadge 0 (user 8) zero_hash None None).
Defined.

(** A class whose index is full. *)
Definition full_state : State :=
  mkState 1 (sm_insert 0 1500 sm_empty)
    (sm_insert 0 {| ci_creator := user 7; ci_club := None; ci_metadata_hash := zero_hash;
                    ci_default_transferable := true; ci_default_soulbound := false;
                    ci_instances_count := 1500 |} sm_empty)
    sm_empty (sm_insert 0 (seqZ 0 1024) sm_empty) [].

Lemma index_overflow_is_silent_witness :
  ∃ s', issue_badge example_env (by_user 7) 0 (user 8) zero_hash None None full_state
      = (s', Ok tt) ∧
    owner_of 0 1500 s' = Some (user 8) ∧ index s' 0 = index full_state 0.
Proof.
  eapply (index_overflow_is_silent example_env (by_user 7) 0 (user 8)
    zero_hash None None _ full_state); [reflexivity | reflexivity | reflexivity|].
  vm_compute. discriminate.
Defined.

Lemma create_class_fresh_witness :
  let s' := example_call example_state (by_user 9, CreateClass zero_hash None true true) in
  ∃ who id, class_info id example_state = None ∧ (ci_creator <$> class_info id s') = Some who ∧
  ensure_signed_opt (by_user 9) = Some who.
Proof.
  intros s'.
  destruct (create_class_fresh [] example_env (by_user 9) zero_hash None true true
    example_state s' tt) as (who & id & _ & Hw & _ & Hn & Hs & _);
    [constructor | apply badges_example_reach | vm_compute; reflexivity |].
  exists who, id. rewrite Hs. by split_and!.
Defined.

Lemma badges_refine_ledger_witness :
  let s' := example_call example_state (by_user 8, TransferBadge 0 1 (user 9)) in
  ∃ who l, ledger_step who (abs example_state) l ∧ abs s' ≡ l ∧
    lg_entry (abs s') (0, 1) = Some (user 9, true).
Proof.
  intros s'.
  destruct (badges_refine_ledger [] example_env (by_user 8) (TransferBadge 0 1 (user 9))
    example_state s' (Ok tt)) as (who & l & _ & Hl & Heq);
    [constructor | apply badges_example_reach | vm_compute; reflexivity |].
  exists who, l. split; [exact Hl|]. split; [exact Heq|]. vm_compute. reflexivity.
Defined.
