(* ===== verification/BadgesSpec.v ===== *)
(** The badges against a reference: the first refusal that applies, and otherwise
    the storage a call leaves. *)

From S2P Require Export BadgesProps.
#[local] Open Scope Z_scope.

Section Reference.
  Context {F : Frame} {Sys : System} {Cfg : Config}.
  Implicit Types (env : Env) (origin : RuntimeOrigin) (s : State).

(** The badges with the event [e]. *)
Definition with_badges (badges : smap (ClassId * InstanceId) BadgeInstance) (e : Event) s : State :=
  mkState (st_next_class_id s) (st_next_instance_id s) (st_classes s) badges
    (st_class_instances s) (st_events s ++ [e]).

(** A signed call about a class, with the class. *)
Definition about_class origin (class : ClassId) s
    (k : AccountId → ClassInfo → result State (DispatchError Error)) : result State (DispatchError Error) :=
  match ensure_signed_opt origin, sm_get (st_classes s) class with
  | None, _ => Err BadOrigin
  | Some _, None => Err (ModuleError ClassNotFound)
  | Some who, Some c => k who c
  end.

Definition reference env origin (call : Call) s : result State (DispatchError Error) :=
  match call with
  | CreateClass h club t sb =>
      if negb (ClassCreationOrigin origin) then Err BadOrigin
      else match ensure_signed_opt origin with
      | None => Err BadOrigin
      | Some who =>
          let id := st_next_class_id s in
          if decide (id < MaxClasses) then
            let info := {| ci_creator := who; ci_club := club; ci_metadata_hash := h;
                           ci_default_transferable := t; ci_default_soulbound := sb;
                           ci_instances_count := 0 |} in
            Ok (mkState (sat_add u32_max id 1) (st_next_instance_id s) (sm_insert id info (st_classes s))
                  (st_badge_instances s) (st_class_instances s) (st_events s ++ [ClassCreated id who club]))
          else Err (ModuleError ClassLimitReached)
      end
  | IssueBadge class to h t sb =>
      about_class origin class s (λ issuer c,
        if decide (issuer = ci_creator c) then
          let i := next_instance s class in
          if decide (i < MaxInstancesPerClass) then
            Ok (mkState (st_next_class_id s) (sm_insert class (sat_add u64_max i 1) (st_next_instance_id s))
                  (sm_insert class (count_instance c) (st_classes s))
                  (sm_insert (class, i) (issued env issuer c to h t sb) (st_badge_instances s))
                  (sm_insert class (push_index i (index s class)) (st_class_instances s))
                  (st_events s ++ [BadgeIssued class i to]))
          else Err (ModuleError InstancesLimitReached)
        else Err (ModuleError NotIssuer))
  | RevokeBadge class i =>
      about_class origin class s (λ who c,
        if decide (who = ci_creator c) then
          match sm_get (st_badge_instances s) (class, i) with
          | None => Err (ModuleError InstanceNotFound)
          | Some _ => Ok (with_badges (sm_remove (class, i) (st_badge_instances s)) (BadgeRevoked class i) s)
          end
        else Err (ModuleError NotClassOwner))
  | TransferBadge class i to =>
      match ensure_signed_opt origin, sm_get (st_badge_instances s) (class, i) with
      | None, _ => Err BadOrigin
      | Some _, None => Err (ModuleError InstanceNotFound)
      | Some who, Some b =>
          if decide (bi_owner b ≠ who) then Err (ModuleError NotOwner)
          else if bi_soulbound b then Err (ModuleError Soulbound)
          else if negb (bi_transferable b) then Err (ModuleError NotTransferable)
          else Ok (with_badges (sm_insert (class, i) (set_owner to b) (st_badge_instances s))
                     (BadgeTransferred class i who to) s)
      end
  end.

#[local] Hint Unfold about_class with_badges next_instance index issued : reference.

(** The permission test is being the class's creator. *)
Lemma allowed_eq c who : allowed c who = bool_decide (who = ci_creator c).
Proof. apply Bool.eq_iff_eq_true. by rewrite allowed_iff, bool_decide_eq_true. Qed.
#[local] Hint Rewrite allowed_eq record_in_index_eq : st.

(** C9: every call of the badges does what the reference says, on every branch: the
    first of the listed refusals that applies, with nothing changed, or exactly the
    storage listed.  The scope of a class plays no part in who may issue and
    revoke: its creator alone may. *)
Theorem badges_reference env origin c s :
  dispatch env origin c s = concluded s (reference env origin c s).
Proof.
  destruct c; cbn [dispatch reference].
  - unfold create_class. run_reference.
  - unfold issue_badge. run_reference.
  - unfold revoke_badge. run_reference.
  - unfold transfer_badge. run_reference.
Qed.
End Reference.
