(* ===== verification/Rewards.v ===== *)
(** pallet-rewards (src/pallets/rewards/src/lib.rs): reward rules, attestations
    that entitle a subject to one reward, and claims counted per account, rule
    and epoch.  The calls into the currency and the member registry are
    commented out in the source, and are absent here too. *)

From S2P Require Export Frame Weights.
#[local] Open Scope Z_scope.

Abbreviation RuleId := Z (only parsing).
Abbreviation RewardAmount := Z (only parsing).   (* u128 *)
Abbreviation ClubId := Z (only parsing).
Abbreviation Moment := Z (only parsing).
Abbreviation AttestationId := Z (only parsing).
Abbreviation Epoch := Z (only parsing).

Record RewardRule : Type := {
  rr_event_type : list Byte.byte;   (* BoundedVec<u8, ConstU32<32>> *)
  rr_amount : RewardAmount;
  rr_max_per_epoch : Z;             (* u32 *)
  rr_club : option ClubId;
  rr_metadata : option bytes32
}.

(** Attestation created by an attestor allowing a subject to claim a reward. *)
Record Attestation `{System} : Type := {
  ra_subject : AccountId;
  ra_rule_id : RuleId;
  ra_attestor : AccountId;
  ra_created_at : Moment;
  ra_expires_at : option Moment;
  ra_used : bool;
  ra_metadata : option bytes32
}.

(** Per-account per-rule claim counter. *)
Record ClaimCounter : Type := {
  cc_epoch : Epoch;
  cc_count : Z   (* u32 *)
}.

(** The derived [Default]. *)
Definition ClaimCounter_default : ClaimCounter := {| cc_epoch := 0; cc_count := 0 |}.

Inductive Event `{System} : Type :=
| RuleCreated (rule_id : RuleId)
| AttestationCreated (attestation_id : AttestationId) (subject : AccountId) (rule_id : RuleId)
    (attestor : AccountId)
| AttestationRevoked (attestation_id : AttestationId)
| RewardClaimed (who : AccountId) (rule_id : RuleId) (attestation_id : AttestationId)
    (amount : RewardAmount)
| RewardAwarded (who : AccountId) (amount : RewardAmount) (reason : option (list Byte.byte)).

Inductive Error : Type :=
| RuleNotFound
| AttestationNotFound
| AttestationExpired
| AttestationUsed
| NotAuthorizedAttestor
| ExceedsLimit
| TransferFailed
| InvalidInput
| AttestationsOverflow.

#[global] Instance Rewards_Error_eq_dec : EqDecision Error.
Proof. solve_decision. Defined.

(** [Config]: the two configured origins, the epoch length (a [u64]), the bound
    on attestations (a [u32]) and the largest [T::Balance]. *)
Class Config `{System} := {
  RuleCreationOrigin : RuntimeOrigin → bool;
  ManualAwardOrigin : RuntimeOrigin → bool;
  EpochLengthInBlocks : Z;
  MaxAttestations : Z;
  Balance_max : Z;
  EpochLengthInBlocks_range : in_range u64_max EpochLengthInBlocks;
  MaxAttestations_range : in_range u32_max MaxAttestations
}.

(** ** Storage *)

Record State `{Frame, System} : Type := mkState {
  st_rules : smap RuleId RewardRule;
  st_next_rule_id : RuleId;
  st_attestations : smap AttestationId Attestation;
  st_next_attestation_id : AttestationId;
  st_claims : smap (AccountId * RuleId) ClaimCounter;   (* ValueQuery *)
  st_events : list Event
}.

Arguments mkState {_ _}.

Section Storage.
  Context {F : Frame} {Sys : System}.

Definition Rules : StorageItem State (smap RuleId RewardRule) := {|
  item_get := st_rules;
  item_set v s := mkState v (st_next_rule_id s) (st_attestations s) (st_next_attestation_id s)
                    (st_claims s) (st_events s)
|}.

Definition NextRuleId : StorageItem State RuleId := {|
  item_get := st_next_rule_id;
  item_set v s := mkState (st_rules s) v (st_attestations s) (st_next_attestation_id s)
                    (st_claims s) (st_events s)
|}.

Definition Attestations : StorageItem State (smap AttestationId Attestation) := {|
  item_get := st_attestations;
  item_set v s := mkState (st_rules s) (st_next_rule_id s) v (st_next_attestation_id s)
                    (st_claims s) (st_events s)
|}.

Definition NextAttestationId : StorageItem State AttestationId := {|
  item_get := st_next_attestation_id;
  item_set v s := mkState (st_rules s) (st_next_rule_id s) (st_attestations s) v
                    (st_claims s) (st_events s)
|}.

Definition ClaimsThisEpoch : StorageItem State (smap (AccountId * RuleId) ClaimCounter) := {|
  item_get := st_claims;
  item_set v s := mkState (st_rules s) (st_next_rule_id s) (st_attestations s)
                    (st_next_attestation_id s) v (st_events s)
|}.

Definition deposit_event (e : Event) : Dispatch State Error unit :=
  modify (λ s, mkState (st_rules s) (st_next_rule_id s) (st_attestations s)
                 (st_next_attestation_id s) (st_claims s) (st_events s ++ [e])).

Lemma run_rewards_event e s :
  deposit_event e s =
    (mkState (st_rules s) (st_next_rule_id s) (st_attestations s) (st_next_attestation_id s)
       (st_claims s) (st_events s ++ [e]), Ok tt).
Proof. reflexivity. Qed.

End Storage.

#[export] Hint Unfold Rules NextRuleId Attestations NextAttestationId ClaimsThisEpoch : items.
#[export] Hint Rewrite @run_rewards_event : st.

(** ** Helper functions *)

Section Calls.
  Context {F : Frame} {Sys : System} {Cfg : Config}.
  Implicit Types (env : Env) (origin : RuntimeOrigin).

(** Current epoch, from the block number and [EpochLengthInBlocks]. *)
Definition current_epoch env : Epoch :=
  let bn := block_number env in
  let epoch_len := EpochLengthInBlocks in
  let bn_u64 := saturated_into u64_max bn in
  if epoch_len =? 0 then 0 else bn_u64 / epoch_len.

Definition now_millis env : Moment := saturated_into u64_max (now_as_millis env).

Definition get_attestation (attestation_id : AttestationId) (s : State) : option Attestation :=
  sm_get (st_attestations s) attestation_id.

(** ** Dispatchables *)

Definition create_rule env origin (event_type : list Byte.byte) (amount : RewardAmount)
    (max_per_epoch : Z) (club : option ClubId) (metadata : option bytes32)
    : Dispatch State Error unit :=
  with_storage_layer (
    ensure_origin RuleCreationOrigin origin;;
    bounded_event ← ok_or_err (bv_try_from 32 event_type) InvalidInput;
    id ← get_value NextRuleId;
    let rule := {| rr_event_type := bounded_event; rr_amount := amount;
                   rr_max_per_epoch := max_per_epoch; rr_club := club; rr_metadata := metadata |} in
    insert_map Rules id rule;;
    put_value NextRuleId (sat_add u32_max id 1);;
    deposit_event (RuleCreated id)).

(** The authorization test of [create_attestation] and [revoke_attestation] for
    a global rule: the caller's signature must pass [ManualAwardOrigin]. *)
Definition ensure_manual_award (who : AccountId) : Dispatch State Error unit :=
  ensure_err (ManualAwardOrigin (signed who)) NotAuthorizedAttestor.

Definition create_attestation env origin (subject : AccountId) (rule_id : RuleId)
    (expires_at : option Moment) (metadata : option bytes32) : Dispatch State Error unit :=
  with_storage_layer (
    attestor ← ensure_signed origin;
    maybe_rule ← get_map Rules rule_id;
    rule ← ok_or_err maybe_rule RuleNotFound;
    match rr_club rule with
    | Some _cid => mret tt
    | None => ensure_manual_award attestor
    end;;
    let now := now_millis env in
    id ← get_value NextAttestationId;
    let max_att := MaxAttestations in
    ensure_err (id <? max_att) AttestationsOverflow;;
    let att := {| ra_subject := subject; ra_rule_id := rule_id; ra_attestor := attestor;
                  ra_created_at := now; ra_expires_at := expires_at; ra_used := false;
                  ra_metadata := metadata |} in
    insert_map Attestations id att;;
    put_value NextAttestationId (sat_add u64_max id 1);;
    deposit_event (AttestationCreated id subject rule_id attestor)).

(** The closure [claim_reward] runs on the caller's counter. *)
Definition count_claim (current_epoch : Epoch) (max_per_epoch : Z) (counter : ClaimCounter)
    : Dispatch State Error (ClaimCounter * unit) :=
  let counter := if negb (cc_epoch counter =? current_epoch)
                 then {| cc_epoch := current_epoch; cc_count := 0 |} else counter in
  let new_count := sat_add u32_max (cc_count counter) 1 in
  ensure_err (new_count <=? max_per_epoch) ExceedsLimit;;
  mret ({| cc_epoch := cc_epoch counter; cc_count := new_count |}, tt).

Definition mark_used (a : Attestation) : Attestation :=
  {| ra_subject := ra_subject a; ra_rule_id := ra_rule_id a; ra_attestor := ra_attestor a;
     ra_created_at := ra_created_at a; ra_expires_at := ra_expires_at a; ra_used := true;
     ra_metadata := ra_metadata a |}.

Definition claim_reward env origin (attestation_id : AttestationId) : Dispatch State Error unit :=
  with_storage_layer (
    who ← ensure_signed origin;
    try_mutate Attestations attestation_id (λ maybe_att,
      att ← ok_or_err maybe_att AttestationNotFound;
      ensure_err (bool_decide (ra_subject att = who)) InvalidInput;;
      ensure_err (negb (ra_used att)) AttestationUsed;;
      match ra_expires_at att with
      | Some exp => ensure_err (now_millis env <=? exp) AttestationExpired
      | None => mret tt
      end;;
      maybe_rule ← get_map Rules (ra_rule_id att);
      rule ← ok_or_err maybe_rule RuleNotFound;
      let current_epoch := current_epoch env in
      try_mutate_value ClaimCounter_default ClaimsThisEpoch (who, ra_rule_id att)
        (count_claim current_epoch (rr_max_per_epoch rule));;
      let att := mark_used att in
      let _amount := saturated_into Balance_max (rr_amount rule) in
      deposit_event (RewardClaimed who (ra_rule_id att) attestation_id (rr_amount rule));;
      mret (Some att, tt))).

Definition award_manual env origin (to : AccountId) (amount : RewardAmount)
    (reason : option (list Byte.byte)) : Dispatch State Error unit :=
  with_storage_layer (
    ensure_origin ManualAwardOrigin origin;;
    let _bal := saturated_into Balance_max amount in
    deposit_event (RewardAwarded to amount reason)).

Definition revoke_attestation env origin (attestation_id : AttestationId)
    : Dispatch State Error unit :=
  with_storage_layer (
    who ← ensure_signed origin;
    try_mutate Attestations attestation_id (λ maybe,
      att ← ok_or_err maybe AttestationNotFound;
      maybe_rule ← get_map Rules (ra_rule_id att);
      rule ← ok_or_err maybe_rule RuleNotFound;
      match rr_club rule with
      | Some _cid => ensure_err (bool_decide (who = ra_attestor att)) NotAuthorizedAttestor
      | None => ensure_manual_award who
      end;;
      mret (None, tt));;
    deposit_event (AttestationRevoked attestation_id)).

(** ** Genesis *)

Definition genesis_rule (s : State) (entry : RuleId * RewardRule) : State :=
  let '(id, rule) := entry in
  let s := item_set Rules (sm_insert id rule (st_rules s)) s in
  let next := st_next_rule_id s in
  if next <=? id then item_set NextRuleId (sat_add u32_max id 1) s else s.

Definition genesis_build (rules : list (RuleId * RewardRule)) : State :=
  foldl genesis_rule (mkState sm_empty 0 sm_empty 0 sm_empty []) rules.

Inductive Call : Type :=
| CreateRule (event_type : list Byte.byte) (amount : RewardAmount) (max_per_epoch : Z)
    (club : option ClubId) (metadata : option bytes32)
| CreateAttestation (subject : AccountId) (rule_id : RuleId) (expires_at : option Moment)
    (metadata : option bytes32)
| ClaimReward (attestation_id : AttestationId)
| AwardManual (to : AccountId) (amount : RewardAmount) (reason : option (list Byte.byte))
| RevokeAttestation (attestation_id : AttestationId).

Definition dispatch env origin (c : Call) : Dispatch State Error unit :=
  match c with
  | CreateRule ev amount m club md => create_rule env origin ev amount m club md
  | CreateAttestation subject rule exp md => create_attestation env origin subject rule exp md
  | ClaimReward id => claim_reward env origin id
  | AwardManual to amount reason => award_manual env origin to amount reason
  | RevokeAttestation id => revoke_attestation env origin id
  end.

Lemma run_ensure_manual_award who s :
  ensure_manual_award who s =
    (s, if ManualAwardOrigin (signed who) then Ok tt else Err (ModuleError NotAuthorizedAttestor)).
Proof. apply run_ensure_err. Qed.

(** What [count_claim] does: the count it starts from, and the test. *)
Definition claims_so_far (epoch : Epoch) (counter : ClaimCounter) : Z :=
  if cc_epoch counter =? epoch then cc_count counter else 0.

Lemma run_count_claim epoch m counter s :
  count_claim epoch m counter s =
    (s, if sat_add u32_max (claims_so_far epoch counter) 1 <=? m
        then Ok ({| cc_epoch := epoch;
                    cc_count := sat_add u32_max (claims_so_far epoch counter) 1 |}, tt)
        else Err (ModuleError ExceedsLimit)).
Proof.
  unfold count_claim, claims_so_far.
  destruct (Z.eqb_spec (cc_epoch counter) epoch) as [<-|Hne]; simpl; st_run;
    by destruct (_ <=? m); st_run.
Qed.

End Calls.

#[global] Arguments count_claim : simpl never.
#[global] Arguments mark_used : simpl never.
#[global] Arguments ensure_manual_award : simpl never.
#[global] Arguments current_epoch : simpl never.
#[global] Arguments now_millis : simpl never.
#[global] Arguments claims_so_far : simpl never.

#[export] Hint Rewrite @run_ensure_manual_award @run_count_claim : st.

(** * Weights *)

(** The trait [WeightInfo], and the weight each dispatchable is annotated with. *)
Record WeightInfo : Type := {
  w_create_rule : Weight;
  w_create_attestation : Weight;
  w_claim_reward : Weight;
  w_award_manual : Weight;
  w_revoke_attestation : Weight
}.

Definition call_weight `{System} (w : WeightInfo) (c : Call) : Weight :=
  match c with
  | CreateRule _ _ _ _ _ => w_create_rule w
  | CreateAttestation _ _ _ _ => w_create_attestation w
  | ClaimReward _ => w_claim_reward w
  | AwardManual _ _ _ => w_award_manual w
  | RevokeAttestation _ => w_revoke_attestation w
  end.
