(* ===== verification/RewardsProps.v ===== *)
(** Properties of pallet-rewards: the storage invariant, the per-epoch limit
    over whole histories, the single use of an attestation, each call's
    outcome, and what the missing authorization checks allow. *)

From S2P Require Export Rewards Concrete.
#[local] Open Scope Z_scope.

Section RewardsProps.
  Context {F : Frame} {Sys : System} {Cfg : Config}.
  Implicit Types (env : Env) (origin : RuntimeOrigin) (s : State).

(** The counter of an account for a rule, the default when none is stored. *)
Definition counter s (who : AccountId) (rule : RuleId) : ClaimCounter :=
  default ClaimCounter_default (sm_get (st_claims s) (who, rule)).

(** * Inversion lemmas *)

Lemma create_rule_ok env origin ev amount m club md s s' u :
  create_rule env origin ev amount m club md s = (s', Ok u) →
  RuleCreationOrigin origin = true ∧ Z.of_nat (length ev) ≤ 32 ∧
  s' = mkState
         (sm_insert (st_next_rule_id s)
            {| rr_event_type := ev; rr_amount := amount; rr_max_per_epoch := m;
               rr_club := club; rr_metadata := md |} (st_rules s))
         (sat_add u32_max (st_next_rule_id s) 1) (st_attestations s)
         (st_next_attestation_id s) (st_claims s)
         (st_events s ++ [RuleCreated (st_next_rule_id s)]).
Proof. unfold create_rule. intros Hr. inv_ok Hr. eauto 10. Qed.

(** Who may attest for a rule: anyone for a rule of a club, and otherwise an
    account whose signature passes [ManualAwardOrigin]. *)
Definition may_attest (rule : RewardRule) (who : AccountId) : Prop :=
  rr_club rule = None → ManualAwardOrigin (signed who) = true.

Definition new_attestation env subject rule attestor exp md : Attestation :=
  {| ra_subject := subject; ra_rule_id := rule; ra_attestor := attestor;
     ra_created_at := now_millis env; ra_expires_at := exp; ra_used := false; ra_metadata := md |}.

Lemma rewards_attestation_ok env origin subject rule_id exp md s s' u :
  create_attestation env origin subject rule_id exp md s = (s', Ok u) →
  ∃ attestor rule, ensure_signed_opt origin = Some attestor ∧
  sm_get (st_rules s) rule_id = Some rule ∧ may_attest rule attestor ∧
  st_next_attestation_id s < MaxAttestations ∧
  s' = mkState (st_rules s) (st_next_rule_id s)
         (sm_insert (st_next_attestation_id s)
            (new_attestation env subject rule_id attestor exp md) (st_attestations s))
         (sat_add u64_max (st_next_attestation_id s) 1) (st_claims s)
         (st_events s ++ [AttestationCreated (st_next_attestation_id s) subject rule_id attestor]).
Proof.
  unfold create_attestation, may_attest. intros Hr. inv_ok Hr; do 2 eexists; split_and!; try done;
    congruence.
Qed.

(** The conditions [claim_reward] tests, in the source's order. *)
Definition claimable env s (who : AccountId) (att : Attestation) (rule : RewardRule) : Prop :=
  ra_subject att = who ∧ ra_used att = false ∧
  (∀ exp, ra_expires_at att = Some exp → now_millis env ≤ exp) ∧
  sm_get (st_rules s) (ra_rule_id att) = Some rule ∧
  sat_add u32_max (claims_so_far (current_epoch env) (counter s who (ra_rule_id att))) 1
    ≤ rr_max_per_epoch rule.

(** The counter after a claim. *)
Definition claimed env s who rule : ClaimCounter :=
  {| cc_epoch := current_epoch env;
     cc_count := sat_add u32_max (claims_so_far (current_epoch env) (counter s who rule)) 1 |}.

Lemma claim_reward_ok env origin id s s' u :
  claim_reward env origin id s = (s', Ok u) →
  ∃ who att rule, ensure_signed_opt origin = Some who ∧
  sm_get (st_attestations s) id = Some att ∧ claimable env s who att rule ∧
  s' = mkState (st_rules s) (st_next_rule_id s)
         (sm_insert id (mark_used att) (st_attestations s)) (st_next_attestation_id s)
         (sm_insert (who, ra_rule_id att) (claimed env s who (ra_rule_id att)) (st_claims s))
         (st_events s ++ [RewardClaimed who (ra_rule_id att) id (rr_amount rule)]).
Proof.
  unfold claim_reward, claimable. intros Hr. inv_ok Hr; do 3 eexists;
    (split; [eassumption || reflexivity|]); (split; [eassumption || reflexivity|]);
    (split; [|reflexivity]); split_and!; try done; intros; by simplify_eq.
Qed.

Lemma award_manual_ok env origin to amount reason s s' u :
  award_manual env origin to amount reason s = (s', Ok u) →
  ManualAwardOrigin origin = true ∧
  s' = mkState (st_rules s) (st_next_rule_id s) (st_attestations s) (st_next_attestation_id s)
         (st_claims s) (st_events s ++ [RewardAwarded to amount reason]).
Proof. unfold award_manual. intros Hr. by inv_ok Hr. Qed.

Lemma rewards_revoke_ok env origin id s s' u :
  revoke_attestation env origin id s = (s', Ok u) →
  ∃ who att rule, ensure_signed_opt origin = Some who ∧
  sm_get (st_attestations s) id = Some att ∧
  sm_get (st_rules s) (ra_rule_id att) = Some rule ∧
  (match rr_club rule with
   | Some _ => who = ra_attestor att
   | None => ManualAwardOrigin (signed who) = true
   end) ∧
  s' = mkState (st_rules s) (st_next_rule_id s) (sm_remove id (st_attestations s))
         (st_next_attestation_id s) (st_claims s) (st_events s ++ [AttestationRevoked id]).
Proof.
  unfold revoke_attestation. intros Hr. inv_ok Hr; do 3 eexists; split_and!;
    try eassumption; try reflexivity; match goal with E : rr_club _ = _ |- _ => by rewrite E end.
Qed.

Lemma rewards_dispatch_err env origin c s s' e : dispatch env origin c s = (s', Err e) → s' = s.
Proof. destruct c; apply storage_layer_err. Qed.

Ltac inv_rewards Hd :=
  lazymatch type of Hd with
  | dispatch _ _ ?c _ = _ =>
      destruct c; cbn [dispatch] in Hd;
      [ apply create_rule_ok in Hd as (?Horig & ?Hlen & ->)
      | apply rewards_attestation_ok in Hd as (?attestor & ?rule & ?Hsig & ?Hrule & ?Hmay & ?Hlt & ->)
      | apply claim_reward_ok in Hd as (?who & ?att & ?rule & ?Hsig & ?Hatt & ?Hclaim & ->)
      | apply award_manual_ok in Hd as (?Horig & ->)
      | apply rewards_revoke_ok in Hd as (?who & ?att & ?rule & ?Hsig & ?Hatt & ?Hrule & ?Hby & ->) ]
  end.

(** * Histories *)

(** An extrinsic in the block it runs in. *)
Record Extrinsic : Type := { x_env : Env; x_origin : RuntimeOrigin; x_call : Call }.

Definition exec (x : Extrinsic) s : State * result unit (DispatchError Error) :=
  dispatch (x_env x) (x_origin x) (x_call x) s.

(** The state after a history, its latest extrinsic first. *)
Fixpoint run (g : list (RuleId * RewardRule)) (tr : list Extrinsic) : State :=
  match tr with
  | [] => genesis_build g
  | x :: tr => fst (exec x (run g tr))
  end.

(** The block number of the latest extrinsic. *)
Definition clock (tr : list Extrinsic) : Z :=
  match tr with [] => 0 | x :: _ => block_number (x_env x) end.

(** Blocks come in order and values have their types. *)
Fixpoint history (tr : list Extrinsic) : Prop :=
  match tr with
  | [] => True
  | x :: tr => clock tr ≤ block_number (x_env x) ∧ 0 ≤ now_as_millis (x_env x) ∧
      match x_call x with
      | CreateRule _ _ m _ _ => in_range u32_max m
      | _ => True
      end ∧ history tr
  end.

Lemma clock_nonneg tr : history tr → 0 ≤ clock tr.
Proof. induction tr as [|x tr IH]; simpl; [done|]. intros (? & _ & _ & ?%IH). lia. Qed.

Lemma current_epoch_le env env' :
  0 ≤ block_number env ≤ block_number env' → current_epoch env ≤ current_epoch env'.
Proof.
  intros ?. pose proof EpochLengthInBlocks_range as Hr. unfold in_range in Hr.
  unfold current_epoch. rewrite !saturated_into_eq by lia.
  destruct (Z.eqb_spec EpochLengthInBlocks 0); [lia|]. apply Z.div_le_mono; lia.
Qed.

(** A property of the states of a history follows by induction over it. *)
Lemma history_ind (P : list Extrinsic → State → Prop) g :
  P [] (genesis_build g) →
  (∀ x tr s, history (x :: tr) → P tr s → s = run g tr → P (x :: tr) s) →
  (∀ x tr s s' u, history (x :: tr) → P tr s → s = run g tr → exec x s = (s', Ok u) →
     P (x :: tr) s') →
  ∀ tr, history tr → P tr (run g tr).
Proof.
  intros H0 Herr Hok. induction tr as [|x tr IH]; intros Ht; simpl; [done|].
  pose proof Ht as (_ & _ & _ & Hp%IH).
  destruct (exec x (run g tr)) as [s' [u|e]] eqn:Hd; simpl; [by eapply Hok|].
  apply rewards_dispatch_err in Hd as ->. by apply Herr.
Qed.

(** * The storage invariant *)

Definition rule_wf (rule : RewardRule) : Prop :=
  Z.of_nat (length (rr_event_type rule)) ≤ 32 ∧ in_range u32_max (rr_max_per_epoch rule).

Definition genesis_wf (g : list (RuleId * RewardRule)) : Prop :=
  Forall (λ e, in_range u32_max (fst e) ∧ rule_wf (snd e)) g.

(** Rule identifiers are handed out in order until the counter saturates. *)
Definition rule_id_wf (next id : RuleId) : Prop :=
  in_range u32_max id ∧ (id < next ∨ next = u32_max).

Definition rules_wf s : Prop :=
  in_range u32_max (st_next_rule_id s) ∧
  ∀ id rule, sm_get (st_rules s) id = Some rule →
    rule_id_wf (st_next_rule_id s) id ∧ rule_wf rule.

Definition attestation_wf s (id : AttestationId) (a : Attestation) : Prop :=
  0 ≤ id < st_next_attestation_id s ∧
  is_Some (sm_get (st_rules s) (ra_rule_id a)) ∧
  (ra_rule_id a < u32_max → ∀ rule, sm_get (st_rules s) (ra_rule_id a) = Some rule →
     may_attest rule (ra_attestor a)).

Record wf s : Prop := {
  wf_rules : rules_wf s;
  wf_next_attestation : in_range MaxAttestations (st_next_attestation_id s);
  wf_attestations : ∀ id a, sm_get (st_attestations s) id = Some a → attestation_wf s id a
}.

Lemma rules_wf_insert s id rule next atts na cl ev :
  rules_wf s → in_range u32_max id → rule_wf rule →
  next = (if st_next_rule_id s <=? id then sat_add u32_max id 1 else st_next_rule_id s) →
  rules_wf (mkState (sm_insert id rule (st_rules s)) next atts na cl ev).
Proof.
  intros [Hn Hs] Hid Hr ->. unfold rules_wf, rule_id_wf, in_range, sat_add in *; simpl.
  destruct (Z.leb_spec (st_next_rule_id s) id); split; try lia; intros k r;
    rewrite sm_get_insert; case_decide; intros; simplify_eq; try (split; [lia|done]);
    destruct (Hs _ _ H1) as [? ?]; split; done || lia.
Qed.

Lemma genesis_foldl g s :
  genesis_wf g → rules_wf s →
  let s' := foldl genesis_rule s g in
  rules_wf s' ∧ st_attestations s' = st_attestations s ∧ st_claims s' = st_claims s ∧
  st_next_attestation_id s' = st_next_attestation_id s.
Proof.
  intros Hg. revert s. induction Hg as [|[id rule] g [Hid Hrule] _ IH]; intros s Hs; simpl; [done|].
  destruct (st_next_rule_id s <=? id) eqn:Hle; (edestruct IH as (? & -> & -> & ->);
    [apply (rules_wf_insert s); try done; by rewrite Hle | done]).
Qed.

Lemma genesis_state_wf g :
  genesis_wf g → wf (genesis_build g) ∧ st_claims (genesis_build g) = sm_empty.
Proof.
  intros Hg. pose proof MaxAttestations_range as Hm. unfold in_range in Hm.
  destruct (genesis_foldl g (mkState sm_empty 0 sm_empty 0 sm_empty [])) as (Hr & Ha & Hc & Hn); [done| |].
  { split; [done|]. intros ??. simpl. by rewrite sm_get_empty. }
  fold (genesis_build g) in *. simpl in Ha, Hc, Hn. split; [|done]. split; [done| |].
  - rewrite Hn. unfold in_range. lia.
  - intros id a. by rewrite Ha, sm_get_empty.
Qed.

(** A rule below the last identifier is never replaced. *)
Lemma rule_kept env origin c s s' u id rule :
  rules_wf s → id < u32_max → dispatch env origin c s = (s', Ok u) →
  sm_get (st_rules s) id = Some rule → sm_get (st_rules s') id = Some rule.
Proof.
  intros [Hn Hs] Hid Hd Hr. inv_rewards Hd; simpl; try done.
  rewrite sm_get_insert. case_decide; [|done]. apply Hs in Hr as [[_ ?] _]. subst. lia.
Qed.

Lemma wf_same_rules s atts na cl ev :
  wf s → in_range MaxAttestations na → st_next_attestation_id s ≤ na →
  (∀ id a, sm_get atts id = Some a → attestation_wf s id a ∨
     attestation_wf (mkState (st_rules s) (st_next_rule_id s) atts na cl ev) id a) →
  wf (mkState (st_rules s) (st_next_rule_id s) atts na cl ev).
Proof.
  intros [Hr Hn Ha] Hna Hle Hat. split; [done|done|]. intros id a Hg.
  destruct (Hat _ _ Hg) as [(? & ? & ?)|?]; [|done]. split_and!; simpl; done || lia.
Qed.

Lemma rewards_preserve_wf env origin c s s' u :
  (∀ ev am m cl md, c = CreateRule ev am m cl md → in_range u32_max m) →
  wf s → dispatch env origin c s = (s', Ok u) → wf s'.
Proof.
  intros Hc Hwf Hd. pose proof Hwf as [[Hn Hr] Hna Ha]. pose proof MaxAttestations_range as Hm.
  unfold in_range in Hn, Hna, Hm.
  pose proof Hd as Hd0. inv_rewards Hd.
  - split; simpl; [|done|].
    + apply rules_wf_insert; [done|done| |by rewrite Z.leb_refl]. split; simpl; [done|by eapply Hc].
    + intros id a Hg. destruct (Ha _ _ Hg) as (? & [r0 H0] & Hmay). split_and!; simpl; [lia..| |].
      * eauto.
      * intros Hlt0 rule Hg'.
        pose proof (rule_kept _ _ _ _ _ _ _ _ (wf_rules _ Hwf) Hlt0 Hd0 H0) as Hk.
        simpl in Hk. simplify_eq. by apply Hmay.
  - assert (sat_add u64_max (st_next_attestation_id s) 1 = st_next_attestation_id s + 1) as ->
      by (apply sat_add_exact; unfold u32_max, u64_max in *; lia).
    apply wf_same_rules; [done|unfold in_range; lia|lia|]. intros id a. rewrite sm_get_insert.
    case_decide; intros; simplify_eq; [right|by left; apply Ha].
    split_and!; simpl; [lia|lia|by eexists|]. intros _ rule' Hr'. by simplify_eq.
  - apply wf_same_rules; [done|done|done|]. intros id a. rewrite sm_get_insert.
    case_decide; intros; simplify_eq; left; [|by apply Ha]. by apply Ha in Hatt.
  - by apply wf_same_rules; [..|by left; apply Ha].
  - apply wf_same_rules; [done|done|done|]. intros id a. rewrite sm_get_remove.
    case_decide; intros; simplify_eq. left. by apply Ha.
Qed.

Lemma run_wf g tr : genesis_wf g → history tr → wf (run g tr).
Proof.
  intros Hg. apply (history_ind (λ _, wf)); [by apply genesis_state_wf | done |].
  intros x tr' s s' u (_ & _ & Hc & _) Hwf _ Hd. eapply rewards_preserve_wf; [|done|done].
  intros ev am m cl md Heq. by rewrite Heq in Hc.
Qed.

(** C38: after every history, rule identifiers lie below their counter unless it
    has saturated, event types fit 32 bytes, at most [MaxAttestations]
    attestations were ever created and their identifiers lie below the
    counter, every attestation belongs to a rule that exists, and (below the
    last rule identifier) an attestation for a rule without a club was signed by
    an account [ManualAwardOrigin] admits. *)
Theorem rewards_invariant g tr : genesis_wf g → history tr → wf (run g tr).
Proof. apply run_wf. Qed.

(** * Claims along a history *)

(** The successful claim [x] makes in state [s]: account, rule, epoch and
    attestation. *)
Definition claim_of (x : Extrinsic) s : option (AccountId * RuleId * Epoch * AttestationId) :=
  match x_call x with
  | ClaimReward id =>
      match snd (exec x s), ensure_signed_opt (x_origin x), sm_get (st_attestations s) id with
      | Ok _, Some who, Some att => Some (who, ra_rule_id att, current_epoch (x_env x), id)
      | _, _, _ => None
      end
  | _ => None
  end.

(** The successful claims of a history. *)
Fixpoint claims g (tr : list Extrinsic) : list (AccountId * RuleId * Epoch * AttestationId) :=
  match tr with
  | [] => []
  | x :: tr => option_list (claim_of x (run g tr)) ++ claims g tr
  end.

(** How many of them are by [who], for [rule], in [epoch]. *)
Definition claims_in g tr who rule epoch : Z :=
  Z.of_nat (length (filter (λ c, c.1 = (who, rule, epoch)) (claims g tr))).

(** A successful call either claims a reward, in the way [claim_reward_ok] says,
    or is no claim and leaves every counter. *)
Lemma exec_claim x s s' u :
  exec x s = (s', Ok u) →
  (∃ id who att rule, x_call x = ClaimReward id ∧
     sm_get (st_attestations s) id = Some att ∧ claimable (x_env x) s who att rule ∧
     claim_of x s = Some (who, ra_rule_id att, current_epoch (x_env x), id) ∧
     s' = mkState (st_rules s) (st_next_rule_id s)
            (sm_insert id (mark_used att) (st_attestations s)) (st_next_attestation_id s)
            (sm_insert (who, ra_rule_id att) (claimed (x_env x) s who (ra_rule_id att)) (st_claims s))
            (st_events s ++ [RewardClaimed who (ra_rule_id att) id (rr_amount rule)])) ∨
  (claim_of x s = None ∧ st_claims s' = st_claims s).
Proof.
  intros Hd. unfold claim_of. rewrite Hd. unfold exec in Hd. destruct (x_call x) eqn:Hx.
  3:{ left. simpl in Hd. apply claim_reward_ok in Hd as (who & att & rule & Ho & Ha & Hc & ->).
      exists attestation_id, who, att, rule. rewrite Ho. simpl. rewrite Ha. by split_and!. }
  all: right; split; [done|].
  - by apply create_rule_ok in Hd as (_ & _ & ->).
  - by apply rewards_attestation_ok in Hd as (? & ? & _ & _ & _ & _ & ->).
  - by apply award_manual_ok in Hd as (_ & ->).
  - by apply rewards_revoke_ok in Hd as (? & ? & ? & _ & _ & _ & _ & ->).
Qed.

Lemma claim_of_err x s s' e : exec x s = (s', Err e) → claim_of x s = None.
Proof. intros Hd. unfold claim_of. rewrite Hd. by destruct (x_call x). Qed.

Lemma claims_in_cons g x tr who rule epoch :
  claims_in g (x :: tr) who rule epoch =
    (match claim_of x (run g tr) with
     | Some c => if decide (c.1 = (who, rule, epoch)) then 1 else 0
     | None => 0
     end) + claims_in g tr who rule epoch.
Proof.
  unfold claims_in. simpl. destruct (claim_of x (run g tr)) as [c|]; simpl; [|done].
  rewrite filter_cons. case_decide; simpl; lia.
Qed.

(** ** An attestation is claimed once *)

(** The identifiers claimed with, all of them spent. *)
Definition claimed_ids g tr : list AttestationId := (λ c, c.2) <$> claims g tr.

Definition spent s (id : AttestationId) : Prop :=
  0 ≤ id < st_next_attestation_id s ∧
  ∀ att, sm_get (st_attestations s) id = Some att → ra_used att = true.

Lemma claimed_stays_spent x s s' u id :
  in_range MaxAttestations (st_next_attestation_id s) → exec x s = (s', Ok u) →
  spent s id → spent s' id.
Proof.
  intros Hn Hd [Hid Hu]. pose proof MaxAttestations_range as Hm.
  unfold exec in Hd. destruct (x_call x); simpl in Hd.
  - by apply create_rule_ok in Hd as (_ & _ & ->).
  - apply rewards_attestation_ok in Hd as (? & ? & _ & _ & _ & Hlt & ->).
    unfold spent, sat_add, in_range, u32_max, u64_max in *; simpl. split; [lia|].
    intros att. rewrite sm_get_insert. case_decide; [lia|by apply Hu].
  - apply claim_reward_ok in Hd as (? & ? & ? & _ & _ & _ & ->). split; [done|]. simpl.
    intros att. rewrite sm_get_insert. case_decide; [by intros [= <-]|by apply Hu].
  - by apply award_manual_ok in Hd as (_ & ->).
  - apply rewards_revoke_ok in Hd as (? & ? & ? & _ & _ & _ & _ & ->). split; [done|]. simpl.
    intros att. rewrite sm_get_remove. case_decide; [done|by apply Hu].
Qed.

Lemma claimed_ids_spent g tr :
  genesis_wf g → history tr →
  NoDup (claimed_ids g tr) ∧ Forall (spent (run g tr)) (claimed_ids g tr).
Proof.
  intros Hg Ht. assert (wf (run g tr) ∧ NoDup (claimed_ids g tr) ∧
    Forall (spent (run g tr)) (claimed_ids g tr)) as (_ & ?); [|done].
  revert tr Ht. induction tr as [|x tr IH]; intros Ht.
  { split_and!; [by apply run_wf|constructor..]. }
  pose proof Ht as (_ & _ & _ & Htr). destruct (IH Htr) as (Hwf & Hnd & Hsp). clear IH.
  split; [by apply run_wf|]. unfold claimed_ids in *. simpl.
  destruct (exec x (run g tr)) as [s' [u|e]] eqn:Hd; simpl.
  2:{ rewrite (claim_of_err _ _ _ _ Hd). by apply rewards_dispatch_err in Hd as ->. }
  assert (Forall (spent s') ((λ c, c.2) <$> claims g tr)) as Hsp'
    by (eapply Forall_impl; [done|]; intros; eapply claimed_stays_spent; eauto; apply Hwf).
  apply exec_claim in Hd as [(id & who & att & rule & _ & Ha & Hc & -> & ->)|[-> _]]; [|done].
  simpl. destruct Hc as (_ & Hu & _). split; constructor; try done.
  - intros Hin. rewrite Forall_forall in Hsp. apply Hsp in Hin as [_ Hin].
    apply Hin in Ha. congruence.
  - apply (wf_attestations _ Hwf) in Ha as [? _]. split; [done|]. simpl.
    intros a. rewrite sm_get_insert_eq. by intros [= <-].
Qed.

Lemma claims_bound g tr :
  genesis_wf g → history tr →
  Z.of_nat (length (claims g tr)) ≤ st_next_attestation_id (run g tr) ≤ MaxAttestations.
Proof.
  intros Hg Ht. destruct (claimed_ids_spent g tr) as [Hnd Hsp]; [done..|].
  destruct (wf_next_attestation _ (run_wf g tr Hg Ht)) as [Hn Hm]. split; [|done].
  unfold claimed_ids in *. rewrite <- (length_fmap (λ c, c.2)).
  apply NoDup_length_below; [done|done|]. eapply Forall_impl; [done|]. by intros ? [? _].
Qed.

(** C5: an attestation buys at most one reward: over any history no identifier
    occurs twice among the successful claims, and so the number of rewards
    ever claimed is at most the number of attestations created, which is at
    most [MaxAttestations]. *)
Theorem attestation_claimed_once g tr :
  genesis_wf g → history tr →
  NoDup (claimed_ids g tr) ∧
  Z.of_nat (length (claims g tr)) ≤ st_next_attestation_id (run g tr) ≤ MaxAttestations.
Proof. intros Hg Ht. split; [by apply claimed_ids_spent | by apply claims_bound]. Qed.

(** ** The counters count *)

(** The epoch of a block. *)
Definition epoch_at (bn : Z) : Epoch := current_epoch {| now_as_millis := 0; block_number := bn |}.

Lemma epoch_at_env env : epoch_at (block_number env) = current_epoch env.
Proof. reflexivity. Qed.

(** The counter of an account for a rule is from an epoch that has begun; it
    holds the number of claims of that epoch (as a [u32]), and there are none
    of a later epoch. *)
Definition counter_wf g tr s who rule : Prop :=
  let cc := counter s who rule in
  cc_epoch cc ≤ epoch_at (clock tr) ∧
  cc_count cc = Z.min (claims_in g tr who rule (cc_epoch cc)) u32_max ∧
  ∀ e, cc_epoch cc < e → claims_in g tr who rule e = 0.

Lemma claims_so_far_eq g tr s who rule e :
  counter_wf g tr s who rule → epoch_at (clock tr) ≤ e →
  claims_so_far e (counter s who rule) = Z.min (claims_in g tr who rule e) u32_max.
Proof.
  intros (Hle & Hc & Hlater) He. unfold claims_so_far.
  destruct (Z.eqb_spec (cc_epoch (counter s who rule)) e) as [<-|Hne]; [done|].
  rewrite Hlater by lia. done.
Qed.

Lemma epoch_at_le bn bn' : 0 ≤ bn ≤ bn' → epoch_at bn ≤ epoch_at bn'.
Proof. intros. by apply current_epoch_le. Qed.

Lemma counter_wf_same g x tr s s' who rule :
  history (x :: tr) → st_claims s' = st_claims s →
  (∀ e, claims_in g (x :: tr) who rule e = claims_in g tr who rule e) →
  counter_wf g tr s who rule → counter_wf g (x :: tr) s' who rule.
Proof.
  intros (Hclk & _ & _ & Ht) Hs Hin (Hle & Hc & Hlater). unfold counter_wf.
  assert (counter s' who rule = counter s who rule) as -> by (unfold counter; by rewrite Hs).
  split_and!; [|by rewrite Hin|intros e He; rewrite Hin; by apply Hlater].
  etrans; [done|]. apply epoch_at_le. split; [by apply clock_nonneg|done].
Qed.

Lemma run_counter_wf g tr who rule :
  genesis_wf g → history tr → counter_wf g tr (run g tr) who rule.
Proof.
  intros Hg. induction tr as [|x tr IH]; intros Ht.
  { unfold counter_wf, counter. simpl. destruct (genesis_state_wf g Hg) as [_ ->].
    rewrite sm_get_empty. split_and!; try done. change (0 ≤ epoch_at 0).
    unfold epoch_at, current_epoch; simpl. case_match; [done|]. bools.
    rewrite saturated_into_eq by lia. by rewrite Z.div_0_l. }
  pose proof Ht as (Hclk & _ & _ & Htr). specialize (IH Htr). simpl.
  destruct (exec x (run g tr)) as [s' [u|e]] eqn:Hd; simpl.
  2:{ pose proof (claim_of_err _ _ _ _ Hd) as Hn. apply rewards_dispatch_err in Hd as ->.
      eapply counter_wf_same; eauto. intros ?. by rewrite claims_in_cons, Hn. }
  apply exec_claim in Hd as [(id & w & att & r & _ & _ & _ & Hcl & ->)|[Hn Hs]].
  2:{ eapply counter_wf_same; eauto. intros ?. by rewrite claims_in_cons, Hn. }
  assert (epoch_at (clock tr) ≤ current_epoch (x_env x)) as Hep.
  { apply (epoch_at_le _ (block_number (x_env x))). split; [by apply clock_nonneg|done]. }
  destruct (decide ((w, ra_rule_id att) = (who, rule))) as [Heq|Hne].
  - simplify_eq. unfold counter_wf, counter; simpl. rewrite sm_get_insert_eq. simpl. split_and!.
    + done.
    + rewrite claims_in_cons, Hcl, decide_True by done.
      rewrite (claims_so_far_eq g tr) by done. unfold sat_add, u32_max. lia.
    + intros e He. rewrite claims_in_cons, Hcl, decide_False by (simpl; intros [= Heq]; lia).
      destruct IH as (? & _ & Hl). apply Hl. lia.
  - assert (counter_wf g (x :: tr) (run g tr) who rule) as Hcw.
    { eapply counter_wf_same; eauto. intros e. rewrite claims_in_cons, Hcl.
      rewrite decide_False by (simpl; naive_solver). done. }
    unfold counter_wf in *. unfold counter in *. simpl. by rewrite sm_get_insert_ne by done.
Qed.

Lemma claims_in_le g tr who rule e : claims_in g tr who rule e ≤ Z.of_nat (length (claims g tr)).
Proof. unfold claims_in. pose proof (length_filter (λ c, c.1 = (who, rule, e)) (claims g tr)). lia. Qed.

(** Along a history, an account that has claimed for a rule (below the last
    identifier) has claimed within the rule's limit. *)
Lemma run_claims_limit g tr who rule e :
  genesis_wf g → history tr → rule < u32_max → 0 < claims_in g tr who rule e →
  ∃ r, sm_get (st_rules (run g tr)) rule = Some r ∧ claims_in g tr who rule e ≤ rr_max_per_epoch r.
Proof.
  intros Hg Ht Hr. induction tr as [|x tr IH]; [done|].
  pose proof Ht as (Hclk & _ & _ & Htr). specialize (IH Htr).
  pose proof (run_wf _ _ Hg Htr) as Hwf. pose proof (claims_bound g _ Hg Ht) as Hbound.
  pose proof (claims_in_le g (x :: tr) who rule e) as Hle. pose proof MaxAttestations_range as [_ Hm].
  pose proof (run_counter_wf g tr who rule Hg Htr) as Hcw.
  assert (∀ c, claims_in g (x :: tr) who rule e = c + claims_in g tr who rule e → c = 0 →
    0 < claims_in g (x :: tr) who rule e →
    ∃ r, sm_get (st_rules (run g (x :: tr))) rule = Some r ∧
      claims_in g (x :: tr) who rule e ≤ rr_max_per_epoch r) as Hsame.
  { intros c -> ->. rewrite Z.add_0_l. intros (r & Hget & ?)%IH. exists r. split; [|done]. simpl.
    destruct (exec x (run g tr)) as [s' [u|er]] eqn:Hd; simpl.
    - eapply rule_kept; eauto using wf_rules.
    - by apply rewards_dispatch_err in Hd as ->. }
  destruct (exec x (run g tr)) as [s' [u|er]] eqn:Hd.
  2:{ apply (Hsame 0); [|done]. by rewrite claims_in_cons, (claim_of_err _ _ _ _ Hd). }
  pose proof (exec_claim _ _ _ _ Hd) as [(id & w & att & r & _ & _ & Hcl & Hco & Hs')|[Hn _]].
  2:{ apply (Hsame 0); [|done]. by rewrite claims_in_cons, Hn. }
  destruct (decide ((w, ra_rule_id att, current_epoch (x_env x)) = (who, rule, e))) as [Heq|Hne].
  2:{ apply (Hsame 0); [|done]. by rewrite claims_in_cons, Hco, decide_False. }
  intros _. injection Heq as -> <- <-. destruct Hcl as (_ & _ & _ & Hget & Hlim).
  exists r. split; [simpl; by rewrite Hd, Hs'|].
  assert (epoch_at (clock tr) ≤ current_epoch (x_env x)) as Hep.
  { apply (epoch_at_le _ (block_number (x_env x))). split; [by apply clock_nonneg|done]. }
  rewrite (claims_so_far_eq g tr) in Hlim by done.
  revert Hle. rewrite claims_in_cons, Hco, decide_True by done. unfold sat_add, u32_max in *. lia.
Qed.

(** C4: the per-epoch limit holds over whole histories.  As long as blocks come
    in order, the number of rewards an account claims for a rule within an
    epoch never exceeds the rule's [max_per_epoch], whatever the other calls
    in between and however often the epoch's counter is reset.  (The last rule
    identifier, [u32::MAX], is excepted: such a rule can be replaced.) *)
Theorem epoch_limit_respected g tr who rule r epoch :
  genesis_wf g → history tr → rule < u32_max →
  sm_get (st_rules (run g tr)) rule = Some r →
  claims_in g tr who rule epoch ≤ rr_max_per_epoch r.
Proof.
  intros Hg Ht Hr Hget. destruct (decide (0 < claims_in g tr who rule epoch)) as [Hpos|Hz].
  - destruct (run_claims_limit g tr who rule epoch Hg Ht Hr Hpos) as (r' & Hget' & ?).
    by simplify_eq.
  - destruct (wf_rules _ (run_wf g tr Hg Ht)) as [_ Hrs]. apply Hrs in Hget as (_ & _ & [? _]). lia.
Qed.

(** The stored counter of an account for a rule is exact: in a history with
    blocks in order it holds the number of successful claims of the epoch it
    names, that epoch has begun, and no claim of a later epoch exists. *)
Theorem claim_counter_exact g tr who rule :
  genesis_wf g → history tr →
  let cc := counter (run g tr) who rule in
  cc_epoch cc ≤ epoch_at (clock tr) ∧
  cc_count cc = claims_in g tr who rule (cc_epoch cc) ∧
  ∀ e, cc_epoch cc < e → claims_in g tr who rule e = 0.
Proof.
  intros Hg Ht. destruct (run_counter_wf g tr who rule Hg Ht) as (? & Hc & ?). split_and!; try done.
  rewrite Hc. pose proof (claims_bound g tr Hg Ht). pose proof MaxAttestations_range as [_ Hm].
  pose proof (claims_in_le g tr who rule (cc_epoch (counter (run g tr) who rule))). lia.
Qed.

(** * The calls *)

Lemma claim_reward_run env origin id s :
  claim_reward env origin id s =
    match ensure_signed_opt origin, sm_get (st_attestations s) id with
    | None, _ => (s, Err BadOrigin)
    | _, None => (s, Err (ModuleError AttestationNotFound))
    | Some who, Some att =>
        if decide (ra_subject att = who) then
          if ra_used att then (s, Err (ModuleError AttestationUsed))
          else if match ra_expires_at att with Some exp => exp <? now_millis env | None => false end
          then (s, Err (ModuleError AttestationExpired))
          else match sm_get (st_rules s) (ra_rule_id att) with
               | None => (s, Err (ModuleError RuleNotFound))
               | Some rule =>
                   if decide (cc_count (claimed env s who (ra_rule_id att)) ≤ rr_max_per_epoch rule) then
                     (mkState (st_rules s) (st_next_rule_id s)
                        (sm_insert id (mark_used att) (st_attestations s)) (st_next_attestation_id s)
                        (sm_insert (who, ra_rule_id att) (claimed env s who (ra_rule_id att)) (st_claims s))
                        (st_events s ++ [RewardClaimed who (ra_rule_id att) id (rr_amount rule)]), Ok tt)
                   else (s, Err (ModuleError ExceedsLimit))
               end
        else (s, Err (ModuleError InvalidInput))
    end.
Proof.
  unfold claim_reward. rewrite with_storage_layer_run. st_run.
  destruct (ensure_signed_opt origin) as [who|]; st_run; [|done].
  destruct (sm_get (st_attestations s) id) as [att|] eqn:Ha; st_run; [|done].
  case_decide as Hw; [rewrite bool_decide_eq_true_2 by done | by rewrite bool_decide_eq_false_2 by done].
  st_run. destruct (ra_used att); st_run; [done|].
  destruct (ra_expires_at att) as [exp|]; st_run; [rewrite Z.ltb_antisym; destruct (now_millis env <=? exp)|];
    st_run; try done.
  all: destruct (sm_get (st_rules s) (ra_rule_id att)) as [rule|]; st_run; [|done].
  all: fold (counter s who (ra_rule_id att)).
  all: case_decide as Hle; simpl in Hle;
    [rewrite (proj2 (Z.leb_le _ _) Hle) | rewrite (proj2 (Z.leb_gt _ _)) by lia]; by st_run.
Qed.

(** [claim_reward] on every branch: an unsigned origin, an unknown
    attestation, one for another subject, a used one, an expired one, one whose
    rule is gone and one claim too many for the epoch are refused, in this
    order, with nothing changed.  Otherwise the attestation becomes used, the
    caller's counter for the rule goes to the current epoch and one up, the
    claim is reported, and nothing else changes: no account is paid. *)
Theorem claim_reward_outcome env origin id s :
  claim_reward env origin id s =
    match ensure_signed_opt origin, sm_get (st_attestations s) id with
    | None, _ => (s, Err BadOrigin)
    | _, None => (s, Err (ModuleError AttestationNotFound))
    | Some who, Some att =>
        if decide (ra_subject att = who) then
          if ra_used att then (s, Err (ModuleError AttestationUsed))
          else if match ra_expires_at att with Some exp => exp <? now_millis env | None => false end
          then (s, Err (ModuleError AttestationExpired))
          else match sm_get (st_rules s) (ra_rule_id att) with
               | None => (s, Err (ModuleError RuleNotFound))
               | Some rule =>
                   if decide (cc_count (claimed env s who (ra_rule_id att)) ≤ rr_max_per_epoch rule) then
                     (mkState (st_rules s) (st_next_rule_id s)
                        (sm_insert id (mark_used att) (st_attestations s)) (st_next_attestation_id s)
                        (sm_insert (who, ra_rule_id att) (claimed env s who (ra_rule_id att)) (st_claims s))
                        (st_events s ++ [RewardClaimed who (ra_rule_id att) id (rr_amount rule)]), Ok tt)
                   else (s, Err (ModuleError ExceedsLimit))
               end
        else (s, Err (ModuleError InvalidInput))
    end.
Proof. apply claim_reward_run. Qed.

Lemma create_attestation_run env origin subject rule_id exp md s who rule :
  ensure_signed_opt origin = Some who → sm_get (st_rules s) rule_id = Some rule →
  (rr_club rule = None → ManualAwardOrigin (signed who) = true) →
  st_next_attestation_id s < MaxAttestations →
  create_attestation env origin subject rule_id exp md s =
    (mkState (st_rules s) (st_next_rule_id s)
       (sm_insert (st_next_attestation_id s)
          (new_attestation env subject rule_id who exp md) (st_attestations s))
       (sat_add u64_max (st_next_attestation_id s) 1) (st_claims s)
       (st_events s ++ [AttestationCreated (st_next_attestation_id s) subject rule_id who]), Ok tt).
Proof.
  intros Ho Hr Hm Hlt. unfold create_attestation. apply storage_layer_ok_intro.
  st_run. rewrite Ho. st_run. rewrite Hr. st_run.
  destruct (rr_club rule); st_run; rewrite ?Hm by done; st_run;
    rewrite (proj2 (Z.ltb_lt _ _) Hlt); by st_run.
Qed.

(** Anyone can reward itself under a rule of a club.  Given such a rule, any
    signed account, member of the club or not, attests itself, and claims with
    that attestation in the same block, as long as attestations are left and
    its own counter for the rule has room: both calls succeed. *)
Theorem self_attested_reward env origin rule_id rule club s who :
  ensure_signed_opt origin = Some who →
  sm_get (st_rules s) rule_id = Some rule → rr_club rule = Some club →
  st_next_attestation_id s < MaxAttestations →
  cc_count (claimed env s who rule_id) ≤ rr_max_per_epoch rule →
  ∃ s1 s2, create_attestation env origin who rule_id None None s = (s1, Ok tt) ∧
    claim_reward env origin (st_next_attestation_id s) s1 = (s2, Ok tt) ∧
    counter s2 who rule_id = claimed env s who rule_id ∧
    st_events s2 = (st_events s ++ [AttestationCreated (st_next_attestation_id s) who rule_id who])
                     ++ [RewardClaimed who rule_id (st_next_attestation_id s) (rr_amount rule)].
Proof.
  intros Ho Hr Hclub Hlt Hc. do 2 eexists. split_and!.
  - eapply create_attestation_run; eauto. congruence.
  - rewrite claim_reward_run, Ho. simpl. rewrite sm_get_insert_eq. simpl.
    rewrite decide_True by done. rewrite Hr. rewrite decide_True by done. reflexivity.
  - unfold counter at 1; simpl. by rewrite sm_get_insert_eq.
  - done.
Qed.

(** Nobody but an account [ManualAwardOrigin] admits can attest for a rule
    without a club: after any history, a claim under such a rule (below the
    last identifier) succeeds only with an attestation such an account made. *)
Theorem global_rule_claims_attested g tr env origin id s' u rule att :
  genesis_wf g → history tr →
  claim_reward env origin id (run g tr) = (s', Ok u) →
  sm_get (st_attestations (run g tr)) id = Some att → ra_rule_id att < u32_max →
  sm_get (st_rules (run g tr)) (ra_rule_id att) = Some rule → rr_club rule = None →
  ensure_signed_opt origin = Some (ra_subject att) ∧
  ManualAwardOrigin (signed (ra_attestor att)) = true.
Proof.
  intros Hg Ht Hd Ha Hid Hr Hclub.
  apply claim_reward_ok in Hd as (who & att' & _ & Ho & Ha' & (Hs & _) & _). simplify_eq.
  split; [done|]. apply (wf_attestations _ (run_wf g tr Hg Ht)) in Ha' as (_ & _ & Hm).
  by apply (Hm Hid _ Hr).
Qed.

(** A revoked attestation pays nothing: after [revoke_attestation], which
    only the attestor of a club rule, or an account [ManualAwardOrigin] admits,
    can call with success, no claim with that identifier ever succeeds. *)
Theorem revoked_attestation_unclaimable g tr x id who att rule more env origin :
  genesis_wf g → history (more ++ x :: tr) → x_call x = RevokeAttestation id →
  is_ok (snd (exec x (run g tr))) = true →
  ensure_signed_opt (x_origin x) = Some who →
  sm_get (st_attestations (run g tr)) id = Some att →
  sm_get (st_rules (run g tr)) (ra_rule_id att) = Some rule →
  (who = ra_attestor att ∨ ManualAwardOrigin (signed who) = true) ∧
  is_ok (snd (claim_reward env origin id (run g (more ++ x :: tr)))) = false.
Proof.
  intros Hg Ht Hx Hok Hw Ha Hr.
  assert (history (x :: tr)) as Htx.
  { revert Ht. clear. induction more as [|y more IH]; [done|]. intros (_ & _ & _ & Hh). by apply IH. }
  pose proof Htx as (_ & _ & _ & Htr).
  destruct (exec x (run g tr)) as [s1 [u|e]] eqn:Hd; [|done]. pose proof Hd as Hd'.
  unfold exec in Hd'. rewrite Hx in Hd'. simpl in Hd'.
  apply rewards_revoke_ok in Hd' as (w & att' & rule' & Ho & Ha' & Hr' & Hby & ->).
  simplify_eq. split; [destruct (rr_club rule); auto|].
  apply (wf_attestations _ (run_wf g tr Hg Htr)) in Ha as [Hid _].
  assert (spent (run g (more ++ x :: tr)) id) as [_ Hsp].
  { assert (wf (run g (more ++ x :: tr)) ∧ spent (run g (more ++ x :: tr)) id) as [_ ?]; [|done].
    clear Hok. revert Ht. induction more as [|y more IH]; intros Ht.
    - simpl. split; [by apply (run_wf g (x :: tr))|]. rewrite Hd. split; [done|]. simpl.
      intros a. by rewrite sm_get_remove_eq.
    - pose proof Ht as (_ & _ & _ & Hm). destruct (IH Hm) as [Hwf Hsp].
      split; [by apply (run_wf g ((y :: more) ++ x :: tr))|]. simpl.
      destruct (exec y (run g (more ++ x :: tr))) as [s2 [u2|e2]] eqn:Hd2; simpl.
      + eapply claimed_stays_spent; eauto. apply Hwf.
      + by apply rewards_dispatch_err in Hd2 as ->. }
  destruct (claim_reward env origin id _) as [s3 [u3|e3]] eqn:Hc; [|done].
  apply claim_reward_ok in Hc as (? & att2 & ? & _ & Ha2 & (_ & Hu & _) & _).
  apply Hsp in Ha2. congruence.
Qed.

(** The last rule is not safe.  A genesis rule with identifier [u32::MAX]
    leaves the rule counter at [u32::MAX], and the next [create_rule] replaces
    that rule. *)
Theorem last_genesis_rule_overwritten env origin ev amount m club md rule s' u :
  create_rule env origin ev amount m club md (genesis_build [(u32_max, rule)]) = (s', Ok u) →
  sm_get (st_rules (genesis_build [(u32_max, rule)])) u32_max = Some rule ∧
  sm_get (st_rules s') u32_max =
    Some {| rr_event_type := ev; rr_amount := amount; rr_max_per_epoch := m;
            rr_club := club; rr_metadata := md |}.
Proof.
  intros Hd. apply create_rule_ok in Hd as (_ & _ & ->). simpl.
  assert (sat_add u32_max u32_max 1 = u32_max) as -> by done. by rewrite !sm_get_insert_eq.
Qed.

End RewardsProps.

(** * Witnesses: the theorems at concrete histories *)

#[local] Existing Instance concrete_frame.
#[local] Existing Instance concrete_system.

(** Root makes rules; root and account 1 may award by hand; epochs of ten
    blocks. *)
Definition example_config : Config.
Proof.
  refine {| RuleCreationOrigin := λ o, match o with MockRoot => true | _ => false end;
            ManualAwardOrigin := λ o, match o with MockRoot | MockSigned 1 => true | _ => false end;
            EpochLengthInBlocks := 10; MaxAttestations := 100; Balance_max := u128_max |}; done.
Defined.
#[local] Existing Instance example_config.

Definition at_block (bn : Z) : Env := {| now_as_millis := 1000 * bn; block_number := bn |}.
Definition by_at (who bn : Z) (c : Call) : Extrinsic :=
  {| x_env := at_block bn; x_origin := by_user who; x_call := c |}.

(** Rule 0 of club 3 gives one reward per epoch, the global rule 1 two. *)
Definition example_rule (club : option Z) (max : Z) : RewardRule :=
  {| rr_event_type := [Byte.x61]; rr_amount := 50; rr_max_per_epoch := max; rr_club := club;
     rr_metadata := None |}.
Definition example_genesis : list (RuleId * RewardRule) :=
  [(0, example_rule (Some 3) 1); (1, example_rule None 2)].

(** Account 7 attests itself three times for rule 0; two claims fall in epoch 0
    (the second is refused) and one in epoch 1.  Account 1 attests account 8 for
    rule 1, and revokes. *)
Definition example_history : list Extrinsic :=
  [ by_at 8 15 (ClaimReward 3);
    by_at 1 14 (RevokeAttestation 4);
    by_at 1 13 (CreateAttestation (user 8) 1 None None);
    by_at 7 12 (ClaimReward 2);
    by_at 1 11 (CreateAttestation (user 8) 1 None None);
    by_at 7 5 (ClaimReward 1);
    by_at 7 4 (ClaimReward 0);
    by_at 7 3 (CreateAttestation (user 7) 0 None None);
    by_at 7 2 (CreateAttestation (user 7) 0 None None);
    by_at 7 1 (CreateAttestation (user 7) 0 None None) ].

Lemma example_genesis_wf : genesis_wf example_genesis.
Proof. repeat constructor; simpl; unfold in_range, u32_max; simpl; lia. Qed.

Lemma example_history_ok : history example_history.
Proof. simpl. repeat split; lia. Qed.

Lemma rewards_invariant_witness :
  genesis_wf example_genesis ∧ history example_history ∧ wf (run example_genesis example_history).
Proof.
  split_and!; [apply example_genesis_wf | apply example_history_ok |].
  apply rewards_invariant; [apply example_genesis_wf | apply example_history_ok].
Defined.

Lemma attestation_claimed_once_witness :
  claimed_ids example_genesis example_history = [3; 2; 0] ∧
  NoDup (claimed_ids example_genesis example_history).
Proof.
  split; [vm_compute; reflexivity|].
  apply attestation_claimed_once; [apply example_genesis_wf | apply example_history_ok].
Defined.

Lemma epoch_limit_respected_witness :
  claims_in example_genesis example_history (user 7) 0 0 = 1 ∧
  claims_in example_genesis example_history (user 7) 0 1 = 1 ∧
  claims_in example_genesis example_history (user 7) 0 1 ≤ rr_max_per_epoch (example_rule (Some 3) 1).
Proof.
  split_and!; [vm_compute; reflexivity..|].
  apply epoch_limit_respected;
    [apply example_genesis_wf | apply example_history_ok | reflexivity | vm_compute; reflexivity].
Defined.

Lemma claim_counter_exact_witness :
  counter (run example_genesis example_history) (user 7) 0 = {| cc_epoch := 1; cc_count := 1 |} ∧
  ∀ e, 1 < e → claims_in example_genesis example_history (user 7) 0 e = 0.
Proof.
  split; [vm_compute; reflexivity|].
  destruct (claim_counter_exact example_genesis example_history (user 7) 0) as (_ & _ & Hl);
    [apply example_genesis_wf | apply example_history_ok |].
  intros e He. apply Hl. vm_compute. vm_compute in He. exact He.
Defined.

Lemma self_attested_reward_witness :
  let s := genesis_build example_genesis in
  ∃ s1 s2, create_attestation (at_block 1) (by_user 7) (user 7) 0 None None s = (s1, Ok tt) ∧
    claim_reward (at_block 1) (by_user 7) 0 s1 = (s2, Ok tt).
Proof.
  intros s.
  destruct (self_attested_reward (at_block 1) (by_user 7) 0 (example_rule (Some 3) 1) 3 s (user 7))
    as (s1 & s2 & H1 & H2 & _); [reflexivity | reflexivity | reflexivity | reflexivity | vm_compute; discriminate |].
  exists s1, s2. split; [exact H1 | exact H2].
Defined.

Lemma global_rule_claims_attested_witness :
  let s := run example_genesis (tail example_history) in
  is_ok (snd (claim_reward (at_block 15) (by_user 8) 3 s)) = true ∧
  ManualAwardOrigin (signed (user 1)) = true.
Proof.
  intros s. split; [vm_compute; reflexivity|].
  destruct (global_rule_claims_attested example_genesis (tail example_history) (at_block 15) (by_user 8) 3
    (fst (claim_reward (at_block 15) (by_user 8) 3 s)) tt (example_rule None 2)
    (new_attestation (at_block 11) (user 8) 1 (user 1) None None)) as [_ H];
    [apply example_genesis_wf | apply example_history_ok | vm_compute; reflexivity
    | vm_compute; reflexivity | reflexivity | vm_compute; reflexivity | reflexivity |].
  exact H.
Defined.

Lemma revoked_attestation_unclaimable_witness :
  is_ok (snd (claim_reward (at_block 16) (by_user 8) 4 (run example_genesis example_history))) = false.
Proof.
  destruct (revoked_attestation_unclaimable example_genesis (skipn 2 example_history)
    (by_at 1 14 (RevokeAttestation 4)) 4 (user 1)
    (new_attestation (at_block 13) (user 8) 1 (user 1) None None) (example_rule None 2)
    [by_at 8 15 (ClaimReward 3)] (at_block 16) (by_user 8)) as [_ H];
    [apply example_genesis_wf | apply example_history_ok | reflexivity | vm_compute; reflexivity
    | reflexivity | vm_compute; reflexivity | vm_compute; reflexivity |].
  exact H.
Defined.

Lemma last_genesis_rule_overwritten_witness :
  let rule := example_rule None 2 in
  let s' := fst (create_rule (at_block 1) by_root [Byte.x62] 7 1 None None (genesis_build [(u32_max, rule)])) in
  sm_get (st_rules (genesis_build [(u32_max, rule)])) u32_max = Some rule ∧
  rr_amount <$> sm_get (st_rules s') u32_max = Some 7.
Proof.
  intros rule s'.
  destruct (last_genesis_rule_overwritten (at_block 1) by_root [Byte.x62] 7 1 None None rule s' tt)
    as [H1 H2]; [vm_compute; reflexivity|].
  split; [exact H1 | by rewrite H2].
Defined.
