(* ===== verification/RewardsSpec.v ===== *)
(** The rewards against a reference: the first refusal that applies, and otherwise
    the storage a call leaves. *)

From S2P Require Export RewardsProps.
#[local] Open Scope Z_scope.

Section Reference.
  Context {F : Frame} {Sys : System} {Cfg : Config}.
  Implicit Types (env : Env) (origin : RuntimeOrigin) (s : State).

(** The attestations with the event [e]. *)
Definition with_attestations (next : AttestationId) (atts : smap AttestationId Attestation) (e : Event) s : State :=
  mkState (st_rules s) (st_next_rule_id s) atts next (st_claims s) (st_events s ++ [e]).

(** A signed call about an attestation, with the attestation. *)
Definition about_attestation origin (id : AttestationId) s
    (k : AccountId → Attestation → result State (DispatchError Error)) : result State (DispatchError Error) :=
  match ensure_signed_opt origin, sm_get (st_attestations s) id with
  | None, _ => Err BadOrigin
  | Some _, None => Err (ModuleError AttestationNotFound)
  | Some who, Some att => k who att
  end.

(** May [who] attest for a rule: for a rule of a club anyone, otherwise those who may award by hand. *)
Definition may_attest (rule : RewardRule) (who : AccountId) : bool :=
  match rr_club rule with Some _ => true | None => ManualAwardOrigin (signed who) end.

(** May [who] revoke an attestation of a rule. *)
Definition may_revoke (rule : RewardRule) (att : Attestation) (who : AccountId) : bool :=
  match rr_club rule with
  | Some _ => bool_decide (who = ra_attestor att)
  | None => ManualAwardOrigin (signed who)
  end.

Definition reference env origin (call : Call) s : result State (DispatchError Error) :=
  match call with
  | CreateRule ev amount m club md =>
      if negb (RuleCreationOrigin origin) then Err BadOrigin
      else if decide (Z.of_nat (length ev) ≤ 32) then
        let id := st_next_rule_id s in
        let rule := {| rr_event_type := ev; rr_amount := amount; rr_max_per_epoch := m;
                       rr_club := club; rr_metadata := md |} in
        Ok (mkState (sm_insert id rule (st_rules s)) (sat_add u32_max id 1) (st_attestations s)
              (st_next_attestation_id s) (st_claims s) (st_events s ++ [RuleCreated id]))
      else Err (ModuleError InvalidInput)
  | CreateAttestation subject rule_id exp md =>
      match ensure_signed_opt origin, sm_get (st_rules s) rule_id with
      | None, _ => Err BadOrigin
      | Some _, None => Err (ModuleError RuleNotFound)
      | Some attestor, Some rule =>
          let id := st_next_attestation_id s in
          if negb (may_attest rule attestor) then Err (ModuleError NotAuthorizedAttestor)
          else if decide (id < MaxAttestations) then
            let att := {| ra_subject := subject; ra_rule_id := rule_id; ra_attestor := attestor;
                          ra_created_at := now_millis env; ra_expires_at := exp; ra_used := false;
                          ra_metadata := md |} in
            Ok (with_attestations (sat_add u64_max id 1) (sm_insert id att (st_attestations s))
                  (AttestationCreated id subject rule_id attestor) s)
          else Err (ModuleError AttestationsOverflow)
      end
  | ClaimReward id =>
      about_attestation origin id s (λ who att,
        if decide (ra_subject att ≠ who) then Err (ModuleError InvalidInput)
        else if ra_used att then Err (ModuleError AttestationUsed)
        else if match ra_expires_at att with Some exp => bool_decide (exp < now_millis env) | None => false end
        then Err (ModuleError AttestationExpired)
        else match sm_get (st_rules s) (ra_rule_id att) with
        | None => Err (ModuleError RuleNotFound)
        | Some rule =>
            let epoch := current_epoch env in
            let so_far := claims_so_far epoch
              (default ClaimCounter_default (sm_get (st_claims s) (who, ra_rule_id att))) in
            if decide (sat_add u32_max so_far 1 ≤ rr_max_per_epoch rule) then
              let c := {| cc_epoch := epoch; cc_count := sat_add u32_max so_far 1 |} in
              Ok (mkState (st_rules s) (st_next_rule_id s) (sm_insert id (mark_used att) (st_attestations s))
                    (st_next_attestation_id s) (sm_insert (who, ra_rule_id att) c (st_claims s))
                    (st_events s ++ [RewardClaimed who (ra_rule_id att) id (rr_amount rule)]))
            else Err (ModuleError ExceedsLimit)
        end)
  | AwardManual to amount reason =>
      if ManualAwardOrigin origin
      then Ok (with_attestations (st_next_attestation_id s) (st_attestations s) (RewardAwarded to amount reason) s)
      else Err BadOrigin
  | RevokeAttestation id =>
      about_attestation origin id s (λ who att,
        match sm_get (st_rules s) (ra_rule_id att) with
        | None => Err (ModuleError RuleNotFound)
        | Some rule =>
            if may_revoke rule att who
            then Ok (with_attestations (st_next_attestation_id s) (sm_remove id (st_attestations s))
                       (AttestationRevoked id) s)
            else Err (ModuleError NotAuthorizedAttestor)
        end)
  end.

#[local] Hint Unfold about_attestation with_attestations may_attest may_revoke : reference.

(** C8: every call of the rewards does what the reference says, on every branch: the
    first of the listed refusals that applies, with nothing changed, or exactly the
    storage listed.  Claims and awards change no balance: their amount appears in
    the event alone. *)
Theorem rewards_reference env origin c s :
  dispatch env origin c s = concluded s (reference env origin c s).
Proof.
  destruct c; cbn [dispatch reference].
  - unfold create_rule. run_reference.
  - unfold create_attestation. run_reference.
  - unfold claim_reward. run_reference.
  - unfold award_manual. run_reference.
  - unfold revoke_attestation. run_reference.
Qed.
End Reference.
