(* ===== verification/ProposalRouter.v ===== *)
(** pallet-proposal-router (src/pallets/proposal-router/src/lib.rs): proposals
    to run an encoded call, votes on them, and their execution as the pallet's
    account.  The membership checks are commented out in the source, and are
    absent here too. *)

From S2P Require Export Frame Weights.
#[local] Open Scope Z_scope.

Abbreviation ProposalId := Z (only parsing).   (* u64 *)
Abbreviation ClubId := Z (only parsing).
Abbreviation Votes := Z (only parsing).        (* u32 *)
Abbreviation BlockNumber := Z (only parsing).

Inductive Scope : Type :=
| Club (club : ClubId)
| Global.

#[global] Instance Scope_eq_dec : EqDecision Scope.
Proof. solve_decision. Defined.

Record Proposal `{System} : Type := {
  pr_id : ProposalId;
  pr_proposer : AccountId;
  pr_scope : Scope;
  pr_call : list Byte.byte;                 (* SCALE-encoded runtime call *)
  pr_metadata : option (list Byte.byte);    (* BoundedVec<u8, MaxMetadataLen> *)
  pr_start : BlockNumber;
  pr_end : BlockNumber;
  pr_yea : Votes;
  pr_nay : Votes;
  pr_executed : bool;
  pr_voters : list AccountId;               (* BoundedVec<AccountId, MaxVotersPerProposal> *)
  pr_quorum : Votes;
  pr_pass_threshold : Z;                    (* u32, percent * 100 *)
  pr_club : option ClubId
}.

Inductive Event `{System} : Type :=
| ProposalCreated (id : ProposalId) (proposer : AccountId) (is_club_scoped : bool)
| Voted (id : ProposalId) (who : AccountId) (aye : bool) (weight : Votes)
| ProposalExecuted (id : ProposalId)
| ProposalFailed (id : ProposalId) (reason : list Byte.byte)
| ProposalCancelled (id : ProposalId).

Inductive Error : Type :=
| ProposalNotFound
| VotingClosed
| AlreadyVoted
| NotEligibleToPropose
| NotMember
| NotClubMember
| NotAuthorized
| ProposalAlreadyExecuted
| ExecutionFailed
| MetadataTooLarge
| VotersOverflow
| ClubIndexOverflow
| InvalidCallEncoding
| QuorumNotReached
| ProposalNotPassed.

#[global] Instance Router_Error_eq_dec : EqDecision Error.
Proof. solve_decision. Defined.

(** ** Storage *)

Record State `{Frame, System} : Type := mkState {
  st_next_proposal_id : ProposalId;
  st_proposals : smap ProposalId Proposal;
  st_club_proposals : smap ClubId (list ProposalId);   (* BoundedVec<_, ConstU32<1024>> *)
  st_events : list Event
}.

Arguments mkState {_ _}.

(** [Config].  Executing a proposal runs a call of the whole runtime, so the
    calls act on the router's storage together with [Rest], the storage of all
    other pallets.  Decoding and dispatching a runtime call, encoding its error,
    and [into_account_truncating] are not part of the repository: they are
    parameters. *)
Class Config `{Frame, System} := {
  Rest : Type;
  RuntimeCall : Type;
  CallError : Type;
  decode_call : list Byte.byte → option RuntimeCall;
  dispatch_call : Env → RuntimeCall → RuntimeOrigin → State * Rest →
    (State * Rest) * result unit CallError;
  encode_error : CallError → list Byte.byte;
  into_account_truncating : list Byte.byte → AccountId;
  BlockNumber_max : Z;
  MaxMetadataLen : Z;
  MaxVotersPerProposal : Z;
  DefaultVotingPeriod : Z;
  DefaultQuorum : Votes;
  DefaultPassThreshold : Z;
  RouterAdminOrigin : RuntimeOrigin → bool;
  MaxMetadataLen_range : in_range u32_max MaxMetadataLen;
  MaxVotersPerProposal_range : in_range u32_max MaxVotersPerProposal;
  DefaultVotingPeriod_range : in_range BlockNumber_max DefaultVotingPeriod;
  DefaultQuorum_range : in_range u32_max DefaultQuorum;
  DefaultPassThreshold_range : in_range u32_max DefaultPassThreshold
}.

(** The storage a call of the router runs on. *)
Definition World `{Config} : Type := State * Rest.

Section Storage.
  Context {F : Frame} {Sys : System} {Cfg : Config}.

Definition NextProposalId : StorageItem World ProposalId := {|
  item_get w := st_next_proposal_id (fst w);
  item_set v w := (mkState v (st_proposals (fst w)) (st_club_proposals (fst w)) (st_events (fst w)),
                   snd w)
|}.

Definition Proposals : StorageItem World (smap ProposalId Proposal) := {|
  item_get w := st_proposals (fst w);
  item_set v w := (mkState (st_next_proposal_id (fst w)) v (st_club_proposals (fst w))
                     (st_events (fst w)), snd w)
|}.

Definition ClubProposals : StorageItem World (smap ClubId (list ProposalId)) := {|
  item_get w := st_club_proposals (fst w);
  item_set v w := (mkState (st_next_proposal_id (fst w)) (st_proposals (fst w)) v
                     (st_events (fst w)), snd w)
|}.

Definition deposit_event (e : Event) : Dispatch World Error unit :=
  modify (λ w, (mkState (st_next_proposal_id (fst w)) (st_proposals (fst w))
                  (st_club_proposals (fst w)) (st_events (fst w) ++ [e]), snd w)).

Lemma run_router_event e (w : World) :
  deposit_event e w =
    ((mkState (st_next_proposal_id (fst w)) (st_proposals (fst w))
        (st_club_proposals (fst w)) (st_events (fst w) ++ [e]), snd w), Ok tt).
Proof. reflexivity. Qed.

(** ** The account of the pallet *)

(** The array [id] starts as eight zeros and receives the first eight bytes. *)
Definition pallet_id_from_bytes (b : list Byte.byte) : list Byte.byte :=
  foldl (λ id ib, <[fst ib := snd ib]> id) (replicate 8 Byte.x00)
    (imap (λ i byte, (i, byte)) (take 8 b)).

(** [b"proposal_r"]. *)
Definition entropy : list Byte.byte :=
  [Byte.x70; Byte.x72; Byte.x6f; Byte.x70; Byte.x6f; Byte.x73; Byte.x61; Byte.x6c; Byte.x5f; Byte.x72].

Definition pallet_account : AccountId := into_account_truncating (pallet_id_from_bytes entropy).

End Storage.

#[export] Hint Unfold NextProposalId Proposals ClubProposals : items.
#[export] Hint Rewrite @run_router_event : st.

(** ** Dispatchables *)

Section Calls.
  Context {F : Frame} {Sys : System} {Cfg : Config}.
  Implicit Types (env : Env) (origin : RuntimeOrigin).

(** The closure of [ClubProposals::mutate]: push to the index, or start one.
    What it leaves is stored whether it returns [Ok] or [Err]. *)
Definition index_proposal (id : ProposalId) (maybe : option (list ProposalId))
    : option (list ProposalId) * result unit Error :=
  match maybe with
  | Some vec =>
      match bv_try_push 1024 vec id with
      | Some vec => (Some vec, Ok tt)
      | None => (Some vec, Err ClubIndexOverflow)
      end
  | None =>
      match bv_try_push 1024 [] id with
      | Some v => (Some v, Ok tt)
      | None => (None, Err ClubIndexOverflow)
      end
  end.

(** [r?] for a result of the pallet's own errors. *)
Definition question_mark (r : result unit Error) : Dispatch World Error unit :=
  match r with Ok a => mret a | Err e => throw (ModuleError e) end.

Definition propose env origin (scope : Scope) (call : list Byte.byte)
    (metadata : option (list Byte.byte)) (voting_period : option BlockNumber)
    (quorum : option Votes) (pass_threshold : option Z) : Dispatch World Error unit :=
  with_storage_layer (
    who ← ensure_signed origin;
    metadata_bounded ← match metadata with
      | Some md =>
          let max := MaxMetadataLen in
          ensure_err (Z.of_nat (length md) <=? max) MetadataTooLarge;;
          md ← ok_or_err (bv_try_from MaxMetadataLen md) MetadataTooLarge;
          mret (Some md)
      | None => mret None
      end;
    id ← get_value NextProposalId;
    let start := block_number env in
    let period := default DefaultVotingPeriod voting_period in
    let end_ := sat_add BlockNumber_max start period in
    let q := default DefaultQuorum quorum in
    let pt := default DefaultPassThreshold pass_threshold in
    voters ← ok_or_err (bv_try_from MaxVotersPerProposal []) VotersOverflow;
    let proposal := {|
      pr_id := id; pr_proposer := who; pr_scope := scope; pr_call := call;
      pr_metadata := metadata_bounded; pr_start := start; pr_end := end_;
      pr_yea := 0; pr_nay := 0; pr_executed := false; pr_voters := voters;
      pr_quorum := q; pr_pass_threshold := pt;
      pr_club := match scope with Club cid => Some cid | Global => None end |} in
    insert_map Proposals id proposal;;
    match scope with
    | Club cid =>
        r ← try_mutate ClubProposals cid (λ maybe, mret (index_proposal id maybe));
        question_mark r
    | Global => mret tt
    end;;
    put_value NextProposalId (sat_add u64_max id 1);;
    let is_club_scoped := match scope with Club _ => true | Global => false end in
    deposit_event (ProposalCreated id who is_club_scoped)).

(** The proposal with one vote more. *)
Definition record_vote (aye : bool) (p : Proposal) : Proposal :=
  {| pr_id := pr_id p; pr_proposer := pr_proposer p; pr_scope := pr_scope p; pr_call := pr_call p;
     pr_metadata := pr_metadata p; pr_start := pr_start p; pr_end := pr_end p;
     pr_yea := if aye then sat_add u32_max (pr_yea p) 1 else pr_yea p;
     pr_nay := if aye then pr_nay p else sat_add u32_max (pr_nay p) 1;
     pr_executed := pr_executed p; pr_voters := pr_voters p; pr_quorum := pr_quorum p;
     pr_pass_threshold := pr_pass_threshold p; pr_club := pr_club p |}.

Definition set_voters (voters : list AccountId) (p : Proposal) : Proposal :=
  {| pr_id := pr_id p; pr_proposer := pr_proposer p; pr_scope := pr_scope p; pr_call := pr_call p;
     pr_metadata := pr_metadata p; pr_start := pr_start p; pr_end := pr_end p;
     pr_yea := pr_yea p; pr_nay := pr_nay p; pr_executed := pr_executed p; pr_voters := voters;
     pr_quorum := pr_quorum p; pr_pass_threshold := pr_pass_threshold p; pr_club := pr_club p |}.

Definition set_executed (p : Proposal) : Proposal :=
  {| pr_id := pr_id p; pr_proposer := pr_proposer p; pr_scope := pr_scope p; pr_call := pr_call p;
     pr_metadata := pr_metadata p; pr_start := pr_start p; pr_end := pr_end p;
     pr_yea := pr_yea p; pr_nay := pr_nay p; pr_executed := true; pr_voters := pr_voters p;
     pr_quorum := pr_quorum p; pr_pass_threshold := pr_pass_threshold p; pr_club := pr_club p |}.

Definition vote env origin (proposal_id : ProposalId) (aye : bool) : Dispatch World Error unit :=
  with_storage_layer (
    who ← ensure_signed origin;
    try_mutate Proposals proposal_id (λ maybe,
      p ← ok_or_err maybe ProposalNotFound;
      let now := block_number env in
      ensure_err ((pr_start p <=? now) && (now <=? pr_end p)) VotingClosed;;
      ensure_err (negb (existsb (λ v, bool_decide (v = who)) (pr_voters p))) AlreadyVoted;;
      let p := record_vote aye p in
      voters ← ok_or_err (bv_try_push MaxVotersPerProposal (pr_voters p) who) VotersOverflow;
      let p := set_voters voters p in
      deposit_event (Voted proposal_id who aye 1);;
      mret (Some p, tt))).

Definition total_votes (p : Proposal) : Votes := sat_add u32_max (pr_yea p) (pr_nay p).

(** The share of ayes in percent * 100, in [u32] arithmetic. *)
Definition pass_percent_x100 (p : Proposal) : Z :=
  let total_votes := total_votes p in
  if total_votes =? 0 then 0
  else let numerator := sat_mul u32_max (pr_yea p) 10000 in numerator / total_votes.

(** [decoded_call.dispatch(pallet_origin)]: the outcome is a value, and the
    writes of the dispatched call are in place. *)
Definition run_call env (c : RuntimeCall) (o : RuntimeOrigin)
    : Dispatch World Error (result unit CallError) :=
  λ w, let '(w', r) := dispatch_call env c o w in (w', Ok r).

Definition execute env origin (proposal_id : ProposalId) : Dispatch World Error unit :=
  with_storage_layer (
    ensure_signed origin;;
    try_mutate Proposals proposal_id (λ maybe,
      p ← ok_or_err maybe ProposalNotFound;
      ensure_err (negb (pr_executed p)) ProposalAlreadyExecuted;;
      let now := block_number env in
      ensure_err (pr_end p <? now) VotingClosed;;
      ensure_err (pr_quorum p <=? total_votes p) QuorumNotReached;;
      ensure_err (pr_pass_threshold p <=? pass_percent_x100 p) ProposalNotPassed;;
      decoded_call ← ok_or_err (decode_call (pr_call p)) InvalidCallEncoding;
      let pallet_origin := signed pallet_account in
      result ← run_call env decoded_call pallet_origin;
      let p := set_executed p in
      match result with
      | Ok _info => deposit_event (ProposalExecuted proposal_id);; mret (Some p, tt)
      | Err err =>
          let err_bytes := encode_error err in
          deposit_event (ProposalFailed proposal_id err_bytes);;
          throw (ModuleError ExecutionFailed)
      end)).

Definition cancel env origin (proposal_id : ProposalId) : Dispatch World Error unit :=
  with_storage_layer (
    ensure_origin RouterAdminOrigin origin;;
    try_mutate Proposals proposal_id (λ maybe,
      ok_or_err maybe ProposalNotFound;;
      mret (None, tt));;
    deposit_event (ProposalCancelled proposal_id)).

Inductive Call : Type :=
| Propose (scope : Scope) (call : list Byte.byte) (metadata : option (list Byte.byte))
    (voting_period : option BlockNumber) (quorum : option Votes) (pass_threshold : option Z)
| Vote (proposal_id : ProposalId) (aye : bool)
| Execute (proposal_id : ProposalId)
| Cancel (proposal_id : ProposalId).

Definition dispatch env origin (c : Call) : Dispatch World Error unit :=
  match c with
  | Propose scope call md period q pt => propose env origin scope call md period q pt
  | Vote id aye => vote env origin id aye
  | Execute id => execute env origin id
  | Cancel id => cancel env origin id
  end.

(** The storage of a fresh chain: the pallet has no genesis configuration. *)
Definition genesis : State := mkState 0 sm_empty sm_empty [].

Lemma run_run_call env c o w :
  run_call env c o w = (fst (dispatch_call env c o w), Ok (snd (dispatch_call env c o w))).
Proof. unfold run_call. by destruct (dispatch_call env c o w). Qed.

Lemma run_question_mark r w :
  question_mark r w = (w, match r with Ok a => Ok a | Err e => Err (ModuleError e) end).
Proof. by destruct r. Qed.

Lemma index_proposal_eq id maybe :
  index_proposal id maybe =
    if Z.of_nat (length (default [] maybe)) <? 1024
    then (Some (default [] maybe ++ [id]), Ok tt) else (maybe, Err ClubIndexOverflow).
Proof.
  unfold index_proposal. destruct maybe as [vec|]; simpl; rewrite bv_try_push_eq; [|done].
  by destruct (_ <? 1024).
Qed.

End Calls.

#[global] Arguments record_vote : simpl never.
#[global] Arguments set_voters : simpl never.
#[global] Arguments set_executed : simpl never.
#[global] Arguments index_proposal : simpl never.
#[global] Arguments run_call : simpl never.
#[global] Arguments total_votes : simpl never.
#[global] Arguments pass_percent_x100 : simpl never.
#[global] Arguments pallet_id_from_bytes : simpl never.
#[global] Arguments pallet_account : simpl never.

#[export] Hint Rewrite @run_run_call @run_question_mark @index_proposal_eq : st.

(** * Weights *)

(** The trait [WeightInfo], and the weight each dispatchable is annotated with. *)
Record WeightInfo : Type := {
  w_propose : Weight;
  w_vote : Weight;
  w_execute : Weight;
  w_cancel : Weight
}.

Definition call_weight `{System} (w : WeightInfo) (c : Call) : Weight :=
  match c with
  | Propose _ _ _ _ _ _ => w_propose w
  | Vote _ _ => w_vote w
  | Execute _ => w_execute w
  | Cancel _ => w_cancel w
  end.
