(* ===== verification/RouterRuns.v ===== *)
(** What the router's calls do: inversion lemmas for the successful ones, and the
    runs of a block, in which executions contain runs of their own. *)

From S2P Require Export Concrete ProposalRouter.
#[local] Open Scope Z_scope.

Section RouterRuns.
  Context {F : Frame} {Sys : System} {Cfg : Config}.
  Implicit Types (env : Env) (origin : RuntimeOrigin) (w : World).

Definition proposal_of w (id : ProposalId) : option Proposal := sm_get (st_proposals (fst w)) id.

(** The index of a club, empty when there is none. *)
Definition club_index w (club : ClubId) : list ProposalId :=
  default [] (sm_get (st_club_proposals (fst w)) club).

(** * Inversion lemmas *)

Definition new_proposal env who scope call md period q pt id : Proposal := {|
  pr_id := id; pr_proposer := who; pr_scope := scope; pr_call := call; pr_metadata := md;
  pr_start := block_number env;
  pr_end := sat_add BlockNumber_max (block_number env) (default DefaultVotingPeriod period);
  pr_yea := 0; pr_nay := 0; pr_executed := false; pr_voters := [];
  pr_quorum := default DefaultQuorum q; pr_pass_threshold := default DefaultPassThreshold pt;
  pr_club := match scope with Club cid => Some cid | Global => None end |}.

Definition is_club (scope : Scope) : bool := match scope with Club _ => true | Global => false end.

(** The world after a proposal. *)
Definition proposed env who scope call md period q pt w : World :=
  let id := st_next_proposal_id (fst w) in
  (mkState (sat_add u64_max id 1)
     (sm_insert id (new_proposal env who scope call md period q pt id) (st_proposals (fst w)))
     (match scope with
      | Club cid => sm_insert cid (club_index w cid ++ [id]) (st_club_proposals (fst w))
      | Global => st_club_proposals (fst w)
      end)
     (st_events (fst w) ++ [ProposalCreated id who (is_club scope)]), snd w).

(** The guards of [propose]. *)
Definition proposable scope (md : option (list Byte.byte)) w : Prop :=
  (∀ m, md = Some m → Z.of_nat (length m) ≤ MaxMetadataLen) ∧
  (∀ cid, scope = Club cid → Z.of_nat (length (club_index w cid)) < 1024).

Lemma MaxVoters_nonneg : (Z.of_nat 0 <=? MaxVotersPerProposal) = true.
Proof. apply Z.leb_le. simpl. apply MaxVotersPerProposal_range. Qed.

Lemma propose_ok env origin scope call md period q pt w w' u :
  propose env origin scope call md period q pt w = (w', Ok u) →
  ∃ who, ensure_signed_opt origin = Some who ∧ proposable scope md w ∧
  w' = proposed env who scope call md period q pt w.
Proof.
  unfold propose, proposable, proposed, club_index. intros Hr. inv_ok Hr; eexists; split_and!;
    try reflexivity; intros; simplify_eq; done.
Qed.

Lemma propose_run env origin scope call md period q pt w who :
  ensure_signed_opt origin = Some who → proposable scope md w →
  propose env origin scope call md period q pt w =
    (proposed env who scope call md period q pt w, Ok tt).
Proof.
  intros Ho [Hm Hc]. unfold propose. apply storage_layer_ok_intro. st_run. rewrite Ho. st_run.
  destruct md as [m|]; st_run;
    [rewrite (proj2 (Z.leb_le _ _) (Hm _ eq_refl)); st_run|].
  all: rewrite MaxVoters_nonneg; st_run.
  all: destruct scope as [cid|]; st_run;
    [fold (club_index w cid); rewrite (proj2 (Z.ltb_lt _ _) (Hc _ eq_refl)); st_run|]; done.
Qed.

Lemma vote_ok env origin id aye w w' u :
  vote env origin id aye w = (w', Ok u) →
  ∃ who p, ensure_signed_opt origin = Some who ∧ proposal_of w id = Some p ∧
  pr_start p ≤ block_number env ≤ pr_end p ∧ ¬ (who ∈ pr_voters p) ∧
  Z.of_nat (length (pr_voters p)) < MaxVotersPerProposal ∧
  w' = (mkState (st_next_proposal_id (fst w))
          (sm_insert id (set_voters (pr_voters p ++ [who]) (record_vote aye p)) (st_proposals (fst w)))
          (st_club_proposals (fst w)) (st_events (fst w) ++ [Voted id who aye 1]), snd w).
Proof.
  unfold vote, proposal_of. intros Hr. inv_ok Hr. do 2 eexists. split_and!; try done.
  by apply existsb_not_elem.
Qed.

(** The guards of [execute]. *)
Definition executable env (p : Proposal) : Prop :=
  pr_executed p = false ∧ pr_end p < block_number env ∧ pr_quorum p ≤ total_votes p ∧
  pr_pass_threshold p ≤ pass_percent_x100 p.

(** [execute] writes back the proposal it read before the dispatch. *)
Definition executed_world (id : ProposalId) (p : Proposal) w1 : World :=
  (mkState (st_next_proposal_id (fst w1)) (sm_insert id (set_executed p) (st_proposals (fst w1)))
     (st_club_proposals (fst w1)) (st_events (fst w1) ++ [ProposalExecuted id]), snd w1).

Lemma execute_ok env origin id w w' u :
  execute env origin id w = (w', Ok u) →
  ∃ who p c w1 v, ensure_signed_opt origin = Some who ∧ proposal_of w id = Some p ∧
  executable env p ∧ decode_call (pr_call p) = Some c ∧
  dispatch_call env c (signed pallet_account) w = (w1, Ok v) ∧
  w' = executed_world id p w1.
Proof.
  unfold execute, proposal_of, executable, executed_world. intros Hr. inv_ok Hr.
  destruct (dispatch_call _ _ _ _) as [w1 r1] eqn:Hd. simpl in *. simplify_eq.
  do 5 eexists. by split_and!.
Qed.

Lemma cancel_ok env origin id w w' u :
  cancel env origin id w = (w', Ok u) →
  RouterAdminOrigin origin = true ∧ is_Some (proposal_of w id) ∧
  w' = (mkState (st_next_proposal_id (fst w)) (sm_remove id (st_proposals (fst w)))
          (st_club_proposals (fst w)) (st_events (fst w) ++ [ProposalCancelled id]), snd w).
Proof. unfold cancel, proposal_of. intros Hr. inv_ok Hr. by split_and!. Qed.

Lemma router_dispatch_err env origin c w w' e : dispatch env origin c w = (w', Err e) → w' = w.
Proof. destruct c; apply storage_layer_err. Qed.

(** * Runs *)

(** What can happen to the storage in a block with environment [env], when what is
    proposed satisfies [args].  The router's storage is private to its pallet: it
    changes only by the router's calls, also while a proposal's call is being
    dispatched.  An execution therefore contains a run of its own, between reading the
    proposal and writing it back. *)
Inductive runs_with (args : Call → Prop) env : World → World → Prop :=
| runs_nil w : runs_with args env w w
| runs_trans w1 w2 w3 : runs_with args env w1 w2 → runs_with args env w2 w3 → runs_with args env w1 w3
| runs_rest w (r : Rest) : runs_with args env w (fst w, r)
| runs_propose origin scope call md period q pt w w' u :
    args (Propose scope call md period q pt) →
    propose env origin scope call md period q pt w = (w', Ok u) → runs_with args env w w'
| runs_vote origin id aye w w' u : vote env origin id aye w = (w', Ok u) → runs_with args env w w'
| runs_cancel origin id w w' u : cancel env origin id w = (w', Ok u) → runs_with args env w w'
| runs_execute id p w w1 :
    proposal_of w id = Some p → executable env p → runs_with args env w w1 →
    runs_with args env w (executed_world id p w1).

(** The runtime's dispatch respects the privacy of the router's storage, and proposes
    only with arguments in [args]. *)
Definition dispatch_respects_with (args : Call → Prop) : Prop :=
  ∀ env c o w w1 v, dispatch_call env c o w = (w1, Ok v) → runs_with args env w w1.

Lemma dispatch_runs_with args env origin c w w' u :
  dispatch_respects_with args → args c → dispatch env origin c w = (w', Ok u) → runs_with args env w w'.
Proof.
  intros Hresp Hargs. destruct c; cbn [dispatch]; intros Hd.
  - by eapply runs_propose.
  - by eapply runs_vote.
  - apply execute_ok in Hd as (who & p & c & w1 & v & _ & Hp & Hex & _ & Hd & ->).
    eapply runs_execute; eauto.
  - by eapply runs_cancel.
Qed.

(** Runs with any arguments. *)
Definition any_args (c : Call) : Prop := True.
Definition runs env : World → World → Prop := runs_with any_args env.
Definition dispatch_respects : Prop := dispatch_respects_with any_args.

Lemma dispatch_runs env origin c w w' u :
  dispatch_respects → dispatch env origin c w = (w', Ok u) → runs env w w'.
Proof. intros Hresp. by apply dispatch_runs_with. Qed.

(** Worlds reachable from a fresh chain, in blocks of any numbers. *)
Definition step w w' : Prop := ∃ env, runs env w w'.
Definition reach : World → Prop := reachable (λ w, fst w = genesis) step.

End RouterRuns.

(** Case analysis on a run. *)
Ltac run_cases Hr :=
  induction Hr as
    [ w | w1 w2 w3 _ IH1 _ IH2 | w r | origin scope call md period q pt w w' u Harg Hd
    | origin pid aye w w' u Hd | origin pid w w' u Hd | pid p w w1 Hp Hex Hr IH ];
  [ | | | apply propose_ok in Hd as (who & Ho & Hpr & ->)
    | apply vote_ok in Hd as (who & p & Ho & Hp & Hwin & Hnew & Hroom & ->)
    | apply cancel_ok in Hd as (Ho & Hsome & ->) | ].
