(* ===== verification/RouterProps.v ===== *)
(** Properties of pallet-proposal-router: ballots agree with the votes reported,
    nobody votes twice, voting and execution exclude each other, an executed
    proposal never runs again, the threshold test and where its [u32]
    arithmetic fails, and what the missing checks allow. *)

From S2P Require Export RouterRuns.
#[local] Open Scope Z_scope.

Section RouterProps.
  Context {F : Frame} {Sys : System} {Cfg : Config}.
  Implicit Types (env : Env) (origin : RuntimeOrigin) (w : World).

(** ** What grows *)

(** Identifiers are not taken back, and club indices only grow. *)
Definition grows w w' : Prop :=
  st_next_proposal_id (fst w) ≤ st_next_proposal_id (fst w') ∧
  ∀ club, club_index w club `prefix_of` club_index w' club.

#[local] Instance grows_preorder : PreOrder grows.
Proof.
  split; [by split|]. intros w1 w2 w3 [? H1] [? H2]. split; [lia|]. intros c. by trans (club_index w2 c).
Qed.

Lemma runs_grow env w w' :
  runs env w w' → in_range u64_max (st_next_proposal_id (fst w)) →
  grows w w' ∧ in_range u64_max (st_next_proposal_id (fst w')).
Proof.
  intros Hr. run_cases Hr; intros Hn; try done.
  - destruct (IH1 Hn) as [? Hn2]. destruct (IH2 Hn2). split; [by trans w2|done].
  - unfold in_range in *. split; [split|]; simpl; unfold sat_add; [lia| |lia].
    intros club. destruct scope as [cid|]; [|done].
    unfold club_index; simpl. rewrite sm_get_insert. case_decide; subst; [|done].
    simpl. by apply prefix_app_r.
  - destruct (IH Hn) as [[? ?] ?]. done.
Qed.

(** ** Votes *)

(** The votes on a proposal, as the events report them. *)
Definition vote_event (id : ProposalId) (e : Event) : option (AccountId * bool) :=
  match e with
  | Voted i who aye _ => if decide (i = id) then Some (who, aye) else None
  | _ => None
  end.
Definition votes_of w (id : ProposalId) : list (AccountId * bool) :=
  omap (vote_event id) (st_events (fst w)).

Definition ayes (l : list (AccountId * bool)) : Z := Z.of_nat (length (filter (λ v, v.2 = true) l)).
Definition nays (l : list (AccountId * bool)) : Z := Z.of_nat (length (filter (λ v, v.2 = false) l)).

Lemma votes_of_app n props idx evs e (rest : Rest) id :
  votes_of (mkState n props idx (evs ++ [e]), rest) id =
    omap (vote_event id) evs ++ option_list (vote_event id e).
Proof. unfold votes_of; simpl. rewrite omap_app; simpl. by destruct (vote_event id e). Qed.

(** A proposal whose voting is over gets no more votes in the same block. *)
Definition closed env w (id : ProposalId) : Prop :=
  in_range u64_max (st_next_proposal_id (fst w)) ∧ id < st_next_proposal_id (fst w) ∧
  ∀ p, proposal_of w id = Some p → pr_end p < block_number env.

Lemma closed_runs env w w' id :
  runs env w w' → closed env w id → closed env w' id ∧ votes_of w' id = votes_of w id.
Proof.
  intros Hr. run_cases Hr; intros Hc.
  - done.
  - destruct (IH1 Hc) as [H2 E2]. destruct (IH2 H2) as [H3 E3]. split; [done|congruence].
  - done.
  - destruct Hc as ([? ?] & Hlt & Hend). unfold closed, in_range, proposal_of, proposed, sat_add in *.
    rewrite votes_of_app. simpl. rewrite app_nil_r. split; [|done]. split_and!; [lia..|].
    intros p. rewrite sm_get_insert. case_decide; [lia|by apply Hend].
  - destruct Hc as (Hn & Hlt & Hend). unfold closed, proposal_of in *. rewrite votes_of_app; simpl.
    rewrite sm_get_insert. destruct (decide (pid = id)) as [->|Hne].
    + apply Hend in Hp. lia.
    + rewrite app_nil_r. by split_and!.
  - destruct Hc as (Hn & Hlt & Hend). unfold closed, proposal_of in *. rewrite votes_of_app; simpl.
    rewrite app_nil_r, sm_get_remove. split; [|done]. split_and!; try done.
    intros p. case_decide; [done|by apply Hend].
  - destruct (IH Hc) as [(Hn & Hlt & Hend) <-]. split.
    + split_and!; try done. unfold proposal_of; simpl. intros p'. rewrite sm_get_insert.
      case_decide; [|by apply Hend]. intros [= <-]. apply Hex.
    + unfold executed_world. rewrite votes_of_app. simpl. by rewrite app_nil_r.
Qed.

(** * The ballot invariant *)

(** Proposal identifiers are handed out in order until the counter saturates. *)
Definition proposal_id_wf w (id : ProposalId) : Prop :=
  in_range u64_max id ∧ (id < st_next_proposal_id (fst w) ∨ st_next_proposal_id (fst w) = u64_max).

(** The ballot of a proposal: one entry per voter, within the bound, and as many
    ayes and nays as voters. *)
Definition ballot_wf (p : Proposal) : Prop :=
  NoDup (pr_voters p) ∧ Z.of_nat (length (pr_voters p)) ≤ MaxVotersPerProposal ∧
  0 ≤ pr_yea p ∧ 0 ≤ pr_nay p ∧ pr_yea p + pr_nay p = Z.of_nat (length (pr_voters p)).

(** The ballot is the record of the votes reported. *)
Definition tally_wf w (id : ProposalId) (p : Proposal) : Prop :=
  pr_voters p = (votes_of w id).*1 ∧ pr_yea p = ayes (votes_of w id) ∧
  pr_nay p = nays (votes_of w id).

Definition proposal_wf w (id : ProposalId) (p : Proposal) : Prop :=
  pr_id p = id ∧ proposal_id_wf w id ∧ ballot_wf p ∧
  pr_club p = (match pr_scope p with Club c => Some c | Global => None end) ∧
  (∀ c, pr_scope p = Club c → id ∈ club_index w c) ∧
  (id < u64_max → tally_wf w id p).

Record wf w : Prop := {
  wf_next_proposal : in_range u64_max (st_next_proposal_id (fst w));
  wf_proposals : ∀ id p, proposal_of w id = Some p → proposal_wf w id p;
  wf_index : ∀ c, Z.of_nat (length (club_index w c)) ≤ 1024;
  wf_no_votes : ∀ id, st_next_proposal_id (fst w) ≤ id → id < u64_max → votes_of w id = []
}.

(** Only the ballot and the identity of a proposal count, so marking it executed
    is harmless; and other proposals keep what a change around them grows. *)
Lemma proposal_wf_grow w w' id p :
  proposal_wf w id p → grows w w' → in_range u64_max (st_next_proposal_id (fst w')) →
  (id < u64_max → votes_of w' id = votes_of w id) → proposal_wf w' id p.
Proof.
  intros (? & [? Hid] & ? & ? & Hidx & Ht) [Hle Hpre] Hn Hv. unfold in_range in *. split_and!; try done.
  - split; [done|lia].
  - intros c Hc. eapply elem_of_prefix; eauto.
  - intros Hlt. unfold tally_wf in *. rewrite Hv by done. by apply Ht.
Qed.

Lemma wf_propose env who scope call md period q pt w :
  wf w → proposable scope md w → wf (proposed env who scope call md period q pt w).
Proof.
  intros Hwf [Hmd Hroom]. pose proof Hwf as [Hn Hp Hi Hv].
  set (w' := proposed env who scope call md period q pt w).
  assert (st_next_proposal_id (fst w') = sat_add u64_max (st_next_proposal_id (fst w)) 1) as Hnext by done.
  assert (grows w w' ∧ in_range u64_max (st_next_proposal_id (fst w'))) as [Hgrow Hn'].
  { unfold in_range, sat_add in *. split; [split|]; simpl; unfold sat_add; [lia| |lia].
    intros club. destruct scope as [cid|]; [|done].
    unfold club_index; simpl. rewrite sm_get_insert. case_decide; subst; [|done].
    simpl. by apply prefix_app_r. }
  assert (∀ id, votes_of w' id = votes_of w id) as Hvotes.
  { intros id. unfold w', proposed. rewrite votes_of_app. simpl. by rewrite app_nil_r. }
  assert (proposal_id_wf w' (st_next_proposal_id (fst w))) as Hidwf.
  { unfold proposal_id_wf. rewrite Hnext. unfold in_range, sat_add in *. lia. }
  assert (∀ c, club_index w' c =
    if decide (scope = Club c) then club_index w c ++ [st_next_proposal_id (fst w)]
    else club_index w c) as Hci.
  { intros c. unfold w', proposed, club_index; simpl. destruct scope as [cid|]; [|done].
    rewrite sm_get_insert. repeat case_decide; simplify_eq; done. }
  split; [done| | |].
  - intros id p. change (proposal_of w' id) with
      (sm_get (sm_insert (st_next_proposal_id (fst w)) (new_proposal env who scope call md period q pt
         (st_next_proposal_id (fst w))) (st_proposals (fst w))) id).
    rewrite sm_get_insert. case_decide as Hid; intros Hg; [subst id; injection Hg as <-|].
    + split_and!; try done.
      * split_and!; simpl; [constructor|apply MaxVotersPerProposal_range|lia..].
      * simpl. intros c ->. rewrite Hci, decide_True by done. set_solver.
      * intros Hlt. unfold tally_wf. rewrite Hvotes, Hv by lia. by split_and!.
    + eapply proposal_wf_grow; eauto.
  - intros c. rewrite Hci. case_decide; [|apply Hi]. rewrite length_app. simpl.
    specialize (Hroom c H). lia.
  - intros id. rewrite Hvotes, Hnext. unfold in_range, sat_add in *. intros. apply Hv; lia.
Qed.

Lemma wf_vote w id who aye p :
  wf w → proposal_of w id = Some p → ¬ (who ∈ pr_voters p) →
  Z.of_nat (length (pr_voters p)) < MaxVotersPerProposal →
  wf (mkState (st_next_proposal_id (fst w))
        (sm_insert id (set_voters (pr_voters p ++ [who]) (record_vote aye p)) (st_proposals (fst w)))
        (st_club_proposals (fst w)) (st_events (fst w) ++ [Voted id who aye 1]), snd w).
Proof.
  intros Hwf Hget Hnew Hroom. pose proof Hwf as [Hn Hp Hi Hv].
  pose proof MaxVotersPerProposal_range as [_ Hmax].
  destruct (Hp _ _ Hget) as (Hid & Hidwf & (Hnd & Hlen & Hy & Hna & Hsum) & Hclub & Hidx & Ht).
  split; [done| |done|].
  - intros id' p'. unfold proposal_of; simpl. rewrite sm_get_insert. case_decide as Hd.
    + subst id'. intros [= <-].
      assert (sat_add u32_max (pr_yea p) 1 = pr_yea p + 1) as Hya by (apply sat_add_exact; lia).
      assert (sat_add u32_max (pr_nay p) 1 = pr_nay p + 1) as Hnb by (apply sat_add_exact; lia).
      unfold set_voters, record_vote. split_and!; simpl; try done.
      * unfold ballot_wf; simpl. rewrite length_app; simpl.
        split_and!; [|lia|destruct aye; lia..]. apply NoDup_app. split_and!; [done| |apply NoDup_singleton].
        intros x Hx ->%list_elem_of_singleton. done.
      * intros Hlt. destruct (Ht Hlt) as (Hvs & Hys & Hns). unfold tally_wf.
        rewrite votes_of_app. simpl. rewrite decide_True by done. fold (votes_of w id). simpl.
        unfold ayes, nays in *. rewrite fmap_app, !filter_app, !length_app, <- Hvs. simpl.
        split_and!; [done|destruct aye; simpl; lia..].
    + intros Hg. eapply proposal_wf_grow; [by apply Hp| |done|].
      * by split.
      * intros _. rewrite votes_of_app. simpl. rewrite decide_False by done. by rewrite app_nil_r.
  - intros id' Hle Hlt. simpl in Hle. rewrite votes_of_app; simpl. fold (votes_of w id').
    rewrite Hv by done. destruct Hidwf as [? [?|?]]; rewrite decide_False; done || lia.
Qed.

Lemma wf_set_executed w w1 env id p :
  proposal_of w id = Some p → executable env p → wf w → runs env w w1 → wf w1 →
  wf (executed_world id p w1).
Proof.
  intros Hget Hex Hwf Hr [Hn Hp Hi Hv].
  destruct (runs_grow _ _ _ Hr (wf_next_proposal _ Hwf)) as [Hgrow _].
  assert (∀ id', votes_of (executed_world id p w1) id' = votes_of w1 id') as Hvotes.
  { intros id'. unfold executed_world. rewrite votes_of_app; simpl. by rewrite app_nil_r. }
  split; [done| |done|intros; rewrite Hvotes; by apply Hv].
  intros id' p'. unfold proposal_of; simpl. rewrite sm_get_insert. case_decide.
  - subst. intros [= <-]. pose proof (wf_proposals _ Hwf _ _ Hget) as Hpw.
    apply (proposal_wf_grow w (executed_world id' p w1) id' p); [done|done|done|].
    intros Hlt. rewrite Hvotes. eapply (closed_runs env); [done|].
    destruct Hpw as (_ & [Hid Hor] & _). pose proof (wf_next_proposal _ Hwf).
    split_and!; [done|lia|]. intros p' Hp'. simplify_eq. apply Hex.
  - intros Hg. apply (proposal_wf_grow w1); [by apply Hp|by split|done|done].
Qed.

Lemma runs_preserve_wf env w w' : runs env w w' → wf w → wf w'.
Proof.
  intros Hr. run_cases Hr; intros Hwf; auto.
  - destruct Hwf as [Hn Hp Hi Hv]. by split.
  - by apply wf_propose.
  - by apply wf_vote.
  - destruct Hwf as [Hn Hp Hi Hv].
    assert (∀ id n props idx, votes_of (mkState n props idx (st_events (fst w) ++ [ProposalCancelled pid]), snd w) id
      = votes_of w id) as Hvotes by (intros; rewrite votes_of_app; simpl; by rewrite app_nil_r).
    split; [done| |done|intros; rewrite Hvotes; by apply Hv].
    intros id p. unfold proposal_of; simpl. rewrite sm_get_remove. case_decide; [done|].
    intros Hg. eapply proposal_wf_grow; [by apply Hp|by split|done|intros _; apply Hvotes].
  - eapply wf_set_executed; eauto.
Qed.

Lemma reach_wf w : reach w → wf w.
Proof.
  apply reachable_ind.
  - intros [s r] Hs. simpl in Hs. subst s.
    split; [done| | |]; intros; unfold proposal_of, club_index, votes_of in *; simpl in *;
      rewrite ?sm_get_empty in *; done.
  - intros w1 w2 Hw [env Hr]. eauto using runs_preserve_wf.
Qed.

(** C1: ballots are sound.  In every reachable world, before and after any call,
    a proposal's voters are distinct and at most [MaxVotersPerProposal], ayes
    and nays together are as many as voters, and voters, ayes and nays are
    exactly those of the [Voted] events about it; every proposal of a club is in
    the club's index, which holds at most 1024; identifiers lie below the
    counter until it saturates.  This includes calls that run while a proposal
    is being executed. *)
Theorem ballot_invariant env origin c w w' r :
  dispatch_respects → reach w → dispatch env origin c w = (w', r) → wf w ∧ wf w'.
Proof.
  intros Hresp Hre Hd. apply reach_wf in Hre. split; [done|]. destruct r as [u|e].
  - eapply runs_preserve_wf; [|done]. by eapply dispatch_runs.
  - by apply router_dispatch_err in Hd as ->.
Qed.

(** * Executed once *)

(** Nothing is left to execute under [id]. *)
Definition finished w (id : ProposalId) : Prop :=
  in_range u64_max (st_next_proposal_id (fst w)) ∧ id < st_next_proposal_id (fst w) ∧
  ∀ p, proposal_of w id = Some p → pr_executed p = true.

Lemma finished_runs env w w' id : runs env w w' → finished w id → finished w' id.
Proof.
  intros Hr. run_cases Hr; intros Hf; auto; destruct Hf as (Hn & Hlt & Hex').
  - unfold finished, in_range, proposal_of, proposed, sat_add in *. simpl. split_and!; [lia..|].
    intros p. rewrite sm_get_insert. case_decide; [lia|by apply Hex'].
  - split_and!; try done. unfold proposal_of; simpl. intros p'. rewrite sm_get_insert.
    case_decide; [subst|by apply Hex']. intros [= <-]. by apply (Hex' p).
  - split_and!; try done. unfold proposal_of; simpl. intros p'. rewrite sm_get_remove.
    case_decide; [done|by apply Hex'].
  - destruct IH as (? & ? & IH); [done|]. split_and!; try done.
    unfold proposal_of; simpl. intros p'. rewrite sm_get_insert.
    case_decide; [by intros [= <-]|by apply IH].
Qed.

Lemma finished_steps w w' id : rtc step w w' → finished w id → finished w' id.
Proof.
  apply (rtc_preserves step (λ w, finished w id)). intros x y Hx [env Hr]. eauto using finished_runs.
Qed.

Lemma finished_not_executable env origin id w :
  finished w id → is_ok (snd (execute env origin id w)) = false.
Proof.
  intros (_ & _ & Hex). destruct (execute env origin id w) as [w1 [u|e]] eqn:Hd; [|done].
  apply execute_ok in Hd as (who & p & c & w2 & v & _ & Hp & (Hf & _) & _).
  apply Hex in Hp. congruence.
Qed.

(** C2: a proposal is executed, or cancelled, at most once: after a successful
    [execute] or [cancel] no later [execute] of the same identifier succeeds,
    whatever happens in between.  (The last identifier, [u64::MAX], is
    excepted: the saturating counter hands it out again.) *)
Theorem executed_at_most_once env origin c id w w' u w'' env2 origin2 :
  dispatch_respects → reach w → id < u64_max → c = Execute id ∨ c = Cancel id →
  dispatch env origin c w = (w', Ok u) → rtc step w' w'' →
  is_ok (snd (execute env2 origin2 id w'')) = false.
Proof.
  intros Hresp Hre Hid Hc Hd Hs. apply reach_wf in Hre as Hwf.
  apply finished_not_executable. eapply finished_steps; [done|].
  assert (is_Some (proposal_of w id) → id < st_next_proposal_id (fst w)) as Hlt.
  { intros [p Hp]. apply (wf_proposals _ Hwf) in Hp as (_ & [_ ?] & _). lia. }
  pose proof (wf_next_proposal _ Hwf) as Hn. pose proof (dispatch_runs _ _ _ _ _ _ Hresp Hd) as Hr.
  destruct (runs_grow _ _ _ Hr Hn) as [[Hle _] Hn'].
  destruct Hc as [-> | ->]; cbn [dispatch] in Hd.
  - apply execute_ok in Hd as (who & p & c & w1 & v & _ & Hp & _ & _ & _ & ->).
    assert (is_Some (proposal_of w id)) as Hsome by eauto.
    split_and!; [done|specialize (Hlt Hsome); lia|]. unfold proposal_of; simpl.
    intros p'. rewrite sm_get_insert_eq. by intros [= <-].
  - apply cancel_ok in Hd as (_ & Hsome & ->).
    split_and!; [done|specialize (Hlt Hsome); simpl in *; lia|]. unfold proposal_of; simpl.
    intros p'. by rewrite sm_get_remove_eq.
Qed.

(** Voting and execution exclude each other: when a vote on a proposal
    succeeds at some block, no execution of it succeeds at that block or an
    earlier one, and when an execution succeeds, no vote does at that block or a
    later one. *)
Theorem vote_and_execute_exclusive env origin id aye env2 origin2 w :
  is_ok (snd (vote env origin id aye w)) = true →
  is_ok (snd (execute env2 origin2 id w)) = true →
  block_number env < block_number env2.
Proof.
  destruct (vote env origin id aye w) as [w1 [u1|?]] eqn:Hv; [|done].
  destruct (execute env2 origin2 id w) as [w2 [u2|?]] eqn:He; [|done]. intros _ _.
  apply vote_ok in Hv as (_ & p & _ & Hp & Hwin & _).
  apply execute_ok in He as (_ & p' & _ & _ & _ & _ & Hp' & (_ & Hend & _) & _).
  simplify_eq. lia.
Qed.

(** * The calls *)

Lemma execute_run env origin id w :
  execute env origin id w =
    match ensure_signed_opt origin, proposal_of w id with
    | None, _ => (w, Err BadOrigin)
    | _, None => (w, Err (ModuleError ProposalNotFound))
    | Some _, Some p =>
        if pr_executed p then (w, Err (ModuleError ProposalAlreadyExecuted))
        else if decide (block_number env ≤ pr_end p) then (w, Err (ModuleError VotingClosed))
        else if decide (total_votes p < pr_quorum p) then (w, Err (ModuleError QuorumNotReached))
        else if decide (pass_percent_x100 p < pr_pass_threshold p)
        then (w, Err (ModuleError ProposalNotPassed))
        else match decode_call (pr_call p) with
             | None => (w, Err (ModuleError InvalidCallEncoding))
             | Some c =>
                 match dispatch_call env c (signed pallet_account) w with
                 | (w1, Ok _) => (executed_world id p w1, Ok tt)
                 | (_, Err _) => (w, Err (ModuleError ExecutionFailed))
                 end
             end
    end.
Proof.
  unfold execute, proposal_of, executed_world. rewrite with_storage_layer_run. st_run.
  destruct (ensure_signed_opt origin) as [who|]; st_run; [|done].
  destruct (sm_get (st_proposals (fst w)) id) as [p|] eqn:Hp; st_run; [|done].
  destruct (pr_executed p); st_run; [done|].
  case_decide; [rewrite (proj2 (Z.ltb_ge _ _)) by lia; by st_run|
    rewrite (proj2 (Z.ltb_lt (pr_end p) _)) by lia; st_run].
  case_decide; [rewrite (proj2 (Z.leb_gt _ _)) by lia; by st_run|
    rewrite (proj2 (Z.leb_le (pr_quorum p) _)) by lia; st_run].
  case_decide; [rewrite (proj2 (Z.leb_gt _ _)) by lia; by st_run|
    rewrite (proj2 (Z.leb_le (pr_pass_threshold p) _)) by lia; st_run].
  destruct (decode_call (pr_call p)) as [c|]; st_run; [|done].
  destruct (dispatch_call env c (signed pallet_account) w) as [w1 [v|e]]; simpl; by st_run.
Qed.

(** [execute] on every branch: an unsigned origin, an unknown proposal, an
    executed one, one still open, one below its quorum, one below its
    threshold and one that does not decode are refused in this order with
    nothing changed.  Otherwise the call is dispatched as the pallet's account;
    if it succeeds, its writes stay and the proposal is stored as executed. *)
Theorem execute_outcome env origin id w :
  execute env origin id w =
    match ensure_signed_opt origin, proposal_of w id with
    | None, _ => (w, Err BadOrigin)
    | _, None => (w, Err (ModuleError ProposalNotFound))
    | Some _, Some p =>
        if pr_executed p then (w, Err (ModuleError ProposalAlreadyExecuted))
        else if decide (block_number env ≤ pr_end p) then (w, Err (ModuleError VotingClosed))
        else if decide (total_votes p < pr_quorum p) then (w, Err (ModuleError QuorumNotReached))
        else if decide (pass_percent_x100 p < pr_pass_threshold p)
        then (w, Err (ModuleError ProposalNotPassed))
        else match decode_call (pr_call p) with
             | None => (w, Err (ModuleError InvalidCallEncoding))
             | Some c =>
                 match dispatch_call env c (signed pallet_account) w with
                 | (w1, Ok _) => (executed_world id p w1, Ok tt)
                 | (_, Err _) => (w, Err (ModuleError ExecutionFailed))
                 end
             end
    end.
Proof. apply execute_run. Qed.

(** A proposal whose call fails leaves no trace.  [execute] then fails with
    [ExecutionFailed] and the storage is as before: the proposal is not marked
    executed, no [ProposalFailed] event remains, and the next [execute] runs
    the call again. *)
Theorem failed_execution_leaves_no_trace env origin who id w p c w1 e :
  ensure_signed_opt origin = Some who → proposal_of w id = Some p → executable env p →
  decode_call (pr_call p) = Some c → dispatch_call env c (signed pallet_account) w = (w1, Err e) →
  ∃ w', execute env origin id w = (w', Err (ModuleError ExecutionFailed)) ∧
    w' = w ∧ (pr_executed <$> proposal_of w' id) = Some false.
Proof.
  intros Ho Hp (Hf & Hend & Hq & Hpt) Hc Hd. exists w.
  rewrite execute_run, Ho, Hp, Hf. simpl. rewrite !decide_False by lia. rewrite Hc, Hd.
  by rewrite Hf.
Qed.

Lemma vote_run env origin id aye w :
  vote env origin id aye w =
    match ensure_signed_opt origin, proposal_of w id with
    | None, _ => (w, Err BadOrigin)
    | _, None => (w, Err (ModuleError ProposalNotFound))
    | Some who, Some p =>
        if decide (pr_start p ≤ block_number env ≤ pr_end p) then
          if decide (who ∈ pr_voters p) then (w, Err (ModuleError AlreadyVoted))
          else if decide (Z.of_nat (length (pr_voters p)) < MaxVotersPerProposal) then
            ((mkState (st_next_proposal_id (fst w))
                (sm_insert id (set_voters (pr_voters p ++ [who]) (record_vote aye p))
                   (st_proposals (fst w)))
                (st_club_proposals (fst w)) (st_events (fst w) ++ [Voted id who aye 1]), snd w), Ok tt)
          else (w, Err (ModuleError VotersOverflow))
        else (w, Err (ModuleError VotingClosed))
    end.
Proof.
  unfold vote, proposal_of. rewrite with_storage_layer_run. st_run.
  destruct (ensure_signed_opt origin) as [who|]; st_run; [|done].
  destruct (sm_get (st_proposals (fst w)) id) as [p|] eqn:Hp; st_run; [|done].
  case_decide as Hwin.
  2:{ destruct (_ && _)%bool eqn:Hb; [bools; lia|]. by st_run. }
  rewrite (proj2 (andb_true_iff _ _)) by (split; apply Z.leb_le; lia). st_run.
  case_decide as Hin; [rewrite (proj2 (existsb_elem _ _) Hin); by st_run|].
  rewrite (proj2 (existsb_not_elem _ _) Hin). st_run.
  change (pr_voters (record_vote aye p)) with (pr_voters p).
  case_decide; [rewrite (proj2 (Z.ltb_lt _ _)) by lia | rewrite (proj2 (Z.ltb_ge _ _)) by lia];
    by st_run.
Qed.

(** [vote] on every branch: an unsigned origin, an unknown proposal, a block
    outside the voting window, an account that has voted and a full ballot are
    refused in this order with nothing changed; otherwise the caller joins the
    voters and its side gets one vote.  No membership is asked for, for club
    and global proposals alike. *)
Theorem vote_outcome env origin id aye w :
  vote env origin id aye w =
    match ensure_signed_opt origin, proposal_of w id with
    | None, _ => (w, Err BadOrigin)
    | _, None => (w, Err (ModuleError ProposalNotFound))
    | Some who, Some p =>
        if decide (pr_start p ≤ block_number env ≤ pr_end p) then
          if decide (who ∈ pr_voters p) then (w, Err (ModuleError AlreadyVoted))
          else if decide (Z.of_nat (length (pr_voters p)) < MaxVotersPerProposal) then
            ((mkState (st_next_proposal_id (fst w))
                (sm_insert id (set_voters (pr_voters p ++ [who]) (record_vote aye p))
                   (st_proposals (fst w)))
                (st_club_proposals (fst w)) (st_events (fst w) ++ [Voted id who aye 1]), snd w), Ok tt)
          else (w, Err (ModuleError VotersOverflow))
        else (w, Err (ModuleError VotingClosed))
    end.
Proof. apply vote_run. Qed.

(** * The threshold *)

(** C36: as long as the ballot has at most 429496 votes, the test against the
    threshold is the exact comparison of rationals: the computed share reaches
    [pass_threshold] exactly when yea / (yea + nay) is at least
    [pass_threshold] / 10000; the share never exceeds 10000; and a ballot
    without votes has share zero. *)
Theorem threshold_test_exact p :
  0 ≤ pr_yea p → 0 ≤ pr_nay p → pr_yea p + pr_nay p ≤ 429496 →
  0 ≤ pass_percent_x100 p ≤ 10000 ∧
  (pr_yea p + pr_nay p = 0 → pass_percent_x100 p = 0) ∧
  (0 < pr_yea p + pr_nay p →
     (pr_pass_threshold p ≤ pass_percent_x100 p ↔
      pr_pass_threshold p * (pr_yea p + pr_nay p) ≤ pr_yea p * 10000)).
Proof.
  intros Hy Hn Hle. unfold pass_percent_x100, total_votes.
  assert (sat_add u32_max (pr_yea p) (pr_nay p) = pr_yea p + pr_nay p) as ->
    by (apply sat_add_exact; unfold u32_max; lia).
  assert (sat_mul u32_max (pr_yea p) 10000 = pr_yea p * 10000) as ->
    by (unfold sat_mul, u32_max; lia).
  remember (pr_yea p + pr_nay p) as t eqn:Et.
  destruct (Z.eqb_spec t 0) as [Hz|Hz]; [lia|].
  split; [|split; [lia|]].
  - split; [apply Z.div_pos; lia|]. apply Z.div_le_upper_bound; lia.
  - intros Hpos. split; intros Ht.
    + pose proof (Z.mul_div_le (pr_yea p * 10000) t). nia.
    + apply Z.div_le_lower_bound; lia.
Qed.

(** Beyond that size the saturating product makes the share of a unanimous
    ballot fall.  From 858994 ayes on, with no nay at all, the share is below
    50%: a proposal that asks for a simple majority, whose voting is over and
    whose quorum is reached, is refused with [ProposalNotPassed]. *)
Theorem unanimous_majority_refused env origin who id w p :
  ensure_signed_opt origin = Some who → proposal_of w id = Some p →
  pr_executed p = false → pr_end p < block_number env → pr_nay p = 0 →
  858994 ≤ pr_yea p ≤ u32_max → pr_quorum p ≤ pr_yea p → pr_pass_threshold p = 5000 →
  execute env origin id w = (w, Err (ModuleError ProposalNotPassed)).
Proof.
  intros Ho Hp Hex Hend Hnay Hyea Hq Hpt.
  rewrite execute_run, Ho, Hp, Hex. rewrite decide_False by lia.
  assert (total_votes p = pr_yea p) as Ht.
  { unfold total_votes. rewrite Hnay. rewrite sat_add_exact; lia. }
  rewrite Ht, decide_False by lia. rewrite decide_True; [done|].
  unfold pass_percent_x100. rewrite Ht, Hpt.
  destruct (Z.eqb_spec (pr_yea p) 0); [lia|].
  apply Z.div_lt_upper_bound; [lia|]. unfold sat_mul, u32_max in *. lia.
Qed.

(** A single account needs nobody's vote.  Any signed account may propose a
    call with quorum 0, threshold 0 and voting period 0; from the next block on
    any signed account can execute it, without a single vote, and the call is
    dispatched as the pallet's account. *)
Theorem unvoted_proposal_executes env origin who call c w env2 origin2 who2 w1 v :
  ensure_signed_opt origin = Some who → ensure_signed_opt origin2 = Some who2 →
  in_range BlockNumber_max (block_number env) → block_number env < block_number env2 →
  decode_call call = Some c →
  let w0 := proposed env who Global call None (Some 0) (Some 0) (Some 0) w in
  dispatch_call env2 c (signed pallet_account) w0 = (w1, Ok v) →
  propose env origin Global call None (Some 0) (Some 0) (Some 0) w = (w0, Ok tt) ∧
  is_ok (snd (execute env2 origin2 (st_next_proposal_id (fst w)) w0)) = true ∧
  ∃ p, proposal_of w0 (st_next_proposal_id (fst w)) = Some p ∧ pr_voters p = [].
Proof.
  intros Ho Ho2 [Hb0 Hb] Hlt Hdec w0 Hd. split_and!.
  - apply propose_run; [done|]. by split.
  - rewrite execute_run, Ho2. unfold proposal_of, w0 at 1, proposed; simpl. rewrite sm_get_insert_eq. simpl.
    rewrite decide_False by (unfold sat_add; lia).
    rewrite Hdec. by rewrite Hd.
  - eexists. split; [apply sm_get_insert_eq|done].
Qed.

(** * The index of a club *)

(** [propose] succeeds exactly for a signed caller whose metadata fits and,
    for a club, whose club's index is below 1024 entries; it then stores a
    proposal without votes under the next identifier, by the caller, voted on
    from this block for the period asked for (or the default), records it in the
    club's index, and changes no other proposal.  The caller need not be a
    member of anything. *)
Theorem propose_outcome env origin scope call md period q pt w :
  (is_ok (snd (propose env origin scope call md period q pt w)) = true ↔
     is_Some (ensure_signed_opt origin) ∧ proposable scope md w) ∧
  ∀ w' u, propose env origin scope call md period q pt w = (w', Ok u) →
    ∃ who, ensure_signed_opt origin = Some who ∧
    let id := st_next_proposal_id (fst w) in
    proposal_of w' id = Some (new_proposal env who scope call md period q pt id) ∧
    (∀ k, k ≠ id → proposal_of w' k = proposal_of w k) ∧
    (∀ c, club_index w' c = if decide (scope = Club c) then club_index w c ++ [id] else club_index w c) ∧
    st_next_proposal_id (fst w') = sat_add u64_max id 1 ∧ snd w' = snd w.
Proof.
  split; [split|].
  - destruct (propose _ _ _ _ _ _ _ _ _) as [w' [u|e]] eqn:Hd; [|done]. intros _.
    apply propose_ok in Hd as (who & Ho & Hpr & _). split; [by eexists|done].
  - intros [[who Ho] Hpr]. by rewrite (propose_run _ _ _ _ _ _ _ _ _ _ Ho Hpr).
  - intros w' u Hd. apply propose_ok in Hd as (who & Ho & _ & ->). exists who. split; [done|].
    unfold proposal_of, proposed, club_index; simpl. rewrite sm_get_insert_eq. split_and!; try done.
    + intros k Hk. by apply sm_get_insert_ne.
    + intros c. destruct scope as [cid|]; [|done]. rewrite sm_get_insert.
      repeat case_decide; simplify_eq; done.
Qed.

(** A club runs out of proposals for good.  Once a club's index holds 1024
    entries no [propose] for that club ever succeeds again, whatever happens in
    between: executing or cancelling its proposals does not free an entry. *)
Theorem full_club_index_blocks w w' c env origin call md period q pt :
  in_range u64_max (st_next_proposal_id (fst w)) →
  1024 ≤ Z.of_nat (length (club_index w c)) → rtc step w w' →
  is_ok (snd (propose env origin (Club c) call md period q pt w')) = false.
Proof.
  intros Hn Hlen Hs.
  assert (in_range u64_max (st_next_proposal_id (fst w')) ∧
          1024 ≤ Z.of_nat (length (club_index w' c))) as [_ Hlen'].
  { pose proof (conj Hn Hlen) as Hboth. revert Hs Hboth. apply (rtc_preserves step (λ w,
      in_range u64_max (st_next_proposal_id (fst w)) ∧ 1024 ≤ Z.of_nat (length (club_index w c)))).
    intros x y [Hx Hl] [env0 Hr]. destruct (runs_grow _ _ _ Hr Hx) as [[_ Hg] Hy].
    split; [done|]. specialize (Hg c). apply prefix_length in Hg. lia. }
  destruct (propose _ _ _ _ _ _ _ _ _) as [w2 [u|e]] eqn:Hd; [|done].
  apply propose_ok in Hd as (_ & _ & [_ Hc] & _). specialize (Hc c eq_refl). lia.
Qed.

(** [cancel] removes any proposal, an executed one included: given the admin
    origin and an existing proposal it succeeds, the proposal's record is gone,
    and its entry in the club's index stays. *)
Theorem cancel_removes_any env origin id w p :
  RouterAdminOrigin origin = true → proposal_of w id = Some p →
  ∃ w', cancel env origin id w = (w', Ok tt) ∧ proposal_of w' id = None ∧
    (∀ k, k ≠ id → proposal_of w' k = proposal_of w k) ∧
    (∀ c, club_index w' c = club_index w c) ∧
    st_events (fst w') = st_events (fst w) ++ [ProposalCancelled id].
Proof.
  intros Ho Hp. eexists. split.
  { unfold cancel. apply storage_layer_ok_intro. st_run. rewrite Ho. st_run.
    unfold proposal_of in Hp. rewrite Hp. st_run. reflexivity. }
  unfold proposal_of, club_index; simpl. rewrite sm_get_remove_eq. split_and!; try done.
  intros k Hk. by apply sm_get_remove_ne.
Qed.

(** * The account *)

Lemma fill_array (b a : list Byte.byte) k :
  (k + length b ≤ length a)%nat →
  foldl (λ id ib, <[fst ib := snd ib]> id) a (imap (λ i byte, ((k + i)%nat, byte)) b) =
    take k a ++ b ++ drop (k + length b) a.
Proof.
  revert a k. induction b as [|x b IH]; intros a k Hlen; simpl in *.
  - by rewrite Nat.add_0_r, take_drop.
  - rewrite Nat.add_0_r.
    rewrite (imap_ext _ (λ i y, ((S k + i)%nat, y))) by (intros; simpl; f_equal; lia).
    rewrite IH by (rewrite length_insert; lia).
    rewrite (take_S_r _ _ x) by (apply list_lookup_insert_eq; lia).
    rewrite take_insert_ge by lia. rewrite drop_insert_lt by lia.
    rewrite <- app_assoc. simpl. by rewrite Nat.add_succ_r.
Qed.

(** The array [pallet_id_from_bytes] builds by assignments always has eight
    bytes: the first eight of the input, padded with zeros when it is shorter;
    for [b"proposal_r"] they spell "proposal". *)
Theorem pallet_id_bytes b :
  pallet_id_from_bytes b = take 8 b ++ replicate (8 - length b) Byte.x00 ∧
  length (pallet_id_from_bytes b) = 8%nat ∧
  pallet_id_from_bytes entropy =
    [Byte.x70; Byte.x72; Byte.x6f; Byte.x70; Byte.x6f; Byte.x73; Byte.x61; Byte.x6c].
Proof.
  assert (pallet_id_from_bytes b = take 8 b ++ replicate (8 - length b) Byte.x00) as Heq.
  { unfold pallet_id_from_bytes. rewrite (fill_array (take 8 b) _ 0).
    - rewrite length_take. change (take 0 _) with (@nil Byte.byte). rewrite app_nil_l. f_equal.
      rewrite drop_replicate. f_equal. lia.
    - rewrite length_take, length_replicate. lia. }
  split_and!; [done| |done]. rewrite Heq, length_app, length_take, length_replicate. lia.
Qed.

End RouterProps.

(** * Witnesses: the theorems at concrete worlds *)

#[local] Existing Instance concrete_frame.
#[local] Existing Instance concrete_system.

(** A runtime whose other storage is one number.  The byte 1 encodes a call that
    increments it, the byte 2 one that fails, and nothing else decodes. *)
Inductive MockCall : Type := MockIncrement | MockFail.

Definition mock_decode (b : list Byte.byte) : option MockCall :=
  match b with
  | Byte.x01 :: _ => Some MockIncrement
  | Byte.x02 :: _ => Some MockFail
  | _ => None
  end.

Definition MockDispatch : Type :=
  Env → MockCall → @RuntimeOrigin concrete_system → State * Z → (State * Z) * result unit unit.

(** At most five voters, a default period of ten blocks, quorum one, a simple
    majority, and root as the admin. *)
Definition mock_config (d : MockDispatch) : Config.
Proof.
  refine {| Rest := Z; RuntimeCall := MockCall; CallError := unit; decode_call := mock_decode;
            dispatch_call := d; encode_error := λ _, []; into_account_truncating := λ _, user 999;
            BlockNumber_max := u32_max; MaxMetadataLen := 16; MaxVotersPerProposal := 5;
            DefaultVotingPeriod := 10; DefaultQuorum := 1; DefaultPassThreshold := 5000;
            RouterAdminOrigin := λ o, match o with MockRoot => true | _ => false end |}; done.
Defined.

(** The dispatch of that runtime. *)
Definition plain_dispatch : MockDispatch := λ env c o w,
  match c with
  | MockIncrement => ((fst w, snd w + 1), Ok tt)
  | MockFail => ((fst w, snd w + 1), Err tt)
  end.

Section PlainRuntime.
#[local] Instance plain_config : Config := mock_config plain_dispatch.

Definition at_block (bn : Z) : Env := {| now_as_millis := 0; block_number := bn |}.
Definition example_call (w : World) (x : Z * Z * Call) : World :=
  let '(bn, who, c) := x in fst (dispatch (at_block bn) (by_user who) c w).

(** Account 1 proposes an increment for club 3 and a failing call for everyone;
    accounts 1, 2, 3 vote on the first, account 2 on the second, account 2 tries twice. *)
Definition example_calls : list (Z * Z * Call) :=
  [ (1, 1, Propose (Club 3) [Byte.x01] None None None None);
    (1, 1, Propose Global [Byte.x02] None None None None);
    (2, 1, Vote 0 true); (2, 2, Vote 0 true); (2, 2, Vote 0 false); (3, 3, Vote 0 false);
    (3, 2, Vote 1 true) ].
Definition example_world : World := foldl example_call (genesis, 0) example_calls.

Lemma plain_respects : dispatch_respects.
Proof. intros env [] o w w1 v Hd; simpl in Hd; [|done]. injection Hd as <- _. exact (runs_rest any_args env w (snd w + 1)). Qed.

Lemma router_example_reach : reach example_world.
Proof.
  apply (reachable_foldl _ _ _ (λ _, True)); [|done|by apply Forall_true].
  intros w [[bn who] c] _. unfold example_call, step. exists (at_block bn).
  destruct (dispatch (at_block bn) (by_user who) c w) as [w' [u|e]] eqn:Hd; simpl.
  - eapply dispatch_runs; [apply plain_respects|done].
  - apply router_dispatch_err in Hd as ->. apply runs_nil.
Qed.

Lemma ballot_invariant_witness :
  pr_voters <$> proposal_of example_world 0 = Some [user 1; user 2; user 3] ∧
  votes_of example_world 0 = [(user 1, true); (user 2, true); (user 3, false)] ∧
  wf (fst (dispatch (at_block 12) (by_user 9) (Execute 0) example_world)).
Proof.
  split; [vm_compute; reflexivity|]. split; [vm_compute; reflexivity|].
  eapply (ballot_invariant (at_block 12) (by_user 9) (Execute 0) example_world);
    [apply plain_respects | apply router_example_reach | apply surjective_pairing].
Defined.

Lemma executed_at_most_once_witness :
  let w' := fst (dispatch (at_block 12) (by_user 9) (Execute 0) example_world) in
  snd w' = 1 ∧ is_ok (snd (execute (at_block 13) (by_user 9) 0 w')) = false.
Proof.
  intros w'. split; [vm_compute; reflexivity|].
  apply (executed_at_most_once (at_block 12) (by_user 9) (Execute 0) 0 example_world w' tt w').
  - apply plain_respects.
  - apply router_example_reach.
  - reflexivity.
  - left. reflexivity.
  - vm_compute. reflexivity.
  - apply rtc_refl.
Defined.

Lemma vote_and_execute_exclusive_witness :
  is_ok (snd (vote (at_block 11) (by_user 4) 0 true example_world)) = true ∧
  is_ok (snd (execute (at_block 12) (by_user 4) 0 example_world)) = true ∧
  block_number (at_block 11) < block_number (at_block 12).
Proof.
  split; [vm_compute; reflexivity|]. split; [vm_compute; reflexivity|].
  apply (vote_and_execute_exclusive (at_block 11) (by_user 4) 0 true (at_block 12) (by_user 4)
    example_world); vm_compute; reflexivity.
Defined.

Definition a_proposal (yea nay : Z) : Proposal :=
  {| pr_id := 0; pr_proposer := user 1; pr_scope := Global; pr_call := [Byte.x01]; pr_metadata := None;
     pr_start := 1; pr_end := 11; pr_yea := yea; pr_nay := nay; pr_executed := false; pr_voters := [];
     pr_quorum := 1; pr_pass_threshold := 5000; pr_club := None |}.

Lemma propose_outcome_witness :
  let w' := fst (propose (at_block 4) (by_user 6) (Club 3) [Byte.x01] None (Some 5) None None example_world) in
  (pr_end <$> proposal_of w' 2) = Some 9 ∧ club_index w' 3 = [0; 2].
Proof.
  intros w'.
  destruct (propose_outcome (at_block 4) (by_user 6) (Club 3) [Byte.x01] None (Some 5) None None example_world)
    as [_ H].
  destruct (H w' tt) as (who & _ & Hp & _ & Hi & _); [vm_compute; reflexivity|].
  change 2 with (st_next_proposal_id (fst example_world)) at 1.
  rewrite Hp, Hi. split; vm_compute; reflexivity.
Defined.

Lemma failed_execution_leaves_no_trace_witness :
  ∃ w', execute (at_block 12) (by_user 9) 1 example_world = (w', Err (ModuleError ExecutionFailed)) ∧
    w' = example_world ∧ (pr_executed <$> proposal_of w' 1) = Some false.
Proof.
  eapply (failed_execution_leaves_no_trace (at_block 12) (by_user 9) (user 9) 1 example_world
    _ MockFail (fst example_world, 1) tt).
  - reflexivity.
  - vm_compute. reflexivity.
  - repeat split; vm_compute; done.
  - reflexivity.
  - vm_compute. reflexivity.
Defined.

Lemma threshold_test_exact_witness :
  pass_percent_x100 (a_proposal 2 1) = 6666 ∧
  (pr_pass_threshold (a_proposal 2 1) ≤ pass_percent_x100 (a_proposal 2 1) ↔
   pr_pass_threshold (a_proposal 2 1) * 3 ≤ 2 * 10000).
Proof.
  split; [reflexivity|].
  destruct (threshold_test_exact (a_proposal 2 1)) as (_ & _ & H); [done|done|done|].
  apply H. reflexivity.
Defined.

(** A world with one proposal all of whose million voters said aye. *)
Definition million_world : World :=
  (mkState 1 (sm_insert 0 (a_proposal 1000000 0) sm_empty) sm_empty [], 0).

Lemma unanimous_majority_refused_witness :
  pr_yea (a_proposal 1000000 0) = 1000000 ∧
  execute (at_block 12) (by_user 9) 0 million_world = (million_world, Err (ModuleError ProposalNotPassed)).
Proof.
  split; [reflexivity|].
  apply (unanimous_majority_refused _ _ (user 9) _ _ (a_proposal 1000000 0)); try reflexivity; done.
Defined.

Lemma unvoted_proposal_executes_witness :
  let w0 : World := proposed (at_block 1) (user 7) Global [Byte.x01] None (Some 0) (Some 0) (Some 0) (genesis, 0) in
  is_ok (snd (execute (at_block 2) (by_user 8) 0 w0)) = true.
Proof.
  intros w0.
  destruct (unvoted_proposal_executes (Cfg := plain_config) (at_block 1) (by_user 7) (user 7) [Byte.x01] MockIncrement (genesis, 0)
    (at_block 2) (by_user 8) (user 8) (fst w0, 1) tt) as (_ & H & _);
    [reflexivity | reflexivity | done | reflexivity | reflexivity | reflexivity |].
  exact H.
Defined.

Definition full_world : World :=
  (mkState 1024 sm_empty (sm_insert 3 (seqZ 0 1024) sm_empty) [], 0).

Lemma full_club_index_blocks_witness :
  is_ok (snd (propose (at_block 1) (by_user 1) (Club 3) [] None None None None full_world)) = false.
Proof.
  apply (full_club_index_blocks full_world full_world).
  - split; vm_compute; discriminate.
  - vm_compute. discriminate.
  - apply rtc_refl.
Defined.

Lemma cancel_removes_any_witness :
  let w := fst (dispatch (at_block 12) (by_user 9) (Execute 0) example_world) in
  (pr_executed <$> proposal_of w 0) = Some true ∧
  ∃ w', cancel (at_block 13) by_root 0 w = (w', Ok tt) ∧ proposal_of w' 0 = None.
Proof.
  intros w. split; [vm_compute; reflexivity|].
  destruct (proposal_of w 0) as [p|] eqn:Hp; [|vm_compute in Hp; discriminate Hp].
  destruct (cancel_removes_any (at_block 13) by_root 0 w p) as (w' & H1 & H2 & _);
    [reflexivity | exact Hp |].
  exists w'. split; [exact H1 | exact H2].
Defined.

End PlainRuntime.

(** * Execution from within an execution *)

Section Reentrancy.

(** A runtime whose call [MockIncrement] is a batch that ignores failures (in the
    manner of FRAME's [force_batch]): an increment, and an [execute] of proposal
    0 signed by the caller, nested at most [n] deep. *)
Fixpoint nested_dispatch (n : nat) : MockDispatch := λ env c o w,
  match c, n with
  | MockFail, _ | _, O => (w, Err tt)
  | MockIncrement, S m =>
      (fst (execute (Cfg := mock_config (nested_dispatch m)) env o 0 (fst w, snd w + 1)), Ok tt)
  end.

#[local] Instance nested_config (n : nat) : Config := mock_config (nested_dispatch n).

(** Proposal 0 can be executed and holds the batch. *)
Definition ready env (w : State * Z) (p : Proposal) : Prop :=
  sm_get (st_proposals (fst w)) 0 = Some p ∧ executable env p ∧ pr_call p = [Byte.x01].

(** The world a nested execution starts from: the batch has incremented. *)
Definition incremented (w : State * Z) : State * Z := (fst w, snd w + 1).

Lemma nested_step n env origin who (w : State * Z) p :
  ensure_signed_opt origin = Some who → ready env w p →
  execute (Cfg := nested_config (S n)) env origin 0 w =
    (executed_world (Cfg := nested_config n) 0 p
       (fst (execute (Cfg := nested_config n) env (by_user 999) 0 (incremented w))), Ok tt).
Proof.
  intros Ho (Hp & (Hf & Hend & Hq & Hpt) & Hc).
  rewrite (execute_run (Cfg := nested_config (S n))). unfold proposal_of. rewrite Ho.
  assert (sm_get (st_proposals (@fst State (@Rest _ _ (nested_config (S n))) w)) 0 = Some p) as ->
    by exact Hp.
  rewrite Hf, Hc, !decide_False by lia. simpl. reflexivity.
Qed.

Lemma nested_limit env (w : State * Z) p :
  ready env w p →
  execute (Cfg := nested_config 0) env (by_user 999) 0 w = (w, Err (ModuleError ExecutionFailed)).
Proof.
  intros (Hp & (Hf & Hend & Hq & Hpt) & Hc).
  rewrite (execute_run (Cfg := nested_config 0)). unfold proposal_of.
  assert (sm_get (st_proposals (@fst State (@Rest _ _ (nested_config 0)) w)) 0 = Some p) as ->
    by exact Hp.
  rewrite Hf, Hc, !decide_False by lia. reflexivity.
Qed.

Lemma nested_execute n env origin who (w : State * Z) p :
  ensure_signed_opt origin = Some who → ready env w p →
  ∃ w' : State * Z, execute (Cfg := nested_config (S n)) env origin 0 w = (w', Ok tt) ∧
    snd w' = snd w + Z.of_nat (S n) ∧
    st_events (fst w') = st_events (fst w) ++ replicate (S n) (ProposalExecuted 0).
Proof.
  revert origin who w. induction n as [|n IH]; intros origin who w Ho Hr;
    rewrite (nested_step _ _ _ _ _ _ Ho Hr); eexists; (split; [reflexivity|]).
  - rewrite (nested_limit _ _ p) by exact Hr. split; [done|]. reflexivity.
  - destruct (IH (by_user 999) (user 999) (incremented w) eq_refl Hr) as (w' & -> & Hs & He).
    simpl. simpl in Hs. split; [lia|]. rewrite He. simpl.
    rewrite <- app_assoc. f_equal. simpl. f_equal. by rewrite replicate_cons_app.
Qed.

(** C37: the executed flag comes too late to stop re-entry.  [execute] marks the
    proposal only after its call has returned, so a call that executes its own
    proposal again finds it open: in a runtime with a failure-ignoring batch
    and nesting depth [n + 1], one [execute] of one passed proposal runs the
    batch [n + 1] times and reports [ProposalExecuted] as often. *)
Theorem execution_reenters n env origin who (w : State * Z) p :
  ensure_signed_opt origin = Some who → ready env w p →
  ∃ w' : State * Z, execute (Cfg := nested_config (S n)) env origin 0 w = (w', Ok tt) ∧
    snd w' = snd w + Z.of_nat (S n) ∧
    st_events (fst w') = st_events (fst w) ++ replicate (S n) (ProposalExecuted 0).
Proof. apply nested_execute. Qed.

Lemma execution_reenters_witness :
  ∃ w' : State * Z,
    execute (Cfg := nested_config 3) (at_block 12) (by_user 9) 0
      (mkState 1 (sm_insert 0 (a_proposal 2 1) sm_empty) sm_empty [], 0) = (w', Ok tt) ∧ snd w' = 3.
Proof.
  destruct (execution_reenters 2 (at_block 12) (by_user 9) (user 9)
    (mkState 1 (sm_insert 0 (a_proposal 2 1) sm_empty) sm_empty [], 0) (a_proposal 2 1))
    as (w' & H1 & H2 & _); [reflexivity | repeat split; vm_compute; done |].
  exists w'. split; [exact H1 | exact H2].
Defined.

End Reentrancy.
