(* ===== verification/RouterLiveness.v ===== *)
(** A proposal with enough support gets executed: votes cast are counted, and once
    the vote is over nothing but its execution or the admin's cancellation takes the
    success away. *)

From S2P Require Export RouterProps.
#[local] Open Scope Z_scope.

Section RouterLiveness.
  Context {F : Frame} {Sys : System} {Cfg : Config}.
  Implicit Types (env : Env) (origin : RuntimeOrigin) (w : World).

(** * What a proposal asks *)

(** What votes do not change in a proposal. *)
Definition same_question (p p' : Proposal) : Prop :=
  pr_call p' = pr_call p ∧ pr_start p' = pr_start p ∧ pr_end p' = pr_end p ∧
  pr_quorum p' = pr_quorum p ∧ pr_pass_threshold p' = pr_pass_threshold p.

(** A vote that is cast is counted. *)
Lemma vote_counted env origin id p w who aye :
  reach w → id < u64_max → proposal_of w id = Some p →
  ensure_signed_opt origin = Some who → pr_start p ≤ block_number env ≤ pr_end p →
  who ∉ (votes_of w id).*1 → Z.of_nat (length (votes_of w id)) < MaxVotersPerProposal →
  ∃ w1 p1, vote env origin id aye w = (w1, Ok tt) ∧ reach w1 ∧
    votes_of w1 id = votes_of w id ++ [(who, aye)] ∧
    proposal_of w1 id = Some p1 ∧ same_question p p1.
Proof.
  intros Hre Hid Hp Ho Hwin Hnew Hroom.
  destruct (wf_proposals _ (reach_wf _ Hre) _ _ Hp) as (_ & _ & _ & _ & _ & Ht).
  destruct (Ht Hid) as (Hvs & _).
  assert (vote env origin id aye w =
    ((mkState (st_next_proposal_id (fst w))
        (sm_insert id (set_voters (pr_voters p ++ [who]) (record_vote aye p)) (st_proposals (fst w)))
        (st_club_proposals (fst w)) (st_events (fst w) ++ [Voted id who aye 1]), snd w), Ok tt)) as Hv.
  { rewrite vote_run, Ho, Hp, decide_True, decide_False, decide_True; rewrite ?Hvs, ?length_fmap; done. }
  do 2 eexists. split_and!; [exact Hv| | | |].
  - eapply reachable_step; [exact Hre|]. exists env. by eapply runs_vote.
  - rewrite votes_of_app. cbn. by rewrite decide_True by done.
  - unfold proposal_of; cbn. apply sm_get_insert_eq.
  - by split_and!.
Qed.

(** * After the vote *)

(** A block in which no one votes on proposals that end by [b] any more. *)
Definition later (b : BlockNumber) w w' : Prop := ∃ env, b < block_number env ∧ runs env w w'.

(** The proposal is as it was, or was executed, or was cancelled by the admin. *)
Definition settled (id : ProposalId) (p : Proposal) w : Prop :=
  in_range u64_max (st_next_proposal_id (fst w)) ∧ id < st_next_proposal_id (fst w) ∧
  (proposal_of w id = Some p ∨ ProposalExecuted id ∈ st_events (fst w) ∨ ProposalCancelled id ∈ st_events (fst w)).

Lemma settled_runs env w w' id p0 :
  runs env w w' → pr_end p0 < block_number env → settled id p0 w → settled id p0 w'.
Proof.
  intros Hr Hb. run_cases Hr; intros Hs; auto; destruct Hs as ([? ?] & Hlt & Hd).
  - unfold settled, in_range, proposed, proposal_of, sat_add in *; cbn. rewrite sm_get_insert_ne by lia.
    split_and!; [lia..|]. set_solver.
  - unfold settled, in_range, proposal_of in *; cbn. split_and!; try done. rewrite sm_get_insert. case_decide; [|set_solver].
    subst. destruct Hd as [Hd|Hd]; [|set_solver]. simplify_eq. lia.
  - unfold settled, in_range, proposal_of in *; cbn. split_and!; try done. rewrite sm_get_remove.
    case_decide; [subst; right; right; set_solver|set_solver].
  - destruct IH as (? & ? & IH); [by split_and!|].
    unfold settled, in_range, proposal_of in *; cbn. split_and!; try lia. rewrite sm_get_insert.
    case_decide; [subst; right; left; set_solver|set_solver].
Qed.

Lemma settled_later w w' id p : rtc (later (pr_end p)) w w' → settled id p w → settled id p w'.
Proof. apply rtc_preserves. intros x y Hx (env & Hb & Hr). by eapply settled_runs. Qed.

Lemma runs_events env w w' e : runs env w w' → e ∈ st_events (fst w) → e ∈ st_events (fst w').
Proof. intros Hr. run_cases Hr; auto; intros Hin; cbn; apply elem_of_app; auto. Qed.

Lemma elem_of_later b w w' e : rtc (later b) w w' → e ∈ st_events (fst w) → e ∈ st_events (fst w').
Proof.
  apply (rtc_preserves _ (λ w, e ∈ st_events (fst w))). intros x y Hx (env & _ & Hr). by eapply runs_events.
Qed.

(** A proposal marked executed was executed. *)
Definition marks_reported w : Prop :=
  ∀ id p, proposal_of w id = Some p → pr_executed p = true → ProposalExecuted id ∈ st_events (fst w).

Lemma runs_marks env w w' : runs env w w' → marks_reported w → marks_reported w'.
Proof.
  intros Hr. run_cases Hr; intros Hm; auto; intros id' p'; unfold proposal_of; cbn.
  - rewrite sm_get_insert. case_decide; [by intros [= <-]|]. intros. apply elem_of_app. left. by eapply Hm.
  - rewrite sm_get_insert. case_decide; [subst; intros [= <-]|]; intros; apply elem_of_app; left; by eapply Hm.
  - rewrite sm_get_remove. case_decide; [done|]. intros. apply elem_of_app. left. by eapply Hm.
  - rewrite sm_get_insert. case_decide; [subst; set_solver|]. intros. apply elem_of_app. left. by eapply (IH Hm).
Qed.

Lemma reach_marks w : reach w → marks_reported w.
Proof.
  apply reachable_ind.
  - intros [s r] Hs id p. cbn in Hs. subst s. unfold proposal_of; cbn. by rewrite sm_get_empty.
  - intros w1 w2 Hw [env Hr]. by eapply runs_marks.
Qed.

(** The integer test is passed by every share that passes the rational one. *)
Lemma share_reached p :
  0 ≤ pr_yea p ≤ 429496 → 0 ≤ pr_nay p → 0 < pr_yea p + pr_nay p ≤ u32_max →
  pr_pass_threshold p * (pr_yea p + pr_nay p) ≤ pr_yea p * 10000 →
  total_votes p = pr_yea p + pr_nay p ∧ pr_pass_threshold p ≤ pass_percent_x100 p.
Proof.
  intros Hy Hn Ht Hle. unfold pass_percent_x100, total_votes.
  rewrite sat_add_exact by lia. split; [done|].
  assert (sat_mul u32_max (pr_yea p) 10000 = pr_yea p * 10000) as -> by (unfold sat_mul, u32_max; lia).
  destruct (Z.eqb_spec (pr_yea p + pr_nay p) 0); [lia|]. apply Z.div_le_lower_bound; lia.
Qed.

(** C3: support is enough, whatever else happens.  Take any world the runtime can
    reach, through whatever proposals, votes, executions and cancellations, nested ones
    included, and a proposal [p] stored there.  A vote on it, aye or nay, by a signed
    account that has not voted is counted while the vote is open and the ballot has
    room, and changes nothing of what [p] asks.  If the votes reported for [p] reach
    its quorum and the share of ayes reaches its threshold (as rationals; at most
    429496 ayes, above which the [u32] product saturates), then after its voting
    period, whatever the runtime does in later blocks, the proposal was executed, or
    cancelled by the admin, or any signed account's [execute] of it succeeds as soon as
    the call, dispatched as the router's account, does. *)
Theorem supported_proposal_executes id p w :
  reach w → id < u64_max → proposal_of w id = Some p →
  (∀ env origin who aye,
     ensure_signed_opt origin = Some who → pr_start p ≤ block_number env ≤ pr_end p →
     who ∉ (votes_of w id).*1 → Z.of_nat (length (votes_of w id)) < MaxVotersPerProposal →
     ∃ w1 p1, vote env origin id aye w = (w1, Ok tt) ∧ reach w1 ∧
       votes_of w1 id = votes_of w id ++ [(who, aye)] ∧
       proposal_of w1 id = Some p1 ∧ same_question p p1) ∧
  (let yea := ayes (votes_of w id) in let nay := nays (votes_of w id) in
   0 < yea + nay → yea ≤ 429496 → pr_quorum p ≤ yea + nay →
   pr_pass_threshold p * (yea + nay) ≤ yea * 10000 →
   ∀ w', rtc (later (pr_end p)) w w' →
   ProposalExecuted id ∈ st_events (fst w') ∨ ProposalCancelled id ∈ st_events (fst w') ∨
   ∀ env origin who c w1 v, ensure_signed_opt origin = Some who → pr_end p < block_number env →
     decode_call (pr_call p) = Some c → dispatch_call env c (signed pallet_account) w' = (w1, Ok v) →
     execute env origin id w' = (executed_world id p w1, Ok tt)).
Proof.
  intros Hre Hid Hp. split; [intros; by eapply vote_counted|].
  intros yea nay Hpos Hmax Hq Hpt w' Hlater. pose proof (reach_wf _ Hre) as Hwf.
  destruct (wf_proposals _ Hwf _ _ Hp) as (_ & [? Hlt] & (_ & Hlen & Hy & Hn & Hsum) & _ & _ & Ht).
  destruct (Ht Hid) as (_ & Hya & Hna). fold yea in Hya. fold nay in Hna.
  pose proof MaxVotersPerProposal_range as [_ Hbound].
  destruct (share_reached p) as [Htotal Hshare]; [lia..|nia|].
  destruct (pr_executed p) eqn:Hex.
  { left. eapply elem_of_later; [exact Hlater|]. by eapply (reach_marks w). }
  assert (settled id p w) as Hs by (split_and!; [apply wf_next_proposal|lia|]; auto).
  apply (settled_later _ _ _ _ Hlater) in Hs as (_ & _ & [Hp'|[He|Hca]]); [|auto..].
  right; right. intros env origin who c w1 v Ho Hb Hdec Hd.
  rewrite execute_run, Ho, Hp', Hex, !decide_False by lia. by rewrite Hdec, Hd.
Qed.
End RouterLiveness.

(** * Witness *)

#[local] Existing Instance concrete_frame.
#[local] Existing Instance concrete_system.

Section PlainRuntime.
#[local] Existing Instance plain_config.

(** Account 6 proposes an increment with a quorum of three votes and a majority of 60%,
    and while others propose too, accounts 1 and 2 vote aye and account 3 nay.  The world
    after these calls, and after the vote, when the other pallets' storage has changed. *)
Definition an_election : list (Env * RuntimeOrigin * Call) :=
  [(at_block 1, by_user 6, Propose Global [Byte.x01] None None (Some 3) (Some 6000));
   (at_block 2, by_user 1, Vote 0 true);
   (at_block 2, by_user 7, Propose (Club 4) [] None None None None);
   (at_block 3, by_user 3, Vote 0 false);
   (at_block 4, by_user 2, Vote 0 true)].
Definition after_election : World :=
  foldl (λ w '(env, o, c), fst (dispatch env o c w)) (genesis, 0) an_election.
Definition much_later : World := (fst after_election, 41).

Lemma after_election_reach : reach after_election.
Proof.
  apply (reachable_foldl _ _ _ (λ _, True)); [|done|by repeat constructor].
  intros w [[env o] c] _. destruct (dispatch env o c w) as [w' [u|e]] eqn:Hd; cbn.
  - exists env. eapply dispatch_runs; [apply plain_respects|done].
  - apply router_dispatch_err in Hd as ->. exists env. constructor.
Qed.

Lemma supported_proposal_executes_witness :
  ∃ w', execute (at_block 30) (by_user 9) 0 much_later = (w', Ok tt) ∧ snd w' = 42.
Proof.
  destruct (proposal_of after_election 0) as [p|] eqn:Hp; [|vm_compute in Hp; discriminate Hp].
  vm_compute in Hp. injection Hp as Hp.
  destruct (supported_proposal_executes (Cfg := plain_config) 0 p after_election) as [_ Hex].
  - apply after_election_reach.
  - reflexivity.
  - subst p. vm_compute. reflexivity.
  - destruct (Hex ltac:(reflexivity) ltac:(vm_compute; discriminate) ltac:(subst p; vm_compute; discriminate)
      ltac:(subst p; vm_compute; discriminate) much_later) as [H|[H|Hrun]].
    + subst p. apply rtc_once. exists (at_block 20). split; [vm_compute; reflexivity|].
      exact (runs_rest any_args (at_block 20) after_election 41).
    + exfalso. vm_compute in H. set_solver.
    + exfalso. vm_compute in H. set_solver.
    + eexists. split; [apply (Hrun (at_block 30) (by_user 9) (user 9) MockIncrement (fst much_later, 42) tt)|].
      * reflexivity.
      * subst p. vm_compute. reflexivity.
      * subst p. reflexivity.
      * reflexivity.
      * reflexivity.
Defined.
End PlainRuntime.
