(* ===== verification/RouterSpec.v ===== *)
(** The proposal router against a reference, and the types of what it stores. *)

From S2P Require Export RouterProps.
#[local] Open Scope Z_scope.

Section Reference.
  Context {F : Frame} {Sys : System} {Cfg : Config}.
  Implicit Types (env : Env) (origin : RuntimeOrigin) (w : World).

(** * The reference *)

(** A signed call about a proposal, with the proposal. *)
Definition about_proposal origin (id : ProposalId) w
    (k : AccountId → Proposal → result World (DispatchError Error)) : result World (DispatchError Error) :=
  match ensure_signed_opt origin, proposal_of w id with
  | None, _ => Err BadOrigin
  | Some _, None => Err (ModuleError ProposalNotFound)
  | Some who, Some p => k who p
  end.

(** The proposal's club has no room in its index. *)
Definition index_full (scope : Scope) w : bool :=
  match scope with
  | Club c => bool_decide (1024 ≤ Z.of_nat (length (club_index w c)))
  | Global => false
  end.

(** The world with the proposals [ps] and the event [e]. *)
Definition with_proposals (ps : smap ProposalId Proposal) (e : Event) w : World :=
  (mkState (st_next_proposal_id (fst w)) ps (st_club_proposals (fst w)) (st_events (fst w) ++ [e]), snd w).

Definition reference env origin (call : Call) w : result World (DispatchError Error) :=
  match call with
  | Propose scope call md period q pt =>
      match ensure_signed_opt origin with
      | None => Err BadOrigin
      | Some who =>
          if match md with Some m => bool_decide (MaxMetadataLen < Z.of_nat (length m)) | None => false end
          then Err (ModuleError MetadataTooLarge)
          else if index_full scope w then Err (ModuleError ClubIndexOverflow)
          else Ok (proposed env who scope call md period q pt w)
      end
  | Vote id aye =>
      about_proposal origin id w (λ who p,
        if decide (block_number env < pr_start p ∨ pr_end p < block_number env)
        then Err (ModuleError VotingClosed)
        else if decide (who ∈ pr_voters p) then Err (ModuleError AlreadyVoted)
        else if decide (Z.of_nat (length (pr_voters p)) < MaxVotersPerProposal) then
          Ok (with_proposals (sm_insert id (set_voters (pr_voters p ++ [who]) (record_vote aye p))
                (st_proposals (fst w))) (Voted id who aye 1) w)
        else Err (ModuleError VotersOverflow))
  | Execute id =>
      about_proposal origin id w (λ _ p,
        if pr_executed p then Err (ModuleError ProposalAlreadyExecuted)
        else if decide (block_number env ≤ pr_end p) then Err (ModuleError VotingClosed)
        else if decide (total_votes p < pr_quorum p) then Err (ModuleError QuorumNotReached)
        else if decide (pass_percent_x100 p < pr_pass_threshold p) then Err (ModuleError ProposalNotPassed)
        else match decode_call (pr_call p) with
             | None => Err (ModuleError InvalidCallEncoding)
             | Some c =>
                 match dispatch_call env c (signed pallet_account) w with
                 | (w1, Ok _) => Ok (executed_world id p w1)
                 | (_, Err _) => Err (ModuleError ExecutionFailed)
                 end
             end)
  | Cancel id =>
      if negb (RouterAdminOrigin origin) then Err BadOrigin
      else match proposal_of w id with
           | None => Err (ModuleError ProposalNotFound)
           | Some _ => Ok (with_proposals (sm_remove id (st_proposals (fst w))) (ProposalCancelled id) w)
           end
  end.

#[local] Hint Unfold about_proposal index_full with_proposals : reference.

Lemma propose_reference env origin scope call md period q pt w :
  propose env origin scope call md period q pt w =
    concluded w (reference env origin (Propose scope call md period q pt) w).
Proof.
  cbn [reference]. destruct (ensure_signed_opt origin) as [who|] eqn:Ho.
  2:{ unfold propose. rewrite with_storage_layer_run. st_run. rewrite Ho. by st_run. }
  destruct (match md with Some m => bool_decide (MaxMetadataLen < Z.of_nat (length m)) | None => false end) eqn:Hmd.
  { destruct md as [m|]; [|done]. bools. unfold propose. rewrite with_storage_layer_run. st_run. rewrite Ho.
    st_run. rewrite (proj2 (Z.leb_gt _ _)) by done. by st_run. }
  assert (∀ m, md = Some m → Z.of_nat (length m) ≤ MaxMetadataLen) as Hm.
  { intros m ->. bools. lia. }
  destruct (index_full scope w) eqn:Hfull.
  - destruct scope as [c|]; [|done]. unfold index_full in Hfull. bools. unfold propose.
    rewrite with_storage_layer_run. st_run. rewrite Ho. st_run.
    destruct md as [m|]; st_run; [rewrite (proj2 (Z.leb_le _ _) (Hm _ eq_refl)); st_run|].
    all: rewrite MaxVoters_nonneg; st_run; fold (club_index w c); rewrite (proj2 (Z.ltb_ge _ _)) by done; st_run.
    all: destruct (sm_get _ c); st_run; done.
  - apply propose_run; [done|]. split; [done|]. intros c ->. unfold index_full in Hfull. bools. lia.
Qed.

(** C6: every call of the router does what the reference says, on every branch: the
    first of the listed refusals that applies, with nothing changed, or exactly the
    storage listed.  For [execute] this is what the dispatched call leaves, with the
    proposal marked executed; membership plays no part anywhere. *)
Theorem router_reference env origin c w :
  dispatch env origin c w = concluded w (reference env origin c w).
Proof.
  destruct c; cbn [dispatch].
  - apply propose_reference.
  - cbn [reference]. rewrite vote_run. run_reference.
  - cbn [reference]. rewrite execute_run. run_reference.
  - cbn [reference]. unfold cancel, proposal_of. run_reference.
Qed.

(** * Types *)

(** The stored values are values of their Rust types. *)
Definition proposal_typed (p : Proposal) : Prop :=
  in_range u64_max (pr_id p) ∧
  in_range BlockNumber_max (pr_start p) ∧ in_range BlockNumber_max (pr_end p) ∧ pr_start p ≤ pr_end p ∧
  in_range u32_max (pr_yea p) ∧ in_range u32_max (pr_nay p) ∧
  in_range u32_max (pr_quorum p) ∧ in_range u32_max (pr_pass_threshold p) ∧
  Z.of_nat (length (pr_voters p)) ≤ MaxVotersPerProposal ∧
  (∀ m, pr_metadata p = Some m → Z.of_nat (length m) ≤ MaxMetadataLen).

Record typed w : Prop := {
  typed_next : in_range u64_max (st_next_proposal_id (fst w));
  typed_proposals : ∀ id p, proposal_of w id = Some p → proposal_typed p;
  typed_index : ∀ c, Z.of_nat (length (club_index w c)) ≤ 1024
}.

(** So are the arguments of a call, and the block number. *)
Definition call_typed (c : Call) : Prop :=
  match c with
  | Propose _ _ _ period q pt =>
      (∀ x, period = Some x → in_range BlockNumber_max x) ∧
      (∀ x, q = Some x → in_range u32_max x) ∧ (∀ x, pt = Some x → in_range u32_max x)
  | _ => True
  end.

Lemma sat_add_in_range max a b : in_range max a → 0 ≤ b → in_range max (sat_add max a b).
Proof. unfold in_range, sat_add. lia. Qed.

Lemma default_in_range max d o :
  in_range max d → (∀ x, o = Some x → in_range max x) → in_range max (default d o).
Proof. intros Hd Ho. destruct o as [x|]; [by apply Ho|done]. Qed.

(** Storing a typed proposal keeps the storage typed. *)
Lemma typed_store w id p e :
  typed w → proposal_typed p → typed (with_proposals (sm_insert id p (st_proposals (fst w))) e w).
Proof.
  intros [Hn Hp Hi] Ht. split; [done| |done]. intros id' p'. unfold proposal_of; simpl.
  rewrite sm_get_insert. case_decide; [by intros [= <-]|by apply Hp].
Qed.

Lemma typed_proposed env who scope call md period q pt w :
  in_range BlockNumber_max (block_number env) → call_typed (Propose scope call md period q pt) →
  proposable scope md w → typed w → typed (proposed env who scope call md period q pt w).
Proof.
  intros Hb (Hper & Hq & Hpt) [Hmd Hroom] [Hn Hp Hi].
  pose proof (default_in_range _ _ _ DefaultVotingPeriod_range Hper) as Hper'.
  split.
  - simpl. apply sat_add_in_range; [done|lia].
  - intros id p. unfold proposal_of; simpl. rewrite sm_get_insert. case_decide; [|by apply Hp].
    intros [= <-]. unfold proposal_typed; simpl. unfold u32_max, in_range, sat_add in *.
    split_and!; try done; try lia; try apply MaxVotersPerProposal_range.
    all: try apply (default_in_range _ _ _ DefaultQuorum_range Hq).
    all: apply (default_in_range _ _ _ DefaultPassThreshold_range Hpt).
  - intros c. unfold club_index; simpl. destruct scope as [cid|]; [|apply Hi].
    rewrite sm_get_insert. case_decide; [|apply Hi]. simpl. rewrite length_app. simpl.
    subst. specialize (Hroom _ eq_refl). lia.
Qed.

Lemma typed_vote aye who p :
  proposal_typed p → Z.of_nat (length (pr_voters p)) < MaxVotersPerProposal →
  proposal_typed (set_voters (pr_voters p ++ [who]) (record_vote aye p)).
Proof.
  intros (? & ? & ? & ? & ? & ? & ? & ? & ? & ?) Hlt. unfold proposal_typed, set_voters, record_vote; simpl.
  rewrite length_app; simpl.
  assert (∀ x, in_range u32_max x → in_range u32_max (sat_add u32_max x 1)) as Hs.
  { intros x Hx. by apply sat_add_in_range. }
  split_and!; try done; try lia; destruct aye; auto.
Qed.

Lemma runs_typed env w w' :
  runs_with call_typed env w w' → in_range BlockNumber_max (block_number env) → typed w → typed w'.
Proof.
  intros Hr Hb. run_cases Hr; intros Ht; auto.
  - by destruct Ht.
  - by apply typed_proposed.
  - destruct Ht as [? Hps ?] eqn:E. apply typed_store, typed_vote; eauto.
  - destruct Ht as [Hn Hps Hi]. split; [done| |done].
    intros id p. unfold proposal_of; simpl. rewrite sm_get_remove. case_decide; [done|by apply Hps].
  - apply typed_store; [by apply IH|].
    by destruct (typed_proposals _ Ht _ _ Hp) as (? & ? & ? & ? & ? & ? & ? & ? & ? & ?).
Qed.

(** C23: a fresh chain's storage is typed, and every call of the router, whether it
    succeeds or fails, keeps it so: identifiers, block numbers, tallies, the quorum
    and the threshold are values of their integer types, no vote closes before it
    opens, and voters, metadata and club indices stay within their bounds.  This
    includes the calls of the router that run, to any depth, while a proposal is
    executed.  The block number and the arguments of calls are typed, and the router's
    storage is private: only the router's calls change it. *)
Theorem router_typed env origin c w (r : Rest) :
  in_range BlockNumber_max (block_number env) → dispatch_respects_with call_typed → call_typed c →
  typed (genesis, r) ∧ (typed w → typed (fst (dispatch env origin c w))).
Proof.
  intros Hb Hresp Hc. split.
  { split; simpl; [done| |].
    - intros id p. unfold proposal_of; simpl. by rewrite sm_get_empty.
    - intros cl. unfold club_index; simpl. by rewrite sm_get_empty. }
  intros Ht. destruct (dispatch env origin c w) as [w' [u|e]] eqn:Hd; simpl.
  - eapply runs_typed; [by eapply dispatch_runs_with|done|done].
  - by rewrite (router_dispatch_err _ _ _ _ _ _ Hd).
Qed.

End Reference.

(** * Witnesses *)

#[local] Existing Instance concrete_frame.
#[local] Existing Instance concrete_system.

Section NestedRuntime.

(** A call that executes proposal 0 from within an execution, nested at most [m] deep,
    is a run of the router's calls. *)
Lemma nested_dispatch_runs n m env c o (w w' : State * Z) v :
  nested_dispatch m env c o w = (w', Ok v) →
  runs_with (Cfg := nested_config n) (call_typed (Cfg := nested_config n)) env w w'.
Proof.
  revert env c o w w' v. induction m as [|m IH]; intros env [] o w w' v Hd; try discriminate Hd.
  assert (w' = fst (execute (Cfg := nested_config m) env o 0 (fst w, snd w + 1))) as -> by (by injection Hd).
  clear Hd. apply runs_trans with (fst w, snd w + 1); [exact (runs_rest (Cfg := nested_config n) _ env w (snd w + 1))|].
  destruct (execute (Cfg := nested_config m) env o 0 (fst w, snd w + 1)) as [w1 [u|e]] eqn:He; cbn [fst].
  - apply (execute_ok (Cfg := nested_config m)) in He as (who & p & c & w2 & v' & _ & Hp & Hex & _ & Hd & ->).
    apply IH in Hd. eapply (runs_execute (Cfg := nested_config n)); [exact Hp|exact Hex|exact Hd].
  - apply (router_dispatch_err (Cfg := nested_config m) env o (Execute 0)) in He as ->.
    apply (runs_nil (Cfg := nested_config n)).
Qed.

Lemma nested_respects n : dispatch_respects_with (Cfg := nested_config n) (call_typed (Cfg := nested_config n)).
Proof. intros env c o w w1 v. apply nested_dispatch_runs. Qed.

(** A proposal that executes itself twice again before it is marked executed. *)
Lemma router_typed_witness :
  let world : State * Z := (mkState 1 (sm_insert 0 (a_proposal 2 1) sm_empty) sm_empty [], 0) in
  let after : State * Z := fst (dispatch (Cfg := nested_config 3) (at_block 12) (by_user 9) (Execute 0) world) in
  snd after = 3 ∧ typed (Cfg := nested_config 3) after.
Proof.
  intros world after. split; [vm_compute; reflexivity|].
  destruct (router_typed (Cfg := nested_config 3) (at_block 12) (by_user 9) (Execute 0) world 0) as [Hg Hd].
  - split; vm_compute; discriminate.
  - apply nested_respects.
  - exact I.
  - apply Hd. split.
    + split; vm_compute; discriminate.
    + intros id p Hp.
      change (sm_get (sm_insert 0 (a_proposal 2 1) sm_empty) id = Some p) in Hp.
      rewrite sm_get_insert, sm_get_empty in Hp. case_decide; [|discriminate Hp]. injection Hp as <-.
      repeat split; vm_compute; discriminate.
    + intros c. vm_compute. discriminate.
Defined.

End NestedRuntime.
