(* ===== verification/Runtime.v ===== *)
(** The runtime and the node's chain specifications: the registry's
    configuration in the runtime (src/runtime/src/lib.rs), the genesis presets
    (src/runtime/src/genesis_config_presets.rs), the chain specifications
    (src/node/src/chain_spec.rs) and how the command line selects one
    (src/node/src/command.rs). *)

From S2P Require Export Concrete RegistryProps Weights.
From stdpp Require Export strings.
#[local] Open Scope Z_scope.

(** * The member registry in the runtime *)

(** [impl pallet_member_registry::Config for Runtime]. *)
Definition Runtime_config `{System} : MemberRegistry.Config :=
  {| RootClubAdminOrigin := ensure_root |}.

(** [parameter_types!] of the runtime. *)
Definition SS58Prefix : Z := 42.
Definition ExistentialDeposit : Z := 1.
Definition MinimumPeriod : Z := 3.
Definition ParachainId : Z := 2000.
Definition PARACHAIN_ID : Z := ParachainId.

(** * The runtime's calls *)

(** [impl WeightInfo for DummyWeight]. *)
Definition DummyWeight : WeightInfo :=
  let zero := {| ref_time := 0; proof_size := 0 |} in
  {| w_create_club := zero; w_add_officer := zero; w_remove_officer := zero;
     w_create_attestation := zero; w_register_member := zero; w_add_member_admin := zero;
     w_remove_member_admin := zero; w_set_role := zero |}.

(** In the runtime every call of the registry is free. *)
Lemma registry_calls_are_free `{System} c :
  call_weight DummyWeight c = {| ref_time := 0; proof_size := 0 |}.
Proof. by destruct c. Qed.

(** The calls of the SDK pallets in the runtime, other than Sudo's, are parameters.
    Some of frame_system's overwrite raw storage ([set_storage], [kill_storage],
    [kill_prefix]) or replace the runtime's code ([set_code] and the other upgrades). *)
Class SdkCalls := {
  SystemCall : Type;
  overwrites_state : SystemCall → bool;
  TimestampCall : Type;
  BalancesCall : Type
}.

(** [construct_runtime!]: a call of one of the five pallets.  Sudo's calls, which
    contain calls of the runtime, are those of pallet_sudo. *)
Inductive RuntimeCall `{System} `{SdkCalls} : Type :=
| System_ (c : SystemCall)
| Timestamp (c : TimestampCall)
| Balances (c : BalancesCall)
| Sudo_sudo (c : RuntimeCall)
| Sudo_unchecked_weight (c : RuntimeCall) (weight : Weight)
| Sudo_sudo_as (who : AccountId) (c : RuntimeCall)
| Sudo_set_key (new : AccountId)
| Sudo_remove_key
| MemberRegistry_ (c : MemberRegistry.Call).

(** * Genesis presets *)

(** What the presets take from the SDK: the development accounts with their
    public keys, the existential deposit, the XCM version, the names of the two
    presets, and the JSON text of a genesis configuration. *)
Class Sdk `{System} := {
  AuraId : Type;
  Alice : AccountId;
  Alice_public : AuraId;
  Bob : AccountId;
  Bob_public : AuraId;
  well_known : list AccountId;
  EXISTENTIAL_DEPOSIT : Z;
  XCM_VERSION : Z;
  PresetId : Type;
  PresetId_eq_dec :: EqDecision PresetId;
  DEV_RUNTIME_PRESET : PresetId;
  LOCAL_TESTNET_RUNTIME_PRESET : PresetId
}.

(** [genesis_config_presets::PARACHAIN_ID]. *)
Definition presets_PARACHAIN_ID : Z := 1000.

Record SessionKeys `{Sdk} : Type := { aura : AuraId }.

(** The fields of [RuntimeGenesisConfig] the presets set. *)
Record GenesisPatch `{Sdk} : Type := {
  gp_balances : list (AccountId * Z);
  gp_parachain_id : Z;
  gp_invulnerables : list AccountId;
  gp_candidacy_bond : Z;
  gp_session_keys : list (AccountId * AccountId * SessionKeys);
  gp_safe_xcm_version : option Z;
  gp_sudo_key : option AccountId
}.

Section Presets.
  Context {Sys : System} {SDK : Sdk}.

(** [serde_json::to_string(&patch)...into_bytes()]. *)
Variable to_json : GenesisPatch → list Byte.byte.

Definition SAFE_XCM_VERSION : Z := XCM_VERSION.

Definition template_session_keys (keys : AuraId) : SessionKeys := {| aura := keys |}.

Definition testnet_genesis (invulnerables : list (AccountId * AuraId))
    (endowed_accounts : list AccountId) (root : AccountId) (id : Z) : GenesisPatch := {|
  gp_balances := (λ k, (k, Z.shiftl 1 60)) <$> endowed_accounts;
  gp_parachain_id := id;
  gp_invulnerables := (λ '(acc, _), acc) <$> invulnerables;
  gp_candidacy_bond := EXISTENTIAL_DEPOSIT * 16;
  gp_session_keys := (λ '(acc, aura), (acc, acc, template_session_keys aura)) <$> invulnerables;
  gp_safe_xcm_version := Some SAFE_XCM_VERSION;
  gp_sudo_key := Some root
|}.

Definition local_testnet_genesis : GenesisPatch :=
  testnet_genesis [(Alice, Alice_public); (Bob, Bob_public)] well_known Alice presets_PARACHAIN_ID.

Definition development_config_genesis : GenesisPatch :=
  testnet_genesis [(Alice, Alice_public); (Bob, Bob_public)] well_known Alice presets_PARACHAIN_ID.

Definition get_preset (id : PresetId) : option (list Byte.byte) :=
  patch ← (if decide (id = LOCAL_TESTNET_RUNTIME_PRESET) then Some local_testnet_genesis
           else if decide (id = DEV_RUNTIME_PRESET) then Some development_config_genesis
           else None);
  Some (to_json patch).

Definition preset_names : list PresetId := [DEV_RUNTIME_PRESET; LOCAL_TESTNET_RUNTIME_PRESET].

(** The presets on offer are the presets listed, and one configuration. *)
Lemma get_preset_named id :
  get_preset id = if decide (id ∈ preset_names) then Some (to_json local_testnet_genesis) else None.
Proof.
  unfold get_preset, preset_names. repeat case_decide; subst; try done; set_solver.
Qed.

End Presets.

(** The parachain identifier of the presets is not the runtime's. *)
Lemma presets_parachain_id_differs `{Sdk} :
  gp_parachain_id local_testnet_genesis = 1000 ∧ PARACHAIN_ID = 2000.
Proof. done. Qed.

(** * Chain specifications *)

Inductive ChainType : Type := Development | Local.

(** [runtime::GenesisConfig] as the node fills it; the code blob is left out. *)
Record GenesisConfig `{System} : Type := {
  gc_minimum_period : Z;
  gc_balances : list (AccountId * Z);
  gc_sudo_key : option AccountId
}.

Record ChainSpec `{System} : Type := {
  cs_relay_chain : string;
  cs_para_id : Z;
  cs_name : string;
  cs_id : string;
  cs_chain_type : ChainType;
  cs_genesis : GenesisConfig;
  cs_protocol_id : option string;
  cs_token_symbol : string;
  cs_token_decimals : Z;
  cs_ss58_format : Z
}.

(** What the node takes from sp_core: key pairs from a secret, which the development
    names have, and the account of a pair's public key. *)
Definition dev_names : list string := ["Alice"; "Bob"; "Charlie"; "Dave"; "Eve"; "Ferdie"].

Class KeyPairs `{System} := {
  Pair : Type;
  Pair_from_string : string → option Pair;
  into_account : Pair → AccountId;
  dev_pairs : ∀ name, name ∈ dev_names → is_Some (Pair_from_string ("//" +:+ name))
}.

Section Node.
  Context {Sys : System} {KP : KeyPairs}.

(** [None] is the panic of [expect]; so it is for what is built with it. *)
Definition get_account_id_from_seed (seed : string) : option AccountId :=
  into_account <$> Pair_from_string ("//" +:+ seed).

(** [ChainSpec::from_json_file]. *)
Variable from_json_file : string → result ChainSpec string.

Definition RELAY_CHAIN : string := "rococo-local".

Definition build_genesis (endowed : list AccountId) (sudo_key : AccountId) : GenesisConfig :=
  let balances := (λ acct, (acct, 1000000000000000)) <$> endowed in
  {| gc_minimum_period := 0; gc_balances := balances; gc_sudo_key := Some sudo_key |}.

Definition development_chain_spec : option ChainSpec :=
  sudo ← get_account_id_from_seed "Alice";
  bob ← get_account_id_from_seed "Bob";
  charlie ← get_account_id_from_seed "Charlie";
  dave ← get_account_id_from_seed "Dave";
  eve ← get_account_id_from_seed "Eve";
  ferdie ← get_account_id_from_seed "Ferdie";
  let endowed := [sudo; bob; charlie; dave; eve; ferdie] in
  Some {| cs_relay_chain := RELAY_CHAIN; cs_para_id := PARACHAIN_ID; cs_name := "Development";
     cs_id := "dev"; cs_chain_type := Development; cs_genesis := build_genesis endowed sudo;
     cs_protocol_id := None; cs_token_symbol := "UNIT"; cs_token_decimals := 12;
     cs_ss58_format := 42 |}.

Definition local_chain_spec : option ChainSpec :=
  sudo ← get_account_id_from_seed "Alice";
  bob ← get_account_id_from_seed "Bob";
  charlie ← get_account_id_from_seed "Charlie";
  let endowed := [sudo; bob; charlie] in
  Some {| cs_relay_chain := RELAY_CHAIN; cs_para_id := PARACHAIN_ID; cs_name := "Local Testnet";
     cs_id := "local_testnet"; cs_chain_type := Local; cs_genesis := build_genesis endowed sudo;
     cs_protocol_id := Some "template-local"; cs_token_symbol := "UNIT"; cs_token_decimals := 12;
     cs_ss58_format := 42 |}.

Definition load_spec (id : string) : option (result ChainSpec string) :=
  if decide (id = "dev") then Ok <$> development_chain_spec
  else if decide (id = "template-rococo") then Ok <$> local_chain_spec
  else if decide (id = "" ∨ id = "local") then Ok <$> local_chain_spec
  else Some (from_json_file id).

(** The accounts of the development names exist, so the specifications that come with
    the node can be built and loading one never panics. *)
Lemma dev_account name : name ∈ dev_names → ∃ a, get_account_id_from_seed name = Some a.
Proof. intros [p Hp]%dev_pairs. unfold get_account_id_from_seed. rewrite Hp. by eexists. Qed.

Ltac dev_accounts :=
  repeat match goal with |- context [get_account_id_from_seed ?n] =>
    let Ha := fresh in destruct (dev_account n) as [? Ha]; [unfold dev_names; set_solver|rewrite Ha; cbn; clear Ha]
  end.

Lemma built_in_specs : is_Some development_chain_spec ∧ is_Some local_chain_spec.
Proof. unfold development_chain_spec, local_chain_spec. split; dev_accounts; by eexists. Qed.

Lemma load_spec_total id : is_Some (load_spec id).
Proof.
  destruct built_in_specs as [[dev Hdev] [loc Hloc]]. unfold load_spec. rewrite Hdev, Hloc.
  repeat case_decide; by eexists.
Qed.

Lemma load_built_in spec id :
  id ∈ ["dev"; "template-rococo"; ""; "local"] → load_spec id = Some (Ok spec) →
  development_chain_spec = Some spec ∨ local_chain_spec = Some spec.
Proof.
  destruct built_in_specs as [[dev Hdev] [loc Hloc]]. unfold load_spec. rewrite Hdev, Hloc.
  repeat case_decide; intros; simplify_eq/=; auto. set_solver.
Qed.

(** The total issuance of a genesis configuration. *)
Definition total_issuance (g : GenesisConfig) : Z := foldr (λ b n, b.2 + n) 0 (gc_balances g).

(** The specifications that come with the node are valid genesis
    configurations: every balance is at least the existential deposit, the
    issuance fits the [u128] balance, sudo is an endowed account, and they
    carry the runtime's parachain identifier and address prefix, and the one relay chain. *)
Lemma built_in_specs_valid spec id :
  id ∈ ["dev"; "template-rococo"; ""; "local"] → load_spec id = Some (Ok spec) →
  Forall (λ b, ExistentialDeposit ≤ b.2) (gc_balances (cs_genesis spec)) ∧
  in_range u128_max (total_issuance (cs_genesis spec)) ∧
  (∃ sudo, gc_sudo_key (cs_genesis spec) = Some sudo ∧ sudo ∈ (gc_balances (cs_genesis spec)).*1) ∧
  cs_para_id spec = PARACHAIN_ID ∧ cs_ss58_format spec = SS58Prefix ∧
  cs_relay_chain spec = RELAY_CHAIN.
Proof.
  intros Hid Hl. revert Hl. intros [Hl|Hl]%load_built_in; [..|done]; revert Hl;
    unfold development_chain_spec, local_chain_spec; dev_accounts; intros [= <-].
  all: simpl; split_and!; [repeat constructor; simpl; unfold ExistentialDeposit; lia | done |
    eexists; split; [done|set_solver] | done | done | done].
Qed.

(** Their minimum period is not the runtime's. *)
Lemma genesis_minimum_period_differs endowed sudo_key :
  gc_minimum_period (build_genesis endowed sudo_key) = 0 ∧ MinimumPeriod = 3.
Proof. done. Qed.

End Node.

(** * Who governs the runtime *)

Section Governance.
  Context {F : Frame} {Sys : System}.
  #[local] Existing Instance Runtime_config.

Lemma runtime_root_only_lemma env origin c s who :
  ensure_root origin = false →
  (∃ name admin md, c = CreateClub name admin md) ∨ (∃ role, c = SetRole who role) →
  MemberRegistry.dispatch env origin c s = (s, Err BadOrigin).
Proof.
  intros Ho [(name & admin & md & ->)|(role & ->)]; simpl;
    [unfold create_club | unfold set_role]; rewrite with_storage_layer_run; st_run; simpl;
    rewrite Ho; by st_run.
Qed.

(** The runtime's registry is governed by root alone.  No other origin can
    create a club or assign a role (also not the admin of the member's club);
    and as long as root has not acted, whatever calls others make, the registry
    of a fresh chain has no club, no attestation and no member. *)
Theorem runtime_root_only :
  (∀ env origin c s who, ensure_root origin = false →
     (∃ name admin md, c = CreateClub name admin md) ∨ (∃ role, c = SetRole who role) →
     MemberRegistry.dispatch env origin c s = (s, Err BadOrigin)) ∧
  (∀ s, rtc (λ s s', ∃ env origin c, ensure_root origin = false ∧
               s' = fst (MemberRegistry.dispatch env origin c s)) genesis s →
     s = genesis).
Proof.
  split; [intros; by eapply runtime_root_only_lemma|].
  intros s Hr. pattern s.
  refine (rtc_preserves _ (λ s, s = genesis) genesis s _ Hr eq_refl).
  intros x y -> (env & origin & c & Ho & ->).
  destruct (MemberRegistry.dispatch env origin c genesis) as [s' [u|e]] eqn:Hd; simpl.
  2:{ by apply registry_dispatch_err in Hd. }
  exfalso. inv_dispatch Hd; simpl in *; rewrite ?sm_get_empty in *; try congruence.
Qed.

End Governance.

(** The runtime at the concrete accounts: account 5 cannot create a club, root can. *)
Lemma runtime_root_only_witness :
  let cfg := @Runtime_config concrete_system in
  let create := @CreateClub concrete_system [] (user 5) None in
  let env := {| now_as_millis := 1; block_number := 1 |} in
  @MemberRegistry.dispatch concrete_frame concrete_system cfg env (by_user 5) create
      (@genesis concrete_frame concrete_system) =
    (@genesis concrete_frame concrete_system, Err BadOrigin) ∧
  is_ok (snd (@MemberRegistry.dispatch concrete_frame concrete_system cfg env by_root create
      (@genesis concrete_frame concrete_system))) = true.
Proof.
  intros cfg create env. split; [|reflexivity].
  apply (proj1 (@runtime_root_only concrete_frame concrete_system) env (by_user 5) create
    (@genesis concrete_frame concrete_system) (user 5)); [reflexivity|].
  left. exists [], (user 5), None. reflexivity.
Defined.
