(* ===== verification/Chain.v ===== *)
(** Components together: the registry inside the runtime, where extrinsics, Sudo
    and the SDK pallets act on one storage (src/runtime/src/lib.rs), and the
    registry governed by proposals of the router. *)

From S2P Require Export Runtime RouterProps.
#[local] Open Scope Z_scope.

(** * The constructed runtime *)

(** Root, or the holder of the sudo key. *)
Definition may_sudo {F : Frame} {Sys : System} (key : option AccountId) (o : RuntimeOrigin) : Prop :=
  ensure_root o = true ∨ ∃ who, ensure_signed_opt o = Some who ∧ key = Some who.

(** What [construct_runtime!] generates, with the SDK pallets in it.  The storage is
    the registry's next to that of the other pallets.  A registry call runs the
    registry's dispatch.  Each other pallet writes only its own storage, except that
    root can overwrite any storage by the raw calls of frame_system.  pallet_sudo
    refuses everyone but the holder of its key (and, in some of its versions, root);
    when it accepts, it runs the call inside with the origin root, or, for [sudo_as],
    with that account's. *)
Class ConstructedRuntime {F : Frame} {Sys : System} {Calls : SdkCalls} := {
  Others : Type;
  RuntimeError : Type;
  from_registry : DispatchError MemberRegistry.Error → RuntimeError;
  sudo_key : Others → option AccountId;
  runtime_dispatch : Env → RuntimeOrigin → Runtime.RuntimeCall → MemberRegistry.State * Others →
    (MemberRegistry.State * Others) * result unit RuntimeError;
  registry_after env o c w := fst (fst (runtime_dispatch env o c w));
  dispatch_registry : ∀ env o c w,
    runtime_dispatch env o (MemberRegistry_ c) w =
      match MemberRegistry.dispatch (Cfg := Runtime_config) env o c (fst w) with
      | (s, Ok a) => ((s, snd w), Ok a)
      | (s, Err e) => ((s, snd w), Err (from_registry e))
      end;
  dispatch_system : ∀ env o c w, overwrites_state c = false ∨ ensure_root o = false →
    registry_after env o (System_ c) w = fst w;
  dispatch_timestamp : ∀ env o c w, registry_after env o (Timestamp c) w = fst w;
  dispatch_balances : ∀ env o c w, registry_after env o (Balances c) w = fst w;
  dispatch_set_key : ∀ env o k w, registry_after env o (Sudo_set_key k) w = fst w;
  dispatch_remove_key : ∀ env o w, registry_after env o Sudo_remove_key w = fst w;
  dispatch_sudo : ∀ env o c w,
    registry_after env o (Sudo_sudo c) w = fst w ∨
    may_sudo (sudo_key (snd w)) o ∧ registry_after env o (Sudo_sudo c) w = registry_after env root c w;
  dispatch_sudo_unchecked : ∀ env o c weight w,
    registry_after env o (Sudo_unchecked_weight c weight) w = fst w ∨
    may_sudo (sudo_key (snd w)) o ∧
      registry_after env o (Sudo_unchecked_weight c weight) w = registry_after env root c w;
  dispatch_sudo_as : ∀ env o as_who c w,
    registry_after env o (Sudo_sudo_as as_who c) w = fst w ∨
    may_sudo (sudo_key (snd w)) o ∧
      registry_after env o (Sudo_sudo_as as_who c) w = registry_after env (signed as_who) c w
}.

Section Runtime.
  Context {F : Frame} {Sys : System} {Calls : SdkCalls} {CR : ConstructedRuntime}.
  #[local] Existing Instance Runtime_config.
  Implicit Types (env : Env) (origin : RuntimeOrigin) (w : MemberRegistry.State * Others).

(** The arguments of the registry calls inside a call are values of their types. *)
Fixpoint runtime_call_wf (c : Runtime.RuntimeCall) : Prop :=
  match c with
  | MemberRegistry_ c => RegistryProps.call_wf c
  | Sudo_sudo c | Sudo_unchecked_weight c _ | Sudo_sudo_as _ c => runtime_call_wf c
  | _ => True
  end.

(** No call inside a call overwrites raw storage or the runtime's code. *)
Fixpoint keeps_state (c : Runtime.RuntimeCall) : bool :=
  match c with
  | System_ c => negb (overwrites_state c)
  | Sudo_sudo c | Sudo_unchecked_weight c _ | Sudo_sudo_as _ c => keeps_state c
  | _ => true
  end.

(** One extrinsic of the chain, successful or not. *)
Definition extrinsic (w w' : MemberRegistry.State * Others) : Prop :=
  ∃ env who c, env_wf env ∧ runtime_call_wf c ∧ keeps_state c = true ∧
    w' = fst (runtime_dispatch env (signed who) c w).

Lemma runtime_dispatch_steps env origin c w :
  env_wf env → runtime_call_wf c → keeps_state c = true →
  rtc RegistryProps.step (fst w) (registry_after env origin c w).
Proof.
  intros Henv. revert origin.
  induction c as [c|c|c|c IH|c IH weight|as_who c IH|k| |c]; intros origin Hc Hk; cbn in Hk.
  - apply negb_true_iff in Hk. rewrite dispatch_system by auto. done.
  - by rewrite dispatch_timestamp.
  - by rewrite dispatch_balances.
  - destruct (dispatch_sudo env origin c w) as [->|[_ ->]]; [done|by apply IH].
  - destruct (dispatch_sudo_unchecked env origin c weight w) as [->|[_ ->]]; [done|by apply IH].
  - destruct (dispatch_sudo_as env origin as_who c w) as [->|[_ ->]]; [done|by apply IH].
  - by rewrite dispatch_set_key.
  - by rewrite dispatch_remove_key.
  - unfold registry_after. rewrite dispatch_registry. apply rtc_once. exists env, origin, c. split_and!; [done..|].
    by destruct (MemberRegistry.dispatch _ _ _ _) as [s' [|]].
Qed.

(** A fresh registry next to pallets in any state. *)
Definition fresh (w : MemberRegistry.State * Others) : Prop := fst w = MemberRegistry.genesis.

Lemma runtime_registry_reach w : reachable fresh extrinsic w → RegistryProps.reach (fst w).
Proof.
  apply (reachable_ind _ _ (λ w, RegistryProps.reach (fst w))).
  - intros w0 ->. by exists MemberRegistry.genesis.
  - intros w0 w1 (s0 & H0 & Hr) (env & who & c & Henv & Hc & Hk & ->). exists s0. split; [done|].
    etrans; [exact Hr|]. by apply (runtime_dispatch_steps env (signed who)).
Qed.

(** An extrinsic of an account that does not hold the sudo key. *)
Definition ordinary_extrinsic (w w' : MemberRegistry.State * Others) : Prop :=
  ∃ env who c, sudo_key (snd w) ≠ Some who ∧ w' = fst (runtime_dispatch env (signed who) c w).

Lemma genesis_registry_stays env who c s' r :
  MemberRegistry.dispatch env (signed who) c MemberRegistry.genesis = (s', r) → s' = MemberRegistry.genesis.
Proof.
  destruct r as [u|e]; intros Hd; [|by apply registry_dispatch_err in Hd].
  exfalso. pose proof (ensure_root_signed who) as Ho.
  inv_dispatch Hd; simpl in *; rewrite ?sm_get_empty in *; try congruence.
Qed.

(** C15: the runtime keeps the registry's invariant, and the sudo key is the only
    way in.  Whatever extrinsics are signed on the chain, with calls of Sudo
    inside calls of Sudo, as long as none contains a call by which root overwrites raw
    storage or the runtime's code, the registry's storage is one the registry alone can
    reach, so all its invariants hold in the runtime.  And until the holder of
    the sudo key acts, whatever others sign, those calls included, the registry stays
    empty: no club, no member, no attestation. *)
Theorem runtime_governed :
  (∀ w, reachable fresh extrinsic w → RegistryProps.reach (fst w) ∧ RegistryProps.wf (fst w)) ∧
  (∀ w, reachable fresh ordinary_extrinsic w → fst w = MemberRegistry.genesis).
Proof.
  split; [intros w Hw%runtime_registry_reach; by split; [|apply registry_invariant_lemma]|].
  apply (reachable_ind _ _ (λ w, fst w = MemberRegistry.genesis)); [done|]. intros w w' IH (env & who & c & Hkey & ->).
  assert (¬ may_sudo (sudo_key (snd w)) (signed who)) as Hno.
  { intros [Hr|(who' & Hs & Hk)]; [by rewrite ensure_root_signed in Hr|].
    rewrite ensure_signed_signed in Hs. congruence. }
  rewrite <- IH. change (registry_after env (signed who) c w = fst w).
  destruct c as [c|c|c|c|c weight|as_who c|k| |c].
  - apply dispatch_system. right. apply ensure_root_signed.
  - apply dispatch_timestamp.
  - apply dispatch_balances.
  - by destruct (dispatch_sudo env (signed who) c w) as [?|[??]].
  - by destruct (dispatch_sudo_unchecked env (signed who) c weight w) as [?|[??]].
  - by destruct (dispatch_sudo_as env (signed who) as_who c w) as [?|[??]].
  - apply dispatch_set_key.
  - apply dispatch_remove_key.
  - unfold registry_after. rewrite dispatch_registry, IH.
    destruct (MemberRegistry.dispatch _ _ _ _) as [s' r] eqn:Hd. apply genesis_registry_stays in Hd as ->.
    by destruct r.
Qed.

End Runtime.

(** * The registry governed by proposals *)

(** A runtime with the router and the registry, which the repository does not construct,
    in which proposals contain calls of the registry: decoding and the rest of the router's configuration are arbitrary. *)
Section Governance.
  Context {F : Frame} {Sys : System}.
  #[local] Existing Instance Runtime_config.
  Variable base : ProposalRouter.Config.
  Variable decode : list Byte.byte → option MemberRegistry.Call.
  Variable encode : DispatchError MemberRegistry.Error → list Byte.byte.

Definition governed_config : ProposalRouter.Config := {|
  ProposalRouter.Rest := MemberRegistry.State;
  ProposalRouter.RuntimeCall := MemberRegistry.Call;
  CallError := DispatchError MemberRegistry.Error;
  decode_call := decode;
  dispatch_call := λ env c o w,
    let '(s, r) := MemberRegistry.dispatch env o c (snd w) in ((fst w, s), r);
  encode_error := encode;
  into_account_truncating := @into_account_truncating _ _ base;
  BlockNumber_max := @BlockNumber_max _ _ base;
  MaxMetadataLen := @MaxMetadataLen _ _ base;
  MaxVotersPerProposal := @MaxVotersPerProposal _ _ base;
  DefaultVotingPeriod := @DefaultVotingPeriod _ _ base;
  DefaultQuorum := @DefaultQuorum _ _ base;
  DefaultPassThreshold := @DefaultPassThreshold _ _ base;
  RouterAdminOrigin := @RouterAdminOrigin _ _ base;
  MaxMetadataLen_range := @MaxMetadataLen_range _ _ base;
  MaxVotersPerProposal_range := @MaxVotersPerProposal_range _ _ base;
  DefaultVotingPeriod_range := @DefaultVotingPeriod_range _ _ base;
  DefaultQuorum_range := @DefaultQuorum_range _ _ base;
  DefaultPassThreshold_range := @DefaultPassThreshold_range _ _ base
|}.
#[local] Existing Instance governed_config.

Abbreviation GovernedWorld := (@World F Sys governed_config).

(** The registry's storage next to the router's. *)
Definition registry_of (w : GovernedWorld) : MemberRegistry.State := snd w.

Lemma governed_respects : dispatch_respects.
Proof.
  intros env c o w w1 v Hd. cbn [dispatch_call governed_config] in Hd.
  destruct (MemberRegistry.dispatch _ _ _ _) as [s r] in Hd. simplify_eq. exact (runs_rest any_args env w s).
Qed.

(** Needs root: what the runtime's [RootClubAdminOrigin] guards. *)
Definition needs_root (c : MemberRegistry.Call) : bool :=
  match c with CreateClub _ _ _ | SetRole _ _ => true | _ => false end.

Lemma needs_root_refused env who c s :
  needs_root c = true → MemberRegistry.dispatch env (signed who) c s = (s, Err BadOrigin).
Proof.
  intros Hc. destruct c as [name admin md|a b|a b|a b d e|a|a b|a b|subject role|a]; try discriminate Hc.
  - eapply (runtime_root_only_lemma _ _ _ _ admin); [apply ensure_root_signed|left; eauto].
  - eapply (runtime_root_only_lemma _ _ _ _ subject); [apply ensure_root_signed|right; eauto].
Qed.

(** C16: what proposals can do to the registry.  Executing a proposal that may be
    executed and contains a call of the registry runs exactly that call as the
    router's account: if the registry accepts it, the registry is left as that
    call leaves it and the proposal is marked executed; otherwise nothing changes
    and the execution fails.  Calls that need root (to create a club, to assign a
    role) are always refused, although the vote was won: the router's account is
    not root. *)
Theorem governed_execution env origin who id p c w :
  ensure_signed_opt origin = Some who → proposal_of w id = Some p → executable env p →
  decode (pr_call p) = Some c →
  execute env origin id w =
    (if needs_root c then (w, Err (ModuleError ExecutionFailed))
     else match MemberRegistry.dispatch env (signed pallet_account) c (snd w) with
          | (s, Ok _) => (executed_world id p (fst w, s), Ok tt)
          | (_, Err _) => (w, Err (ModuleError ExecutionFailed))
          end).
Proof.
  intros Ho Hp (Hf & Hend & Hq & Hpt) Hc. rewrite execute_run, Ho, Hp, Hf. simpl.
  rewrite !decide_False by lia. change (decode_call (pr_call p)) with (decode (pr_call p)). rewrite Hc.
  cbn [dispatch_call governed_config]. destruct (needs_root c) eqn:Hn.
  - by rewrite needs_root_refused.
  - by destruct (MemberRegistry.dispatch _ _ _ _) as [s [u|e]].
Qed.

(** One call on the chain: of the router, or of the registry, by any origin. *)
Inductive governed_step (w : GovernedWorld) : GovernedWorld → Prop :=
| router_call env origin c :
    env_wf env → governed_step w (fst (ProposalRouter.dispatch env origin c w))
| registry_call env origin c :
    env_wf env → RegistryProps.call_wf c →
    governed_step w (fst w, fst (MemberRegistry.dispatch env origin c (snd w))).

Definition governed_reach : GovernedWorld → Prop :=
  reachable (λ w, w = (ProposalRouter.genesis, MemberRegistry.genesis)) governed_step.

(** The registry, during a call of the router. *)
Lemma router_call_registry env origin c (w : GovernedWorld) :
  (∀ b c, decode b = Some c → RegistryProps.call_wf c) → env_wf env →
  rtc RegistryProps.step (registry_of w) (registry_of (fst (ProposalRouter.dispatch env origin c w))).
Proof.
  intros Hdec Henv. destruct (ProposalRouter.dispatch env origin c w) as [w1 [u|e]] eqn:Hd; cbn.
  2:{ by apply router_dispatch_err in Hd as ->. }
  destruct c; cbn [ProposalRouter.dispatch] in Hd.
  - apply propose_ok in Hd as (? & _ & _ & ->). done.
  - apply vote_ok in Hd as (? & ? & _ & _ & _ & _ & _ & ->). done.
  - apply execute_ok in Hd as (who & p & c & w2 & v & _ & _ & _ & Hc & Hd & ->). cbn in Hd.
    apply rtc_once. exists env, (signed pallet_account), c. split_and!; [done|by eapply Hdec|].
    unfold registry_of. destruct (MemberRegistry.dispatch _ _ _ _) as [s r] in Hd |- *. by simplify_eq.
  - apply cancel_ok in Hd as (_ & _ & ->). done.
Qed.

Lemma governed_runs w w' : governed_step w w' → step w w'.
Proof.
  intros [env origin c _|env origin c _ _]; exists env.
  - destruct (ProposalRouter.dispatch env origin c w) as [w1 [u|e]] eqn:Hd; cbn.
    + by eapply dispatch_runs; [apply governed_respects|].
    + apply router_dispatch_err in Hd as ->. constructor.
  - exact (runs_rest any_args env w _).
Qed.

End Governance.

(** * Concrete chains and witnesses *)

Section ConcreteRuntime.
#[local] Existing Instances concrete_frame concrete_system.
#[local] Existing Instance Runtime_config.

(** Of frame_system, a remark, and the removal of the registry's storage. *)
Inductive ExampleSystemCall : Type := remark | kill_registry.
#[local] Instance example_calls_of_sdk : SdkCalls := {|
  SystemCall := ExampleSystemCall;
  overwrites_state c := match c with remark => false | kill_registry => true end;
  TimestampCall := unit; BalancesCall := unit
|}.

(** The other pallets keep the sudo key alone. *)
Fixpoint example_dispatch (env : Env) (o : MockOrigin) (c : Runtime.RuntimeCall)
    (w : MemberRegistry.State * option Z) :
    (MemberRegistry.State * option Z) * result unit (option (DispatchError MemberRegistry.Error)) :=
  let as_sudo inner := match o with
    | MockSigned who => if decide (snd w = Some who) then inner else (w, Err None)
    | _ => (w, Err None)
    end in
  match c with
  | System_ kill_registry =>
      match o with MockRoot => ((MemberRegistry.genesis, snd w), Ok tt) | _ => (w, Err None) end
  | System_ remark | Timestamp _ | Balances _ => (w, Ok tt)
  | Sudo_sudo c | Sudo_unchecked_weight c _ => as_sudo (fst (example_dispatch env MockRoot c w), Ok tt)
  | Sudo_sudo_as who c => as_sudo (fst (example_dispatch env (MockSigned who) c w), Ok tt)
  | Sudo_set_key k => as_sudo ((fst w, Some k), Ok tt)
  | Sudo_remove_key => as_sudo ((fst w, None), Ok tt)
  | MemberRegistry_ c =>
      match MemberRegistry.dispatch env o c (fst w) with
      | (s, Ok a) => ((s, snd w), Ok a)
      | (s, Err e) => ((s, snd w), Err (Some e))
      end
  end.

#[local] Instance example_runtime : ConstructedRuntime.
Proof.
  refine {| Others := option Z; from_registry := Some; sudo_key := id; runtime_dispatch := example_dispatch |};
    cbn zeta beta.
  - done.
  - intros env o [] w; destruct o; simpl; by intros [|].
  - done.
  - done.
  - intros env [] k w; simpl; try done; by case_decide.
  - intros env [] w; simpl; try done; by case_decide.
  - intros env [] c w; simpl; auto. case_decide; [|by left]. right. split; [|done]. right. eauto.
  - intros env [] c weight w; simpl; auto. case_decide; [|by left]. right. split; [|done]. right. eauto.
  - intros env [] as_who c w; simpl; auto. case_decide; [|by left]. right. split; [|done]. right. eauto.
Defined.

(** Account 1 holds the sudo key and creates a club for account 5, whose officer account
    6 becomes; account 6 is not let in by Sudo. *)
Definition chain_env : Env := {| now_as_millis := 1; block_number := 1 |}.
Definition chain_calls : list (Z * Runtime.RuntimeCall) :=
  [ (1, Sudo_sudo (Sudo_sudo (MemberRegistry_ (CreateClub [] (user 5) None))));
    (1, Sudo_sudo (MemberRegistry_ (CreateClub [] (user 5) None)));
    (5, MemberRegistry_ (AddOfficer 0 (user 6)));
    (6, Sudo_sudo (MemberRegistry_ (CreateClub [] (user 6) None)));
    (6, System_ remark) ].
Definition chain_step (w : MemberRegistry.State * Others) (x : Z * Runtime.RuntimeCall) :
    MemberRegistry.State * Others :=
  fst (runtime_dispatch chain_env (signed (user x.1)) x.2 w).
Definition chain_world : MemberRegistry.State * Others :=
  foldl chain_step (MemberRegistry.genesis, Some (user 1)) chain_calls.

(** Account 6 alone tries everything. *)
Definition ordinary_calls : list (Z * Runtime.RuntimeCall) :=
  [ (6, System_ kill_registry); (6, Sudo_sudo (System_ kill_registry));
    (6, Sudo_sudo_as (user 1) (MemberRegistry_ (CreateClub [] (user 6) None)));
    (6, MemberRegistry_ (CreateClub [] (user 6) None)); (6, MemberRegistry_ (AddOfficer 0 (user 6))) ].
Definition ordinary_world : MemberRegistry.State * Others :=
  foldl chain_step (MemberRegistry.genesis, Some (user 1)) ordinary_calls.

Lemma ordinary_step w c :
  sudo_key (snd w) ≠ Some (user 6) → ordinary_extrinsic w (chain_step w (6, c)).
Proof. intros Hk. exists chain_env, (user 6), c. by split. Qed.

Lemma runtime_governed_witness :
  st_next_club_id (fst chain_world) = 1 ∧
  (ci_officers <$> sm_get (st_clubs (fst chain_world)) 0) = Some [user 6] ∧
  RegistryProps.wf (fst chain_world) ∧ fst ordinary_world = MemberRegistry.genesis.
Proof.
  split; [reflexivity|]. split; [reflexivity|]. destruct runtime_governed as [Hkept Hempty]. split.
  - apply Hkept, (reachable_foldl _ _ _ (λ x, runtime_call_wf x.2 ∧ keeps_state x.2 = true)); [|done|].
    + intros w x [Hx Hk]. exists chain_env, (user x.1), x.2. split_and!; [done|exact Hx|exact Hk|reflexivity].
    + repeat constructor; done.
  - apply Hempty.
    eexists (MemberRegistry.genesis, Some (user 1)). split; [done|].
    unfold ordinary_world; cbn [foldl ordinary_calls].
    do 5 (eapply rtc_r; [|apply ordinary_step; vm_compute; discriminate]). constructor.
Defined.
End ConcreteRuntime.

Section ConcreteGovernance.
#[local] Existing Instances concrete_frame concrete_system.
#[local] Existing Instance Runtime_config.

(** Byte 1 makes account 5 an officer of club 0, byte 2 creates a club. *)
Definition registry_decode (b : list Byte.byte) : option MemberRegistry.Call :=
  match b with
  | Byte.x01 :: _ => Some (AddOfficer 0 (user 5))
  | Byte.x02 :: _ => Some (CreateClub [] (user 5) None)
  | _ => None
  end.
Definition example_governed : ProposalRouter.Config :=
  governed_config (mock_config plain_dispatch) registry_decode (λ _, []).
#[local] Existing Instance example_governed.

(** Club 0 belongs to the router's account. *)
Definition clubs_of_router : MemberRegistry.State :=
  fst (MemberRegistry.dispatch chain_env by_root (CreateClub [] pallet_account None) MemberRegistry.genesis).

(** Both proposals are made by account 1 and supported by account 2. *)
Definition governed_calls : list (Z * Z * ProposalRouter.Call) :=
  [ (1, 1, Propose Global [Byte.x01] None None None None);
    (1, 1, Propose Global [Byte.x02] None None None None);
    (2, 2, Vote 0 true); (2, 2, Vote 1 true) ].
Definition governed_call (w : World) (x : Z * Z * ProposalRouter.Call) : World :=
  let '(bn, who, c) := x in fst (ProposalRouter.dispatch (at_block bn) (by_user who) c w).
Definition governed_world : World :=
  foldl governed_call (ProposalRouter.genesis, clubs_of_router) governed_calls.

(** The first is executed, the second refused. *)
Lemma governed_execution_witness :
  (ci_officers <$> sm_get (st_clubs (snd (fst (execute (at_block 20) (by_user 9) 0 governed_world)))) 0)
    = Some [user 5] ∧
  execute (at_block 20) (by_user 9) 1 governed_world = (governed_world, Err (ModuleError ExecutionFailed)).
Proof.
  split; [vm_compute; reflexivity|].
  destruct (proposal_of governed_world 1) as [p|] eqn:Hp; [|discriminate Hp].
  refine (governed_execution (mock_config plain_dispatch) registry_decode (λ _, []) (at_block 20) (by_user 9)
    (user 9) 1 p (CreateClub [] (user 5) None) governed_world _ Hp _ _); [reflexivity|..];
    vm_compute in Hp; injection Hp as <-; [|reflexivity].
  split_and!; vm_compute; congruence.
Defined.

(** Root gives club 0 to the router's account and account 7 fails to take a role; the
    proposals are voted on and executed, and account 5, an officer now, attests for
    account 6, which joins. *)
Definition shared_chain : list (Z * MockOrigin * (ProposalRouter.Call + MemberRegistry.Call)) :=
  [(1, MockRoot, inr (CreateClub [] pallet_account None)); (1, MockSigned 7, inr (SetRole (user 7) 3))] ++
  ((λ '(bn, who, c), (bn, MockSigned who, inl c)) <$> governed_calls) ++
  [(20, MockSigned 9, inl (Execute 0)); (20, MockSigned 9, inl (Execute 1));
   (21, MockSigned 5, inr (MemberRegistry.CreateAttestation (user 6) 0 None None));
   (22, MockSigned 6, inr (MemberRegistry.RegisterMember 0))].
Definition shared_call (w : World) (x : Z * MockOrigin * (ProposalRouter.Call + MemberRegistry.Call)) : World :=
  let '(bn, o, c) := x in
  match c with
  | inl c => fst (ProposalRouter.dispatch (at_block bn) o c w)
  | inr c => (fst w, fst (MemberRegistry.dispatch (at_block bn) o c (snd w)))
  end.
Definition shared_world : World := foldl shared_call (ProposalRouter.genesis, MemberRegistry.genesis) shared_chain.

Lemma shared_calls_wf :
  Forall (λ x, match x.2 with inl _ => True | inr c => RegistryProps.call_wf c end) shared_chain.
Proof. repeat constructor; vm_compute; discriminate. Qed.

Lemma shared_world_reach : governed_reach (mock_config plain_dispatch) registry_decode (λ _, []) shared_world.
Proof.
  eapply reachable_foldl; [|reflexivity|exact shared_calls_wf].
  intros w [[bn o] [c|c]] Hc; by constructor.
Qed.

End ConcreteGovernance.
