(* ===== verification/Xcm.v ===== *)
(** XCM in the runtime (src/runtime/src/configs/xcm_config.rs): which account and
    which origin a message from another chain acts with, which messages are
    executed at all, and who may update the collator selection
    (src/runtime/src/configs/mod.rs).

    The configuration composes parts of the SDK (staging_xcm_builder, pallet_xcm);
    the class [XcmBuilder] states their documented behaviour, the compositions are
    the source's. *)

From S2P Require Export Runtime.
#[local] Open Scope Z_scope.

(** * The language of XCM, as far as the configuration names it *)

Class XcmTypes := {
  NetworkId : Type;
  NetworkId_eq_dec :: EqDecision NetworkId;
  OtherBodyId : Type;
  OtherBodyId_eq_dec :: EqDecision OtherBodyId;
  BodyPart : Type;
  BodyPart_eq_dec :: EqDecision BodyPart;
  Voice : BodyPart;
  OtherJunction : Type;
  OtherJunction_eq_dec :: EqDecision OtherJunction;
  Instruction : Type;
  ProcessMessageError : Type
}.

Inductive BodyId `{XcmTypes} : Type :=
| Executive
| Defense
| OtherBody (b : OtherBodyId).

Inductive Junction `{XcmTypes} : Type :=
| Parachain (id : Z)
| AccountId32 (network : option NetworkId) (id : bytes32)
| Plurality (id : BodyId) (part : BodyPart)
| Other (j : OtherJunction).

Record Location `{XcmTypes} : Type := {
  parents : Z;
  interior : list Junction
}.

#[global] Instance BodyId_eq_dec `{XcmTypes} : EqDecision BodyId.
Proof. solve_decision. Defined.
#[global] Instance Junction_eq_dec `{XcmTypes} : EqDecision Junction.
Proof. solve_decision. Defined.
#[global] Instance Location_eq_dec `{XcmTypes} : EqDecision Location.
Proof. solve_decision. Defined.

Inductive OriginKind : Type := Native | SovereignAccount | Superuser | XcmKind.

(** What a barrier may change besides the message. *)
Record Properties : Type := {
  weight_credit : Weight;
  message_id : option bytes32
}.

Section Traits.
  Context {Sys : System} {XT : XcmTypes}.

Definition ConvertLocation : Type := Location → option AccountId.
(** On failure the location is handed back. *)
Definition ConvertOrigin : Type := Location → OriginKind → result RuntimeOrigin Location.
(** [should_execute] and [deny_execution] get the origin and the weight of a
    message, and may change the message and its properties. *)
Definition ShouldExecute : Type :=
  Location → Weight → ST (list Instruction * Properties) ProcessMessageError unit.

End Traits.

(** * The parts *)

Class XcmBuilder {Sys : System} {XT : XcmTypes} := {
  (** Origins of the XCM pallets. *)
  relay_origin : RuntimeOrigin;
  sibling_origin : Z → RuntimeOrigin;
  xcm_origin : Location → RuntimeOrigin;
  as_xcm_origin : RuntimeOrigin → option Location;

  (** Locations to accounts. *)
  account_from : bytes32 → AccountId;
  parent_account : AccountId;
  sibling_account : Z → AccountId;
  ParentIsPreset : ConvertLocation;
  SiblingParachainConvertsVia : ConvertLocation;
  AccountId32Aliases : option NetworkId → ConvertLocation;
  convert_location_first : list ConvertLocation → ConvertLocation;

  (** Locations to origins. *)
  SovereignSignedViaLocation : ConvertLocation → ConvertOrigin;
  RelayChainAsNative : RuntimeOrigin → ConvertOrigin;
  SiblingParachainAsNative : ConvertOrigin;
  SignedAccountId32AsNative : option NetworkId → ConvertOrigin;
  XcmPassthrough : ConvertOrigin;
  convert_origin_first : list ConvertOrigin → ConvertOrigin;

  (** Tests of origins. *)
  IsVoiceOfBody : Location → BodyId → Location → bool;
  EnsureXcm : (Location → bool) → RuntimeOrigin → bool;
  EitherOfDiverse : (RuntimeOrigin → bool) → (RuntimeOrigin → bool) → RuntimeOrigin → bool;

  (** Barriers, and what they look for in a message: whether it buys execution for
      a weight (with the limit then set to that weight), whether it declares itself
      unpaid, whether it moves reserves to the relay chain, the messages inside it
      (itself included), its trailing topic, and the origin it has after the
      instructions at its head that change the origin. *)
  buys_execution : Weight → list Instruction → option (list Instruction);
  unpaid_execution : Weight → list Instruction → bool;
  reserve_to_relay : list Instruction → bool;
  messages_in : list Instruction → list (list Instruction);
  trailing_topic : list Instruction → option (list Instruction * bytes32);
  computed_origin : list Junction → Z → Location → list Instruction →
    option (Location * list Instruction * list Instruction);
  Unsupported : ProcessMessageError;
  Overweight : ProcessMessageError;
  TakeWeightCredit : ShouldExecute;
  AllowTopLevelPaidExecutionFrom : (Location → bool) → ShouldExecute;
  AllowExplicitUnpaidExecutionFrom : (Location → bool) → ShouldExecute;
  DenyReserveTransferToRelayChain : ShouldExecute;
  DenyRecursively : ShouldExecute → ShouldExecute;
  WithComputedOrigin : ShouldExecute → list Junction → Z → ShouldExecute;
  DenyThenTry : ShouldExecute → ShouldExecute → ShouldExecute;
  TrailingSetTopicAsId : ShouldExecute → ShouldExecute;
  execute_first : list ShouldExecute → ShouldExecute;

  relay_not_root : ensure_root relay_origin = false;
  sibling_not_root : ∀ id, ensure_root (sibling_origin id) = false;
  xcm_not_root : ∀ l, ensure_root (xcm_origin l) = false;
  relay_not_signed : ensure_signed_opt relay_origin = None;
  sibling_not_signed : ∀ id, ensure_signed_opt (sibling_origin id) = None;
  xcm_not_signed : ∀ l, ensure_signed_opt (xcm_origin l) = None;
  as_xcm_xcm : ∀ l, as_xcm_origin (xcm_origin l) = Some l;
  as_xcm_relay : as_xcm_origin relay_origin = None;
  as_xcm_sibling : ∀ id, as_xcm_origin (sibling_origin id) = None;
  as_xcm_signed : ∀ who, as_xcm_origin (signed who) = None;

  parent_is_preset : ∀ l, ParentIsPreset l =
    match l with {| parents := 1; interior := [] |} => Some parent_account | _ => None end;
  sibling_converts : ∀ l, SiblingParachainConvertsVia l =
    match l with
    | {| parents := 1; interior := [Parachain id] |} => Some (sibling_account id)
    | _ => None
    end;
  account_aliases : ∀ n l, AccountId32Aliases n l =
    match l with
    | {| parents := 0; interior := [AccountId32 None id] |} => Some (account_from id)
    | {| parents := 0; interior := [AccountId32 (Some m) id] |} => 
        if decide (n = Some m) then Some (account_from id) else None
    | _ => None
    end;
  convert_location_nil : ∀ l, convert_location_first [] l = None;
  convert_location_cons : ∀ c cs l, convert_location_first (c :: cs) l =
    match c l with Some a => Some a | None => convert_location_first cs l end;

  sovereign_signed : ∀ c l k, SovereignSignedViaLocation c l k =
    match k, c l with SovereignAccount, Some a => Ok (signed a) | _, _ => Err l end;
  relay_as_native : ∀ o l k, RelayChainAsNative o l k =
    match k, l with Native, {| parents := 1; interior := [] |} => Ok o | _, _ => Err l end;
  sibling_as_native : ∀ l k, SiblingParachainAsNative l k =
    match k, l with
    | Native, {| parents := 1; interior := [Parachain id] |} => Ok (sibling_origin id)
    | _, _ => Err l
    end;
  account_as_native : ∀ n l k, SignedAccountId32AsNative n l k =
    match k, l with
    | Native, {| parents := 0; interior := [AccountId32 None id] |} => Ok (signed (account_from id))
    | Native, {| parents := 0; interior := [AccountId32 (Some m) id] |} =>
        if decide (n = Some m) then Ok (signed (account_from id)) else Err l
    | _, _ => Err l
    end;
  xcm_passthrough : ∀ l k, XcmPassthrough l k = match k with XcmKind => Ok (xcm_origin l) | _ => Err l end;
  convert_origin_nil : ∀ l k, convert_origin_first [] l k = Err l;
  convert_origin_cons : ∀ c cs l k, convert_origin_first (c :: cs) l k =
    match c l k with Ok o => Ok o | Err l' => convert_origin_first cs l' k end;

  (** The location is the prefix followed by the body's voice. *)
  is_voice_of_body : ∀ prefix body l, IsVoiceOfBody prefix body l = true ↔
    parents l = parents prefix ∧ interior l = interior prefix ++ [Plurality body Voice];
  ensure_xcm : ∀ f o, EnsureXcm f o = match as_xcm_origin o with Some l => f l | None => false end;
  either_of : ∀ f g o, EitherOfDiverse f g o = f o || g o;

  take_weight_credit : ∀ l w m, TakeWeightCredit l w m =
    if all_lte w (weight_credit m.2)
    then ((m.1, {| weight_credit := weight_sub (weight_credit m.2) w; message_id := message_id m.2 |}), Ok tt)
    else (m, Err Overweight);
  allow_paid : ∀ f l w m, AllowTopLevelPaidExecutionFrom f l w m =
    match f l, buys_execution w m.1 with
    | true, Some ins => ((ins, m.2), Ok tt)
    | _, _ => (m, Err Unsupported)
    end;
  allow_unpaid : ∀ f l w m, AllowExplicitUnpaidExecutionFrom f l w m =
    if f l && unpaid_execution w m.1 then (m, Ok tt) else (m, Err Unsupported);
  deny_reserve : ∀ l w m, DenyReserveTransferToRelayChain l w m =
    if reserve_to_relay m.1 then (m, Err Unsupported) else (m, Ok tt);
  (** Besides, nesting that is too deep is denied. *)
  deny_recursively : ∀ d l w m, (∀ m', fst (d l w m') = m') →
    fst (DenyRecursively d l w m) = m ∧
    (snd (DenyRecursively d l w m) = Ok tt →
      ∀ ins, ins ∈ messages_in m.1 → snd (d l w (ins, m.2)) = Ok tt);
  message_in_itself : ∀ ins, ins ∈ messages_in ins;
  with_computed_origin : ∀ b u n l w m, WithComputedOrigin b u n l w m =
    match computed_origin u n l m.1 with
    | None => (m, Err Unsupported)
    | Some (l', pre, rest) => let '((rest', p), r) := b l' w (rest, m.2) in ((pre ++ rest', p), r)
    end;
  deny_then_try : ∀ d a l w m, DenyThenTry d a l w m =
    match d l w m with (m', Ok _) => a l w m' | (m', Err e) => (m', Err e) end;
  trailing_topic_as_id : ∀ b l w m, snd (TrailingSetTopicAsId b l w m) =
    match trailing_topic m.1 with
    | Some (ins, t) => snd (b l w (ins, {| weight_credit := weight_credit m.2; message_id := Some t |}))
    | None => snd (b l w m)
    end;
  execute_nil : ∀ l w m, execute_first [] l w m = (m, Err Unsupported);
  execute_cons : ∀ b bs l w m, execute_first (b :: bs) l w m =
    match b l w m with (m', Ok u) => (m', Ok u) | (m', Err _) => execute_first bs l w m' end
}.

(** * The configuration *)

Section Configuration.
  Context {Sys : System} {XT : XcmTypes} {XB : XcmBuilder}.

(** [ParachainInfo::parachain_id()]. *)
Variable parachain_id : Z.

Definition RelayLocation : Location := {| parents := 1; interior := [] |}.
Definition RelayNetwork : option NetworkId := None.
Definition RelayChainOrigin : RuntimeOrigin := relay_origin.
Definition UniversalLocation : list Junction := [Parachain parachain_id].

Definition LocationToAccountId : ConvertLocation :=
  convert_location_first
    [ParentIsPreset; SiblingParachainConvertsVia; AccountId32Aliases RelayNetwork].

Definition XcmOriginToTransactDispatchOrigin : ConvertOrigin :=
  convert_origin_first
    [SovereignSignedViaLocation LocationToAccountId;
     RelayChainAsNative RelayChainOrigin;
     SiblingParachainAsNative;
     SignedAccountId32AsNative RelayNetwork;
     XcmPassthrough].

(** [ParentOrParentsExecutivePlurality::contains]. *)
Definition ParentOrParentsExecutivePlurality (location : Location) : bool :=
  match parents location, interior location with
  | 1, [] => true
  | 1, [Plurality Executive _] => true
  | _, _ => false
  end.

(** [Everything::contains]. *)
Definition Everything (location : Location) : bool := true.

Definition Barrier : ShouldExecute :=
  TrailingSetTopicAsId
    (DenyThenTry
      (DenyRecursively DenyReserveTransferToRelayChain)
      (execute_first
        [TakeWeightCredit;
         WithComputedOrigin
           (execute_first
             [AllowTopLevelPaidExecutionFrom Everything;
              AllowExplicitUnpaidExecutionFrom ParentOrParentsExecutivePlurality])
           UniversalLocation
           8])).

(** configs/mod.rs: the relay chain's staking admin. *)
Definition StakingAdminBodyId : BodyId := Defense.

Definition CollatorSelectionUpdateOrigin : RuntimeOrigin → bool :=
  EitherOfDiverse ensure_root (EnsureXcm (IsVoiceOfBody RelayLocation StakingAdminBodyId)).

End Configuration.
