(* ===== verification/XcmProps.v ===== *)
(** XCM: the origin a message acts with, who updates the collator selection, and
    which messages are executed; and an example of the builder to evaluate them. *)

From S2P Require Export Xcm.
#[local] Open Scope Z_scope.

Create HintDb xcm.

(** Every shape of location the configuration tells apart. *)
Ltac locations l :=
  destruct l as [pa [|[id|[m|] id|[| |] part|j] [|j2 js]]]; destruct pa as [|[pa|pa|]|pa].

Section XcmProps.
  Context {Sys : System} {XT : XcmTypes} {XB : XcmBuilder}.

(** * The origin of a message's calls *)

#[local] Hint Rewrite parent_is_preset sibling_converts account_aliases convert_location_nil
  convert_location_cons sovereign_signed relay_as_native sibling_as_native account_as_native
  xcm_passthrough convert_origin_nil convert_origin_cons relay_not_root sibling_not_root xcm_not_root
  as_xcm_xcm as_xcm_relay as_xcm_sibling as_xcm_signed ensure_xcm either_of @ensure_root_signed
  @ensure_signed_signed : xcm.

(** The accounts of other locations: the relay chain's, one for each sibling chain,
    and this chain's accounts themselves. *)
Definition account_of (l : Location) : option AccountId :=
  match parents l, interior l with
  | 1, [] => Some parent_account
  | 1, [Parachain id] => Some (sibling_account id)
  | 0, [AccountId32 None id] => Some (account_from id)
  | _, _ => None
  end.

(** The origin with which a message from [l] calls, if there is one. *)
Definition transact_origin (l : Location) (k : OriginKind) : option RuntimeOrigin :=
  match k with
  | SovereignAccount => signed <$> account_of l
  | Native =>
      match parents l, interior l with
      | 1, [] => Some relay_origin
      | 1, [Parachain id] => Some (sibling_origin id)
      | 0, [AccountId32 None id] => Some (signed (account_from id))
      | _, _ => None
      end
  | Superuser => None
  | XcmKind => Some (xcm_origin l)
  end.

Lemma location_to_account l : LocationToAccountId l = account_of l.
Proof. unfold LocationToAccountId. locations l; by autorewrite with xcm. Qed.

Lemma transact_origin_convert l k :
  XcmOriginToTransactDispatchOrigin l k =
    match transact_origin l k with Some o => Ok o | None => Err l end.
Proof.
  unfold XcmOriginToTransactDispatchOrigin, RelayChainOrigin.
  destruct k; cbn [transact_origin]; [locations l|destruct (account_of l) eqn:Ha|..];
    repeat (autorewrite with xcm; rewrite ?location_to_account, ?Ha; cbn; try (case_decide; [done|])); done.
Qed.

Lemma transact_origin_not_root l k o : transact_origin l k = Some o → ensure_root o = false.
Proof.
  destruct k; cbn; intros Ho.
  - locations l; simplify_eq/=; by autorewrite with xcm.
  - destruct (account_of l); simplify_eq/=. by autorewrite with xcm.
  - done.
  - simplify_eq. by autorewrite with xcm.
Qed.

(** C24: whom a message from elsewhere can act as.  The origin of its calls is
    exactly that of [transact_origin]: the sovereign account of the relay chain or of
    the sibling chain it comes from, the chain's own account it is sent by, the
    relay chain or sibling itself, or its location; any other location has no account
    and no native origin, and the kind superuser is refused.  No message acts as
    root; so whatever a message calls, it creates no club and assigns no role in the
    member registry. *)
Theorem transact_origins l k `{F : Frame} :
  XcmOriginToTransactDispatchOrigin l k =
    match transact_origin l k with Some o => Ok o | None => Err l end ∧
  ∀ o, XcmOriginToTransactDispatchOrigin l k = Ok o →
    ensure_root o = false ∧
    ∀ env s c, (∃ name admin md, c = CreateClub name admin md) ∨ (∃ who role, c = SetRole who role) →
      MemberRegistry.dispatch (Cfg := Runtime_config) env o c s = (s, Err BadOrigin).
Proof.
  rewrite transact_origin_convert. split; [done|]. intros o Ho.
  assert (ensure_root o = false) as Hr.
  { destruct (transact_origin l k) eqn:Ht; simplify_eq. by eapply transact_origin_not_root. }
  split; [done|]. intros env s c [Hc|(who & Hc)]; subst.
  - destruct Hc as (name & admin & md & Hc). eapply (runtime_root_only_lemma _ _ _ _ admin); eauto 6.
  - destruct Hc as (role & ->). eapply runtime_root_only_lemma; eauto.
Qed.

(** Who updates the collator selection.  Root does; a signed account never does;
    and of the messages from elsewhere exactly those with the origin kind of XCM
    that come from the relay chain's defense body with one voice. *)
Theorem collator_selection_update l k o :
  CollatorSelectionUpdateOrigin root = true ∧
  (∀ who, CollatorSelectionUpdateOrigin (signed who) = false) ∧
  (XcmOriginToTransactDispatchOrigin l k = Ok o →
    CollatorSelectionUpdateOrigin o = true ↔
    k = XcmKind ∧ l = {| parents := 1; interior := [Plurality Defense Voice] |}).
Proof.
  unfold CollatorSelectionUpdateOrigin, StakingAdminBodyId. split; [|split].
  - rewrite either_of. by rewrite ensure_root_root.
  - intros who. by autorewrite with xcm.
  - rewrite transact_origin_convert. destruct (transact_origin l k) as [o'|] eqn:Ht; [|done]. intros [= <-].
    rewrite either_of, (transact_origin_not_root _ _ _ Ht). cbn. rewrite ensure_xcm.
    destruct k; cbn in Ht; simplify_eq.
    + assert (as_xcm_origin o' = None) as ->; [|naive_solver].
      locations l; simplify_eq/=; by autorewrite with xcm.
    + destruct (account_of l); simplify_eq/=. rewrite as_xcm_signed. naive_solver.
    + rewrite as_xcm_xcm, is_voice_of_body. destruct l as [pa js]; cbn. naive_solver.
Qed.

(** * Which messages are executed *)

Variable parachain_id : Z.

Lemma parent_or_executive l :
  ParentOrParentsExecutivePlurality l = true ↔
    l = RelayLocation ∨ ∃ part, l = {| parents := 1; interior := [Plurality Executive part] |}.
Proof.
  unfold ParentOrParentsExecutivePlurality, RelayLocation. split.
  - locations l; cbn; intros; simplify_eq; eauto.
  - by intros [->|[part ->]].
Qed.

(** The message without its topic. *)
Definition body (ins : list Instruction) : list Instruction :=
  match trailing_topic ins with Some (b, _) => b | None => ins end.

(** A message executes for free: it declares itself unpaid, and is from the relay
    chain or its executive body. *)
Definition free_pass (l : Location) (w : Weight) (ins : list Instruction) : Prop :=
  unpaid_execution w ins = true ∧
  (l = RelayLocation ∨ ∃ part, l = {| parents := 1; interior := [Plurality Executive part] |}).

Lemma deny_reserve_keeps l w m : fst (DenyReserveTransferToRelayChain l w m) = m.
Proof. rewrite deny_reserve. by destruct (reserve_to_relay m.1). Qed.

Lemma pay_or_pass l w m :
  snd (execute_first
    [AllowTopLevelPaidExecutionFrom Everything;
     AllowExplicitUnpaidExecutionFrom ParentOrParentsExecutivePlurality] l w m) = Ok tt ↔
  is_Some (buys_execution w m.1) ∨ free_pass l w m.1.
Proof.
  rewrite execute_cons, allow_paid. unfold Everything, free_pass.
  destruct (buys_execution w m.1) as [ins|]; cbn; [split; eauto|].
  rewrite execute_cons, allow_unpaid, <- parent_or_executive, is_Some_alt. cbn.
  destruct (ParentOrParentsExecutivePlurality l), (unpaid_execution w m.1); cbn;
    rewrite ?execute_nil; naive_solver.
Qed.

Lemma admitted_tail l w m :
  snd (execute_first
    [TakeWeightCredit;
     WithComputedOrigin
       (execute_first
         [AllowTopLevelPaidExecutionFrom Everything;
          AllowExplicitUnpaidExecutionFrom ParentOrParentsExecutivePlurality])
       (UniversalLocation parachain_id) 8] l w m) = Ok tt ↔
  all_lte w (weight_credit m.2) = true ∨
  ∃ l' pre rest, computed_origin (UniversalLocation parachain_id) 8 l m.1 = Some (l', pre, rest) ∧
    (is_Some (buys_execution w rest) ∨ free_pass l' w rest).
Proof.
  rewrite execute_cons, take_weight_credit. destruct (all_lte w (weight_credit m.2)); cbn.
  { split; eauto. }
  rewrite execute_cons, with_computed_origin. destruct (computed_origin _ _ _ _) as [[[l' pre] rest]|]; cbn.
  2:{ rewrite execute_nil. split; [done|]. intros [?|(?&?&?&?&_)]; done. }
  pose proof (pay_or_pass l' w (rest, m.2)) as H. cbn in H.
  destruct (execute_first _ l' w _) as [[rest' p] [u|e]]; cbn in *.
  - destruct u. split; [|done]. intros _. right. do 3 eexists. split; [done|]. by apply H.
  - rewrite execute_nil. split; [done|]. intros [?|(? & ? & ? & [= <- <- <-] & Hp)]; [done|]. by apply H in Hp.
Qed.

(** Which messages are admitted.  The barrier lets a message pass only if neither
    it nor a message inside it moves reserves to the relay chain, and only if its
    weight was paid already, or, after the at most eight instructions that change its
    origin, it buys execution for its weight, or it declares itself unpaid and is from
    the relay chain or the executive body there: nobody else executes for free. *)
Lemma barrier_admits l w m :
  snd (Barrier parachain_id l w m) = Ok tt →
  (∀ ins, ins ∈ messages_in (body m.1) → reserve_to_relay ins = false) ∧
  (all_lte w (weight_credit m.2) = true ∨
   ∃ l' pre rest, computed_origin (UniversalLocation parachain_id) 8 l (body m.1) = Some (l', pre, rest) ∧
     (is_Some (buys_execution w rest) ∨ free_pass l' w rest)).
Proof.
  unfold Barrier. rewrite trailing_topic_as_id.
  set (m' := match trailing_topic m.1 with
    | Some (ins, t) => (ins, {| weight_credit := weight_credit m.2; message_id := Some t |})
    | None => m end).
  assert (body m.1 = m'.1 ∧ weight_credit m.2 = weight_credit m'.2) as [-> ->].
  { unfold m', body. by destruct (trailing_topic m.1) as [[ins t]|]. }
  set (inner := DenyThenTry _ _). intros H. assert (snd (inner l w m') = Ok tt) as H'.
  { unfold m'. by destruct (trailing_topic m.1) as [[ins t]|]. }
  clearbody m'. clear H. revert H'. unfold inner. rewrite deny_then_try.
  destruct (deny_recursively DenyReserveTransferToRelayChain l w m' (λ m, deny_reserve_keeps l w m)) as [Hk Hd].
  destruct (DenyRecursively _ l w m') as [m'' [u|e]]; cbn in *; [subst m''|done]. intros H. split.
  - intros ins Hin. destruct u. specialize (Hd eq_refl ins Hin). rewrite deny_reserve in Hd. cbn in Hd.
    by destruct (reserve_to_relay ins).
  - by apply admitted_tail.
Qed.
End XcmProps.

(** * Witnesses *)

(** Messages of a handful of instructions, in a network without names. *)
Inductive ExampleInstruction : Type :=
| Descend | Withdraw | Buy (limit : Z) | Unpaid | ReserveToRelay | Topic (t : bytes32).

#[local] Instance example_xcm_types : XcmTypes := {|
  NetworkId := unit; OtherBodyId := unit; BodyPart := bool; Voice := true;
  OtherJunction := unit; Instruction := ExampleInstruction; ProcessMessageError := bool
|}.

(** Accounts are bytes; the XCM origins are origins of their own. *)
Inductive ExampleOrigin : Type :=
| FromRoot | FromAccount (who : Byte.byte) | FromRelay | FromSibling (id : Z) | FromXcm (l : Location).

(** The account of 32 bytes is the first of them. *)
Definition first_byte (v : bytes32) : Byte.byte := v !!! 0%fin.

#[local] Instance byte_countable : Countable Byte.byte.
Proof. apply (inj_countable Byte.to_N Byte.of_N Byte.of_to_N). Defined.

#[local] Instance xcm_system : System.
Proof.
  refine {|
    AccountId := Byte.byte; RuntimeOrigin := ExampleOrigin; signed := FromAccount; root := FromRoot;
    ensure_signed_opt := λ o, match o with FromAccount who => Some who | _ => None end;
    ensure_root := λ o, match o with FromRoot => true | _ => false end |}; reflexivity.
Defined.

(** A message pays by withdrawing and buying enough reference time. *)
Definition example_buys (w : Weight) (ins : list Instruction) : option (list Instruction) :=
  match ins with
  | Withdraw :: Buy limit :: rest =>
      if ref_time w <=? limit then Some (Withdraw :: Buy (ref_time w) :: rest) else None
  | _ => None
  end.

Definition example_unpaid (w : Weight) (ins : list Instruction) : bool :=
  match ins with Unpaid :: _ => true | _ => false end.

Definition moves_reserves (ins : list Instruction) : bool :=
  existsb (λ i, match i with ReserveToRelay => true | _ => false end) ins.

Definition example_topic (ins : list Instruction) : option (list Instruction * bytes32) :=
  match rev ins with Topic t :: b => Some (rev b, t) | _ => None end.

(** Descending once makes the executive body of the origin. *)
Definition example_computed (u : list Junction) (n : Z) (l : Location) (ins : list Instruction) :
    option (Location * list Instruction * list Instruction) :=
  match ins with
  | Descend :: rest =>
      if 1 <=? n
      then Some ({| parents := parents l; interior := interior l ++ [Plurality Executive true] |}, [Descend], rest)
      else None
  | _ => Some (l, [], ins)
  end.

Definition voice_of (prefix : Location) (b : BodyId) (l : Location) : bool :=
  bool_decide (parents l = parents prefix ∧ interior l = interior prefix ++ [Plurality b Voice]).

#[local] Instance example_builder : XcmBuilder.
Proof.
  refine {|
    relay_origin := FromRelay; sibling_origin := FromSibling; xcm_origin := FromXcm;
    as_xcm_origin := λ o, match o with FromXcm l => Some l | _ => None end;
    account_from := first_byte; parent_account := Byte.x64; sibling_account id := default Byte.x00 (Byte.of_N (Z.to_N id));
    ParentIsPreset := λ l,
      match l with {| parents := 1; interior := [] |} => Some Byte.x64 | _ => None end;
    SiblingParachainConvertsVia := λ l,
      match l with {| parents := 1; interior := [Parachain id] |} =>
        Some (default Byte.x00 (Byte.of_N (Z.to_N id))) | _ => None end;
    AccountId32Aliases := λ n l,
      match l with
      | {| parents := 0; interior := [AccountId32 None id] |} => Some (first_byte id)
      | {| parents := 0; interior := [AccountId32 (Some m) id] |} => if decide (n = Some m) then Some (first_byte id) else None
      | _ => None
      end;
    convert_location_first := fix first cs l :=
      match cs with
      | [] => None
      | c :: cs => match c l with Some a => Some a | None => first cs l end
      end;
    SovereignSignedViaLocation := λ c l k,
      match k, c l with SovereignAccount, Some a => Ok (FromAccount a) | _, _ => Err l end;
    RelayChainAsNative := λ o l k,
      match k, l with Native, {| parents := 1; interior := [] |} => Ok o | _, _ => Err l end;
    SiblingParachainAsNative := λ l k,
      match k, l with
      | Native, {| parents := 1; interior := [Parachain id] |} => Ok (FromSibling id)
      | _, _ => Err l
      end;
    SignedAccountId32AsNative := λ n l k,
      match k, l with
      | Native, {| parents := 0; interior := [AccountId32 None id] |} => Ok (FromAccount (first_byte id))
      | Native, {| parents := 0; interior := [AccountId32 (Some m) id] |} =>
          if decide (n = Some m) then Ok (FromAccount (first_byte id)) else Err l
      | _, _ => Err l
      end;
    XcmPassthrough := λ l k, match k with XcmKind => Ok (FromXcm l) | _ => Err l end;
    convert_origin_first := fix first cs l k :=
      match cs with
      | [] => Err l
      | c :: cs => match c l k with Ok o => Ok o | Err l' => first cs l' k end
      end;
    IsVoiceOfBody := voice_of;
    EnsureXcm := λ f o, match o with FromXcm l => f l | _ => false end;
    EitherOfDiverse := λ f g o, f o || g o;
    buys_execution := example_buys; unpaid_execution := example_unpaid;
    reserve_to_relay := moves_reserves; messages_in := λ ins, [ins];
    trailing_topic := example_topic; computed_origin := example_computed;
    Unsupported := false; Overweight := true;
    TakeWeightCredit := λ l w m,
      if all_lte w (weight_credit m.2)
      then ((m.1, {| weight_credit := weight_sub (weight_credit m.2) w; message_id := message_id m.2 |}), Ok tt)
      else (m, Err true);
    AllowTopLevelPaidExecutionFrom := λ f l w m,
      match f l, example_buys w m.1 with
      | true, Some ins => ((ins, m.2), Ok tt)
      | _, _ => (m, Err false)
      end;
    AllowExplicitUnpaidExecutionFrom := λ f l w m,
      if f l && example_unpaid w m.1 then (m, Ok tt) else (m, Err false);
    DenyReserveTransferToRelayChain := λ l w m,
      if moves_reserves m.1 then (m, Err false) else (m, Ok tt);
    DenyRecursively := λ d, d;
    WithComputedOrigin := λ b u n l w m,
      match example_computed u n l m.1 with
      | None => (m, Err false)
      | Some (l', pre, rest) => let '((rest', p), r) := b l' w (rest, m.2) in ((pre ++ rest', p), r)
      end;
    DenyThenTry := λ d a l w m, match d l w m with (m', Ok _) => a l w m' | (m', Err e) => (m', Err e) end;
    TrailingSetTopicAsId := λ b l w m,
      match example_topic m.1 with
      | Some (ins, t) => b l w (ins, {| weight_credit := weight_credit m.2; message_id := Some t |})
      | None => b l w m
      end;
    execute_first := fix first bs l w m :=
      match bs with
      | [] => (m, Err false)
      | b :: bs => match b l w m with (m', Ok u) => (m', Ok u) | (m', Err _) => first bs l w m' end
      end
  |}; try reflexivity.
  - intros. apply bool_decide_eq_true.
  - intros f o. by destruct o.
  - intros d l w [ins p] Hk. split; [apply Hk|]. intros Hd ins' Hin. apply list_elem_of_singleton in Hin as ->. done.
  - intros. by apply list_elem_of_singleton.
  - intros b l w m. by destruct (example_topic m.1) as [[ins t]|].
Defined.

(** The relay chain acts as its sovereign account, but not as root. *)
Lemma transact_origins_witness :
  XcmOriginToTransactDispatchOrigin RelayLocation SovereignAccount = Ok (FromAccount Byte.x64) ∧
  XcmOriginToTransactDispatchOrigin RelayLocation Superuser = Err RelayLocation ∧
  ensure_root (FromAccount Byte.x64) = false.
Proof.
  split; [reflexivity|]. split; [reflexivity|].
  exact (proj1 (proj2 (transact_origins (XB := example_builder) RelayLocation SovereignAccount (F := concrete_frame)) _ eq_refl)).
Defined.

(** The defense body's voice, and the same body without it. *)
Lemma collator_selection_update_witness :
  let defense part := {| parents := 1; interior := [Plurality Defense part] |} in
  CollatorSelectionUpdateOrigin (FromXcm (defense true)) = true ∧
  CollatorSelectionUpdateOrigin (FromXcm (defense false)) = false.
Proof.
  intros defense.
  pose proof (collator_selection_update (defense true) XcmKind (FromXcm (defense true))) as (_ & _ & H).
  split; [|reflexivity]. apply H; [reflexivity|done].
Defined.
