(* ===== verification/XcmPallet.v ===== *)
(** The rest of XCM in the runtime (src/runtime/src/configs/xcm_config.rs): what the
    executor is configured with, where messages can be sent, and which calls of
    pallet_xcm are open to whom.

    The executor, the queues and the pallet are SDK code; the class [XcmRuntime]
    states their documented behaviour. *)

From S2P Require Export XcmProps.
#[local] Open Scope Z_scope.

(** Assets, calls and the storage XCM acts on. *)
Class XcmData := {
  Asset : Type;
  ChainCall : Type;
  Store : Type;
  PalletXcmError : Type;
  Filtered : PalletXcmError;
  BadXcmOrigin : PalletXcmError;
  ExecutorError : Type
}.

(** [xcm_executor::Config], as far as it is not wiring. *)
Record XcmExecutorConfig `{XcmTypes, System, XcmData} : Type := {
  xe_AssetsFrom : ConvertLocation;            (* whose account an asset is taken from or put to *)
  xe_OriginConverter : ConvertOrigin;
  xe_IsReserve : Asset → Location → bool;
  xe_IsTeleporter : Asset → Location → bool;
  xe_UniversalLocation : list Junction;
  xe_Barrier : ShouldExecute;
  xe_Weigher : list Instruction → option Weight;
  xe_MaxAssetsIntoHolding : Z;
  xe_UniversalAliases : Location → bool;
  xe_SafeCallFilter : ChainCall → bool;
  xe_Aliasers : Location → Location → bool
}.

(** [pallet_xcm::Config], likewise.  An origin test gives the location it stands for. *)
Record PalletXcmConfig `{XcmTypes, System, XcmData} : Type := {
  px_SendXcmOrigin : RuntimeOrigin → option Location;
  px_ExecuteXcmOrigin : RuntimeOrigin → option Location;
  px_XcmExecuteFilter : Location * list Instruction → bool;
  px_XcmTeleportFilter : Location * list Asset → bool;
  px_XcmReserveTransferFilter : Location * list Asset → bool;
  px_Weigher : list Instruction → option Weight;
  px_UniversalLocation : list Junction;
  px_VERSION_DISCOVERY_QUEUE_SIZE : Z;
  px_SovereignAccountOf : ConvertLocation;
  px_MaxLockers : Z;
  px_AdminOrigin : RuntimeOrigin → bool;
  px_MaxRemoteLockConsumers : Z
}.

(** The calls of pallet_xcm by the guards they have: [execute], the calls that
    transfer reserves, those that teleport, and those of the administrator. *)
Inductive XcmCall `{XcmTypes, XcmData} : Type :=
| Execute (message : list Instruction) (max_weight : Weight)
| ReserveTransferAssets (dest : Location) (assets : list Asset)
| TeleportAssets (dest : Location) (assets : list Asset)
| SendMessage (dest : Location) (message : list Instruction)
| Force (force : Store → Store).

(** Where a message leaves the chain. *)
Inductive Queue : Type :=
| Ump                          (* to the relay chain *)
| Xcmp (para : Z).             (* to a sibling chain *)

Class XcmRuntime {Sys : System} {XT : XcmTypes} {XB : XcmBuilder} {XD : XcmData} := {
  account_into : AccountId → bytes32;
  account_from_into : ∀ a, account_from (account_into a) = a;
  NativeAsset : Asset → Location → bool;

  SignedToAccountId32 : option NetworkId → RuntimeOrigin → option Location;
  signed_to_account : ∀ n o, SignedToAccountId32 n o =
    (λ a, {| parents := 0; interior := [AccountId32 n (account_into a)] |}) <$> ensure_signed_opt o;
  (** An origin stands for the location it converts to, and root for the chain itself. *)
  EnsureXcmOrigin : (RuntimeOrigin → option Location) → RuntimeOrigin → option Location;
  ensure_xcm_origin : ∀ f o, EnsureXcmOrigin f o =
    match f o with
    | Some l => Some l
    | None => if ensure_root o then Some {| parents := 0; interior := [] |} else None
    end;

  (** A message weighs the unit for each instruction, also inside it, besides the
      calls it transacts, unless it has too many instructions. *)
  instructions_in : list Instruction → Z;
  transact_weight : list Instruction → Weight;
  transact_nonneg : ∀ ins, all_lte zero_weight (transact_weight ins) = true;
  FixedWeightBounds : Weight → Z → list Instruction → option Weight;
  fixed_weight : ∀ unit max ins w, FixedWeightBounds unit max ins = Some w →
    0 ≤ instructions_in ins ≤ max ∧
    w = weight_add (weight_map (Z.mul (instructions_in ins)) unit) (transact_weight ins);

  (** A router: the queue a destination's messages go to. *)
  ParentAsUmp : Location → option Queue;
  XcmpQueue : Location → option Queue;
  route_first : list (Location → option Queue) → Location → option Queue;
  WithUniqueTopic : (Location → option Queue) → Location → option Queue;
  parent_as_ump : ∀ l, ParentAsUmp l =
    match l with {| parents := 1; interior := [] |} => Some Ump | _ => None end;
  xcmp_queue : ∀ l, XcmpQueue l =
    match l with {| parents := 1; interior := [Parachain id] |} => Some (Xcmp id) | _ => None end;
  route_nil : ∀ l, route_first [] l = None;
  route_cons : ∀ r rs l, route_first (r :: rs) l = match r l with Some q => Some q | None => route_first rs l end;
  with_unique_topic : ∀ r l, WithUniqueTopic r l = r l;

  (** A message from elsewhere is weighed, must not weigh more than allowed, and must
      pass the barrier; otherwise nothing happens. *)
  xcm_execute : XcmExecutorConfig → Location → list Instruction → Weight → Properties →
    Store → Store * result unit ExecutorError;
  executed : ∀ cfg l ins limit p s, fst (xcm_execute cfg l ins limit p s) ≠ s →
    ∃ w, xe_Weigher cfg ins = Some w ∧ all_lte w limit = true ∧ snd (xe_Barrier cfg l w (ins, p)) = Ok tt;

  xcm_dispatch : PalletXcmConfig → XcmCall → RuntimeOrigin → Store → Store * result unit PalletXcmError;
  dispatch_execute : ∀ cfg m w o s, ∀ l, px_ExecuteXcmOrigin cfg o = Some l →
    px_XcmExecuteFilter cfg (l, m) = false → xcm_dispatch cfg (Execute m w) o s = (s, Err Filtered);
  dispatch_reserve : ∀ cfg d a o s, ∀ l, px_ExecuteXcmOrigin cfg o = Some l →
    px_XcmReserveTransferFilter cfg (l, a) = false →
    xcm_dispatch cfg (ReserveTransferAssets d a) o s = (s, Err Filtered);
  dispatch_no_origin : ∀ cfg c o s,
    match c with
    | Execute _ _ | ReserveTransferAssets _ _ | TeleportAssets _ _ => px_ExecuteXcmOrigin cfg o = None
    | SendMessage _ _ => px_SendXcmOrigin cfg o = None
    | Force _ => px_AdminOrigin cfg o = false
    end → xcm_dispatch cfg c o s = (s, Err BadXcmOrigin)
}.

(** * The configuration *)

Section Configuration.
  Context {Sys : System} {XT : XcmTypes} {XB : XcmBuilder} {XD : XcmData} {XR : XcmRuntime}.
Variable parachain_id : Z.

Definition UnitWeightCost : Weight := {| ref_time := 1000000000; proof_size := 64 * 1024 |}.
Definition MaxInstructions : Z := 100.
Definition MaxAssetsIntoHolding : Z := 64.

(** [Nothing::contains] and [Everything::contains]. *)
Definition nothing {A} (x : A) : bool := false.
Definition everything {A} (x : A) : bool := true.

Definition XcmConfig : XcmExecutorConfig := {|
  xe_AssetsFrom := LocationToAccountId;
  xe_OriginConverter := XcmOriginToTransactDispatchOrigin;
  xe_IsReserve := NativeAsset;
  xe_IsTeleporter := λ _ _, false;
  xe_UniversalLocation := UniversalLocation parachain_id;
  xe_Barrier := Barrier parachain_id;
  xe_Weigher := FixedWeightBounds UnitWeightCost MaxInstructions;
  xe_MaxAssetsIntoHolding := MaxAssetsIntoHolding;
  xe_UniversalAliases := nothing;
  xe_SafeCallFilter := everything;
  xe_Aliasers := λ _ _, false
|}.

Definition LocalOriginToLocation : RuntimeOrigin → option Location := SignedToAccountId32 RelayNetwork.

Definition XcmRouter : Location → option Queue := WithUniqueTopic (route_first [ParentAsUmp; XcmpQueue]).

(** [impl pallet_xcm::Config for Runtime]. *)
Definition pallet_xcm_config : PalletXcmConfig := {|
  px_SendXcmOrigin := EnsureXcmOrigin LocalOriginToLocation;
  px_ExecuteXcmOrigin := EnsureXcmOrigin LocalOriginToLocation;
  px_XcmExecuteFilter := nothing;
  px_XcmTeleportFilter := everything;
  px_XcmReserveTransferFilter := nothing;
  px_Weigher := FixedWeightBounds UnitWeightCost MaxInstructions;
  px_UniversalLocation := UniversalLocation parachain_id;
  px_VERSION_DISCOVERY_QUEUE_SIZE := 100;
  px_SovereignAccountOf := LocationToAccountId;
  px_MaxLockers := 8;
  px_AdminOrigin := ensure_root;
  px_MaxRemoteLockConsumers := 0
|}.
End Configuration.

(** * Local accounts *)

Section XcmPalletProps.
  Context {Sys : System} {XT : XcmTypes} {XB : XcmBuilder} {XD : XcmData} {XR : XcmRuntime}.
Variable parachain_id : Z.

(** The location a local account sends from. *)
Definition local_location (a : AccountId) : Location :=
  {| parents := 0; interior := [AccountId32 None (account_into a)] |}.

(** The locations local origins send from. *)
Lemma local_origin o :
  EnsureXcmOrigin LocalOriginToLocation o =
    match ensure_signed_opt o with
    | Some a => Some (local_location a)
    | None => if ensure_root o then Some {| parents := 0; interior := [] |} else None
    end.
Proof.
  rewrite ensure_xcm_origin. unfold LocalOriginToLocation. rewrite signed_to_account.
  by destruct (ensure_signed_opt o).
Qed.

(** C30: a local account keeps its identity through XCM.  The location it sends and
    executes messages from names it alone: converted back it is the account's own, as
    the account whose assets are moved and as the signed origin of calls, whether the
    message asks for a native origin or for a sovereign account.  Root sends as the
    chain itself, a location that converts to no account and never to root.  No other
    origin sends or executes anything, in particular none that a message from another
    chain acts with, unless it is a signed account. *)
Theorem local_account_roundtrip a :
  let cfg := pallet_xcm_config parachain_id in
  let l := local_location a in
  let here := {| parents := 0; interior := [] |} in
  let mute o := px_SendXcmOrigin cfg o = None ∧ px_ExecuteXcmOrigin cfg o = None in
  (px_SendXcmOrigin cfg (signed a) = Some l ∧ px_ExecuteXcmOrigin cfg (signed a) = Some l ∧
   (∀ b, local_location b = l → b = a) ∧
   px_SovereignAccountOf cfg l = Some a ∧
   XcmOriginToTransactDispatchOrigin l Native = Ok (signed a) ∧
   XcmOriginToTransactDispatchOrigin l SovereignAccount = Ok (signed a)) ∧
  (px_SendXcmOrigin cfg root = Some here ∧ px_ExecuteXcmOrigin cfg root = Some here ∧
   px_SovereignAccountOf cfg here = None ∧
   ∀ kind o, XcmOriginToTransactDispatchOrigin here kind = Ok o → kind = XcmKind ∧ o = xcm_origin here) ∧
  (∀ o, ensure_root o = false → ensure_signed_opt o = None → mute o) ∧
  (∀ l' kind o, XcmOriginToTransactDispatchOrigin l' kind = Ok o → (∃ b, o = signed b) ∨ mute o).
Proof.
  assert (∀ o, ensure_root o = false → ensure_signed_opt o = None →
    EnsureXcmOrigin LocalOriginToLocation o = None) as Hmute.
  { intros o Hr Ho. by rewrite local_origin, Ho, Hr. }
  cbn. rewrite !local_origin, !transact_origin_convert, ensure_signed_signed, ensure_signed_root, ensure_root_root,
    !location_to_account. cbn. rewrite account_from_into. split_and!; try done.
  - intros b [= Hb]. by rewrite <- (account_from_into a), <- Hb, account_from_into.
  - intros kind o. rewrite transact_origin_convert. destruct kind; cbn; intros; simplify_eq; done.
  - auto.
  - intros l' kind o. rewrite transact_origin_convert. destruct (transact_origin l' kind) as [o'|] eqn:Ht; [|done].
    intros [= <-]. destruct kind; cbn in Ht.
    + locations l'; cbn in Ht; simplify_eq; eauto using relay_not_root, relay_not_signed, sibling_not_root, sibling_not_signed.
    + destruct (account_of l'); simplify_eq/=; eauto.
    + done.
    + simplify_eq. right. split; apply Hmute; auto using xcm_not_root, xcm_not_signed.
Qed.

(** * Destinations *)

(** Messages are sent to the relay chain and to siblings, nowhere else; whoever can be
    reached has a sovereign account here. *)
Lemma reachable_destinations l q :
  XcmRouter l = Some q ↔
    q = Ump ∧ l = RelayLocation ∨ ∃ id, q = Xcmp id ∧ l = {| parents := 1; interior := [Parachain id] |}.
Proof.
  unfold XcmRouter, RelayLocation. rewrite with_unique_topic, route_cons, parent_as_ump, route_cons, xcmp_queue, route_nil.
  split.
  - locations l; cbn; intros; simplify_eq; eauto.
  - by intros [[-> ->]|(id & -> & ->)].
Qed.

Lemma reachable_have_accounts l q : XcmRouter l = Some q → is_Some (LocationToAccountId l).
Proof. rewrite reachable_destinations, location_to_account. intros [[_ ->]|(id & _ & ->)]; by eexists. Qed.

(** * The calls of pallet_xcm *)

(** What pallet_xcm does not let anyone do.  From no origin whatever, be it root,
    does a call execute a message on this chain or transfer reserves; and the
    administrator's calls are refused to all but root, in particular to every origin a
    message from elsewhere calls with. *)
Theorem pallet_xcm_closed o s :
  let call c := xcm_dispatch (pallet_xcm_config parachain_id) c o s in
  (∀ m w, fst (call (Execute m w)) = s ∧ is_ok (snd (call (Execute m w))) = false) ∧
  (∀ d a, fst (call (ReserveTransferAssets d a)) = s ∧ is_ok (snd (call (ReserveTransferAssets d a))) = false) ∧
  (∀ f, ensure_root o = false → call (Force f) = (s, Err BadXcmOrigin)) ∧
  (∀ f l k, XcmOriginToTransactDispatchOrigin l k = Ok o → call (Force f) = (s, Err BadXcmOrigin)).
Proof.
  intros call.
  assert (∀ f, ensure_root o = false → call (Force f) = (s, Err BadXcmOrigin)) as Hforce.
  { intros f Hr. by apply dispatch_no_origin. }
  split_and!; [| |exact Hforce|].
  - intros m w. unfold call. destruct (px_ExecuteXcmOrigin (pallet_xcm_config parachain_id) o) as [l|] eqn:Hl.
    + by rewrite (dispatch_execute _ _ _ _ _ l).
    + by rewrite (dispatch_no_origin _ (Execute m w)).
  - intros d a. unfold call. destruct (px_ExecuteXcmOrigin (pallet_xcm_config parachain_id) o) as [l|] eqn:Hl.
    + by rewrite (dispatch_reserve _ _ _ _ _ l).
    + by rewrite (dispatch_no_origin _ (ReserveTransferAssets d a)).
  - intros f l k Hk. apply Hforce. rewrite transact_origin_convert in Hk.
    destruct (transact_origin l k) eqn:Ht; simplify_eq. by eapply transact_origin_not_root.
Qed.

(** * Messages from elsewhere *)

Lemma executed_bounds l ins limit p s :
  fst (xcm_execute (XcmConfig parachain_id) l ins limit p s) ≠ s →
  ∃ w, xe_Weigher (XcmConfig parachain_id) ins = Some w ∧ all_lte w limit = true ∧
    instructions_in ins ≤ MaxInstructions ∧
    all_lte w (weight_add (weight_map (Z.mul 100) UnitWeightCost) (transact_weight ins)) = true ∧
    (∀ inner, inner ∈ messages_in (body ins) → reserve_to_relay inner = false) ∧
    (all_lte w (weight_credit p) = true ∨
     ∃ l' pre rest, computed_origin (UniversalLocation parachain_id) 8 l (body ins) = Some (l', pre, rest) ∧
       (is_Some (buys_execution w rest) ∨ free_pass l' w rest)).
Proof.
  intros Hs. apply executed in Hs as (w & Hw & Hlim & Hb). exists w.
  destruct (barrier_admits _ _ _ _ Hb) as [Hres Hpay]. split_and!; try done.
  - cbn in Hw. by apply fixed_weight in Hw as [[_ ?] _].
  - cbn in Hw. apply fixed_weight in Hw as [[? Hmax] ->]. unfold MaxInstructions in Hmax.
    apply all_lte_spec. cbn. lia.
Qed.
(** Which messages have an effect.  A message that changes anything has at most
    100 instructions, also inside it, so apart from the calls it transacts it weighs at
    most 100 units; neither it nor a message inside it moves reserves to the relay
    chain; and its weight was paid already, or, after the at most eight instructions
    that change its origin, it buys execution for its weight, or it declares itself
    unpaid and is from the relay chain or the executive body there: nobody else
    executes for free. *)
Theorem executed_messages l ins limit p s :
  fst (xcm_execute (XcmConfig parachain_id) l ins limit p s) ≠ s →
  ∃ w, xe_Weigher (XcmConfig parachain_id) ins = Some w ∧ all_lte w limit = true ∧
    instructions_in ins ≤ MaxInstructions ∧
    all_lte w (weight_add (weight_map (Z.mul 100) UnitWeightCost) (transact_weight ins)) = true ∧
    (∀ inner, inner ∈ messages_in (body ins) → reserve_to_relay inner = false) ∧
    (all_lte w (weight_credit p) = true ∨
     ∃ l' pre rest, computed_origin (UniversalLocation parachain_id) 8 l (body ins) = Some (l', pre, rest) ∧
       (is_Some (buys_execution w rest) ∨ free_pass l' w rest)).
Proof. apply executed_bounds. Qed.
End XcmPalletProps.

(** * Witnesses *)

#[local] Existing Instances example_xcm_types xcm_system example_builder.

(** Storage is a number; a message that is executed adds one. *)
#[local] Instance example_xcm_data : XcmData := {|
  Asset := unit; ChainCall := unit; Store := Z; PalletXcmError := bool; Filtered := true; BadXcmOrigin := false;
  ExecutorError := unit
|}.

Definition example_weight (unit : Weight) (max : Z) (ins : list Instruction) : option Weight :=
  let n := Z.of_nat (length ins) in
  if n <=? max then Some (weight_add (weight_map (Z.mul n) unit) zero_weight) else None.

Definition example_execute (cfg : XcmExecutorConfig) (l : Location) (ins : list Instruction) (limit : Weight)
    (p : Properties) (s : Z) : Z * result unit unit :=
  match xe_Weigher cfg ins with
  | Some w => if all_lte w limit then
                match snd (xe_Barrier cfg l w (ins, p)) with Ok tt => (s + 1, Ok tt) | Err _ => (s, Err tt) end
              else (s, Err tt)
  | None => (s, Err tt)
  end.

Definition example_xcm_dispatch (cfg : PalletXcmConfig) (c : XcmCall) (o : RuntimeOrigin) (s : Z) :
    Z * result unit bool :=
  match c with
  | Execute m _ =>
      match px_ExecuteXcmOrigin cfg o with
      | Some l => if px_XcmExecuteFilter cfg (l, m) then (s + 1, Ok tt) else (s, Err true)
      | None => (s, Err false)
      end
  | ReserveTransferAssets _ a =>
      match px_ExecuteXcmOrigin cfg o with
      | Some l => if px_XcmReserveTransferFilter cfg (l, a) then (s + 1, Ok tt) else (s, Err true)
      | None => (s, Err false)
      end
  | TeleportAssets _ a =>
      match px_ExecuteXcmOrigin cfg o with
      | Some l => if px_XcmTeleportFilter cfg (l, a) then (s + 1, Ok tt) else (s, Err true)
      | None => (s, Err false)
      end
  | SendMessage _ _ => match px_SendXcmOrigin cfg o with Some _ => (s, Ok tt) | None => (s, Err false) end
  | Force f => if px_AdminOrigin cfg o then (f s, Ok tt) else (s, Err false)
  end.

#[local] Instance example_xcm_runtime : XcmRuntime.
Proof.
  refine {|
    account_into := λ a : AccountId, vreplicate 32 (a : Byte.byte);
    NativeAsset := λ _ _, false;
    SignedToAccountId32 := λ n o,
      (λ a : AccountId, {| parents := 0; interior := [AccountId32 n (vreplicate 32 (a : Byte.byte))] |}) <$> ensure_signed_opt o;
    EnsureXcmOrigin := λ f o,
      match f o with Some l => Some l | None => if ensure_root o then Some {| parents := 0; interior := [] |} else None end;
    instructions_in := λ ins, Z.of_nat (length ins);
    transact_weight := λ _, zero_weight;
    FixedWeightBounds := example_weight;
    ParentAsUmp := λ l, match l with {| parents := 1; interior := [] |} => Some Ump | _ => None end;
    XcmpQueue := λ l, match l with {| parents := 1; interior := [Parachain id] |} => Some (Xcmp id) | _ => None end;
    route_first := fix first rs l :=
      match rs with
      | [] => None
      | r :: rs => match r l with Some q => Some q | None => first rs l end
      end;
    WithUniqueTopic := id;
    xcm_execute := example_execute;
    xcm_dispatch := example_xcm_dispatch
  |}; try reflexivity.
  - intros unit max ins w. unfold example_weight. case_match eqn:Hn; [|done]. apply Z.leb_le in Hn.
    intros [= <-]. split; [lia|done].
  - intros cfg l ins limit p s. unfold example_execute. destruct (xe_Weigher cfg ins) as [w|]; [|done].
    destruct (all_lte w limit) eqn:Hl; [|done].
    destruct (snd (xe_Barrier cfg l w (ins, p))) as [[]|] eqn:Hb; [|done]. intros _. by exists w.
  - intros cfg m w o s l Hl Hf. unfold example_xcm_dispatch. by rewrite Hl, Hf.
  - intros cfg d a o s l Hl Hf. unfold example_xcm_dispatch. by rewrite Hl, Hf.
  - intros cfg c o s. destruct c; unfold example_xcm_dispatch; by intros ->.
Defined.

(** A message without credit from the executive body, with a topic; the same from a sibling. *)
Definition no_credit : Properties := {| weight_credit := zero_weight; message_id := None |}.
Definition topical : list Instruction := [Descend; Unpaid; Topic (vreplicate 32 Byte.x01)].
Definition plenty : Weight := {| ref_time := u64_max; proof_size := u64_max |}.

Lemma executed_messages_witness :
  fst (xcm_execute (XcmConfig 2000) RelayLocation topical plenty no_credit 0) = 1 ∧
  fst (xcm_execute (XcmConfig 2000) {| parents := 1; interior := [Parachain 7] |} topical plenty no_credit 0) = 0 ∧
  instructions_in topical ≤ MaxInstructions.
Proof.
  assert (fst (xcm_execute (XcmConfig 2000) RelayLocation topical plenty no_credit 0) = 1) as H by (vm_compute; reflexivity).
  split; [exact H|]. split; [vm_compute; reflexivity|].
  destruct (executed_messages (XR := example_xcm_runtime) 2000 RelayLocation topical plenty no_credit 0)
    as (w & _ & _ & Hn & _); [rewrite H; discriminate|exact Hn].
Defined.

(** Root executes no message, and a signed account does not administer. *)
Lemma pallet_xcm_closed_witness :
  fst (xcm_dispatch (pallet_xcm_config 2000) (Execute topical plenty) FromRoot 5) = 5 ∧
  xcm_dispatch (pallet_xcm_config 2000) (Force (Z.add 1)) FromRoot 5 = (6, Ok tt) ∧
  xcm_dispatch (pallet_xcm_config 2000) (Force (Z.add 1)) (FromAccount Byte.x01) 5 = (5, Err BadXcmOrigin).
Proof.
  split; [|split; [reflexivity|]].
  - apply (pallet_xcm_closed (XR := example_xcm_runtime) 2000 FromRoot 5).
  - by apply (pallet_xcm_closed (XR := example_xcm_runtime) 2000 (FromAccount Byte.x01) 5).
Defined.

(** Account 7 is recognised; its location as an XCM origin sends nothing. *)
Lemma local_account_roundtrip_witness :
  XcmOriginToTransactDispatchOrigin (local_location Byte.x07) Native = Ok (FromAccount Byte.x07) ∧
  px_SendXcmOrigin (pallet_xcm_config 2000) (FromXcm (local_location Byte.x07)) = None.
Proof.
  destruct (local_account_roundtrip (XR := example_xcm_runtime) 2000 Byte.x07) as (H & _ & Hmute & _).
  split; [apply H|by apply Hmute].
Defined.
