(* ===== verification/Configs.v ===== *)
(** The configuration of the SDK pallets (src/runtime/src/configs/mod.rs): the
    limits of a block, the shares of it reserved for messages, sessions and
    collators.

    The module takes its units and ratios ([MAXIMUM_BLOCK_WEIGHT],
    [NORMAL_DISPATCH_RATIO], [HOURS], ...) from the crate's root, which does not
    define them: they are variables here.  [Perbill] and the builder of block limits
    are the SDK's: the class [BlockLimits] states their documented behaviour. *)

From S2P Require Export Xcm.
#[local] Open Scope Z_scope.

(** * Limits of a block (frame_system::limits) *)

Inductive DispatchClass : Type := Normal | Operational | Mandatory.

#[global] Instance DispatchClass_eq_dec : EqDecision DispatchClass.
Proof. solve_decision. Defined.

Definition all_classes : list DispatchClass := [Normal; Operational; Mandatory].

(** The limits of a class; no limit is [None]. *)
Record WeightsPerClass : Type := {
  base_extrinsic : Weight;
  max_extrinsic : option Weight;
  max_total : option Weight;
  reserved : option Weight
}.

Record BlockWeights : Type := {
  base_block : Weight;
  max_block : Weight;
  per_class : DispatchClass → WeightsPerClass
}.

(** The largest weight. *)
Definition weight_MAX : Weight := {| ref_time := u64_max; proof_size := u64_max |}.

(** What [validate] asks of a class: that it has room for the base weights, or nothing
    at all; that its largest extrinsic fits into it and is not nothing; that what is
    reserved for it has room for the base weight, or is nothing; that it fits into the
    block; and that the block has room for the base weights. *)
Definition class_ok (w : BlockWeights) (c : WeightsPerClass) : bool :=
  let max_for_class := default weight_MAX (max_total c) in
  let reserved := default weight_MAX (reserved c) in
  (all_lt (base_block w) max_for_class && all_lt (base_extrinsic c) max_for_class
     || bool_decide (max_for_class = zero_weight)) &&
  all_lte (default zero_weight (max_extrinsic c)) (weight_sat_sub max_for_class (base_extrinsic c)) &&
  all_lt zero_weight (default weight_MAX (max_extrinsic c)) &&
  (all_lt (base_extrinsic c) reserved || bool_decide (reserved = zero_weight)) &&
  all_lte (default zero_weight (max_total c)) (max_block w) &&
  all_lt (weight_add (base_extrinsic c) (base_block w)) (max_block w).

(** What has been told to a builder: the base weight, the classes, and the share of
    the block its initialization takes. *)
Record Request (Perbill : Type) : Type := {
  rq_base : Weight;
  rq_class : DispatchClass → WeightsPerClass;
  rq_init : option Perbill
}.
Arguments rq_base {Perbill} _.
Arguments rq_class {Perbill} _ _.
Arguments rq_init {Perbill} _.

Class BlockLimits := {
  (** Parts of a billion.  Its product with a [u64] is rounded to the nearest. *)
  Perbill : Type;
  from_percent : Z → Perbill;
  perbill_of : Perbill → Z → Z;
  percent_rounds : ∀ p x, 0 ≤ p ≤ 100 → 0 ≤ x →
    2 * Z.abs (100 * perbill_of (from_percent p) x - p * x) ≤ 100;
  perbill_part : ∀ p x, 0 ≤ x → 0 ≤ perbill_of p x ≤ x;

  BlockWeightsBuilder : Type;
  requested : BlockWeightsBuilder → Request Perbill;
  builder : BlockWeightsBuilder;
  with_base_block : Weight → BlockWeightsBuilder → BlockWeightsBuilder;
  for_class : list DispatchClass → (WeightsPerClass → WeightsPerClass) →
    BlockWeightsBuilder → BlockWeightsBuilder;
  avg_block_initialization : Perbill → BlockWeightsBuilder → BlockWeightsBuilder;
  build : BlockWeightsBuilder → option BlockWeights;

  (** At first the normal and the operational class have no weight, the mandatory
      class no limit. *)
  builder_class : ∀ c,
    let initial := if decide (c = Mandatory) then None else Some zero_weight in
    max_extrinsic (rq_class (requested builder) c) = None ∧
    max_total (rq_class (requested builder) c) = initial ∧
    reserved (rq_class (requested builder) c) = initial;
  base_block_sets : ∀ w b, requested (with_base_block w b) =
    {| rq_base := w; rq_class := rq_class (requested b); rq_init := rq_init (requested b) |};
  for_class_sets : ∀ cs f b, requested (for_class cs f b) =
    {| rq_base := rq_base (requested b);
       rq_class c := if decide (c ∈ cs) then f (rq_class (requested b) c) else rq_class (requested b) c;
       rq_init := rq_init (requested b) |};
  init_sets : ∀ p b, requested (avg_block_initialization p b) =
    {| rq_base := rq_base (requested b); rq_class := rq_class (requested b); rq_init := Some p |};
  (** [build] takes the largest total as the size of the block; the largest extrinsic
      of a class with a total is what the initialization and the base weight leave of
      it; then the limits are validated.  (The base weights are added up, which must
      not overflow.) *)
  build_validates : ∀ b p, rq_init (requested b) = Some p → (∀ c, max_extrinsic (rq_class (requested b) c) = None) →
    let cls := rq_class (requested b) in
    (∀ c, all_lte (weight_add (base_extrinsic (cls c)) (rq_base (requested b))) weight_MAX = true) →
    let m := foldr (λ c w, weight_max (default zero_weight (max_total (cls c))) w) zero_weight all_classes in
    let w := {|
      base_block := rq_base (requested b); max_block := m;
      per_class c := {|
        base_extrinsic := base_extrinsic (cls c);
        max_extrinsic := (λ t, weight_sat_sub (weight_sat_sub t (weight_map (perbill_of p) m)) (base_extrinsic (cls c)))
                           <$> max_total (cls c);
        max_total := max_total (cls c); reserved := reserved (cls c) |} |} in
    build b = if forallb (λ c, class_ok w (per_class w c)) all_classes then Some w else None;

  BlockLength : Type;
  max_with_normal_ratio : Z → Perbill → BlockLength
}.

(** [Perbill * Weight]. *)
Definition perbill_mul `{BlockLimits} (p : Perbill) : Weight → Weight := weight_map (perbill_of p).

(** [pallet_session::PeriodicSessions]: whether a session ends with a block. *)
Class Sessions := {
  should_end_session : Z → Z → Z → bool;
  periodic_sessions : ∀ period offset now, should_end_session period offset now = true ↔
    offset ≤ now ∧ (now - offset) `mod` period = 0
}.

(** * The configuration *)

Section Configuration.
  Context {BL : BlockLimits} {SE : Sessions}.

Variable WEIGHT_REF_TIME_PER_NANOS : Z.
Variable MAXIMUM_BLOCK_WEIGHT : Weight.
Variables NORMAL_DISPATCH_RATIO AVERAGE_ON_INITIALIZE_RATIO : Perbill.
Variables HOURS MICRO_UNIT : Z.

Definition RuntimeBlockLength : BlockLength :=
  max_with_normal_ratio (5 * 1024 * 1024) NORMAL_DISPATCH_RATIO.

(** The closures of the builder. *)
Definition set_base_extrinsic (weights : WeightsPerClass) : WeightsPerClass :=
  {| base_extrinsic := ExtrinsicBaseWeight WEIGHT_REF_TIME_PER_NANOS;
     max_extrinsic := max_extrinsic weights; max_total := max_total weights; reserved := reserved weights |}.

Definition set_normal (weights : WeightsPerClass) : WeightsPerClass :=
  {| base_extrinsic := base_extrinsic weights; max_extrinsic := max_extrinsic weights;
     max_total := Some (perbill_mul NORMAL_DISPATCH_RATIO MAXIMUM_BLOCK_WEIGHT);
     reserved := reserved weights |}.

Definition set_operational (weights : WeightsPerClass) : WeightsPerClass :=
  {| base_extrinsic := base_extrinsic weights; max_extrinsic := max_extrinsic weights;
     max_total := Some MAXIMUM_BLOCK_WEIGHT;
     reserved := Some (weight_sub MAXIMUM_BLOCK_WEIGHT
                         (perbill_mul NORMAL_DISPATCH_RATIO MAXIMUM_BLOCK_WEIGHT)) |}.

(** [build_or_panic] of this: [None] is the panic. *)
Definition RuntimeBlockWeights : option BlockWeights :=
  let b := builder in
  let b := with_base_block (BlockExecutionWeight WEIGHT_REF_TIME_PER_NANOS) b in
  let b := for_class all_classes set_base_extrinsic b in
  let b := for_class [Normal] set_normal b in
  let b := for_class [Operational] set_operational b in
  let b := avg_block_initialization AVERAGE_ON_INITIALIZE_RATIO b in
  build b.

Definition ReservedXcmpWeight : Weight := weight_sat_div MAXIMUM_BLOCK_WEIGHT 4.
Definition ReservedDmpWeight : Weight := weight_sat_div MAXIMUM_BLOCK_WEIGHT 4.
Definition MessageQueueServiceWeight : option Weight :=
  (λ w, perbill_mul (from_percent 35) (max_block w)) <$> RuntimeBlockWeights.

(** The fee of a byte. *)
Definition TransactionByteFee : Z := 10 * MICRO_UNIT.

(** Sessions. *)
Definition Period : Z := 6 * HOURS.
Definition Offset : Z := 0.
Definition ShouldEndSession (now : Z) : bool := should_end_session Period Offset now.
Definition MaxAuthorities : Z := 100000.

(** Collators. *)
Definition SessionLength : Z := 6 * HOURS.
Definition MaxCandidates : Z := 100.
Definition MinEligibleCollators : Z := 4.
Definition MaxInvulnerables : Z := 20.
Definition KickThreshold : Z := Period.

(** * The limits of a block *)

(** The constants are values of their types; and the weight of a nanosecond (1000, in
    the SDK) does not let the base weights overflow. *)
Record typed_constants : Prop := {
  typed_nanos : 0 ≤ WEIGHT_REF_TIME_PER_NANOS;
  typed_bases : WEIGHT_REF_TIME_PER_NANOS * (5000000 + 125000) ≤ u64_max;
  typed_block : all_lte zero_weight MAXIMUM_BLOCK_WEIGHT = true;
  typed_block_max : all_lte MAXIMUM_BLOCK_WEIGHT weight_MAX = true
}.

(** What the constants must leave room for: the base weight of a block, and besides the
    initialization an extrinsic, in the share of normal extrinsics; an operational
    extrinsic in the rest, unless there is no rest; and both base weights in the block. *)
Definition room : Prop :=
  let exec := BlockExecutionWeight WEIGHT_REF_TIME_PER_NANOS in
  let base := ExtrinsicBaseWeight WEIGHT_REF_TIME_PER_NANOS in
  let normal := perbill_mul NORMAL_DISPATCH_RATIO MAXIMUM_BLOCK_WEIGHT in
  let init := perbill_mul AVERAGE_ON_INITIALIZE_RATIO MAXIMUM_BLOCK_WEIGHT in
  all_lt exec normal = true ∧ all_lt (weight_add init base) normal = true ∧
  (all_lt (weight_add normal base) MAXIMUM_BLOCK_WEIGHT = true ∨ normal = MAXIMUM_BLOCK_WEIGHT) ∧
  all_lt (weight_add exec base) MAXIMUM_BLOCK_WEIGHT = true.

(** The builder before [build]. *)
Definition runtime_request : Request Perbill := {|
  rq_base := BlockExecutionWeight WEIGHT_REF_TIME_PER_NANOS;
  rq_class c :=
    let total := perbill_mul NORMAL_DISPATCH_RATIO MAXIMUM_BLOCK_WEIGHT in
    {| base_extrinsic := ExtrinsicBaseWeight WEIGHT_REF_TIME_PER_NANOS; max_extrinsic := None;
       max_total := match c with Normal => Some total | Operational => Some MAXIMUM_BLOCK_WEIGHT | Mandatory => None end;
       reserved := match c with
                   | Normal => Some zero_weight
                   | Operational => Some (weight_sub MAXIMUM_BLOCK_WEIGHT total)
                   | Mandatory => None
                   end |};
  rq_init := Some AVERAGE_ON_INITIALIZE_RATIO
|}.

Lemma runtime_requested b0 b :
  b0 = for_class [Operational] set_operational (for_class [Normal] set_normal
         (for_class all_classes set_base_extrinsic
           (with_base_block (BlockExecutionWeight WEIGHT_REF_TIME_PER_NANOS) builder))) →
  b = avg_block_initialization AVERAGE_ON_INITIALIZE_RATIO b0 →
  rq_base (requested b) = rq_base runtime_request ∧ rq_init (requested b) = rq_init runtime_request ∧
  ∀ c, rq_class (requested b) c = rq_class runtime_request c.
Proof.
  intros -> ->. rewrite init_sets, !for_class_sets, base_block_sets; cbn. split_and!; [done..|].
  intros c. destruct (builder_class c) as (He & Ht & Hr).
  destruct c; cbn [rq_class runtime_request] in *; unfold all_classes;
    repeat (first [rewrite decide_True by set_solver | rewrite decide_False by set_solver]);
    (rewrite decide_True in Ht, Hr by done) || (rewrite decide_False in Ht, Hr by done);
    unfold set_operational, set_normal, set_base_extrinsic; cbn; congruence.
Qed.

(** Thirty-five percent and two quarters are no more than the whole. *)
Lemma message_shares x r :
  0 ≤ x → 2 * Z.abs (100 * r - 35 * x) ≤ 100 → r + (x / 4 + x / 4) ≤ x.
Proof. intros Hx Hr. pose proof (Z.mul_div_le x 4). lia. Qed.

(** The limits of a class in the runtime, and of a block. *)
Definition runtime_limits (c : DispatchClass) : WeightsPerClass :=
  let l := rq_class runtime_request c in
  {| base_extrinsic := base_extrinsic l;
     max_extrinsic := (λ t, weight_sat_sub
       (weight_sat_sub t (perbill_mul AVERAGE_ON_INITIALIZE_RATIO MAXIMUM_BLOCK_WEIGHT)) (base_extrinsic l))
       <$> max_total l;
     max_total := max_total l; reserved := reserved l |}.

Lemma base_weights :
  typed_constants →
  BlockExecutionWeight WEIGHT_REF_TIME_PER_NANOS =
    {| ref_time := WEIGHT_REF_TIME_PER_NANOS * 5000000; proof_size := 0 |} ∧
  ExtrinsicBaseWeight WEIGHT_REF_TIME_PER_NANOS =
    {| ref_time := WEIGHT_REF_TIME_PER_NANOS * 125000; proof_size := 0 |}.
Proof.
  intros [H1 H2 _ _]. unfold BlockExecutionWeight, ExtrinsicBaseWeight, sat_mul.
  split; f_equal; lia.
Qed.

(** The largest total is the operational one. *)
Lemma runtime_max_block cls :
  typed_constants → (∀ c, cls c = rq_class runtime_request c) →
  foldr (λ c w, weight_max (default zero_weight (max_total (cls c))) w) zero_weight all_classes = MAXIMUM_BLOCK_WEIGHT.
Proof.
  intros [_ _ [Ht Hs]%all_lte_spec _] Hc. unfold all_classes; cbn [foldr]. rewrite !Hc. cbn in *.
  pose proof (perbill_part NORMAL_DISPATCH_RATIO _ Ht). pose proof (perbill_part NORMAL_DISPATCH_RATIO _ Hs).
  apply weight_eq; cbn; lia.
Qed.

(** The runtime's limits are valid exactly if there is room. *)
Lemma runtime_limits_valid w :
  typed_constants → base_block w = BlockExecutionWeight WEIGHT_REF_TIME_PER_NANOS →
  max_block w = MAXIMUM_BLOCK_WEIGHT →
  (∀ c, class_ok w (runtime_limits c) = true) ↔ room.
Proof.
  intros Htyped Hb Hm. destruct (base_weights Htyped) as [He Hx]. unfold room. rewrite He, Hx.
  destruct Htyped as [Hn Hmax [Ht Hs]%all_lte_spec [Ht' Hs']%all_lte_spec].
  pose proof (perbill_part NORMAL_DISPATCH_RATIO _ Ht). pose proof (perbill_part NORMAL_DISPATCH_RATIO _ Hs).
  pose proof (perbill_part AVERAGE_ON_INITIALIZE_RATIO _ Ht). pose proof (perbill_part AVERAGE_ON_INITIALIZE_RATIO _ Hs).
  transitivity (class_ok w (runtime_limits Normal) = true ∧ class_ok w (runtime_limits Operational) = true ∧
    class_ok w (runtime_limits Mandatory) = true).
  { split; [by auto|]. intros (? & ? & ?) []; done. }
  unfold class_ok; cbn. rewrite Hb, Hm, He, Hx.
  rewrite !andb_true_iff, !orb_true_iff, !andb_true_iff, !bool_decide_eq_true, !weight_eq_iff, !all_lt_spec, !all_lte_spec.
  cbn in *. unfold sat_sub. unfold u64_max in *. lia.
Qed.

(** The weights that are built. *)
Lemma runtime_weights_built :
  typed_constants → ∃ w, base_block w = BlockExecutionWeight WEIGHT_REF_TIME_PER_NANOS ∧
    max_block w = MAXIMUM_BLOCK_WEIGHT ∧ (∀ c, per_class w c = runtime_limits c) ∧
    (room ∧ RuntimeBlockWeights = Some w ∨ ¬ room ∧ RuntimeBlockWeights = None).
Proof.
  intros Htyped. destruct (runtime_requested _ _ eq_refl eq_refl) as (Hb & Hi & Hc).
  set (b := avg_block_initialization _ _) in *.
  pose proof (build_validates b AVERAGE_ON_INITIALIZE_RATIO Hi) as Hbuild. cbv zeta in Hbuild.
  rewrite (runtime_max_block _ Htyped Hc) in Hbuild.
  match type of Hbuild with _ → _ → build b = (if _ then Some ?w else None) => exists w; set (bw := w) in * end.
  assert (∀ c, per_class bw c = runtime_limits c) as Hlim by (intros c; cbn; by rewrite !Hc).
  assert (max_block bw = MAXIMUM_BLOCK_WEIGHT) as Hm by done.
  assert (base_block bw = BlockExecutionWeight WEIGHT_REF_TIME_PER_NANOS) as Hbase by done.
  assert (RuntimeBlockWeights = if forallb (λ c, class_ok bw (per_class bw c)) all_classes then Some bw else None) as ->.
  { apply Hbuild; [intros c; by rewrite Hc|]. intros c. rewrite Hc, Hb. destruct (base_weights Htyped) as [He Hx].
    cbn. rewrite He, Hx, all_lte_spec. destruct Htyped. cbn. unfold u64_max in *. lia. }
  assert (forallb (λ c, class_ok bw (per_class bw c)) all_classes = true ↔ room) as Hroom.
  { rewrite <- (runtime_limits_valid bw Htyped Hbase Hm), forallb_forall.
    split; intros H c; [rewrite <- Hlim; apply H; destruct c; cbn; auto|]. intros _. rewrite Hlim. apply H. }
  split_and!; [done..|]. destruct (forallb _ _); [left|right]; (split; [naive_solver|done]).
Qed.

(** C28: the limits of a block.  The constants they are made of are not defined in the
    repository: whatever they are (as values of their types, and without overflow of
    the base weights), [RuntimeBlockWeights] is built exactly if they leave room for an
    extrinsic of each class, and panics otherwise.  If it is built, the block is
    [MAXIMUM_BLOCK_WEIGHT]; normal extrinsics get the normal ratio of it
    and operational ones all of it, the rest of the normal ratio being reserved for
    them; mandatory ones have no limit.  The largest extrinsic of a class is what
    initialization and base weight leave of its total, and is not nothing.  And
    serving the message queue takes, with the weights reserved for messages from the
    relay chain and from siblings, no more than the block. *)
Theorem block_limits :
  typed_constants →
  let normal := perbill_mul NORMAL_DISPATCH_RATIO MAXIMUM_BLOCK_WEIGHT in
  let base := ExtrinsicBaseWeight WEIGHT_REF_TIME_PER_NANOS in
  let largest t := weight_sat_sub (weight_sat_sub t (perbill_mul AVERAGE_ON_INITIALIZE_RATIO MAXIMUM_BLOCK_WEIGHT)) base in
  (is_Some RuntimeBlockWeights ↔ room) ∧
  ∀ w, RuntimeBlockWeights = Some w → ∃ service, MessageQueueServiceWeight = Some service ∧
    max_block w = MAXIMUM_BLOCK_WEIGHT ∧
    per_class w Normal = {| base_extrinsic := base; max_extrinsic := Some (largest normal);
      max_total := Some normal; reserved := Some zero_weight |} ∧
    per_class w Operational = {| base_extrinsic := base; max_extrinsic := Some (largest MAXIMUM_BLOCK_WEIGHT);
      max_total := Some MAXIMUM_BLOCK_WEIGHT; reserved := Some (weight_sub MAXIMUM_BLOCK_WEIGHT normal) |} ∧
    per_class w Mandatory = {| base_extrinsic := base; max_extrinsic := None; max_total := None; reserved := None |} ∧
    all_lt zero_weight (largest normal) = true ∧ all_lt zero_weight (largest MAXIMUM_BLOCK_WEIGHT) = true ∧
    all_lte (weight_add service (weight_add ReservedXcmpWeight ReservedDmpWeight)) MAXIMUM_BLOCK_WEIGHT = true.
Proof.
  intros Htyped normal base largest. destruct (runtime_weights_built Htyped) as (w & _ & Hm & Hc & [[Hr Hw]|[Hr Hw]]).
  2:{ rewrite Hw. split; [split; [by intros []|done]|done]. }
  unfold MessageQueueServiceWeight. rewrite Hw. split; [split; [done|by eexists]|].
  intros w' [= <-]. rewrite !Hc. cbn. eexists. split_and!; try done.
  all: destruct Hr as (_ & [??]%all_lt_spec & _ & _), Htyped as [_ _ [Ht Hs]%all_lte_spec _];
    rewrite ?all_lt_spec, ?all_lte_spec; cbn in *.
  - unfold sat_sub in *. lia.
  - pose proof (perbill_part NORMAL_DISPATCH_RATIO _ Ht). pose proof (perbill_part NORMAL_DISPATCH_RATIO _ Hs).
    unfold sat_sub in *. lia.
  - rewrite Hm. split; apply message_shares; try lia; apply percent_rounds; lia.
Qed.

(** * Sessions and collators *)

(** Sessions end every [Period] blocks; a collator is kicked after one session; and all
    collators there can be are Aura's authorities. *)
Lemma sessions_and_collators now :
  0 ≤ now → 0 < HOURS →
  (ShouldEndSession now = true ↔ (Period | now)) ∧ KickThreshold = SessionLength ∧
  MinEligibleCollators ≤ MaxCandidates ∧ MaxCandidates + MaxInvulnerables ≤ MaxAuthorities.
Proof.
  intros Hn Hh. unfold ShouldEndSession, Offset. rewrite periodic_sessions, Z.sub_0_r.
  split; [|done]. rewrite Z.mod_divide by (unfold Period; lia). naive_solver.
Qed.
End Configuration.

(** The presets name no more collators than the runtime takes, all with session keys. *)
Lemma presets_fit_collators `{Sdk} :
  Z.of_nat (length (gp_invulnerables local_testnet_genesis)) ≤ MaxInvulnerables ∧
  length (gp_session_keys local_testnet_genesis) = length (gp_invulnerables local_testnet_genesis).
Proof. by split. Qed.

(** * Witness *)

(** Parts of a billion as integers, cut off at the whole, and a builder that is the request made to it. *)
Definition clamp (p : Z) : Z := Z.max 0 (Z.min 1000000000 p).
#[local] Instance example_limits : BlockLimits.
Proof.
  refine {|
    Perbill := Z; from_percent p := p * 10000000;
    perbill_of p x := (2 * (clamp p * x) + 999999999) / 2000000000;
    BlockWeightsBuilder := Request Z; requested := id;
    builder := {|
      rq_base := zero_weight; rq_init := None;
      rq_class c := let initial := if decide (c = Mandatory) then None else Some zero_weight in
        {| base_extrinsic := zero_weight; max_extrinsic := None; max_total := initial; reserved := initial |} |};
    with_base_block w b := {| rq_base := w; rq_class := rq_class b; rq_init := rq_init b |};
    for_class cs f b := {|
      rq_base := rq_base b;
      rq_class c := if decide (c ∈ cs) then f (rq_class b c) else rq_class b c;
      rq_init := rq_init b |};
    avg_block_initialization p b := {| rq_base := rq_base b; rq_class := rq_class b; rq_init := Some p |};
    build b := p ← rq_init b;
      let m := foldr (λ c w, weight_max (default zero_weight (max_total (rq_class b c))) w) zero_weight all_classes in
      let w := {| base_block := rq_base b; max_block := m; per_class c := {|
        base_extrinsic := base_extrinsic (rq_class b c);
        max_extrinsic := (λ t, weight_sat_sub
          (weight_sat_sub t (weight_map (λ x, (2 * (clamp p * x) + 999999999) / 2000000000) m))
          (base_extrinsic (rq_class b c))) <$> max_total (rq_class b c);
        max_total := max_total (rq_class b c); reserved := reserved (rq_class b c) |} |} in
      if forallb (λ c, class_ok w (per_class w c)) all_classes then Some w else None;
    BlockLength := Z * Z; max_with_normal_ratio n p := (n, p)
  |}; try done.
  - intros p x Hp Hx. unfold clamp. rewrite Z.min_r, Z.max_r by lia.
    pose proof (Z.div_mod (2 * (p * 10000000 * x) + 999999999) 2000000000 ltac:(lia)).
    pose proof (Z.mod_pos_bound (2 * (p * 10000000 * x) + 999999999) 2000000000 ltac:(lia)). lia.
  - intros p x Hx. assert (0 ≤ clamp p ≤ 1000000000) as [Hc Hc'] by (unfold clamp; lia).
    split; [apply Z.div_pos; nia|]. apply Z.lt_succ_r, Z.div_lt_upper_bound; nia.
  - intros b p Hi _ cls _ m w. unfold id in Hi. by rewrite Hi.
Defined.

(** Two seconds of time and ten megabytes, three quarters of them for normal
    extrinsics, a twentieth for the initialization; and with all of the block for the
    initialization there is no room. *)
Lemma block_limits_witness :
  let block := {| ref_time := 2000000000000; proof_size := 10485760 |} in
  (∃ w, RuntimeBlockWeights 1000 block 750000000 50000000 = Some w ∧
    max_total (per_class w Normal) = Some {| ref_time := 1500000000000; proof_size := 7864320 |} ∧
    max_extrinsic (per_class w Normal) = Some {| ref_time := 1399875000000; proof_size := 7340032 |}) ∧
  ¬ is_Some (RuntimeBlockWeights 1000 block 750000000 1000000000).
Proof.
  intros block.
  assert (typed_constants 1000 block) as Htyped by (split; vm_compute; congruence).
  split.
  - destruct (block_limits (BL := example_limits) 1000 block 750000000 50000000 Htyped) as [[_ Hroom] Hlimits].
    destruct Hroom as [w Hw]; [split_and!; first [left; reflexivity|reflexivity]|].
    destruct (Hlimits w Hw) as (service & _ & _ & Hn & _).
    exists w. split; [exact Hw|]. rewrite Hn. split; vm_compute; reflexivity.
  - destruct (block_limits (BL := example_limits) 1000 block 750000000 1000000000 Htyped) as [[Hroom _] _].
    intros H. apply Hroom in H as (_ & H & _). vm_compute in H. discriminate H.
Defined.
