(* ===== verification/Inbound.v ===== *)
(** How messages from other chains reach the executor
    (src/runtime/src/configs/mod.rs): the configurations of the parachain system, of
    the queue of sibling messages and of the message queue, and the way of a message
    through them.

    A message comes in from the relay chain or from a sibling chain, is put into the
    message queue under an origin, and is taken out later and executed as from the
    location of that origin.  The three pallets are SDK code; the class [Messaging]
    states their documented behaviour. *)

From S2P Require Export XcmPallet Configs.
#[local] Open Scope Z_scope.

(** [cumulus_primitives_core::AggregateMessageOrigin]: whose queue a message is in. *)
Inductive AggregateMessageOrigin : Type :=
| Here
| Parent
| Sibling (id : Z).

#[global] Instance AggregateMessageOrigin_eq_dec : EqDecision AggregateMessageOrigin.
Proof. solve_decision. Defined.

(** Messages as they arrive, the state of the message queue, and the state of the
    channels to siblings. *)
Class MessageData := {
  Message : Type;
  Message_eq_dec :: EqDecision Message;
  Queues : Type;
  Channels : Type
}.

Abbreviation Inbox := (Queues * Channels)%type.

(** [pallet_message_queue::Config]. *)
Record MessageQueueConfig `{XD : XcmData} `{MD : MessageData} : Type := {
  mq_MessageProcessor : Message → AggregateMessageOrigin → Weight → Store → Store;
  mq_QueueChangeHandler : AggregateMessageOrigin → list Message → Channels → Channels;
  mq_QueuePausedQuery : Channels → AggregateMessageOrigin → bool;
  mq_HeapSize : Z;
  mq_MaxStale : Z;
  mq_ServiceWeight : option Weight;
  mq_IdleMaxServiceWeight : option Weight
}.

(** [cumulus_pallet_xcmp_queue::Config]. *)
Record XcmpQueueConfig `{XT : XcmTypes} `{Sys : System} `{MD : MessageData} : Type := {
  xq_XcmpQueue : Message → Z → Inbox → Inbox;
  xq_MaxInboundSuspended : Z;
  xq_MaxActiveOutboundChannels : Z;
  xq_MaxPageSize : Z;
  xq_ControllerOrigin : RuntimeOrigin → bool;
  xq_ControllerOriginConverter : ConvertOrigin
}.

(** [cumulus_pallet_parachain_system::Config]; the handler gets the messages of a sibling. *)
Record ParachainSystemConfig `{MD : MessageData} : Type := {
  ps_SelfParaId : Z;
  ps_DmpQueue : Message → Inbox → Inbox;
  ps_ReservedDmpWeight : Weight;
  ps_XcmpMessageHandler : Z → list Message → Inbox → Inbox;
  ps_ReservedXcmpWeight : Weight;
  ps_CheckAssociatedRelayNumber : Z → Z → bool
}.

Class Messaging {Sys : System} {XT : XcmTypes} {XB : XcmBuilder} {XD : XcmData} {XR : XcmRuntime}
    {MD : MessageData} := {
  decode_message : Message → option (list Instruction);
  message_hash : Message → bytes32;

  (** [Location::from]. *)
  origin_location : AggregateMessageOrigin → Location;
  origin_location_is : ∀ o, origin_location o =
    match o with
    | Here => {| parents := 0; interior := [] |}
    | Parent => {| parents := 1; interior := [] |}
    | Sibling id => {| parents := 1; interior := [Parachain id] |}
    end;

  (** A message is executed as from the location of its origin, without credit, and
      with at most the weight left. *)
  ProcessXcmMessage : XcmExecutorConfig → Message → AggregateMessageOrigin → Weight → Store → Store;
  process_message : ∀ cfg m o limit s, ProcessXcmMessage cfg m o limit s =
    match decode_message m with
    | Some ins => fst (xcm_execute cfg (origin_location o) ins limit
                         {| weight_credit := zero_weight; message_id := Some (message_hash m) |} s)
    | None => s
    end;

  (** What makes the one queue of messages out of the other. *)
  EnqueueWithOrigin : (Message → AggregateMessageOrigin → Inbox → Inbox) → AggregateMessageOrigin →
    Message → Inbox → Inbox;
  TransformOrigin : (Message → AggregateMessageOrigin → Inbox → Inbox) → (Z → AggregateMessageOrigin) →
    Message → Z → Inbox → Inbox;
  ParaIdToSibling : Z → AggregateMessageOrigin;
  narrow_paused : (Channels → Z → bool) → Channels → AggregateMessageOrigin → bool;
  narrow_changed : (Z → list Message → Channels → Channels) →
    AggregateMessageOrigin → list Message → Channels → Channels;
  RelayNumberMonotonicallyIncreases : Z → Z → bool;
  enqueue_with_origin : ∀ e o m q, EnqueueWithOrigin e o m q = e m o q;
  transform_origin : ∀ e c m id q, TransformOrigin e c m id q = e m (c id) q;
  para_id_to_sibling : ∀ id, ParaIdToSibling id = Sibling id;
  narrow_paused_is : ∀ f ch o, narrow_paused f ch o = match o with Sibling id => f ch id | _ => false end;
  narrow_changed_is : ∀ f o ms ch, narrow_changed f o ms ch = match o with Sibling id => f id ms ch | _ => ch end;
  relay_number : ∀ previous current,
    RelayNumberMonotonicallyIncreases previous current = (previous <=? current);

  (** The queue of sibling messages: whether a channel is paused, what a change of
      its queue does to it, and the messages that come over it, of which those
      beyond its limits are dropped. *)
  XcmpQueue_is_paused : Channels → Z → bool;
  XcmpQueue_on_queue_changed : Z → list Message → Channels → Channels;
  handle_xcmp_messages : XcmpQueueConfig → Z → list Message → Inbox → Inbox;
  handle_xcmp : ∀ cfg id ms q, ∃ ms' ch, sublist ms' ms ∧
    handle_xcmp_messages cfg id ms q = foldl (λ q m, xq_XcmpQueue cfg m id q) (fst q, ch) ms';

  (** The parachain system hands on the messages of the relay chain. *)
  receive_downward : ParachainSystemConfig → list Message → Inbox → Inbox;
  receive_downward_is : ∀ cfg ms q, receive_downward cfg ms q = foldl (λ q m, ps_DmpQueue cfg m q) q ms;

  (** The message queue: the messages waiting for each origin, oldest first; putting one
      in, and taking one out to process it. *)
  pending : Queues → AggregateMessageOrigin → list Message;
  enqueue_message : MessageQueueConfig → Message → AggregateMessageOrigin → Inbox → Inbox;
  enqueue_pending : ∀ cfg m o q o',
    pending (fst (enqueue_message cfg m o q)) o' =
      if decide (o = o') then pending (fst q) o' ++ [m] else pending (fst q) o';
  enqueue_channels : ∀ cfg m o q,
    snd (enqueue_message cfg m o q) = mq_QueueChangeHandler cfg o (pending (fst q) o ++ [m]) (snd q);
  serviced : MessageQueueConfig → Inbox → AggregateMessageOrigin → Message → Inbox → Prop;
  serviced_takes : ∀ cfg q o m q', serviced cfg q o m q' →
    mq_QueuePausedQuery cfg (snd q) o = false ∧
    pending (fst q) o ≡ₚ m :: pending (fst q') o ∧
    ∀ o', o' ≠ o → pending (fst q') o' = pending (fst q) o'
}.

(** * The configuration *)

Section Configuration.
  Context {Sys : System} {XT : XcmTypes} {XB : XcmBuilder} {XD : XcmData} {XR : XcmRuntime}.
  Context {BL : BlockLimits} {MD : MessageData} {MS : Messaging}.

Variable parachain_id : Z.
Variable WEIGHT_REF_TIME_PER_NANOS : Z.
Variable MAXIMUM_BLOCK_WEIGHT : Weight.
Variables NORMAL_DISPATCH_RATIO AVERAGE_ON_INITIALIZE_RATIO : Perbill.

Definition RelayOrigin : AggregateMessageOrigin := Parent.

(** [impl pallet_message_queue::Config for Runtime]. *)
Definition message_queue_config : MessageQueueConfig := {|
  mq_MessageProcessor := ProcessXcmMessage (XcmConfig parachain_id);
  mq_QueueChangeHandler := narrow_changed XcmpQueue_on_queue_changed;
  mq_QueuePausedQuery := narrow_paused XcmpQueue_is_paused;
  mq_HeapSize := 103 * 1024;
  mq_MaxStale := 8;
  mq_ServiceWeight := MessageQueueServiceWeight WEIGHT_REF_TIME_PER_NANOS MAXIMUM_BLOCK_WEIGHT
                        NORMAL_DISPATCH_RATIO AVERAGE_ON_INITIALIZE_RATIO;
  mq_IdleMaxServiceWeight := None
|}.

(** [impl cumulus_pallet_xcmp_queue::Config for Runtime]. *)
Definition xcmp_queue_config : XcmpQueueConfig := {|
  xq_XcmpQueue := TransformOrigin (enqueue_message message_queue_config) ParaIdToSibling;
  xq_MaxInboundSuspended := 1000;
  xq_MaxActiveOutboundChannels := 128;
  xq_MaxPageSize := Z.shiftl 1 16;
  xq_ControllerOrigin := ensure_root;
  xq_ControllerOriginConverter := XcmOriginToTransactDispatchOrigin
|}.

(** [impl cumulus_pallet_parachain_system::Config for Runtime]. *)
Definition parachain_system_config : ParachainSystemConfig := {|
  ps_SelfParaId := parachain_id;
  ps_DmpQueue := EnqueueWithOrigin (enqueue_message message_queue_config) RelayOrigin;
  ps_ReservedDmpWeight := ReservedDmpWeight MAXIMUM_BLOCK_WEIGHT;
  ps_XcmpMessageHandler := handle_xcmp_messages xcmp_queue_config;
  ps_ReservedXcmpWeight := ReservedXcmpWeight MAXIMUM_BLOCK_WEIGHT;
  ps_CheckAssociatedRelayNumber := RelayNumberMonotonicallyIncreases
|}.

(** * The way of a message *)

(** The chain as messages see it: the queues and channels, the storage, the relay
    chain's last block number; and, as a record, the messages sent to this chain, with the
    location of the chain that sent each, and the messages processed, with the
    origin each was under. *)
Record Chain : Type := {
  ch_inbox : Inbox;
  ch_store : Store;
  ch_relay_number : Z;
  ch_sent : list (Location * Message);
  ch_served : list (AggregateMessageOrigin * Message)
}.

(** What happens to it: a new block, with the relay chain's number checked; messages come
    from the relay chain or a sibling; a message is processed; and whatever else the
    blocks do to the storage and the channels. *)
Inductive inbound (c : Chain) : Chain → Prop :=
| inbound_block n :
    ps_CheckAssociatedRelayNumber parachain_system_config (ch_relay_number c) n = true →
    inbound c {| ch_inbox := ch_inbox c; ch_store := ch_store c; ch_relay_number := n;
                 ch_sent := ch_sent c; ch_served := ch_served c |}
| inbound_relay ms :
    inbound c {| ch_inbox := receive_downward parachain_system_config ms (ch_inbox c);
                 ch_store := ch_store c; ch_relay_number := ch_relay_number c;
                 ch_sent := ch_sent c ++ (pair RelayLocation <$> ms); ch_served := ch_served c |}
| inbound_sibling id ms :
    inbound c {| ch_inbox := ps_XcmpMessageHandler parachain_system_config id ms (ch_inbox c);
                 ch_store := ch_store c; ch_relay_number := ch_relay_number c;
                 ch_sent := ch_sent c ++ (pair {| parents := 1; interior := [Parachain id] |} <$> ms);
                 ch_served := ch_served c |}
| inbound_serve o m limit q :
    serviced message_queue_config (ch_inbox c) o m q →
    inbound c {| ch_inbox := q; ch_store := mq_MessageProcessor message_queue_config m o limit (ch_store c);
                 ch_relay_number := ch_relay_number c;
                 ch_sent := ch_sent c; ch_served := ch_served c ++ [(o, m)] |}
| inbound_other channels s :
    inbound c {| ch_inbox := (fst (ch_inbox c), channels); ch_store := s; ch_relay_number := ch_relay_number c;
                 ch_sent := ch_sent c; ch_served := ch_served c |}.

(** A chain no message has been sent to. *)
Definition quiet (c : Chain) : Prop :=
  (∀ o, pending (fst (ch_inbox c)) o = []) ∧ ch_sent c = [] ∧ ch_served c = [].

(** The messages a location sent, and those processed under an origin. *)
Definition sent_by (c : Chain) (l : Location) : list Message :=
  snd <$> filter (λ x, fst x = l) (ch_sent c).
Definition served_as (c : Chain) (o : AggregateMessageOrigin) : list Message :=
  snd <$> filter (λ x, fst x = o) (ch_served c).

(** * Messages and their senders *)

#[local] Abbreviation MQ := message_queue_config.

Lemma pending_enqueued cfg o ms q o' :
  pending (fst (foldl (λ q m, enqueue_message cfg m o q) q ms)) o' =
    if decide (o = o') then pending (fst q) o' ++ ms else pending (fst q) o'.
Proof.
  revert q. induction ms as [|m ms IH]; intros q; cbn [foldl].
  - rewrite app_nil_r. by case_decide.
  - rewrite IH, enqueue_pending. case_decide; [|done]. by rewrite <- app_assoc.
Qed.

(** What the relay chain and a sibling send is put under their origins. *)
Lemma pending_relay ms q o :
  pending (fst (receive_downward parachain_system_config ms q)) o =
    if decide (Parent = o) then pending (fst q) o ++ ms else pending (fst q) o.
Proof.
  rewrite receive_downward_is. cbn. rewrite <- pending_enqueued with (cfg := MQ). do 2 f_equal.
  revert q. induction ms as [|m ms IH]; intros q; [done|]. cbn [foldl]. rewrite IH. by rewrite enqueue_with_origin.
Qed.

Lemma pending_sibling id ms q :
  ∃ ms', sublist ms' ms ∧ ∀ o,
    pending (fst (ps_XcmpMessageHandler parachain_system_config id ms q)) o =
      if decide (Sibling id = o) then pending (fst q) o ++ ms' else pending (fst q) o.
Proof.
  destruct (handle_xcmp xcmp_queue_config id ms q) as (ms' & ch & Hms & Hq).
  exists ms'. split; [done|]. intros o. cbn [ps_XcmpMessageHandler parachain_system_config]. rewrite Hq.
  rewrite <- (pending_enqueued MQ (Sibling id) ms' (fst q, ch)). do 2 f_equal.
  clear Hms Hq. generalize (fst q, ch). induction ms' as [|m ms' IH]; intros q'; [done|]. cbn [foldl]. rewrite IH.
  cbn. by rewrite transform_origin, para_id_to_sibling.
Qed.

(** The messages of an origin, waiting or processed, were sent from its location, each
    at least as often. *)
Definition accounted (c : Chain) : Prop :=
  ∀ o, served_as c o ++ pending (fst (ch_inbox c)) o ⊆+ sent_by c (origin_location o).

Lemma filter_pairs {A B} `{EqDecision A} (a b : A) (ms : list B) :
  snd <$> filter (λ x, fst x = b) (pair a <$> ms) = if decide (a = b) then ms else [].
Proof.
  induction ms as [|m ms IH]; [by case_decide|]. rewrite fmap_cons, filter_cons.
  repeat case_decide; subst; rewrite ?fmap_cons, IH; done.
Qed.

(** More messages [ms] sent from [l], of which [ms'] wait under its origin [o]. *)
Lemma received_accounted (served pend sent ms ms' : list Message) (o o' : AggregateMessageOrigin) l :
  served ++ pend ⊆+ sent → sublist ms' ms → origin_location o = l →
  served ++ (if decide (o = o') then pend ++ ms' else pend) ⊆+
    sent ++ (if decide (l = origin_location o') then ms else []).
Proof.
  intros Hs Hms <-. case_decide as Ho.
  - subst. rewrite decide_True by done. rewrite app_assoc.
    apply submseteq_app; [done|by apply sublist_submseteq].
  - etransitivity; [exact Hs|]. by apply submseteq_inserts_r.
Qed.

Lemma accounted_step c c' : inbound c c' → accounted c → accounted c'.
Proof.
  intros Hst Hc o'. specialize (Hc o'). destruct Hst as [n _|ms|id ms|o m limit q Hq|channels s];
    unfold served_as, sent_by in *; cbn in *; try done.
  - rewrite filter_app, fmap_app, filter_pairs, pending_relay.
    apply received_accounted; [done|done|]. by rewrite origin_location_is.
  - destruct (pending_sibling id ms (ch_inbox c)) as (ms' & Hms & Hp).
    rewrite filter_app, fmap_app, filter_pairs, Hp.
    apply received_accounted; [done|done|]. by rewrite origin_location_is.
  - apply serviced_takes in Hq as (_ & Hm & Hrest).
    rewrite filter_app, fmap_app. destruct (decide (o = o')) as [->|Ho].
    + rewrite filter_cons_True by done. cbn. rewrite <- app_assoc. cbn. by rewrite <- Hm.
    + rewrite filter_cons_False by done. cbn. rewrite app_nil_r. by rewrite Hrest.
Qed.

Lemma quiet_accounted c : quiet c → accounted c.
Proof. intros (Hp & Hs & Hv) o. unfold served_as, sent_by. by rewrite Hp, Hs, Hv. Qed.

Lemma sent_location c c' l :
  inbound c c' → l ∈ (ch_sent c').*1 → l ∈ (ch_sent c).*1 ∨ l = RelayLocation ∨
    ∃ id, l = {| parents := 1; interior := [Parachain id] |}.
Proof.
  intros [n _|ms|id ms|o m limit q Hq|channels s]; cbn; auto; rewrite fmap_app, elem_of_app;
    (intros [Hl|Hl]; [by left|]); right; apply list_elem_of_fmap in Hl as ([l' m] & -> & Hl);
    apply list_elem_of_fmap in Hl as (? & [= -> ->] & _); eauto.
Qed.
Lemma sent_from c0 c l :
  quiet c0 → rtc inbound c0 c → l ∈ (ch_sent c).*1 →
  l = RelayLocation ∨ ∃ id, l = {| parents := 1; interior := [Parachain id] |}.
Proof.
  intros (_ & Hs & _) Hr. pattern c. revert c Hr.
  refine (rtc_ind_r _ c0 _ _); [rewrite Hs; cbn; set_solver|].
  intros c c' _ Hst IH Hl. destruct (sent_location _ _ _ Hst Hl) as [?|?]; auto.
Qed.

Lemma sent_by_elem c l m : m ∈ sent_by c l → l ∈ (ch_sent c).*1.
Proof.
  unfold sent_by. intros ([l' m'] & -> & Hl)%list_elem_of_fmap.
  apply list_elem_of_filter in Hl as [<- Hl]. apply list_elem_of_fmap. by exists (l', m').
Qed.

(** C25: messages act for the chain that sent them.  On a chain that starts without
    messages, whatever happens, the messages processed as from a location were sent by
    the chain there, each at most as often as it was sent; none is processed as from
    this chain itself; whoever has a message processed can be sent one; and the relay
    chain's block numbers do not go back. *)
Theorem inbound_authentic c0 c :
  quiet c0 → rtc inbound c0 c →
  (∀ o, served_as c o ⊆+ sent_by c (origin_location o)) ∧
  (∀ o, served_as c o ≠ [] → o ≠ Here ∧ is_Some (XcmRouter (origin_location o))) ∧
  ch_relay_number c0 ≤ ch_relay_number c.
Proof.
  intros Hq Hr.
  assert (∀ o, served_as c o ⊆+ sent_by c (origin_location o)) as Hs.
  { intros o. etransitivity; [by apply submseteq_inserts_r|].
    apply (rtc_preserves inbound accounted) in Hr; [apply Hr| |by apply quiet_accounted].
    intros x y Hx Hxy. by eapply accounted_step. }
  split_and!; [exact Hs| |].
  - intros o Ho. destruct (served_as c o) as [|m ms] eqn:Hm; [done|].
    assert (origin_location o ∈ (ch_sent c).*1) as Hl.
    { apply (sent_by_elem _ _ m), (elem_of_submseteq (m :: ms)); [left|]. by rewrite <- Hm. }
    apply (sent_from _ _ _ Hq Hr) in Hl. rewrite origin_location_is in *. split.
    + intros ->. by destruct Hl as [?|[? ?]].
    + destruct Hl as [->|[id ->]]; eexists; apply reachable_destinations; eauto.
  - clear Hq Hs. induction Hr as [|x y z Hxy _ IH]; [done|]. etransitivity; [|exact IH].
    destruct Hxy as [n Hn| | | |]; cbn in *; try lia. rewrite relay_number in Hn. lia.
Qed.

(** * What a message can do *)

Lemma nonneg_weight_of_none ins w :
  FixedWeightBounds UnitWeightCost MaxInstructions ins = Some w → all_lte w zero_weight = true →
  instructions_in ins = 0.
Proof.
  intros [[H0 _] ->]%fixed_weight H. pose proof (transact_nonneg ins) as Ht.
  apply all_lte_spec in H as [H _], Ht as [Ht _]. cbn in *. lia.
Qed.

(** C26: a message in a queue has an effect only if it deserves it.  Its channel is not
    paused, it can be decoded, it has at most 100 instructions, it fits the weight
    left, neither it nor a message inside it moves reserves to the relay chain, and
    unless it has no instruction at all it buys execution for its weight, or is
    declared unpaid and comes, after the instructions that change its origin, from the
    relay chain or the executive body there.  The relay chain's queue cannot be
    paused. *)
Theorem queued_messages_pay c o m limit q :
  serviced message_queue_config (ch_inbox c) o m q →
  mq_MessageProcessor message_queue_config m o limit (ch_store c) ≠ ch_store c →
  (∀ id, o = Sibling id → XcmpQueue_is_paused (snd (ch_inbox c)) id = false) ∧
  mq_QueuePausedQuery message_queue_config (snd (ch_inbox c)) Parent = false ∧
  ∃ ins w, decode_message m = Some ins ∧
    FixedWeightBounds UnitWeightCost MaxInstructions ins = Some w ∧ all_lte w limit = true ∧
    instructions_in ins ≤ 100 ∧ (∀ inner, inner ∈ messages_in (body ins) → reserve_to_relay inner = false) ∧
    (instructions_in ins = 0 ∨
     ∃ l pre rest,
       computed_origin (UniversalLocation parachain_id) 8 (origin_location o) (body ins) = Some (l, pre, rest) ∧
       (is_Some (buys_execution w rest) ∨ free_pass l w rest)).
Proof.
  intros [Hp _]%serviced_takes Heff. cbn in *. rewrite narrow_paused_is in *. split_and!; [|done|].
  { intros id ->. by rewrite <- Hp. }
  rewrite process_message in Heff. destruct (decode_message m) as [ins|]; [|done].
  apply executed_bounds in Heff as (w & Hw & Hl & Hn & _ & Hres & Hpay). exists ins, w.
  split_and!; try done. destruct Hpay as [Hcredit|Hpay]; [left|by right].
  by eapply nonneg_weight_of_none.
Qed.

(** A message from elsewhere never controls the channels: no location is converted to
    a superuser, and no location's origin is a controller. *)
Lemma no_message_controls l k o :
  xq_ControllerOriginConverter xcmp_queue_config l Superuser = Err l ∧
  (xq_ControllerOriginConverter xcmp_queue_config l k = Ok o → xq_ControllerOrigin xcmp_queue_config o = false).
Proof.
  cbn. rewrite !transact_origin_convert. split; [done|]. destruct (transact_origin l k) eqn:Ht; [|done].
  intros [= <-]. by eapply transact_origin_not_root.
Qed.

(** A message of the relay chain leaves the channels alone, and a sibling's page fits
    into a page of the message queue. *)
Lemma downward_leaves_channels ms q :
  snd (receive_downward parachain_system_config ms q) = snd q.
Proof.
  rewrite receive_downward_is. revert q. induction ms as [|m ms IH]; intros q; [done|]. cbn [foldl].
  rewrite IH. cbn. by rewrite enqueue_with_origin, enqueue_channels; cbn; rewrite narrow_changed_is.
Qed.

Lemma pages_fit : xq_MaxPageSize xcmp_queue_config ≤ mq_HeapSize message_queue_config.
Proof. done. Qed.
End Configuration.

(** * Witnesses *)

#[local] Existing Instances example_xcm_types xcm_system example_builder example_xcm_data example_xcm_runtime
  example_limits.

(** One message that can be decoded and one that cannot; one list of messages under
    their origins; and the channels that are paused. *)
#[local] Instance example_message_data : MessageData := {|
  Message := bool; Queues := list (AggregateMessageOrigin * bool); Channels := list Z
|}.

Definition example_pending (qs : list (AggregateMessageOrigin * bool)) (o : AggregateMessageOrigin) : list bool :=
  snd <$> filter (λ x, fst x = o) qs.
#[local] Arguments example_pending : simpl never.

Definition example_enqueue (cfg : MessageQueueConfig) (m : bool) (o : AggregateMessageOrigin) (q : Inbox) : Inbox :=
  (fst q ++ [(o, m)], mq_QueueChangeHandler cfg o (example_pending (fst q) o ++ [m]) (snd q)).

Definition example_serviced (cfg : MessageQueueConfig) (q : Inbox) (o : AggregateMessageOrigin) (m : bool)
    (q' : Inbox) : Prop :=
  mq_QueuePausedQuery cfg (snd q) o = false ∧
  ∃ qs1 qs2, fst q = qs1 ++ (o, m) :: qs2 ∧ fst q' = qs1 ++ qs2.

Lemma example_pending_app qs qs' o : example_pending (qs ++ qs') o = example_pending qs o ++ example_pending qs' o.
Proof. unfold example_pending. by rewrite filter_app, fmap_app. Qed.

Lemma example_pending_cons o m qs o' :
  example_pending ((o, m) :: qs) o' = if decide (o = o') then m :: example_pending qs o' else example_pending qs o'.
Proof. unfold example_pending. rewrite filter_cons. cbn. by case_decide. Qed.

#[local] Instance example_messaging : Messaging.
Proof.
  refine {|
    decode_message := λ m : Message, if (m : bool) then Some topical else None;
    message_hash := λ m : Message, vreplicate 32 (if (m : bool) then Byte.x01 else Byte.x00);
    origin_location := λ o, match o with
      | Here => {| parents := 0; interior := [] |}
      | Parent => {| parents := 1; interior := [] |}
      | Sibling id => {| parents := 1; interior := [Parachain id] |}
      end;
    ProcessXcmMessage := λ cfg (m : Message) o limit s,
      if (m : bool) then fst (xcm_execute cfg
        match o with
        | Here => {| parents := 0; interior := [] |}
        | Parent => {| parents := 1; interior := [] |}
        | Sibling id => {| parents := 1; interior := [Parachain id] |}
        end topical limit {| weight_credit := zero_weight; message_id := Some (vreplicate 32 Byte.x01) |} s)
      else s;
    EnqueueWithOrigin := λ e o m q, e m o q;
    TransformOrigin := λ e c m id q, e m (c id) q;
    ParaIdToSibling := Sibling;
    narrow_paused := λ f ch o, match o with Sibling id => f ch id | _ => false end;
    narrow_changed := λ f o ms ch, match o with Sibling id => f id ms ch | _ => ch end;
    RelayNumberMonotonicallyIncreases := Z.leb;
    XcmpQueue_is_paused := λ (ch : Channels) id, bool_decide (id ∈ (ch : list Z));
    XcmpQueue_on_queue_changed := λ id ms (ch : Channels), if (100 <? Z.of_nat (length ms)) then id :: (ch : list Z) else ch;
    handle_xcmp_messages := λ cfg id ms q, foldl (λ q m, xq_XcmpQueue cfg m id q) q ms;
    receive_downward := λ cfg ms q, foldl (λ q m, ps_DmpQueue cfg m q) q ms;
    pending := example_pending;
    enqueue_message := example_enqueue;
    serviced := example_serviced
  |}; try reflexivity.
  - intros cfg [] o limit s; [|done]. by destruct o.
  - intros cfg id ms q. exists ms, (snd q). split; [done|]. by destruct q.
  - intros cfg m o q o'. cbn. rewrite example_pending_app, example_pending_cons. case_decide; [done|].
    unfold example_pending; cbn. by rewrite app_nil_r.
  - intros cfg [qs ch] o m [qs' ch'] (Hp & qs1 & qs2 & Hq & Hq'). cbn in Hq, Hq'. subst. cbn. split; [done|].
    rewrite !example_pending_app, example_pending_cons, decide_True by done. split; [by rewrite Permutation_middle|].
    intros o' Ho. cbn. by rewrite !example_pending_app, example_pending_cons, decide_False by done.
Defined.

(** The relay chain sends two messages, of which the second is processed. *)
Definition example_chain (inbox : Inbox) (s : Z) (sent : list (Location * bool))
    (served : list (AggregateMessageOrigin * bool)) : Chain :=
  {| ch_inbox := inbox; ch_store := s; ch_relay_number := 0; ch_sent := sent; ch_served := served |}.

Definition example_block : Weight := {| ref_time := 2000000000000; proof_size := 10485760 |}.
Definition example_served : Chain :=
  example_chain ([(Parent, false)], []) 1 [(RelayLocation, false); (RelayLocation, true)] [(Parent, true)].

Definition example_config : MessageQueueConfig :=
  message_queue_config (BL := example_limits) (MS := example_messaging) 2000 1000 example_block
    750000000 50000000.

Lemma example_serves : example_serviced example_config
  ([(Parent, false); (Parent, true)], []) Parent true ([(Parent, false)], []).
Proof. split; [done|]. by exists [(Parent, false)], []. Qed.

Lemma inbound_authentic_witness :
  served_as example_served Parent = [true] ∧ served_as example_served Parent ⊆+ sent_by example_served RelayLocation.
Proof.
  split; [reflexivity|].
  apply (inbound_authentic (BL := example_limits) (MS := example_messaging) 2000 1000 example_block 750000000 50000000
    (example_chain ([], []) 0 [] [])).
  - by split.
  - eapply rtc_l; [exact (inbound_relay (BL := example_limits) (MS := example_messaging) 2000 1000 example_block 750000000 50000000 _ [false; true])|].
    apply rtc_once.
    exact (inbound_serve (BL := example_limits) (MS := example_messaging) 2000 1000 example_block 750000000 50000000
      (example_chain ([(Parent, false); (Parent, true)], []) 0 [(RelayLocation, false); (RelayLocation, true)] [])
      Parent true plenty ([(Parent, false)], []) example_serves).
Defined.

(** The message has an effect, and is the executive body's; from a sibling it has none. *)
Lemma queued_messages_pay_witness :
  let process := mq_MessageProcessor example_config in
  process true Parent plenty 0 = 1 ∧ process true (Sibling 7) plenty 0 = 0 ∧
  ∃ ins, decode_message true = Some ins ∧ instructions_in ins ≤ 100.
Proof.
  intros process. assert (process true Parent plenty 0 = 1) as H by (vm_compute; reflexivity).
  split; [exact H|]. split; [vm_compute; reflexivity|].
  destruct (queued_messages_pay (BL := example_limits) (MS := example_messaging) 2000 1000 example_block 750000000 50000000
    (example_chain ([(Parent, false); (Parent, true)], []) 0 [] []) Parent true plenty ([(Parent, false)], []))
    as (_ & _ & ins & w & Hd & _ & _ & Hn & _);
    [exact example_serves | change (process true Parent plenty 0 ≠ 0); rewrite H; discriminate |].
  by exists ins.
Defined.
