(* ===== verification/Sessions.v ===== *)
(** Who produces blocks (src/runtime/src/configs/mod.rs): the configurations of
    authorship, sessions, Aura and the collator selection, and how they play together.

    The collator selection names the collators of the next session, the session
    pallet looks up their keys and rotates them in, Aura takes their Aura keys as
    the authorities that own the slots, and the author of a block, found from its
    slot, is reported to the collator selection.  The four pallets are SDK code; the
    class [Producing] states their documented behaviour. *)

From S2P Require Export XcmProps Configs.
#[local] Open Scope Z_scope.

Class ProducingData := {
  SessionStore : Type;
  AuraStore : Type;
  CollatorStore : Type;
  Digest : Type
}.

(** [pallet_aura::Config]. *)
Record AuraConfig : Type := {
  au_MaxAuthorities : Z;
  au_AllowMultipleBlocksPerSlot : bool;
  au_SlotDuration : Z
}.

(** [pallet_collator_selection::Config]. *)
Record CollatorSelectionConfig `{System} `{ProducingData} : Type := {
  cs_UpdateOrigin : RuntimeOrigin → bool;
  cs_PotId : string;
  cs_MaxCandidates : Z;
  cs_MinEligibleCollators : Z;
  cs_MaxInvulnerables : Z;
  cs_KickThreshold : Z;
  cs_ValidatorIdOf : AccountId → option AccountId;
  cs_ValidatorRegistration : SessionStore → AccountId → bool
}.

(** [pallet_session::Config]: when a session ends, which validators the manager names
    for a session, and what the handler does with the keys of a new session and of
    the first one. *)
Record SessionConfig `{Sdk} `{ProducingData} : Type := {
  sc_ValidatorIdOf : AccountId → option AccountId;
  sc_ShouldEndSession : Z → bool;
  sc_SessionManager : CollatorStore → Z → option (list AccountId);
  sc_SessionHandler : bool → list (AccountId * SessionKeys) → AuraStore → AuraStore;
  sc_GenesisHandler : list (AccountId * SessionKeys) → AuraStore
}.

(** [pallet_authorship::Config]. *)
Record AuthorshipConfig `{System} `{ProducingData} : Type := {
  as_FindAuthor : SessionStore → AuraStore → Digest → option AccountId;
  as_EventHandler : AccountId → Z → CollatorStore → CollatorStore
}.

Class Producing {Sys : System} {SDK : Sdk} {PD : ProducingData} := {
  IdentityCollator : AccountId → option AccountId;

  (** The session pallet: the validators, the keys queued for the next session,
      whether they differ from this session's, and the keys registered. *)
  validators : SessionStore → list AccountId;
  queued_keys : SessionStore → list (AccountId * SessionKeys);
  queued_changed : SessionStore → bool;
  load_keys : SessionStore → AccountId → option SessionKeys;
  is_registered : SessionStore → AccountId → bool;
  rotate_session : SessionConfig → Z → CollatorStore → SessionStore → AuraStore → SessionStore * AuraStore;
  (** The queued keys become the session's; the validators of the next one are named
      and their keys queued, without those that have none. *)
  rotated : ∀ cfg index c s a,
    let r := rotate_session cfg index c s a in
    let next := sc_SessionManager cfg c (index + 1) in
    validators (fst r) = (queued_keys s).*1 ∧
    snd r = sc_SessionHandler cfg (queued_changed s) (queued_keys s) a ∧
    queued_keys (fst r) = omap (λ v, pair v <$> load_keys s v) (default (queued_keys s).*1 next) ∧
    (is_Some next → queued_changed (fst r) = true) ∧
    ∀ v, load_keys (fst r) v = load_keys s v;
  session_genesis : SessionConfig → list (AccountId * AccountId * SessionKeys) → CollatorStore →
    SessionStore * AuraStore;
  (** The first validators are named by the manager; each must have a key. *)
  genesis_session : ∀ cfg keys c vs,
    let r := session_genesis cfg keys c in
    sc_SessionManager cfg c 0 = Some vs → sc_SessionManager cfg c 1 = Some vs →
    NoDup (keys.*1).*2 → (∀ v, v ∈ vs → v ∈ (keys.*1).*2) →
    validators (fst r) = vs ∧ (queued_keys (fst r)).*1 = vs ∧ queued_changed (fst r) = false ∧
    (∀ v k, (v, k) ∈ queued_keys (fst r) ∨ load_keys (fst r) v = Some k → ∃ acc, (acc, v, k) ∈ keys) ∧
    snd r = sc_GenesisHandler cfg (queued_keys (fst r));
  (** The handler of keys that consist of one Aura key. *)
  KeyTypeIdProviders : (bool → list AuraId → AuraStore → AuraStore) →
    bool → list (AccountId * SessionKeys) → AuraStore → AuraStore;
  KeyTypeIdProviders_genesis : (list AuraId → AuraStore) → list (AccountId * SessionKeys) → AuraStore;
  key_providers : ∀ f changed keys a, KeyTypeIdProviders f changed keys a = f changed (aura <$> keys.*2) a;
  key_providers_genesis : ∀ f keys, KeyTypeIdProviders_genesis f keys = f (aura <$> keys.*2);

  (** Aura: the authorities, of which too many are cut off and none are ignored; and
      the index of the authority that owns the slot of a block, if it names one. *)
  authorities : AuraStore → list AuraId;
  Aura_on_new_session : AuraConfig → bool → list AuraId → AuraStore → AuraStore;
  Aura_on_genesis_session : AuraConfig → list AuraId → AuraStore;
  aura_session : ∀ cfg changed keys a, authorities (Aura_on_new_session cfg changed keys a) =
    if changed && negb (bool_decide (keys = [])) then take (Z.to_nat (au_MaxAuthorities cfg)) keys else authorities a;
  aura_genesis : ∀ cfg keys, Z.of_nat (length keys) ≤ au_MaxAuthorities cfg →
    authorities (Aura_on_genesis_session cfg keys) = keys;
  slot_of : Digest → option Z;
  Aura_find_author : AuraStore → Digest → option Z;
  aura_author : ∀ a d, Aura_find_author a d =
    (λ slot, slot `mod` Z.of_nat (length (authorities a))) <$> slot_of d;
  FindAccountFromAuthorIndex : (AuraStore → Digest → option Z) → SessionStore → AuraStore → Digest → option AccountId;
  find_account : ∀ f s a d, FindAccountFromAuthorIndex f s a d =
    i ← f a d; validators s !! Z.to_nat i;

  (** The collator selection: the collators it names, invulnerables before candidates;
      at the beginning there are only the invulnerables. *)
  CollatorSelection_new_session : CollatorSelectionConfig → CollatorStore → Z → option (list AccountId);
  CollatorSelection_note_author : AccountId → Z → CollatorStore → CollatorStore;
  last_authored : CollatorStore → AccountId → option Z;
  collator_genesis : CollatorSelectionConfig → list AccountId → CollatorStore;
  names_collators : ∀ cfg c index, 0 ≤ cs_MaxInvulnerables cfg → 0 ≤ cs_MaxCandidates cfg → ∃ vs, CollatorSelection_new_session cfg c index = Some vs ∧
    Z.of_nat (length vs) ≤ cs_MaxInvulnerables cfg + cs_MaxCandidates cfg;
  genesis_collators : ∀ cfg invulnerables,
    NoDup invulnerables → Z.of_nat (length invulnerables) ≤ cs_MaxInvulnerables cfg →
    ∃ vs, vs ≡ₚ invulnerables ∧
      ∀ index, CollatorSelection_new_session cfg (collator_genesis cfg invulnerables) index = Some vs;
  notes_author : ∀ who now c who', last_authored (CollatorSelection_note_author who now c) who' =
    if decide (who = who') then Some now else last_authored c who'
}.

(** * The configuration *)

Section Configuration.
  Context {Sys : System} {SDK : Sdk} {XT : XcmTypes} {XB : XcmBuilder} {SE : Sessions}.
  Context {PD : ProducingData} {PR : Producing}.

Variables HOURS SLOT_DURATION : Z.

(** [impl pallet_aura::Config for Runtime]. *)
Definition aura_config : AuraConfig := {|
  au_MaxAuthorities := MaxAuthorities;
  au_AllowMultipleBlocksPerSlot := true;
  au_SlotDuration := SLOT_DURATION
|}.

Definition PotId : string := "PotStake".

(** [impl pallet_collator_selection::Config for Runtime]. *)
Definition collator_selection_config : CollatorSelectionConfig := {|
  cs_UpdateOrigin := CollatorSelectionUpdateOrigin;
  cs_PotId := PotId;
  cs_MaxCandidates := MaxCandidates;
  cs_MinEligibleCollators := MinEligibleCollators;
  cs_MaxInvulnerables := MaxInvulnerables;
  cs_KickThreshold := KickThreshold HOURS;
  cs_ValidatorIdOf := IdentityCollator;
  cs_ValidatorRegistration := is_registered
|}.

(** [impl pallet_session::Config for Runtime]. *)
Definition session_config : SessionConfig := {|
  sc_ValidatorIdOf := IdentityCollator;
  sc_ShouldEndSession := ShouldEndSession HOURS;
  sc_SessionManager := CollatorSelection_new_session collator_selection_config;
  sc_SessionHandler := KeyTypeIdProviders (Aura_on_new_session aura_config);
  sc_GenesisHandler := KeyTypeIdProviders_genesis (Aura_on_genesis_session aura_config)
|}.

(** [impl pallet_authorship::Config for Runtime]. *)
Definition authorship_config : AuthorshipConfig := {|
  as_FindAuthor := FindAccountFromAuthorIndex Aura_find_author;
  as_EventHandler := CollatorSelection_note_author
|}.

(** * Producing blocks *)

(** The producers of blocks, and, as a record, all keys an account ever registered. *)
Record Producers : Type := {
  pd_session : SessionStore;
  pd_aura : AuraStore;
  pd_collators : CollatorStore;
  pd_index : Z;
  pd_registered : list (AccountId * SessionKeys)
}.

(** What happens to them: a block that ends a session rotates it; the author of a block
    is noted; and the calls of the pallets change the collators, register keys and
    purge them. *)
Inductive produce (p : Producers) : Producers → Prop :=
| produce_rotate now :
    sc_ShouldEndSession session_config now = true →
    let r := rotate_session session_config (pd_index p) (pd_collators p) (pd_session p) (pd_aura p) in
    produce p {| pd_session := fst r; pd_aura := snd r; pd_collators := pd_collators p;
                 pd_index := pd_index p + 1; pd_registered := pd_registered p |}
| produce_author now digest who :
    as_FindAuthor authorship_config (pd_session p) (pd_aura p) digest = Some who →
    produce p {| pd_session := pd_session p; pd_aura := pd_aura p;
                 pd_collators := as_EventHandler authorship_config who now (pd_collators p);
                 pd_index := pd_index p; pd_registered := pd_registered p |}
| produce_other s c new :
    validators s = validators (pd_session p) → queued_keys s = queued_keys (pd_session p) →
    queued_changed s = queued_changed (pd_session p) →
    (∀ v k, load_keys s v = Some k → load_keys (pd_session p) v = Some k ∨ (v, k) ∈ new) →
    produce p {| pd_session := s; pd_aura := pd_aura p; pd_collators := c; pd_index := pd_index p;
                 pd_registered := pd_registered p ++ new |}.

(** The producers of a chain whose genesis configuration is [g], and what such a
    configuration must have: invulnerables that are not too many, each with a key. *)
Definition producers_at_genesis (g : GenesisPatch) : Producers :=
  let c := collator_genesis collator_selection_config (gp_invulnerables g) in
  let r := session_genesis session_config (gp_session_keys g) c in
  {| pd_session := fst r; pd_aura := snd r; pd_collators := c; pd_index := 0;
     pd_registered := (λ x, (x.1.2, x.2)) <$> gp_session_keys g |}.

Definition producing (g : GenesisPatch) : Prop :=
  gp_invulnerables g ≠ [] ∧ NoDup (gp_invulnerables g) ∧
  Z.of_nat (length (gp_invulnerables g)) ≤ MaxInvulnerables ∧
  NoDup ((gp_session_keys g).*1).*2 ∧
  ∀ v, v ∈ gp_invulnerables g → v ∈ ((gp_session_keys g).*1).*2.

(** The presets' configuration is one. *)
Lemma presets_producing : Alice ≠ Bob → producing local_testnet_genesis.
Proof.
  intros Hab. unfold producing; cbn. split_and!; [done| |done| |set_solver];
    repeat constructor; set_solver.
Qed.

(** * Who owns a slot *)

(** The validators and Aura's authorities are the two sides of one list of keys, unless
    it is empty: then Aura keeps its former authorities.  The queued keys too are no
    more than Aura takes, and all were registered. *)
Record in_step (p : Producers) (current : list (AccountId * SessionKeys)) : Prop := {
  step_validators : validators (pd_session p) = current.*1;
  step_authorities : current ≠ [] → authorities (pd_aura p) = aura <$> current.*2;
  step_unchanged : queued_changed (pd_session p) = false → queued_keys (pd_session p) = current;
  step_queued : Z.of_nat (length (queued_keys (pd_session p))) ≤ MaxAuthorities;
  step_registered : ∀ v k,
    (v, k) ∈ current ∨ (v, k) ∈ queued_keys (pd_session p) ∨ load_keys (pd_session p) v = Some k →
    (v, k) ∈ pd_registered p
}.

Lemma omap_length {A B} (f : A → option B) (l : list A) : (length (omap f l) ≤ length l)%nat.
Proof. induction l as [|x l IH]; cbn; [lia|]. destruct (f x); cbn; lia. Qed.

(** The handler of a session gives Aura the keys it is called with. *)
Lemma handled keys a :
  keys ≠ [] → Z.of_nat (length keys) ≤ MaxAuthorities →
  authorities (sc_SessionHandler session_config true keys a) = aura <$> keys.*2.
Proof.
  intros Hne Hlen. cbn. rewrite key_providers, aura_session, bool_decide_eq_false_2; cbn.
  - apply take_ge. rewrite !length_fmap. unfold MaxAuthorities in *. lia.
  - intros H. apply fmap_nil_inv, fmap_nil_inv in H. done.
Qed.

Lemma in_step_step p p' current :
  produce p p' → in_step p current → ∃ current', in_step p' current'.
Proof.
  intros [now _ r|now d who _|s c new Hv Hq Hc Hl] [Hval Haut Hun Hlen Hreg].
  - exists (queued_keys (pd_session p)).
    pose proof (rotated session_config (pd_index p) (pd_collators p) (pd_session p) (pd_aura p)) as (H1 & H2 & H3 & H4 & H5).
    destruct (names_collators collator_selection_config (pd_collators p) (pd_index p + 1)) as (vs & Hvs & Hmax);
      [done..|].
    cbn [sc_SessionManager session_config] in *. rewrite Hvs in *. fold r in H1, H2, H3, H4, H5. cbn in H3.
    split; cbn [pd_session pd_aura pd_registered]; try done.
    + intros Hne. rewrite H2. destruct (queued_changed (pd_session p)) eqn:Hch; [by apply handled|].
      rewrite Hun in * by done. cbn. rewrite key_providers, aura_session. by apply Haut.
    + rewrite H4 by done. done.
    + rewrite H3. pose proof (omap_length (λ v, pair v <$> load_keys (pd_session p) v) vs).
      unfold MaxAuthorities. cbn in Hmax. unfold MaxInvulnerables, MaxCandidates in Hmax. lia.
    + intros v k. rewrite H3, H5. intros [Hin|[Hin|Hin]]; [auto| |auto].
      apply list_elem_of_omap in Hin as (v' & _ & Hin). destruct (load_keys _ v') eqn:Hk; simplify_eq/=. auto.
  - exists current. by split.
  - exists current. split; cbn; rewrite ?Hv, ?Hq, ?Hc; try done.
    intros v k. rewrite elem_of_app. intros [H|[H|H]]; [auto..|]. destruct (Hl _ _ H); auto.
Qed.
Lemma in_step_genesis g : producing g → ∃ current, in_step (producers_at_genesis g) current.
Proof.
  intros (Hne & Hnd & Hlen & Hkeys & Hall).
  destruct (genesis_collators collator_selection_config _ Hnd Hlen) as (vs & Hperm & Hvs).
  destruct (genesis_session session_config (gp_session_keys g)
    (collator_genesis collator_selection_config (gp_invulnerables g)) vs) as (H1 & H2 & H3 & H4 & H5);
    [apply Hvs|apply Hvs|done|intros v; rewrite Hperm; apply Hall|].
  set (r := session_genesis _ _ _) in *.
  assert (length (queued_keys (fst r)) = length (gp_invulnerables g)) as Hq.
  { by rewrite <- (length_fmap fst), H2, Hperm. }
  exists (queued_keys (fst r)). split; unfold producers_at_genesis; cbn; fold r; try done.
  - by rewrite H1, H2.
  - intros _. rewrite H5. cbn. rewrite key_providers_genesis, aura_genesis; [done|].
    rewrite !length_fmap, Hq. cbn in *. unfold MaxAuthorities, MaxInvulnerables in *. lia.
  - rewrite Hq. unfold MaxAuthorities, MaxInvulnerables in *. lia.
  - intros v k Hv. destruct (H4 v k) as [acc Hacc]; [tauto|].
    apply list_elem_of_fmap. by exists (acc, v, k).
Qed.

Lemma in_step_reach g p : producing g → rtc produce (producers_at_genesis g) p → ∃ current, in_step p current.
Proof.
  intros Hg Hr. apply (rtc_preserves produce (λ p, ∃ current, in_step p current)) in Hr; [done| |].
  - intros x y [current Hx] Hxy. by eapply in_step_step.
  - by apply in_step_genesis.
Qed.

(** A session without validators credits no block, and the keys queued in it are the next one's. *)
Lemma no_validators p :
  in_step p [] →
  validators (pd_session p) = [] ∧
  (∀ digest, as_FindAuthor authorship_config (pd_session p) (pd_aura p) digest = None) ∧
  (let r := rotate_session session_config (pd_index p) (pd_collators p) (pd_session p) (pd_aura p) in
   queued_keys (pd_session p) ≠ [] → validators (fst r) ≠ [] ∧
   authorities (snd r) = aura <$> (queued_keys (pd_session p)).*2).
Proof.
  intros [Hval _ Hun Hlen _]. split_and!; [done| |].
  - intros digest. cbn. rewrite find_account, Hval. by destruct (Aura_find_author _ _).
  - pose proof (rotated session_config (pd_index p) (pd_collators p) (pd_session p) (pd_aura p)) as (H1 & H2 & _).
    intros r Hne. fold r in H1, H2. rewrite H1, H2. split; [by intros ?%fmap_nil_inv|].
    destruct (queued_changed (pd_session p)) eqn:Hch; [by apply handled|]. by rewrite Hun in Hne.
Qed.

(** C27: a block is credited to the account whose key owns its slot.  From a genesis
    whose invulnerables have keys, whatever sessions pass and however collators and
    keys change, one of two things holds.  Either the session has no validator (every
    collator named for it had purged its keys when they were queued): then Aura keeps
    its former authorities and no block is credited to anyone.  Or there are as many
    authorities as validators, at least one, and a block with a slot has an author,
    namely an account that registered the Aura key of the authority the slot belongs
    to, which the collator selection notes.  The first case ends with the next
    session for which keys are queued. *)
Theorem author_owns_slot g p :
  producing g → rtc produce (producers_at_genesis g) p →
  let n := Z.of_nat (length (authorities (pd_aura p))) in
  (validators (pd_session p) = [] ∧
     (∀ digest, as_FindAuthor authorship_config (pd_session p) (pd_aura p) digest = None) ∧
     (let r := rotate_session session_config (pd_index p) (pd_collators p) (pd_session p) (pd_aura p) in
      queued_keys (pd_session p) ≠ [] → validators (fst r) ≠ [] ∧
      authorities (snd r) = aura <$> (queued_keys (pd_session p)).*2)) ∨
  (0 < n ∧ length (validators (pd_session p)) = length (authorities (pd_aura p)) ∧
   ∀ digest slot now, slot_of digest = Some slot →
   ∃ who k, as_FindAuthor authorship_config (pd_session p) (pd_aura p) digest = Some who ∧
    authorities (pd_aura p) !! Z.to_nat (slot `mod` n) = Some (aura k) ∧ (who, k) ∈ pd_registered p ∧
    last_authored (as_EventHandler authorship_config who now (pd_collators p)) who = Some now).
Proof.
  intros Hg Hr n. destruct (in_step_reach g p Hg Hr) as (current & Hstep).
  destruct (decide (current = [])) as [->|Hne]; [left; by apply no_validators|right].
  destruct Hstep as [Hval Haut _ _ Hreg]. specialize (Haut Hne).
  assert (n = Z.of_nat (length current)) as Hn by (unfold n; by rewrite Haut, !length_fmap).
  assert (0 < n) as Hpos by (rewrite Hn; destruct current; [done|cbn; lia]).
  split_and!; [done|by rewrite Hval, Haut, !length_fmap|]. intros digest slot now Hslot.
  pose proof (Z.mod_pos_bound slot n Hpos) as Hi.
  destruct (lookup_lt_is_Some_2 current (Z.to_nat (slot `mod` n))) as [[who k] Hk]; [lia|].
  exists who, k. cbn. rewrite find_account, aura_author, Hslot. cbn. fold n.
  rewrite Hval, Haut, !list_lookup_fmap, Hk. split_and!; try done.
  - apply Hreg. left. by eapply list_elem_of_lookup_2.
  - by rewrite notes_author, decide_True.
Qed.
End Configuration.

(** * Witness *)

#[local] Existing Instances example_xcm_types xcm_system.

#[local] Instance sessions_sdk : Sdk := {|
  AuraId := Z; Alice := Byte.x01; Alice_public := 1; Bob := Byte.x02; Bob_public := 2;
  well_known := [Byte.x01; Byte.x02]; EXISTENTIAL_DEPOSIT := 1; XCM_VERSION := 5;
  PresetId := string; DEV_RUNTIME_PRESET := "development"; LOCAL_TESTNET_RUNTIME_PRESET := "local_testnet"
|}.

(** Sessions as they are described, accounts with at most one key each. *)
Record ExampleSessions : Type := {
  ex_validators : list AccountId;
  ex_queued : list (AccountId * SessionKeys);
  ex_changed : bool;
  ex_keys : AccountId → option SessionKeys
}.

#[local] Instance example_producing_data : ProducingData := {|
  SessionStore := ExampleSessions; AuraStore := list Z;
  CollatorStore := list AccountId * (AccountId → option Z); Digest := option Z
|}.

(** The key of a validator in the genesis configuration. *)
Fixpoint key_of (keys : list (AccountId * AccountId * SessionKeys)) (v : AccountId) : option SessionKeys :=
  match keys with
  | [] => None
  | x :: keys => if decide (x.1.2 = v) then Some x.2 else key_of keys v
  end.

Lemma key_of_some keys v k : key_of keys v = Some k → ∃ acc, (acc, v, k) ∈ keys.
Proof.
  induction keys as [|[[acc v'] k'] keys IH]; cbn; [done|]. case_decide; intros H'.
  - simplify_eq. exists acc. left.
  - destruct (IH H') as [acc' ?]. exists acc'. by right.
Qed.

Lemma key_of_elem keys v : v ∈ (keys.*1).*2 → is_Some (key_of keys v).
Proof.
  induction keys as [|[[acc v'] k'] keys IH]; cbn; [set_solver|]. case_decide; [by eexists|].
  intros [?|?]%elem_of_cons; [done|auto].
Qed.

Definition queue_keys (keys : AccountId → option SessionKeys) (vs : list AccountId) :
    list (AccountId * SessionKeys) :=
  omap (λ v, pair v <$> keys v) vs.

Lemma queue_all keys vs : (∀ v, v ∈ vs → is_Some (keys v)) → (queue_keys keys vs).*1 = vs.
Proof.
  induction vs as [|v vs IH]; [done|]. intros Hall. unfold queue_keys in *. cbn.
  destruct (Hall v) as [k ->]; [left|]. cbn. f_equal. apply IH. intros v' Hv. apply Hall. by right.
Qed.

Definition example_rotate (cfg : SessionConfig) (index : Z) (c : CollatorStore) (s : ExampleSessions)
    (a : list Z) : ExampleSessions * list Z :=
  let next := sc_SessionManager cfg c (index + 1) in
  ({| ex_validators := (ex_queued s).*1;
      ex_queued := queue_keys (ex_keys s) (default (ex_queued s).*1 next);
      ex_changed := bool_decide (is_Some next); ex_keys := ex_keys s |},
   sc_SessionHandler cfg (ex_changed s) (ex_queued s) a).

Definition example_genesis (cfg : SessionConfig) (keys : list (AccountId * AccountId * SessionKeys))
    (c : CollatorStore) : ExampleSessions * list Z :=
  let queued := queue_keys (key_of keys) (default [] (sc_SessionManager cfg c 1)) in
  ({| ex_validators := default [] (sc_SessionManager cfg c 0); ex_queued := queued;
      ex_changed := false; ex_keys := key_of keys |},
   sc_GenesisHandler cfg queued).

Definition example_collators (cfg : CollatorSelectionConfig) (c : list AccountId) : list AccountId :=
  take (Z.to_nat (Z.max 0 (cs_MaxInvulnerables cfg) + Z.max 0 (cs_MaxCandidates cfg))) c.

#[local] Instance example_producing : Producing.
Proof.
  refine {|
    IdentityCollator := Some;
    validators := ex_validators; queued_keys := ex_queued; queued_changed := ex_changed; load_keys := ex_keys;
    is_registered := λ s v, bool_decide (is_Some (ex_keys s v));
    rotate_session := example_rotate; session_genesis := example_genesis;
    KeyTypeIdProviders := λ f changed keys a, f changed (aura <$> keys.*2) a;
    KeyTypeIdProviders_genesis := λ f keys, f (aura <$> keys.*2);
    authorities := λ a : AuraStore, (a : list Z);
    Aura_on_new_session := λ cfg changed keys (a : AuraStore),
      if changed && negb (bool_decide (keys = [])) then take (Z.to_nat (au_MaxAuthorities cfg)) keys else a;
    Aura_on_genesis_session := λ cfg keys, take (Z.to_nat (au_MaxAuthorities cfg)) keys;
    slot_of := λ d : Digest, (d : option Z);
    Aura_find_author := λ (a : AuraStore) (d : Digest),
      (λ slot, slot `mod` Z.of_nat (length (a : list Z))) <$> (d : option Z);
    FindAccountFromAuthorIndex := λ f s a d, i ← f a d; ex_validators s !! Z.to_nat i;
    CollatorSelection_new_session := λ cfg c _, Some (example_collators cfg (fst c));
    CollatorSelection_note_author := λ who now c, (fst c, λ v, if decide (who = v) then Some now else snd c v);
    last_authored := λ c, snd c;
    collator_genesis := λ cfg vs, (vs, λ _, None)
  |}; try done.
  - intros cfg index c s a. unfold example_rotate; cbn. split_and!; try done. intros H. by apply bool_decide_eq_true_2.
  - intros cfg keys c vs. unfold example_genesis; cbn. intros -> -> _ Hall. cbn. split_and!; try done.
    + apply queue_all. intros v Hv. by apply key_of_elem, Hall.
    + intros v k [Hin|Hk]; [|by apply key_of_some].
      apply list_elem_of_omap in Hin as (v' & _ & Hin). destruct (key_of keys v') eqn:Hk; simplify_eq/=.
      by apply key_of_some.
  - intros cfg keys Hlen. apply take_ge. lia.
  - intros cfg c index H1 H2. eexists. split; [done|]. unfold example_collators. rewrite length_take. lia.
  - intros cfg vs Hnd Hlen. exists vs. split; [done|]. intros index. unfold example_collators.
    rewrite take_ge; [done|]. cbn [fst]. lia.
Defined.

#[local] Instance example_sessions : Sessions.
Proof.
  refine {| should_end_session := λ period offset now, (offset <=? now) && bool_decide ((now - offset) `mod` period = 0) |}.
  intros period offset now. by rewrite andb_true_iff, Z.leb_le, bool_decide_eq_true.
Defined.

(** The development chain, the rotation of its session, and what happens when all keys
    are purged. *)
Definition example_producers : Producers :=
  producers_at_genesis (XB := example_builder) (PR := example_producing) 600 12000 local_testnet_genesis.

Definition rotate (p : Producers) : Producers :=
  let r := example_rotate (session_config (XB := example_builder) (PR := example_producing) 600 12000)
    (pd_index p) (pd_collators p) (pd_session p) (pd_aura p) in
  {| pd_session := fst r; pd_aura := snd r; pd_collators := pd_collators p; pd_index := pd_index p + 1;
     pd_registered := pd_registered p |}.

Definition purge (p : Producers) : Producers :=
  {| pd_session := {| ex_validators := ex_validators (pd_session p); ex_queued := ex_queued (pd_session p);
                      ex_changed := ex_changed (pd_session p); ex_keys := λ _, None |};
     pd_aura := pd_aura p; pd_collators := pd_collators p; pd_index := pd_index p;
     pd_registered := pd_registered p ++ [] |}.

Abbreviation example_produce := (produce (XB := example_builder) (PR := example_producing) 600 12000).

Lemma rotate_produce p : example_produce p (rotate p).
Proof. by apply (produce_rotate (XB := example_builder) (PR := example_producing) 600 12000 p 0). Qed.

Lemma purge_produce p : example_produce p (purge p).
Proof. by apply (produce_other (XB := example_builder) (PR := example_producing) 600 12000 p). Qed.

Definition after_session : Producers := rotate example_producers.
Definition after_purge : Producers := rotate (rotate (purge after_session)).

(** After a session slot 7 is Bob's; two sessions after the purge it is nobody's. *)
Lemma author_owns_slot_witness :
  (∃ k, as_FindAuthor (authorship_config (PR := example_producing)) (pd_session after_session)
      (pd_aura after_session) (Some 7) = Some (Byte.x02 : AccountId) ∧
    (Byte.x02 : AccountId, k) ∈ pd_registered after_session ∧ aura k = 2) ∧
  (pd_aura after_purge = [1; 2] ∧
   as_FindAuthor (authorship_config (PR := example_producing)) (pd_session after_purge)
     (pd_aura after_purge) (Some 7) = None).
Proof.
  assert (producing local_testnet_genesis) as Hg by by apply presets_producing.
  assert (rtc example_produce example_producers after_session) as Hs by apply rtc_once, rotate_produce.
  split.
  - destruct (author_owns_slot (XB := example_builder) (PR := example_producing) 600 12000 local_testnet_genesis
      after_session Hg Hs) as [[H _]|(_ & _ & H)]; [vm_compute in H; discriminate H|].
    destruct (H (Some 7) 7 0) as (who & k & Hwho & Hk & Hreg & _); [reflexivity|].
    vm_compute in Hwho. injection Hwho as <-. exists k. split; [reflexivity|]. split; [exact Hreg|].
    vm_compute in Hk. injection Hk as Hk. exact (eq_sym Hk).
  - split; [vm_compute; reflexivity|].
    destruct (author_owns_slot (XB := example_builder) (PR := example_producing) 600 12000 local_testnet_genesis
      after_purge Hg) as [(_ & H & _)|(_ & H & _)]; [|apply H|vm_compute in H; discriminate H].
    eapply rtc_r; [|apply rotate_produce]. eapply rtc_r; [|apply rotate_produce].
    eapply rtc_r; [exact Hs|apply purge_produce].
Defined.
