(* ===== verification/Apis.v ===== *)
(** The runtime's API, which a node calls (src/runtime/src/apis.rs), and the pallets it
    can benchmark (src/runtime/src/benchmarks.rs).

    A request [Api A] is a call of a method of one of the traits, answered with an
    [A]; [runtime_api] is the program that answers it, over the calls [ApiCall] of the
    SDK's modules.  A call of the SDK answers or panics, as [Executive::execute_block]
    does on a block that is not valid; a request that panics ends as [Panicked]. *)

From S2P Require Export Configs Program.
#[local] Open Scope Z_scope.

(** * The SDK's modules *)

(** The types of the API, and the two helpers of the SDK for genesis presets. *)
Class ApiData `{Sdk} := {
  Block : Type;
  BlockHeader : Type;
  Extrinsic : Type;
  Hash : Type;
  Slot : Type;
  RuntimeVersion : Type;
  ExtrinsicInclusionMode : Type;
  Metadata : Type;
  ViewFunctionId : Type;
  ViewFunctionDispatchError : Type;
  ApplyExtrinsicResult : Type;
  InherentData : Type;
  CheckInherentsResult : Type;
  TransactionSource : Type;
  TransactionValidity : Type;
  KeyTypeId : Type;
  PaidCall : Type;
  RuntimeDispatchInfo : Type;
  FeeDetails : Type;
  CollationInfo : Type;
  UpgradeCheckSelect : Type;
  TryStateSelect : Type;
  TryRuntimeError : Type;
  BenchmarkList : Type;
  StorageInfo : Type;
  BenchmarkConfig : Type;
  TrackedStorageKey : Type;
  BenchmarkBatch : Type;

  VERSION : RuntimeVersion;
  (** [Debug] for the errors of try-runtime, and what [build_or_panic] panics with. *)
  debug_try_error : TryRuntimeError → string;
  build_panic : string;
  (** The default genesis configuration as JSON, and [genesis_builder_helper]'s
      [get_preset]: the default for no name, a preset for a name. *)
  default_genesis : list Byte.byte;
  helper_get_preset : option PresetId → (PresetId → option (list Byte.byte)) → option (list Byte.byte);
  helper_default : ∀ f, helper_get_preset None f = Some default_genesis;
  helper_named : ∀ id f, helper_get_preset (Some id) f = f id
}.

Abbreviation bytes := (list Byte.byte).

Section Apis.
  Context {Sys : System} {SDK : Sdk} {AD : ApiData} {BL : BlockLimits}.

(** The calls of the SDK's modules. *)
Inductive ApiCall : Type → Type :=
| Authorities_get : ApiCall (list AuraId)
| ConsensusHook_can_build_upon (included_hash : Hash) (slot : Slot) : ApiCall bool
| Executive_execute_block (block : Block) : ApiCall unit
| Executive_initialize_block (header : BlockHeader) : ApiCall ExtrinsicInclusionMode
| Executive_apply_extrinsic (extrinsic : Extrinsic) : ApiCall ApplyExtrinsicResult
| Executive_finalize_block : ApiCall BlockHeader
| Executive_validate_transaction (source : TransactionSource) (tx : Extrinsic) (block_hash : Hash) :
    ApiCall TransactionValidity
| Executive_offchain_worker (header : BlockHeader) : ApiCall unit
| Executive_try_runtime_upgrade (checks : UpgradeCheckSelect) : ApiCall (result Weight TryRuntimeError)
| Executive_try_execute_block (block : Block) (state_root_check signature_check : bool)
    (select : TryStateSelect) : ApiCall (result Weight TryRuntimeError)
| Runtime_metadata : ApiCall Metadata
| Runtime_metadata_at_version (version : Z) : ApiCall (option Metadata)
| Runtime_metadata_versions : ApiCall (list Z)
| Runtime_execute_view_function (id : ViewFunctionId) (input : bytes) :
    ApiCall (result bytes ViewFunctionDispatchError)
| create_extrinsics (data : InherentData) : ApiCall (list Extrinsic)
| check_extrinsics (data : InherentData) (block : Block) : ApiCall CheckInherentsResult
| SessionKeys_generate (seed : option bytes) : ApiCall bytes
| SessionKeys_decode_into_raw_public_keys (encoded : bytes) : ApiCall (option (list (bytes * KeyTypeId)))
| System_account_nonce (account : AccountId) : ApiCall Z
| TransactionPayment_query_info (uxt : Extrinsic) (len : Z) : ApiCall RuntimeDispatchInfo
| TransactionPayment_query_fee_details (uxt : Extrinsic) (len : Z) : ApiCall FeeDetails
| TransactionPayment_query_call_info (call : PaidCall) (len : Z) : ApiCall RuntimeDispatchInfo
| TransactionPayment_query_call_fee_details (call : PaidCall) (len : Z) : ApiCall FeeDetails
| TransactionPayment_weight_to_fee (weight : Weight) : ApiCall Z
| TransactionPayment_length_to_fee (length : Z) : ApiCall Z
| ParachainSystem_collect_collation_info (header : BlockHeader) : ApiCall CollationInfo
| AllPalletsWithSystem_storage_info : ApiCall (list StorageInfo)
| AllPalletsWithSystem_whitelisted_storage_keys : ApiCall (list TrackedStorageKey)
| list_benchmarks (pallets : list (string * string)) (extra : bool) : ApiCall (list BenchmarkList)
| add_benchmarks (pallets : list (string * string)) (config : BenchmarkConfig)
    (whitelist : list TrackedStorageKey) : ApiCall (result (list BenchmarkBatch) string)
| helper_build_state (config : bytes) : ApiCall (result unit string).

(** A call as the runtime makes it: it is answered, or it panics with a message. *)
Inductive SdkCall : Type → Type :=
| sdk {X} (c : ApiCall X) : SdkCall (result X string).

(** * Requests *)

Inductive Api : Type → Type :=
(* sp_consensus_aura::AuraApi *)
| slot_duration : Api Z
| authorities : Api (list AuraId)
(* cumulus_primitives_aura::AuraUnincludedSegmentApi *)
| can_build_upon (included_hash : Hash) (slot : Slot) : Api bool
(* sp_api::Core *)
| version : Api RuntimeVersion
| execute_block (block : Block) : Api unit
| initialize_block (header : BlockHeader) : Api ExtrinsicInclusionMode
(* sp_api::Metadata *)
| metadata : Api Metadata
| metadata_at_version (v : Z) : Api (option Metadata)
| metadata_versions : Api (list Z)
(* frame_support::view_functions::runtime_api::RuntimeViewFunction *)
| execute_view_function (id : ViewFunctionId) (input : bytes) : Api (result bytes ViewFunctionDispatchError)
(* sp_block_builder::BlockBuilder *)
| apply_extrinsic (extrinsic : Extrinsic) : Api ApplyExtrinsicResult
| finalize_block : Api BlockHeader
| inherent_extrinsics (data : InherentData) : Api (list Extrinsic)
| check_inherents (block : Block) (data : InherentData) : Api CheckInherentsResult
(* sp_transaction_pool::runtime_api::TaggedTransactionQueue *)
| validate_transaction (source : TransactionSource) (tx : Extrinsic) (block_hash : Hash) : Api TransactionValidity
(* sp_offchain::OffchainWorkerApi *)
| offchain_worker (header : BlockHeader) : Api unit
(* sp_session::SessionKeys *)
| generate_session_keys (seed : option bytes) : Api bytes
| decode_session_keys (encoded : bytes) : Api (option (list (bytes * KeyTypeId)))
(* frame_system_rpc_runtime_api::AccountNonceApi *)
| account_nonce (account : AccountId) : Api Z
(* pallet_transaction_payment_rpc_runtime_api::TransactionPaymentApi *)
| query_info (uxt : Extrinsic) (len : Z) : Api RuntimeDispatchInfo
| query_fee_details (uxt : Extrinsic) (len : Z) : Api FeeDetails
| query_weight_to_fee (weight : Weight) : Api Z
| query_length_to_fee (length : Z) : Api Z
(* pallet_transaction_payment_rpc_runtime_api::TransactionPaymentCallApi *)
| query_call_info (call : PaidCall) (len : Z) : Api RuntimeDispatchInfo
| query_call_fee_details (call : PaidCall) (len : Z) : Api FeeDetails
| call_query_weight_to_fee (weight : Weight) : Api Z
| call_query_length_to_fee (length : Z) : Api Z
(* cumulus_primitives_core::CollectCollationInfo *)
| collect_collation_info (header : BlockHeader) : Api CollationInfo
(* frame_try_runtime::TryRuntime *)
| try_on_runtime_upgrade (checks : UpgradeCheckSelect) : Api (Weight * Weight)
| try_execute_block (block : Block) (state_root_check signature_check : bool) (select : TryStateSelect) : Api Weight
(* frame_benchmarking::Benchmark *)
| benchmark_metadata (extra : bool) : Api (list BenchmarkList * list StorageInfo)
| dispatch_benchmark (config : BenchmarkConfig) : Api (result (list BenchmarkBatch) string)
(* sp_genesis_builder::GenesisBuilder *)
| build_state (config : bytes) : Api (result unit string)
| genesis_get_preset (id : option PresetId) : Api (option bytes)
| genesis_preset_names : Api (list PresetId).

(** * The implementation *)

(** [define_benchmarks!]: the pallets with their benchmarks. *)
Definition benchmarks : list (string * string) :=
  [ ("frame_system", "SystemBench::<Runtime>");
    ("pallet_balances", "Balances");
    ("pallet_session", "SessionBench::<Runtime>");
    ("pallet_timestamp", "Timestamp");
    ("pallet_message_queue", "MessageQueue");
    ("pallet_sudo", "Sudo");
    ("pallet_collator_selection", "CollatorSelection");
    ("cumulus_pallet_parachain_system", "ParachainSystem");
    ("cumulus_pallet_xcmp_queue", "XcmpQueue");
    ("cumulus_pallet_weight_reclaim", "WeightReclaim") ]%string.

(** The presets as JSON, and the configuration of blocks. *)
Variable to_json : GenesisPatch → bytes.
Variable SLOT_DURATION : Z.
Variable WEIGHT_REF_TIME_PER_NANOS : Z.
Variable MAXIMUM_BLOCK_WEIGHT : Weight.
Variables NORMAL_DISPATCH_RATIO AVERAGE_ON_INITIALIZE_RATIO : Perbill.

(** No method returns early: a program of the API has no errors of its own. *)
#[local] Abbreviation answer := (prog SdkCall Empty_set).

(** A call of the SDK, whose panic is the caller's. *)
Definition delegate {X} (c : ApiCall X) : answer X :=
  r ← call (sdk c);
  match r with Ok x => Return x | Err msg => Panic msg end.

(** [r.unwrap()] of a result. *)
Definition unwrap_message (e : TryRuntimeError) : string :=
  "called `Result::unwrap()` on an `Err` value: " ++ debug_try_error e.
Definition unwrap {A} (r : result A TryRuntimeError) : answer A :=
  match r with Ok a => Return a | Err e => Panic (unwrap_message e) end.

Definition impl_slot_duration : Z := SLOT_DURATION.

Definition impl_can_build_upon (included_hash : Hash) (slot : Slot) : answer bool :=
  delegate (ConsensusHook_can_build_upon included_hash slot).

(** [TryRuntime::on_runtime_upgrade] and [execute_block]. *)
Definition on_runtime_upgrade (checks : UpgradeCheckSelect) : answer (Weight * Weight) :=
  r ← delegate (Executive_try_runtime_upgrade checks);
  weight ← unwrap r;
  w ← expect (RuntimeBlockWeights WEIGHT_REF_TIME_PER_NANOS MAXIMUM_BLOCK_WEIGHT
                NORMAL_DISPATCH_RATIO AVERAGE_ON_INITIALIZE_RATIO) build_panic;
  mret (weight, max_block w).

Definition try_runtime_execute_block (block : Block) (state_root_check signature_check : bool)
    (select : TryStateSelect) : answer Weight :=
  r ← delegate (Executive_try_execute_block block state_root_check signature_check select);
  unwrap r.

Definition impl_benchmark_metadata (extra : bool) : answer (list BenchmarkList * list StorageInfo) :=
  list ← delegate (list_benchmarks benchmarks extra);
  storage_info ← delegate AllPalletsWithSystem_storage_info;
  mret (list, storage_info).

Definition impl_dispatch_benchmark (config : BenchmarkConfig) : answer (result (list BenchmarkBatch) string) :=
  whitelist ← delegate AllPalletsWithSystem_whitelisted_storage_keys;
  r ← delegate (add_benchmarks benchmarks config whitelist);
  match r with
  | Err e => mret (Err e)
  | Ok batches =>
    if decide (batches = []) then mret (Err "Benchmark not found for this pallet."%string)
    else mret (Ok batches)
  end.

Definition impl_collect_collation_info (header : BlockHeader) : answer CollationInfo :=
  delegate (ParachainSystem_collect_collation_info header).

(** [GenesisBuilder]. *)
Definition impl_build_state (config : bytes) : answer (result unit string) := delegate (helper_build_state config).
Definition impl_get_preset (id : option PresetId) : option bytes := helper_get_preset id (get_preset to_json).
Definition impl_preset_names : list PresetId := preset_names.

(** [impl_runtime_apis!]. *)
Definition runtime_api {A} (request : Api A) : answer A :=
  match request in Api A return answer A with
  | slot_duration => mret impl_slot_duration
  | authorities => delegate Authorities_get
  | can_build_upon included_hash slot => impl_can_build_upon included_hash slot
  | version => mret VERSION
  | execute_block block => delegate (Executive_execute_block block)
  | initialize_block header => delegate (Executive_initialize_block header)
  | metadata => delegate Runtime_metadata
  | metadata_at_version v => delegate (Runtime_metadata_at_version v)
  | metadata_versions => delegate Runtime_metadata_versions
  | execute_view_function id input => delegate (Runtime_execute_view_function id input)
  | apply_extrinsic extrinsic => delegate (Executive_apply_extrinsic extrinsic)
  | finalize_block => delegate Executive_finalize_block
  | inherent_extrinsics data => delegate (create_extrinsics data)
  | check_inherents block data => delegate (check_extrinsics data block)
  | validate_transaction source tx block_hash => delegate (Executive_validate_transaction source tx block_hash)
  | offchain_worker header => delegate (Executive_offchain_worker header)
  | generate_session_keys seed => delegate (SessionKeys_generate seed)
  | decode_session_keys encoded => delegate (SessionKeys_decode_into_raw_public_keys encoded)
  | account_nonce account => delegate (System_account_nonce account)
  | query_info uxt len => delegate (TransactionPayment_query_info uxt len)
  | query_fee_details uxt len => delegate (TransactionPayment_query_fee_details uxt len)
  | query_weight_to_fee weight => delegate (TransactionPayment_weight_to_fee weight)
  | query_length_to_fee length => delegate (TransactionPayment_length_to_fee length)
  | query_call_info c len => delegate (TransactionPayment_query_call_info c len)
  | query_call_fee_details c len => delegate (TransactionPayment_query_call_fee_details c len)
  | call_query_weight_to_fee weight => delegate (TransactionPayment_weight_to_fee weight)
  | call_query_length_to_fee length => delegate (TransactionPayment_length_to_fee length)
  | collect_collation_info header => impl_collect_collation_info header
  | try_on_runtime_upgrade checks => on_runtime_upgrade checks
  | try_execute_block block state_root_check signature_check select =>
      try_runtime_execute_block block state_root_check signature_check select
  | benchmark_metadata extra => impl_benchmark_metadata extra
  | dispatch_benchmark config => impl_dispatch_benchmark config
  | build_state config => impl_build_state config
  | genesis_get_preset id => mret (impl_get_preset id)
  | genesis_preset_names => mret impl_preset_names
  end.

(** * What a client can rely on *)

(** The message a call of the SDK panics with, and the error a call of try-runtime is
    answered with. *)
Definition ev_panic (ev : event SdkCall) : option string :=
  match ev_call ev in SdkCall X return X → option string with
  | sdk c => λ r, match r with Ok _ => None | Err msg => Some msg end
  end (ev_answer ev).

Definition try_failure {X} (c : ApiCall X) : X → option TryRuntimeError :=
  match c in ApiCall X return X → option TryRuntimeError with
  | Executive_try_runtime_upgrade _ => λ r, match r with Ok _ => None | Err e => Some e end
  | Executive_try_execute_block _ _ _ _ => λ r, match r with Ok _ => None | Err e => Some e end
  | _ => λ _, None
  end.
Definition ev_try_failure (ev : event SdkCall) : option TryRuntimeError :=
  match ev_call ev in SdkCall X return X → option TryRuntimeError with
  | sdk c => λ r, match r with Ok x => try_failure c x | Err _ => None end
  end (ev_answer ev).

(** Nothing went wrong. *)
Definition fine (ev : event SdkCall) : Prop := ev_panic ev = None ∧ ev_try_failure ev = None.

(** The limits of a block, as a simulated upgrade reads them. *)
#[local] Abbreviation block_weights := (RuntimeBlockWeights WEIGHT_REF_TIME_PER_NANOS MAXIMUM_BLOCK_WEIGHT
  NORMAL_DISPATCH_RATIO AVERAGE_ON_INITIALIZE_RATIO).

(** Why a request panics after the call [ev]: because the SDK does, because the outcome
    of try-runtime is an error, or because after a simulated upgrade the limits of a block
    cannot be built. *)
Definition panics_for (ev : event SdkCall) (msg : string) : Prop :=
  ev_panic ev = Some msg ∨
  (∃ e, ev_try_failure ev = Some e ∧ msg = unwrap_message e) ∨
  (∃ checks weight, ev = Event (sdk (Executive_try_runtime_upgrade checks)) (Ok (Ok weight)) ∧
     block_weights = None ∧ msg = build_panic).

(** A run of at most two calls that ends well, or with its last call. *)
Definition accounted_for {A} (r : list (event SdkCall) * outcome Empty_set A) : Prop :=
  (length r.1 ≤ 2)%nat ∧
  match r.2 with
  | Returned _ => Forall fine r.1
  | Panicked msg => ∃ before ev, r.1 = before ++ [ev] ∧ Forall fine before ∧ panics_for ev msg
  | Threw _ => False
  end.

Lemma accounted_returned {A} tr (a : A) : (length tr ≤ 2)%nat → Forall fine tr → accounted_for (tr, Returned a).
Proof. by split. Qed.

Lemma accounted_panicked {A} before ev msg :
  (length before ≤ 1)%nat → Forall fine before → panics_for ev msg →
  accounted_for (A := A) (before ++ [ev], Panicked msg).
Proof. intros Hl Hf Hp. split; [cbn; rewrite length_app; cbn; lia|]. by exists before, ev. Qed.

(** A request that is one call of the SDK. *)
Lemma accounted_delegate (w : World SdkCall) past {X} (c : ApiCall X) :
  (∀ x, try_failure c x = None) → accounted_for (run w past (delegate c)).
Proof.
  intros Hc. cbn. destruct (w past _ (sdk c)) as [x|msg] eqn:Hw; cbn.
  - apply accounted_returned; [cbn; lia|]. repeat constructor. cbn. apply Hc.
  - apply (accounted_panicked []); [cbn; lia|constructor|by left].
Qed.

(** A call of try-runtime, whose error makes the request panic. *)
Lemma accounted_unwrapped (w : World SdkCall) past {X Y} (c : ApiCall (result X TryRuntimeError))
    (k : result X TryRuntimeError → answer Y) :
  (∀ r, try_failure c r = match r with Ok _ => None | Err e => Some e end) →
  (∀ e, k (Err e) = Panic (unwrap_message e)) →
  (∀ x, k (Ok x) = Panic build_panic ∧ panics_for (Event (sdk c) (Ok (Ok x))) build_panic ∨
        ∃ y, k (Ok x) = Return y) →
  accounted_for (run w past (r ← delegate c; k r)).
Proof.
  intros Hc He Hk. cbn. destruct (w past _ (sdk c)) as [[x|e]|msg]; cbn.
  - destruct (Hk x) as [[-> Hp]|[y ->]]; cbn.
    + by apply (accounted_panicked []); [cbn; lia|constructor|].
    + apply accounted_returned; [cbn; lia|]. repeat constructor. cbn. by rewrite Hc.
  - rewrite He. apply (accounted_panicked []); [cbn; lia|constructor|]. right; left. exists e. cbn. by rewrite Hc.
  - apply (accounted_panicked []); [cbn; lia|constructor|by left].
Qed.

(** Two calls of the SDK and an answer. *)
Lemma accounted_two (w : World SdkCall) past {X Y Z} (c : ApiCall X) (d : X → ApiCall Y) (k : X → Y → answer Z) :
  (∀ x, try_failure c x = None) → (∀ x y, try_failure (d x) y = None) →
  (∀ x y, ∃ z, k x y = Return z) →
  accounted_for (run w past (x ← delegate c; y ← delegate (d x); k x y)).
Proof.
  intros Hc Hd Hk. cbn. destruct (w past _ (sdk c)) as [x|msg]; cbn.
  - destruct (w (past ++ _) _ (sdk (d x))) as [y|msg]; cbn.
    + destruct (Hk x y) as [z ->]. apply accounted_returned; [cbn; lia|]. repeat constructor; cbn; auto.
    + apply (accounted_panicked [_]); [cbn; lia|repeat constructor; cbn; auto|by left].
  - apply (accounted_panicked []); [cbn; lia|constructor|by left].
Qed.


(** The presets on offer.  Unnamed, the genesis builder answers with the default
    configuration; for a name with a configuration exactly if the name is among the
    preset names, and with the same one for all of them: every well-known account holds 2^60, the
    invulnerable collators are Alice and Bob, at most as many as the runtime takes,
    each with the session key that is its own, and Alice is sudo.  No state is read. *)
Theorem genesis_presets (w : World SdkCall) (past : list (event SdkCall)) :
  ∃ names,
    run w past (runtime_api genesis_preset_names) = ([], Returned names) ∧
    run w past (runtime_api (genesis_get_preset None)) = ([], Returned (Some default_genesis)) ∧
    (∀ id, run w past (runtime_api (genesis_get_preset (Some id))) =
       ([], Returned (if decide (id ∈ names) then Some (to_json local_testnet_genesis) else None))) ∧
    gp_balances local_testnet_genesis = (λ k, (k, 2 ^ 60)) <$> well_known ∧
    Z.of_nat (length (gp_invulnerables local_testnet_genesis)) ≤ MaxInvulnerables ∧
    (λ k, k.1.1) <$> gp_session_keys local_testnet_genesis = gp_invulnerables local_testnet_genesis ∧
    Forall (λ k, k.1.1 = k.1.2) (gp_session_keys local_testnet_genesis) ∧
    gp_sudo_key local_testnet_genesis = head (gp_invulnerables local_testnet_genesis).
Proof.
  exists preset_names. cbn. unfold impl_get_preset. rewrite helper_default. split_and!; try done; [|repeat constructor].
  intros id. rewrite helper_named. by rewrite get_preset_named.
Qed.
End Apis.

(** * Witness *)

#[local] Existing Instance concrete_system.

(** An SDK where everything is a number. *)
#[local] Instance example_sdk : Sdk := {|
  AuraId := Z; Alice := user 1; Alice_public := 1; Bob := user 2; Bob_public := 2;
  well_known := [user 1; user 2]; EXISTENTIAL_DEPOSIT := 1; XCM_VERSION := 5;
  PresetId := string; DEV_RUNTIME_PRESET := "development"; LOCAL_TESTNET_RUNTIME_PRESET := "local_testnet"
|}.

#[local] Instance example_api : ApiData.
Proof.
  refine {|
    Block := Z; BlockHeader := Z; Extrinsic := Z; Hash := Z; Slot := Z; RuntimeVersion := Z;
    ExtrinsicInclusionMode := Z; Metadata := Z; ViewFunctionId := Z; ViewFunctionDispatchError := Z;
    ApplyExtrinsicResult := Z; InherentData := Z; CheckInherentsResult := Z; TransactionSource := Z;
    TransactionValidity := Z; KeyTypeId := Z; PaidCall := Z; RuntimeDispatchInfo := Z; FeeDetails := Z;
    CollationInfo := Z; UpgradeCheckSelect := Z; TryStateSelect := Z; TryRuntimeError := string;
    BenchmarkList := Z; StorageInfo := Z; BenchmarkConfig := string; TrackedStorageKey := Z;
    BenchmarkBatch := string; VERSION := 1; debug_try_error e := e; build_panic := ""; default_genesis := [];
    helper_get_preset name f := match name with Some id => f id | None => Some [] end
  |}; done.
Defined.

(** Modules that answer 0, that fail to upgrade, and that benchmark the pallet asked for if it is
    listed; blocks other than block 0 are not valid. *)
Definition example_answers {X} (c : ApiCall X) : X :=
  match c in ApiCall X return X with
  | Authorities_get => [] | ConsensusHook_can_build_upon _ _ => true
  | Executive_execute_block _ | Executive_offchain_worker _ => tt
  | Executive_initialize_block _ | Executive_apply_extrinsic _ | Executive_finalize_block
  | Executive_validate_transaction _ _ _ | Runtime_metadata => 0
  | Executive_try_runtime_upgrade _ => Err "migration failed"%string
  | Executive_try_execute_block _ _ _ _ => Ok zero_weight
  | Runtime_metadata_at_version _ => None | Runtime_metadata_versions => []
  | Runtime_execute_view_function _ input => Ok input
  | create_extrinsics _ => [] | check_extrinsics _ _ => 0
  | SessionKeys_generate _ => [] | SessionKeys_decode_into_raw_public_keys _ => None
  | System_account_nonce _ => 0
  | TransactionPayment_query_info _ _ | TransactionPayment_query_fee_details _ _
  | TransactionPayment_query_call_info _ _ | TransactionPayment_query_call_fee_details _ _
  | TransactionPayment_weight_to_fee _ | TransactionPayment_length_to_fee _
  | ParachainSystem_collect_collation_info _ => 0
  | AllPalletsWithSystem_storage_info => [] | AllPalletsWithSystem_whitelisted_storage_keys => []
  | list_benchmarks _ _ => []
  | add_benchmarks pallets config _ => Ok (if decide (config ∈ pallets.*1) then [config] else [])
  | helper_build_state _ => Ok tt
  end.
Definition example_valid {X} (c : ApiCall X) : bool :=
  match c with Executive_execute_block block => bool_decide ((block : Z) = 0) | _ => true end.
Definition example_modules : World SdkCall := λ _ X c,
  match c in SdkCall X return X with
  | sdk c => if example_valid c then Ok (example_answers c) else Err "invalid block"%string
  end.

