(* ===== verification/Service.v ===== *)
(** The node's service (src/node/src/service.rs) and its RPC extensions
    (src/node/src/rpc.rs).

    Everything the service builds on is SDK code.  The class [ServiceSdk] lists
    its types and the accessors and builders without effect the source calls;
    what has an effect or can fail is a call of the family [ServiceCall].  A
    closure handed to the SDK is the record of the variables it captures, with
    a definition that says what calling it does.  [Arc]s and clones are the
    value itself. *)

From S2P Require Export Program.
#[local] Open Scope Z_scope.

Class ServiceSdk := {
  (** sc_service's configuration, as far as it is read. *)
  Configuration : Type;
  TelemetryEndpoints : Type;
  endpoints_is_empty : TelemetryEndpoints → bool;
  cfg_telemetry_endpoints : Configuration → option TelemetryEndpoints;
  WasmExecutionMethod : Type;
  cfg_wasm_method : Configuration → WasmExecutionMethod;
  cfg_default_heap_pages : Configuration → option Z;
  cfg_max_runtime_instances : Configuration → Z;
  cfg_runtime_cache_size : Configuration → Z;
  Role : Type;
  is_authority : Role → bool;
  cfg_role : Configuration → Role;
  TransactionPoolOptions : Type;
  cfg_transaction_pool : Configuration → TransactionPoolOptions;
  Registry : Type;
  prometheus_registry : Configuration → option Registry;
  NetworkConfiguration : Type;
  cfg_network : Configuration → NetworkConfiguration;
  cfg_offchain_worker_enabled : Configuration → bool;
  prepare_node_config : Configuration → Configuration;

  (** Errors: sc_service's, and those [?] and [map_err] convert to it. *)
  ServiceError : Type;
  TelemetryError : Type;
  IoError : Type;
  RelayChainError : Type;
  from_telemetry_error : TelemetryError → ServiceError;
  from_io_error : IoError → ServiceError;
  Application : RelayChainError → ServiceError;

  (** Telemetry. *)
  TelemetryWorker : Type;
  TelemetryWorkerHandle : Type;
  Telemetry : Type;
  TelemetryHandle : Type;
  worker_handle : TelemetryWorker → TelemetryWorkerHandle;
  telemetry_handle : Telemetry → TelemetryHandle;

  (** Tasks. *)
  Future : Type;
  TaskManager : Type;
  SpawnTaskHandle : Type;
  SpawnEssentialTaskHandle : Type;
  spawn_handle : TaskManager → SpawnTaskHandle;
  spawn_essential_handle : TaskManager → SpawnEssentialTaskHandle;
  worker_run : TelemetryWorker → Future;

  (** The executor and its builder. *)
  HeapAllocStrategy : Type;
  DEFAULT_HEAP_ALLOC_STRATEGY : HeapAllocStrategy;
  HeapAllocStrategy_Static : Z → HeapAllocStrategy;
  ExecutorBuilder : Type;
  ParachainExecutor : Type;
  executor_builder : ExecutorBuilder;
  with_execution_method : ExecutorBuilder → WasmExecutionMethod → ExecutorBuilder;
  with_onchain_heap_alloc_strategy : ExecutorBuilder → HeapAllocStrategy → ExecutorBuilder;
  with_offchain_heap_alloc_strategy : ExecutorBuilder → HeapAllocStrategy → ExecutorBuilder;
  with_max_runtime_instances : ExecutorBuilder → Z → ExecutorBuilder;
  with_runtime_cache_size : ExecutorBuilder → Z → ExecutorBuilder;
  executor_build : ExecutorBuilder → ParachainExecutor;

  (** The client, its backend and keystore. *)
  ParachainClient : Type;
  ParachainBackend : Type;
  KeystoreContainer : Type;
  Keystore : Type;
  keystore : KeystoreContainer → Keystore;
  OffchainStorage : Type;
  offchain_storage : ParachainBackend → option OffchainStorage;
  Hash : Type;
  BlockchainError : Type;
  ValidationCode : Type;
  ValidationCodeHash : Type;
  code_hash : ValidationCode → ValidationCodeHash;

  (** The transaction pool and its builder. *)
  TransactionPoolBuilder : Type;
  TransactionPool : Type;
  pool_builder : SpawnEssentialTaskHandle → ParachainClient → bool → TransactionPoolBuilder;
  with_options : TransactionPoolBuilder → TransactionPoolOptions → TransactionPoolBuilder;
  with_prometheus : TransactionPoolBuilder → option Registry → TransactionPoolBuilder;
  OffchainTransactionPoolFactory : Type;
  offchain_pool_factory : TransactionPool → OffchainTransactionPoolFactory;

  (** Block import. *)
  ParachainBlockImport : Type;
  block_import_new : ParachainClient → ParachainBackend → ParachainBlockImport;
  ImportQueue : Type;
  ImportQueueService : Type;
  import_queue_service : ImportQueue → ImportQueueService;
  InherentData : Type;

  (** Networking and the relay chain. *)
  FullNetworkConfiguration : Type;
  network_configuration_new : NetworkConfiguration → option Registry → FullNetworkConfiguration;
  Network : Type;
  SystemRpcTx : Type;
  TxHandlerController : Type;
  SyncingService : Type;
  RelayChainInterface : Type;
  CollatorPair : Type;
  CollatorOptions : Type;
  ParaId : Type;
  OverseerHandle : Type;
  AnnounceData : Type;

  (** Hardware benchmarks. *)
  HwBench : Type;
  HardwareError : Type;
  check_hardware : HwBench → bool → result unit HardwareError;
  initialize_hwbench_telemetry : TelemetryHandle → HwBench → Future;

  (** Off-chain workers. *)
  OffchainWorkers : Type;
  offchain_workers_run : OffchainWorkers → ParachainClient → SpawnTaskHandle → Future;

  (** Consensus. *)
  ProposerFactory : Type;
  Proposer : Type;
  proposer_new : ProposerFactory → Proposer;
  CollatorService : Type;

  (** RPC. *)
  RpcModule : Type;
  rpc_module_new : RpcModule;
  Methods : Type;
  system_into_rpc : ParachainClient → TransactionPool → Methods;
  transaction_payment_into_rpc : ParachainClient → Methods;
  RegisterMethodError : Type;
  BoxedError : Type;
  box_register_error : RegisterMethodError → BoxedError;
  from_boxed_error : BoxedError → ServiceError;
  RpcHandlers : Type;
  (** [RpcModule::merge(&mut self, methods)]. *)
  rpc_merge : Methods → ST RpcModule RegisterMethodError unit
}.

(** [rpc::create_full] consumes its dependencies: the client and the pool. *)
Record FullDeps `{ServiceSdk} : Type := {
  fd_client : ParachainClient;
  fd_pool : TransactionPool
}.

(** The closure [rpc_builder], and the closure [announce_block]. *)
Record RpcBuilder `{ServiceSdk} : Type := {
  rb_client : ParachainClient;
  rb_transaction_pool : TransactionPool
}.
Record AnnounceBlock `{ServiceSdk} : Type := { ab_sync_service : SyncingService }.

(** The closures [create_inherent_data_providers]: of the import queue, and of the collator. *)
Inductive InherentDataProviders : Type :=
| FromSystemTime
| NoProviders.

(** The closure [code_hash_provider]. *)
Record CodeHashProvider `{ServiceSdk} : Type := { chp_client : ParachainClient }.

Inductive CollatorSybilResistance : Type := Resistant | Unresistant.
Inductive DARecoveryProfile : Type := Collator | FullNode.

Section Params.
  Context {SS : ServiceSdk}.

Record BuildNetworkParams : Type := {
  bn_parachain_config : Configuration;
  bn_net_config : FullNetworkConfiguration;
  bn_client : ParachainClient;
  bn_transaction_pool : TransactionPool;
  bn_para_id : ParaId;
  bn_spawn_handle : SpawnTaskHandle;
  bn_relay_chain_interface : RelayChainInterface;
  bn_import_queue : ImportQueue;
  bn_sybil_resistance_level : CollatorSybilResistance
}.

Record OffchainWorkerOptions : Type := {
  ow_runtime_api_provider : ParachainClient;
  ow_keystore : option Keystore;
  ow_offchain_db : option OffchainStorage;
  ow_transaction_pool : option OffchainTransactionPoolFactory;
  ow_network_provider : Network;
  ow_is_validator : bool;
  ow_enable_http_requests : bool
}.

Record SpawnTasksParams : Type := {
  st_rpc_builder : RpcBuilder;
  st_client : ParachainClient;
  st_transaction_pool : TransactionPool;
  st_task_manager : TaskManager;
  st_config : Configuration;
  st_keystore : Keystore;
  st_backend : ParachainBackend;
  st_network : Network;
  st_sync_service : SyncingService;
  st_system_rpc_tx : SystemRpcTx;
  st_tx_handler_controller : TxHandlerController;
  st_telemetry : option Telemetry
}.

Record StartRelayChainTasksParams : Type := {
  rt_client : ParachainClient;
  rt_announce_block : AnnounceBlock;
  rt_para_id : ParaId;
  rt_relay_chain_interface : RelayChainInterface;
  rt_task_manager : TaskManager;
  rt_da_recovery_profile : DARecoveryProfile;
  rt_import_queue : ImportQueueService;
  rt_relay_chain_slot_duration : Z;
  rt_recovery_handle : OverseerHandle;
  rt_sync_service : SyncingService
}.

(** [aura::Params]; durations are in milliseconds. *)
Record AuraParams : Type := {
  ap_create_inherent_data_providers : InherentDataProviders;
  ap_block_import : ParachainBlockImport;
  ap_para_client : ParachainClient;
  ap_para_backend : ParachainBackend;
  ap_relay_client : RelayChainInterface;
  ap_code_hash_provider : CodeHashProvider;
  ap_keystore : Keystore;
  ap_collator_key : CollatorPair;
  ap_para_id : ParaId;
  ap_overseer_handle : OverseerHandle;
  ap_relay_chain_slot_duration : Z;
  ap_proposer : Proposer;
  ap_collator_service : CollatorService;
  ap_authoring_duration : Z;
  ap_reinitialize : bool;
  ap_max_pov_percentage : option Z
}.

(** What the service asks the SDK to do. *)
Inductive ServiceCall : Type → Type :=
| TelemetryWorker_new (buffer : Z) : ServiceCall (result TelemetryWorker TelemetryError)
| new_telemetry (h : TelemetryWorkerHandle) (endpoints : TelemetryEndpoints) : ServiceCall Telemetry
| new_full_parts_record_import (config : Configuration) (telemetry : option TelemetryHandle)
    (executor : ParachainExecutor) (enable_import_proof_recording : bool) :
    ServiceCall (result (ParachainClient * ParachainBackend * KeystoreContainer * TaskManager) ServiceError)
| spawn (h : SpawnTaskHandle) (name : string) (group : option string) (f : Future) : ServiceCall unit
| spawn_essential (h : SpawnEssentialTaskHandle) (name : string) (group : option string) (f : Future) : ServiceCall unit
| pool_build (b : TransactionPoolBuilder) : ServiceCall TransactionPool
| fully_verifying_import_queue (client : ParachainClient) (block_import : ParachainBlockImport)
    (create_inherent_data_providers : InherentDataProviders) (spawner : SpawnEssentialTaskHandle)
    (registry : option Registry) (telemetry : option TelemetryHandle) : ServiceCall ImportQueue
| from_system_time : ServiceCall InherentData
| build_relay_chain_interface (polkadot_config parachain_config : Configuration)
    (telemetry_worker_handle : option TelemetryWorkerHandle) (task_manager : TaskManager)
    (collator_options : CollatorOptions) (hwbench : option HwBench) :
    ServiceCall (result (RelayChainInterface * option CollatorPair) RelayChainError)
| build_network (params : BuildNetworkParams) :
    ServiceCall (result (Network * SystemRpcTx * TxHandlerController * SyncingService) ServiceError)
| OffchainWorkers_new (options : OffchainWorkerOptions) : ServiceCall (result OffchainWorkers IoError)
| spawn_tasks (params : SpawnTasksParams) : ServiceCall (result RpcHandlers ServiceError)
| print_hwbench (b : HwBench) : ServiceCall unit
| warn_hardware (err : HardwareError) : ServiceCall unit
| get_overseer_handle (relay_chain_interface : RelayChainInterface) :
    ServiceCall (result OverseerHandle RelayChainError)
| start_relay_chain_tasks (params : StartRelayChainTasksParams) : ServiceCall (result unit ServiceError)
| with_proof_recording (h : SpawnTaskHandle) (client : ParachainClient) (pool : TransactionPool)
    (registry : option Registry) (telemetry : option TelemetryHandle) : ServiceCall ProposerFactory
| CollatorService_new (block_status : ParachainClient) (spawner : SpawnTaskHandle)
    (announce_block : AnnounceBlock) (runtime_api : ParachainClient) : ServiceCall CollatorService
| aura_run (params : AuraParams) : ServiceCall Future
| announce_block_of (s : SyncingService) (hash : Hash) (data : option AnnounceData) : ServiceCall unit
| code_at (client : ParachainClient) (hash : Hash) : ServiceCall (result ValidationCode BlockchainError).

End Params.

(** [PartialComponents] as the service fills it: [select_chain] is the unit. *)
Record Service `{ServiceSdk} : Type := {
  pc_client : ParachainClient;
  pc_backend : ParachainBackend;
  pc_import_queue : ImportQueue;
  pc_keystore_container : KeystoreContainer;
  pc_task_manager : TaskManager;
  pc_transaction_pool : TransactionPool;
  pc_other : ParachainBlockImport * option Telemetry * option TelemetryWorkerHandle
}.

Section Service.
  Context {SS : ServiceSdk}.
  Implicit Types (config : Configuration).

(** * RPC extensions (rpc.rs) *)

Definition create_full (deps : FullDeps) : result RpcModule BoxedError :=
  let module := rpc_module_new in
  let '{| fd_client := client; fd_pool := pool |} := deps in
  match (rpc_merge (system_into_rpc client pool);;
         rpc_merge (transaction_payment_into_rpc client)) module with
  | (module, Ok tt) => Ok module
  | (_, Err e) => Err (box_register_error e)
  end.

(** * Closures *)

(** [rpc_builder]: a module of RPC extensions over the client and the pool captured. *)
Definition rpc_builder_call (b : RpcBuilder) : result RpcModule ServiceError :=
  map_err from_boxed_error
    (create_full {| fd_client := rb_client b; fd_pool := rb_transaction_pool b |}).

Definition announce_block_call (b : AnnounceBlock) (hash : Hash) (data : option AnnounceData) :
    prog ServiceCall ServiceError unit :=
  call (announce_block_of (ab_sync_service b) hash data).

Definition create_inherent_data_providers (c : InherentDataProviders) :
    prog ServiceCall ServiceError (list InherentData) :=
  match c with
  | FromSystemTime => timestamp ← call from_system_time; mret [timestamp]
  | NoProviders => mret []
  end.

Definition code_hash_provider_call (p : CodeHashProvider) (block_hash : Hash) :
    prog ServiceCall ServiceError (option ValidationCodeHash) :=
  code ← call (code_at (chp_client p) block_hash);
  mret (code_hash <$> result_ok code).

(** * Components *)

Definition build_import_queue (client : ParachainClient) (block_import : ParachainBlockImport)
    config (telemetry : option TelemetryHandle) (task_manager : TaskManager) :
    prog ServiceCall ServiceError ImportQueue :=
  call (fully_verifying_import_queue client block_import FromSystemTime
          (spawn_essential_handle task_manager) (prometheus_registry config) telemetry).

(** The endpoints that are used: [config.telemetry_endpoints.clone().filter(|x| !x.is_empty())]. *)
Definition used_endpoints config : option TelemetryEndpoints :=
  x ← cfg_telemetry_endpoints config;
  if negb (endpoints_is_empty x) then Some x else None.

Definition start_telemetry config :
    prog ServiceCall ServiceError (option (TelemetryWorker * Telemetry)) :=
  match used_endpoints config with
  | None => mret None
  | Some endpoints =>
    worker ← try_call from_telemetry_error (TelemetryWorker_new 16);
    telemetry ← call (new_telemetry (worker_handle worker) endpoints);
    mret (Some (worker, telemetry))
  end.

(** [h as _] keeps the low 32 bits of the [u64]. *)
Definition heap_pages config : HeapAllocStrategy :=
  match cfg_default_heap_pages config with
  | None => DEFAULT_HEAP_ALLOC_STRATEGY
  | Some h => HeapAllocStrategy_Static (h `mod` 2 ^ 32)
  end.

Definition executor_of config : ParachainExecutor :=
  let b := executor_builder in
  let b := with_execution_method b (cfg_wasm_method config) in
  let b := with_onchain_heap_alloc_strategy b (heap_pages config) in
  let b := with_offchain_heap_alloc_strategy b (heap_pages config) in
  let b := with_max_runtime_instances b (cfg_max_runtime_instances config) in
  let b := with_runtime_cache_size b (cfg_runtime_cache_size config) in
  executor_build b.

(** The telemetry worker runs as a task; the telemetry itself is kept. *)
Definition spawn_telemetry (task_manager : TaskManager)
    (telemetry : option (TelemetryWorker * Telemetry)) :
    prog ServiceCall ServiceError (option Telemetry) :=
  match telemetry with
  | None => mret None
  | Some (worker, telemetry) =>
    call (spawn (spawn_handle task_manager) "telemetry" None (worker_run worker));;
    mret (Some telemetry)
  end.

Definition transaction_pool_builder config (client : ParachainClient) (task_manager : TaskManager) :
    TransactionPoolBuilder :=
  let b := pool_builder (spawn_essential_handle task_manager) client (is_authority (cfg_role config)) in
  let b := with_options b (cfg_transaction_pool config) in
  with_prometheus b (prometheus_registry config).

Definition new_partial config : prog ServiceCall ServiceError Service :=
  telemetry ← start_telemetry config;
  let executor := executor_of config in
  '(client, backend, keystore_container, task_manager) ← try_call id
    (new_full_parts_record_import config ((λ t, telemetry_handle t.2) <$> telemetry) executor true);
  let telemetry_worker_handle := (λ t, worker_handle t.1) <$> telemetry in
  telemetry ← spawn_telemetry task_manager telemetry;
  transaction_pool ← call (pool_build (transaction_pool_builder config client task_manager));
  let block_import := block_import_new client backend in
  import_queue ← build_import_queue client block_import config (telemetry_handle <$> telemetry) task_manager;
  mret {| pc_client := client; pc_backend := backend; pc_import_queue := import_queue;
          pc_keystore_container := keystore_container; pc_task_manager := task_manager;
          pc_transaction_pool := transaction_pool;
          pc_other := (block_import, telemetry, telemetry_worker_handle) |}.

(** * Consensus *)

Definition start_consensus (client : ParachainClient) (backend : ParachainBackend)
    (block_import : ParachainBlockImport) (registry : option Registry)
    (telemetry : option TelemetryHandle) (task_manager : TaskManager)
    (relay_chain_interface : RelayChainInterface) (transaction_pool : TransactionPool)
    (ks : Keystore) (relay_chain_slot_duration : Z) (para_id : ParaId)
    (collator_key : CollatorPair) (overseer_handle : OverseerHandle)
    (announce_block : AnnounceBlock) : prog ServiceCall ServiceError unit :=
  proposer_factory ← call (with_proof_recording (spawn_handle task_manager) client
    transaction_pool registry telemetry);
  let proposer := proposer_new proposer_factory in
  collator_service ← call (CollatorService_new client (spawn_handle task_manager)
    announce_block client);
  let params := {|
    ap_create_inherent_data_providers := NoProviders;
    ap_block_import := block_import;
    ap_para_client := client;
    ap_para_backend := backend;
    ap_relay_client := relay_chain_interface;
    ap_code_hash_provider := {| chp_client := client |};
    ap_keystore := ks;
    ap_collator_key := collator_key;
    ap_para_id := para_id;
    ap_overseer_handle := overseer_handle;
    ap_relay_chain_slot_duration := relay_chain_slot_duration;
    ap_proposer := proposer;
    ap_collator_service := collator_service;
    ap_authoring_duration := 2000;
    ap_reinitialize := false;
    ap_max_pov_percentage := None
  |} in
  fut ← call (aura_run params);
  call (spawn_essential (spawn_essential_handle task_manager) "aura" None fut).

(** * The node *)

Definition start_offchain_workers config (params : Service) (network : Network) :
    prog ServiceCall ServiceError unit :=
  if cfg_offchain_worker_enabled config then
    offchain_workers ← try_call from_io_error (OffchainWorkers_new {|
      ow_runtime_api_provider := pc_client params;
      ow_keystore := Some (keystore (pc_keystore_container params));
      ow_offchain_db := offchain_storage (pc_backend params);
      ow_transaction_pool := Some (offchain_pool_factory (pc_transaction_pool params));
      ow_network_provider := network;
      ow_is_validator := is_authority (cfg_role config);
      ow_enable_http_requests := false |});
    let task_manager := pc_task_manager params in
    call (spawn (spawn_handle task_manager) "offchain-workers-runner" (Some "offchain-work")
      (offchain_workers_run offchain_workers (pc_client params) (spawn_handle task_manager)))
  else mret tt.

Definition report_hwbench (validator : bool) (task_manager : TaskManager)
    (telemetry : option Telemetry) (hwbench : option HwBench) :
    prog ServiceCall ServiceError unit :=
  match hwbench with
  | None => mret tt
  | Some hwbench =>
    call (print_hwbench hwbench);;
    match check_hardware hwbench false with
    | Err err => if validator then call (warn_hardware err) else mret tt
    | Ok _ => mret tt
    end;;
    match telemetry with
    | None => mret tt
    | Some telemetry =>
      call (spawn (spawn_handle task_manager) "telemetry_hwbench" None
        (initialize_hwbench_telemetry (telemetry_handle telemetry) hwbench))
    end
  end.

(** The end of the start: an authority starts consensus. *)
Definition start_authority (validator : bool) (params : Service) (client : ParachainClient)
    (backend : ParachainBackend) (block_import : ParachainBlockImport) (registry : option Registry)
    (telemetry : option Telemetry) (task_manager : TaskManager)
    (relay_chain_interface : RelayChainInterface) (transaction_pool : TransactionPool)
    (relay_chain_slot_duration : Z) (para_id : ParaId) (collator_key : option CollatorPair)
    (overseer_handle : OverseerHandle) (announce_block : AnnounceBlock) : prog ServiceCall ServiceError unit :=
  if validator then
    collator_key ← expect collator_key "Command line arguments do not allow this. qed";
    start_consensus client backend block_import registry (telemetry_handle <$> telemetry)
      task_manager relay_chain_interface transaction_pool
      (keystore (pc_keystore_container params)) relay_chain_slot_duration para_id
      collator_key overseer_handle announce_block
  else mret tt.

Definition start_parachain_node (parachain_config polkadot_config : Configuration)
    (collator_options : CollatorOptions) (para_id : ParaId) (hwbench : option HwBench) :
    prog ServiceCall ServiceError (TaskManager * ParachainClient) :=
  let parachain_config := prepare_node_config parachain_config in
  params ← new_partial parachain_config;
  let '(block_import, telemetry, telemetry_worker_handle) := pc_other params in
  let registry := prometheus_registry parachain_config in
  let net_config := network_configuration_new (cfg_network parachain_config) registry in
  let client := pc_client params in
  let backend := pc_backend params in
  let task_manager := pc_task_manager params in
  '(relay_chain_interface, collator_key) ← try_call Application
    (build_relay_chain_interface polkadot_config parachain_config telemetry_worker_handle
       task_manager collator_options hwbench);
  let validator := is_authority (cfg_role parachain_config) in
  let transaction_pool := pc_transaction_pool params in
  let queue_service := import_queue_service (pc_import_queue params) in
  '(network, system_rpc_tx, tx_handler_controller, sync_service) ← try_call id
    (build_network {|
      bn_parachain_config := parachain_config;
      bn_net_config := net_config;
      bn_client := client;
      bn_transaction_pool := transaction_pool;
      bn_para_id := para_id;
      bn_spawn_handle := spawn_handle task_manager;
      bn_relay_chain_interface := relay_chain_interface;
      bn_import_queue := pc_import_queue params;
      bn_sybil_resistance_level := Resistant |});
  start_offchain_workers parachain_config params network;;
  let rpc_builder := {| rb_client := client; rb_transaction_pool := transaction_pool |} in
  _ ← try_call id (spawn_tasks {|
    st_rpc_builder := rpc_builder;
    st_client := client;
    st_transaction_pool := transaction_pool;
    st_task_manager := task_manager;
    st_config := parachain_config;
    st_keystore := keystore (pc_keystore_container params);
    st_backend := backend;
    st_network := network;
    st_sync_service := sync_service;
    st_system_rpc_tx := system_rpc_tx;
    st_tx_handler_controller := tx_handler_controller;
    st_telemetry := telemetry |});
  report_hwbench validator task_manager telemetry hwbench;;
  let announce_block := {| ab_sync_service := sync_service |} in
  let relay_chain_slot_duration := 6 * 1000 in
  overseer_handle ← try_call Application (get_overseer_handle relay_chain_interface);
  try_call id (start_relay_chain_tasks {|
    rt_client := client;
    rt_announce_block := announce_block;
    rt_para_id := para_id;
    rt_relay_chain_interface := relay_chain_interface;
    rt_task_manager := task_manager;
    rt_da_recovery_profile := if validator then Collator else FullNode;
    rt_import_queue := queue_service;
    rt_relay_chain_slot_duration := relay_chain_slot_duration;
    rt_recovery_handle := overseer_handle;
    rt_sync_service := sync_service |});;
  start_authority validator params client backend block_import registry telemetry task_manager
    relay_chain_interface transaction_pool relay_chain_slot_duration para_id collator_key
    overseer_handle announce_block;;
  mret (task_manager, client).

End Service.
