(* ===== verification/ServiceProps.v ===== *)
(** Starting the node: the plan of calls it follows, how it ends, and what the
    components are wired to. *)

From S2P Require Export Service.
#[local] Open Scope Z_scope.

(** * The steps of starting a node *)

(** The calls of [ServiceCall] without their arguments; tasks by their name. *)
Inductive Step : Type :=
| CreateTelemetryWorker
| RegisterTelemetry
| OpenDatabase
| SpawnTask (name : string)
| SpawnEssentialTask (name : string)
| BuildTransactionPool
| BuildImportQueue
| ConnectRelayChain
| StartNetwork
| CreateOffchainWorkers
| StartServiceTasks
| PrintHwbench
| WarnHardware
| GetOverseer
| StartRelayChainTasks
| CreateProposer
| CreateCollatorService
| CreateAura
| AnnounceBlockStep
| ReadCode
| ReadTime.

Section Props.
  Context {SS : ServiceSdk}.
  Implicit Types (config : Configuration).

Definition service_label {X} (c : ServiceCall X) : Step :=
  match c with
  | TelemetryWorker_new _ => CreateTelemetryWorker
  | new_telemetry _ _ => RegisterTelemetry
  | new_full_parts_record_import _ _ _ _ => OpenDatabase
  | spawn _ name _ _ => SpawnTask name
  | spawn_essential _ name _ _ => SpawnEssentialTask name
  | pool_build _ => BuildTransactionPool
  | fully_verifying_import_queue _ _ _ _ _ _ => BuildImportQueue
  | from_system_time => ReadTime
  | build_relay_chain_interface _ _ _ _ _ _ => ConnectRelayChain
  | build_network _ => StartNetwork
  | OffchainWorkers_new _ => CreateOffchainWorkers
  | spawn_tasks _ => StartServiceTasks
  | print_hwbench _ => PrintHwbench
  | warn_hardware _ => WarnHardware
  | get_overseer_handle _ => GetOverseer
  | start_relay_chain_tasks _ => StartRelayChainTasks
  | with_proof_recording _ _ _ _ _ => CreateProposer
  | CollatorService_new _ _ _ _ => CreateCollatorService
  | aura_run _ => CreateAura
  | announce_block_of _ _ _ => AnnounceBlockStep
  | code_at _ _ => ReadCode
  end.

(** The error of an answer, if it is one. *)
Definition error_of {A E1} (into : E1 → ServiceError) (r : result A E1) : option ServiceError :=
  match r with Ok _ => None | Err e => Some (into e) end.

(** The service's error for a call that failed.  A failure of [code_at] is no
    failure of the service: [code_hash_provider] turns it into [None]. *)
Definition service_failure {X} (c : ServiceCall X) : X → option ServiceError :=
  match c in ServiceCall X return X → option ServiceError with
  | TelemetryWorker_new _ => error_of from_telemetry_error
  | new_full_parts_record_import _ _ _ _ => error_of id
  | build_relay_chain_interface _ _ _ _ _ _ => error_of Application
  | build_network _ => error_of id
  | OffchainWorkers_new _ => error_of from_io_error
  | spawn_tasks _ => error_of id
  | get_overseer_handle _ => error_of Application
  | start_relay_chain_tasks _ => error_of id
  | _ => λ _, None
  end.

#[global] Instance service_interface : Interface ServiceCall Step ServiceError := {
  label := λ X, service_label;
  failure := λ X, service_failure
}.

(** The steps of a plan that are taken when [b]. *)
Definition when {A} (b : bool) (l : list A) : list A := if b then l else [].

(** * Plans *)

Definition telemetry_used config : bool := 
  match used_endpoints config with Some _ => true | None => false end.

Definition telemetry_plan config : list Step :=
  when (telemetry_used config) [CreateTelemetryWorker; RegisterTelemetry].

Definition new_partial_plan config : list Step :=
  telemetry_plan config ++ [OpenDatabase] ++
  when (telemetry_used config) [SpawnTask "telemetry"] ++ [BuildTransactionPool; BuildImportQueue].

Definition offchain_plan config : list Step :=
  when (cfg_offchain_worker_enabled config) [CreateOffchainWorkers; SpawnTask "offchain-workers-runner"].

Definition hwbench_plan (validator telemetry : bool) (hwbench : option HwBench) : list Step :=
  match hwbench with
  | None => []
  | Some b => [PrintHwbench] ++ when (validator && negb (is_ok (check_hardware b false))) [WarnHardware] ++
      when telemetry [SpawnTask "telemetry_hwbench"]
  end.

Definition consensus_plan : list Step :=
  [CreateProposer; CreateCollatorService; CreateAura; SpawnEssentialTask "aura"].

(** Everything a node does to start, given its (prepared) configuration. *)
Definition startup_plan config (hwbench : option HwBench) : list Step :=
  let validator := is_authority (cfg_role config) in
  new_partial_plan config ++ [ConnectRelayChain; StartNetwork] ++ offchain_plan config ++
  [StartServiceTasks] ++ hwbench_plan validator (telemetry_used config) hwbench ++
  [GetOverseer; StartRelayChainTasks] ++ when validator consensus_plan.

(** * Wiring *)

(** The components [new_full_parts_record_import] answers with. *)
Record Parts : Type := {
  client : ParachainClient;
  backend : ParachainBackend;
  container : KeystoreContainer;
  tasks : TaskManager
}.

(** In the world [w] the components are [p], whenever they are opened. *)
Definition opens (w : World ServiceCall) (p : Parts) : Prop :=
  ∀ past config t executor b,
    w past _ (new_full_parts_record_import config t executor b) =
    Ok (client p, backend p, container p, tasks p).

(** What a call of a starting node gets: the components of [p] and the node's own parameters. *)
Definition wired (config polkadot : Configuration) (para_id : ParaId) (p : Parts)
    (ev : event ServiceCall) : Prop :=
  match ev_call ev with
  | TelemetryWorker_new buffer => buffer = 16
  | new_full_parts_record_import c _ executor recording =>
      c = config ∧ executor = executor_of config ∧ recording = true
  | spawn h _ _ _ => h = spawn_handle (tasks p)
  | spawn_essential h _ _ _ => h = spawn_essential_handle (tasks p)
  | pool_build b => b = transaction_pool_builder config (client p) (tasks p)
  | fully_verifying_import_queue c bi idp h reg _ =>
      c = client p ∧ bi = block_import_new (client p) (backend p) ∧ idp = FromSystemTime ∧
      h = spawn_essential_handle (tasks p) ∧ reg = prometheus_registry config
  | build_relay_chain_interface pc c _ t _ _ => pc = polkadot ∧ c = config ∧ t = tasks p
  | build_network n =>
      bn_parachain_config n = config ∧ bn_client n = client p ∧ bn_para_id n = para_id ∧
      bn_sybil_resistance_level n = Resistant ∧ bn_spawn_handle n = spawn_handle (tasks p)
  | OffchainWorkers_new o =>
      ow_runtime_api_provider o = client p ∧ ow_keystore o = Some (keystore (container p)) ∧
      ow_offchain_db o = offchain_storage (backend p) ∧ ow_enable_http_requests o = false
  | spawn_tasks s =>
      st_client s = client p ∧ st_backend s = backend p ∧ st_config s = config ∧
      st_keystore s = keystore (container p) ∧ st_task_manager s = tasks p ∧
      st_rpc_builder s = {| rb_client := client p; rb_transaction_pool := st_transaction_pool s |}
  | start_relay_chain_tasks r =>
      rt_client r = client p ∧ rt_para_id r = para_id ∧ rt_task_manager r = tasks p ∧
      rt_relay_chain_slot_duration r = 6000 ∧
      rt_announce_block r = {| ab_sync_service := rt_sync_service r |} ∧
      rt_da_recovery_profile r = (if is_authority (cfg_role config) then Collator else FullNode)
  | with_proof_recording h c _ reg _ =>
      h = spawn_handle (tasks p) ∧ c = client p ∧ reg = prometheus_registry config
  | CollatorService_new c h _ api => c = client p ∧ h = spawn_handle (tasks p) ∧ api = client p
  | aura_run a =>
      is_authority (cfg_role config) = true ∧
      ap_para_client a = client p ∧ ap_para_backend a = backend p ∧
      ap_block_import a = block_import_new (client p) (backend p) ∧
      ap_keystore a = keystore (container p) ∧ ap_para_id a = para_id ∧
      ap_code_hash_provider a = {| chp_client := client p |} ∧
      ap_relay_chain_slot_duration a = 6000 ∧ ap_authoring_duration a = 2000
  | _ => True
  end.

(** What the node obtains on the way. *)
Record Links : Type := {
  lk_pool : TransactionPool;
  lk_queue : ImportQueue;
  lk_relay : RelayChainInterface;
  lk_key : option CollatorPair;
  lk_network : Network;
  lk_rpc_tx : SystemRpcTx;
  lk_tx_controller : TxHandlerController;
  lk_sync : SyncingService;
  lk_overseer : OverseerHandle;
  lk_proposer : ProposerFactory;
  lk_collator : CollatorService;
  lk_aura : Future
}.

(** In the world [w] the calls that succeed answer with these. *)
Record links (w : World ServiceCall) (k : Links) : Prop := {
  links_pool past b x : w past _ (pool_build b) = x → x = lk_pool k;
  links_queue past c bi idp h reg t x :
    w past _ (fully_verifying_import_queue c bi idp h reg t) = x → x = lk_queue k;
  links_relay past pc c wh tm o h x :
    w past _ (build_relay_chain_interface pc c wh tm o h) = Ok x → x = (lk_relay k, lk_key k);
  links_network past n x : w past _ (build_network n) = Ok x →
    x = (lk_network k, lk_rpc_tx k, lk_tx_controller k, lk_sync k);
  links_overseer past r x : w past _ (get_overseer_handle r) = Ok x → x = lk_overseer k;
  links_proposer past h c pool reg t x : w past _ (with_proof_recording h c pool reg t) = x → x = lk_proposer k;
  links_collator past c h ab api x : w past _ (CollatorService_new c h ab api) = x → x = lk_collator k;
  links_aura past a x : w past _ (aura_run a) = x → x = lk_aura k
}.

(** Each is passed on to all that need it. *)
Definition linked (k : Links) (ev : event ServiceCall) : Prop :=
  match ev_call ev with
  | build_network n =>
      bn_transaction_pool n = lk_pool k ∧ bn_relay_chain_interface n = lk_relay k ∧ bn_import_queue n = lk_queue k
  | OffchainWorkers_new o =>
      ow_transaction_pool o = Some (offchain_pool_factory (lk_pool k)) ∧ ow_network_provider o = lk_network k
  | spawn_tasks s =>
      st_transaction_pool s = lk_pool k ∧ st_network s = lk_network k ∧ st_sync_service s = lk_sync k ∧
      st_system_rpc_tx s = lk_rpc_tx k ∧ st_tx_handler_controller s = lk_tx_controller k
  | get_overseer_handle r => r = lk_relay k
  | start_relay_chain_tasks r =>
      rt_relay_chain_interface r = lk_relay k ∧ rt_import_queue r = import_queue_service (lk_queue k) ∧
      rt_recovery_handle r = lk_overseer k ∧ rt_sync_service r = lk_sync k
  | with_proof_recording _ _ pool _ _ => pool = lk_pool k
  | CollatorService_new _ _ ab _ => ab = {| ab_sync_service := lk_sync k |}
  | aura_run a =>
      ap_relay_client a = lk_relay k ∧ Some (ap_collator_key a) = lk_key k ∧ ap_overseer_handle a = lk_overseer k ∧
      ap_proposer a = proposer_new (lk_proposer k) ∧ ap_collator_service a = lk_collator k
  | spawn_essential _ _ _ fut => fut = lk_aura k
  | _ => True
  end.

(** * The judgement, component by component *)

(** Wired to the components the world has. *)
Definition wired_in (w : World ServiceCall) (config polkadot : Configuration) (para_id : ParaId)
    (ev : event ServiceCall) : Prop :=
  (∀ p, opens w p → wired config polkadot para_id p ev) ∧ (∀ k, links w k → linked k ev).

(** The components a [Service] carries. *)
Definition carries (w : World ServiceCall) (s : Service) : Prop :=
  (∀ p, opens w p →
    pc_client s = client p ∧ pc_backend s = backend p ∧ pc_keystore_container s = container p ∧
    pc_task_manager s = tasks p ∧ (pc_other s).1.1 = block_import_new (client p) (backend p)) ∧
  (∀ k, links w k → pc_transaction_pool s = lk_pool k ∧ pc_import_queue s = lk_queue k).

(** An answer of the world. *)
Definition answered (w : World ServiceCall) {X} (c : ServiceCall X) (x : X) : Prop := ∃ past, w past _ c = x.

(** Splits a program at its first call or closes it. *)
Ltac use_links :=
  repeat match goal with
  | H : answered _ _ _ |- _ => destruct H as [? H]
  | Hk : links ?w ?k, H : ?w _ _ _ = _ |- _ =>
      first [apply (links_pool _ _ Hk) in H | apply (links_queue _ _ Hk) in H | apply (links_relay _ _ Hk) in H
            |apply (links_network _ _ Hk) in H | apply (links_overseer _ _ Hk) in H
            |apply (links_proposer _ _ Hk) in H | apply (links_collator _ _ Hk) in H | apply (links_aura _ _ Hk) in H]
  end.
Ltac by_wiring :=
  unfold wired_in, wired, linked, carries in *; cbn; intros; try done;
  destruct_and?; split_and?; cbn; intros; try done;
  repeat match goal with
  | Hp : opens _ ?p, H : ∀ q, opens _ q → _ |- _ => specialize (H p Hp)
  | Hk : links _ ?k, H : ∀ q, links _ q → _ |- _ => specialize (H k Hk)
  end;
  use_links; destruct_and?; subst; simplify_eq/=; split_and?; try done; congruence.
Ltac plan_step :=
  cbv beta iota; cbn [when app];
  lazymatch goal with
  | |- implements ?w _ (call ?c ≫= _) (?l :: ?plan) _ _ =>
      apply (implements_bind _ _ _ _ [l] plan (answered w c));
        [apply implements_call; [done..|split; [by_wiring|by eexists]]|intros ? ?]
  | |- implements ?w _ (try_call _ ?c ≫= _) (?l :: ?plan) _ _ =>
      apply (implements_bind _ _ _ _ [l] plan (λ x, answered w c (Ok x)));
        [apply implements_try; [done..|by_wiring|by eexists]|intros ? ?]
  | |- implements _ _ (call _) [_] _ _ =>
      apply implements_call; [done..|split; [by_wiring|first [done|by match goal with |- _ ?u => destruct u end]]]
  | |- implements _ _ (try_call _ _) [_] _ _ => apply implements_try; [done..|by_wiring|done]
  end.

Section Start.
  Variables (w : World ServiceCall) (config polkadot : Configuration) (para_id : ParaId).

Abbreviation follows := (implements w (wired_in w config polkadot para_id)).

Lemma start_telemetry_plan P :
  follows (start_telemetry config) (telemetry_plan config)
    (λ t, is_Some t ↔ telemetry_used config = true) P.
Proof.
  unfold start_telemetry, telemetry_plan, telemetry_used.
  destruct (used_endpoints config).
  - plan_step.
    plan_step. apply implements_return. by split.
  - apply implements_return. by split; [intros []|].
Qed.

Lemma spawn_telemetry_plan tm t b P :
  (is_Some t ↔ b = true) → (∀ p, opens w p → tm = tasks p) →
  follows (spawn_telemetry tm t) (when b [SpawnTask "telemetry"]) (λ t', is_Some t' ↔ b = true) P.
Proof.
  intros Hb Htm. unfold spawn_telemetry. destruct t as [[wk t]|].
  - destruct b; [|by destruct Hb as [Hb _]; discriminate Hb].
    plan_step. apply implements_return. by split.
  - destruct b; [by destruct Hb as [_ []]|]. apply implements_return. by split; [intros []|].
Qed.

Lemma new_partial_follows P :
  follows (new_partial config) (new_partial_plan config)
    (λ s, (is_Some (pc_other s).1.2 ↔ telemetry_used config = true) ∧ carries w s) P.
Proof.
  unfold new_partial, new_partial_plan.
  eapply implements_bind; [apply start_telemetry_plan|intros t Ht].
  apply (implements_bind _ _ _ _ [OpenDatabase] _ (λ parts, ∀ p, opens w p →
    parts = (client p, backend p, container p, tasks p))).
  { apply implements_try; [done..|by_wiring|]. intros past parts Hw p Hp. rewrite Hp in Hw. by simplify_eq. }
  intros [[[c b] kc] tm] Hparts.
  eapply implements_bind; [apply spawn_telemetry_plan; [exact Ht|];
    intros p Hp; apply Hparts in Hp; by simplify_eq|intros t' Ht'].
  unfold build_import_queue. plan_step. plan_step. apply implements_return.
  split; [done|]. split; [intros p Hp; apply Hparts in Hp; by simplify_eq/=|]. intros k Hk. by use_links.
Qed.

Lemma offchain_follows s network (Q : unit → Prop) P :
  carries w s → (∀ k, links w k → network = lk_network k) → Q tt →
  follows (start_offchain_workers config s network) (offchain_plan config) Q P.
Proof.
  intros Hs Hnet HQ. unfold start_offchain_workers, offchain_plan.
  destruct (cfg_offchain_worker_enabled config); [|by apply implements_return].
  plan_step. plan_step.
Qed.

Lemma hwbench_follows validator tm t b hwbench (Q : unit → Prop) P :
  (is_Some t ↔ b = true) → (∀ p, opens w p → tm = tasks p) → Q tt →
  follows (report_hwbench validator tm t hwbench) (hwbench_plan validator b hwbench) Q P.
Proof.
  intros Hb Htm HQ. unfold report_hwbench, hwbench_plan. destruct hwbench as [h|]; [|by apply implements_return].
  plan_step. apply (implements_bind _ _ _ _ _ _ (λ _, True)).
  - destruct (check_hardware h false), validator; cbn [is_ok negb andb when];
      first [by apply implements_return | plan_step].
  - intros _ _. destruct t as [t|].
    + destruct b; [|by destruct Hb as [Hb _]; discriminate Hb]. plan_step.
    + destruct b; [by destruct Hb as [_ []]|]. by apply implements_return.
Qed.

Lemma consensus_follows s bi t rci pool key oh ab (Q : unit → Prop) P :
  carries w s → (pc_other s).1.1 = bi → is_authority (cfg_role config) = true →
  (∀ k, links w k → rci = lk_relay k ∧ pool = lk_pool k ∧ Some key = lk_key k ∧ oh = lk_overseer k ∧
     ab = {| ab_sync_service := lk_sync k |}) → Q tt →
  follows (start_consensus (pc_client s) (pc_backend s) bi (prometheus_registry config) t
      (pc_task_manager s) rci pool (keystore (pc_keystore_container s)) 6000 para_id key oh ab)
    consensus_plan Q P.
Proof.
  intros Hs <- Hv Hlk HQ. unfold start_consensus, consensus_plan. do 4 plan_step.
Qed.

End Start.

(** When starting panics: an authority whose relay chain connection comes without a collator key. *)
Definition no_collator_key (w : World ServiceCall) config polkadot options hwbench : Prop :=
  is_authority (cfg_role config) = true ∧
  ∃ past wh tm rci,
    w past _ (build_relay_chain_interface polkadot config wh tm options hwbench) = Ok (rci, None).

Lemma start_node_follows w config polkadot options para_id hwbench :
  let cfg := prepare_node_config config in
  implements w (wired_in w cfg polkadot para_id)
    (start_parachain_node config polkadot options para_id hwbench)
    (startup_plan cfg hwbench) (λ r, ∀ p, opens w p → r = (tasks p, client p))
    (λ o, o = None ∧ no_collator_key w cfg polkadot options hwbench).
Proof.
  unfold start_parachain_node, startup_plan. set (cfg := prepare_node_config config). cbv zeta.
  eapply implements_bind; [apply new_partial_follows|intros s [Ht Hs]].
  destruct Hs as [Hs' Hk']. assert (carries w s) as Hs by done.
  destruct (pc_other s) as [[bi t] wh] eqn:Ho; cbn in Ht, Hs'.
  apply (implements_bind _ _ _ _ [ConnectRelayChain] _ (λ r, (r.2 = None → ∃ past wh tm rci,
    w past _ (build_relay_chain_interface polkadot cfg wh tm options hwbench) = Ok (rci, None)) ∧
    ∀ k, links w k → r = (lk_relay k, lk_key k))).
  { apply implements_try; [done..|by_wiring|]. intros past [rci key] Hw. split.
    - intros Hk. cbn in Hk. subst key. by eexists past, _, _, rci.
    - intros k Hk. by use_links. }
  intros [rci key] [Hkey Hrelay]. cbn in Hkey.
  apply (implements_bind _ _ _ _ [StartNetwork] _ (λ n, ∀ k, links w k →
    n = (lk_network k, lk_rpc_tx k, lk_tx_controller k, lk_sync k))).
  { apply implements_try; [done..|by_wiring|]. intros past n Hw k Hk. by use_links. }
  intros [[[network rpc_tx] txc] sync] Hnet.
  eapply implements_bind; [apply (offchain_follows _ _ _ _ _ _ (λ _, True)); [done| |done];
    intros k Hk; apply Hnet in Hk; by simplify_eq|intros _ _].
  apply (implements_bind _ _ _ _ [StartServiceTasks] _ (λ _, True)); [by apply implements_try; [done..|by_wiring|]|intros _ _].
  eapply implements_bind; [apply (hwbench_follows _ _ _ _ _ _ _ _ _ (λ _, True)); [done| |done];
    intros p Hp; by destruct (Hs' p Hp) as (_ & _ & _ & -> & _)|intros _ _].
  apply (implements_bind _ _ _ _ [GetOverseer] _ (λ oh, ∀ k, links w k → oh = lk_overseer k)).
  { apply implements_try; [done..|by_wiring|]. intros past oh Hw k Hk. by use_links. }
  intros oh Hoh.
  apply (implements_bind _ _ _ _ [StartRelayChainTasks] _ (λ _, True)); [by apply implements_try; [done..|by_wiring|]|intros [] _].
  rewrite <- (app_nil_r (when _ _)). apply (implements_bind _ _ _ _ _ _ (λ _, True)).
  2:{ intros. apply implements_return. intros p Hp. by destruct (Hs' p Hp) as (-> & _ & _ & -> & _). }
  unfold start_authority. destruct (is_authority _) eqn:Hv; [|by apply implements_return].
  unfold expect, mbind, prog_bind. destruct key as [key|]; cbn [bind_prog when].
  - apply consensus_follows; rewrite ?Ho; try done. intros k Hk.
    destruct (Hk' k Hk) as [-> _]. apply Hoh in Hk as Hoh'. apply Hnet in Hk as Hnet'. apply Hrelay in Hk.
    by simplify_eq.
  - apply implements_panic. split; [done|]. split; [done|by apply Hkey].
Qed.

(** * Theorems about starting a node *)

(** C18: starting a node is its plan until something fails.  Whatever the SDK
    answers, the calls made are, in order, those of [startup_plan] for the
    prepared configuration; if all succeed the node is started, after all of the
    plan.  The first call that fails ends the start, and its error, converted, is
    the error returned.  The only panic is that of an authority that connects to
    the relay chain without getting a collator key, with no call failed. *)
Theorem startup_follows_plan w past config polkadot options para_id hwbench :
  let cfg := prepare_node_config config in
  let '(tr, o) := run w past (start_parachain_node config polkadot options para_id hwbench) in
  match o with
  | Returned _ => ev_label <$> tr = startup_plan cfg hwbench ∧ all_succeed tr
  | Threw e => stopped_by_failure tr (startup_plan cfg hwbench) e
  | Panicked _ => stopped_by_itself tr (startup_plan cfg hwbench)
      (no_collator_key w cfg polkadot options hwbench)
  end.
Proof.
  cbv zeta. pose proof (start_node_follows w config polkadot options para_id hwbench past) as H.
  destruct (run w past _) as [tr o]. destruct H as (_ & H).
  destruct o; [by intuition|by destruct H as [H|(_ & _ & ? & _)]|].
  destruct H as (Hpre & Hs & _ & H). by split_and!.
Qed.

(** C21: the node is wired to one client.  When the database opens with some
    client, backend, keystore and task manager, every call of the start is given
    exactly these: the pool, the import queue, the network, the off-chain workers,
    RPC and consensus work on the same client; all tasks are spawned on the one
    task manager; consensus runs for authorities alone, with the parachain
    identifier of the command line, 6 s relay chain slots and 2 s to author; and
    the node returned is that task manager with that client.  Likewise what the start
    obtains on the way is passed on: the one transaction pool, import queue, relay chain
    interface, collator key, network, overseer handle, proposer and collator service
    are those given to every call that takes one, and the task "aura" is the future
    Aura answered with. *)
Theorem startup_wired w p past config polkadot options para_id hwbench :
  opens w p →
  let '(tr, o) := run w past (start_parachain_node config polkadot options para_id hwbench) in
  Forall (wired (prepare_node_config config) polkadot para_id p) tr ∧
  (∀ r, o = Returned r → r = (tasks p, client p)) ∧
  ∀ k, links w k → Forall (linked k) tr.
Proof.
  intros Hp. pose proof (start_node_follows w config polkadot options para_id hwbench past) as H.
  destruct (run w past _) as [tr o]. destruct H as (HΦ & H). split_and!.
  - eapply Forall_impl; [exact HΦ|]. intros ev [Hev _]. by apply Hev.
  - intros r ->. destruct H as (_ & _ & H). by apply H.
  - intros k Hk. eapply Forall_impl; [exact HΦ|]. intros ev [_ Hev]. by apply Hev.
Qed.

(** The plan without consensus. *)
Definition base_plan config hwbench : list Step :=
  new_partial_plan config ++ [ConnectRelayChain; StartNetwork] ++ offchain_plan config ++
  [StartServiceTasks] ++
  hwbench_plan (is_authority (cfg_role config)) (telemetry_used config) hwbench ++
  [GetOverseer; StartRelayChainTasks].

Lemma startup_plan_base config hwbench :
  startup_plan config hwbench =
  base_plan config hwbench ++ when (is_authority (cfg_role config)) consensus_plan.
Proof. unfold startup_plan, base_plan. by rewrite !app_assoc_reverse. Qed.

Ltac cases_of_plan config hwbench :=
  unfold base_plan, new_partial_plan, telemetry_plan, offchain_plan, hwbench_plan;
  destruct (telemetry_used config), (cfg_offchain_worker_enabled config), hwbench as [h|];
  [destruct (is_authority (cfg_role config)), (check_hardware h false)| |
   destruct (is_authority (cfg_role config)), (check_hardware h false)| |
   destruct (is_authority (cfg_role config)), (check_hardware h false)| |
   destruct (is_authority (cfg_role config)), (check_hardware h false)|]; cbn.

Lemma aura_not_in_base config hwbench : SpawnEssentialTask "aura" ∉ base_plan config hwbench.
Proof. cases_of_plan config hwbench; set_solver. Qed.

(** C19: the collator's task runs exactly on an authority that started.  The
    essential task "aura" is spawned if and only if the node is an authority and
    the start returns; then it is the last of all calls, after the network,
    the service tasks and the relay chain tasks were started. *)
Theorem consensus_last w past config polkadot options para_id hwbench :
  let cfg := prepare_node_config config in
  let '(tr, o) := run w past (start_parachain_node config polkadot options para_id hwbench) in
  (SpawnEssentialTask "aura" ∈ ev_label <$> tr ↔
    is_authority (cfg_role cfg) = true ∧ ∃ r, o = Returned r) ∧
  (SpawnEssentialTask "aura" ∈ ev_label <$> tr →
    ev_label <$> tr = base_plan cfg hwbench ++ consensus_plan).
Proof.
  cbv zeta. pose proof (start_node_follows w config polkadot options para_id hwbench past) as H.
  set (cfg := prepare_node_config config) in *. destruct (run w past _) as [tr o].
  destruct H as (_ & H). rewrite startup_plan_base in H.
  pose proof (aura_not_in_base cfg hwbench) as Hbase.
  destruct (is_authority (cfg_role cfg)); cbn [when] in H.
  2:{ rewrite app_nil_r in H. assert (SpawnEssentialTask "aura" ∉ ev_label <$> tr) as Hno.
      { intros Ha. apply Hbase. destruct o; [by destruct H as [<- _]| |].
        - destruct H as [(H & _)|(_ & _ & ? & _)]; [by eapply elem_of_prefix|done].
        - destruct H as ((l & rest & ->) & _). apply elem_of_app; auto. }
      naive_solver. }
  assert (base_plan cfg hwbench ++ consensus_plan =
    (base_plan cfg hwbench ++ [CreateProposer; CreateCollatorService; CreateAura]) ++
    [SpawnEssentialTask "aura"]) as Hplan by by rewrite <- app_assoc.
  assert (SpawnEssentialTask "aura" ∉
    base_plan cfg hwbench ++ [CreateProposer; CreateCollatorService; CreateAura]) as Hpre by set_solver.
  destruct o as [r|e|msg].
  - destruct H as (-> & _). split; [|done]. split; [by eauto|]. intros _. set_solver.
  - destruct H as [(H & tr' & ev & -> & _ & He)|(_ & _ & ? & _)]; [|done]. rewrite Hplan in *.
    assert (SpawnEssentialTask "aura" ∉ ev_label <$> tr' ++ [ev]) as Hno; [|naive_solver].
    intros Ha. apply prefix_snoc_complete in H; [|done..].
    rewrite fmap_app in H. apply app_inj_2 in H as [_ H]; [|done]. cbn in H. injection H as H.
    destruct ev as [X c x]. destruct c; discriminate.
  - destruct H as ((l & rest & H) & _). rewrite Hplan in *.
    assert (SpawnEssentialTask "aura" ∉ ev_label <$> tr) as Hno; [|naive_solver].
    intros Ha. pose proof (prefix_snoc_complete _ _ _ (ex_intro _ _ H) Hpre Ha) as Hf.
    rewrite Hf in H. apply (f_equal length) in H. rewrite !length_app in H. simpl in H. lia.
Qed.

(** * Heap pages *)

(** The executor's heap gets the configured number of extra pages only below 2^32:
    the cast wraps around, so that 2^32 pages are none. *)
Lemma heap_pages_wrap config h :
  cfg_default_heap_pages config = Some h → in_range u64_max h →
  (h ≤ u32_max → heap_pages config = HeapAllocStrategy_Static h) ∧
  (h = 2 ^ 32 → heap_pages config = HeapAllocStrategy_Static 0).
Proof.
  unfold heap_pages, in_range, u32_max. intros -> [Hh _].
  split; [intros Hle; by rewrite Z.mod_small by lia|by intros ->].
Qed.

(** * Closures *)

(** The collator's code hash is looked up without ever failing: an error of the client is no hash. *)
Lemma code_hash_never_fails p hash w past :
  ∃ h, (run w past (code_hash_provider_call p hash)).2 = Returned h ∧
    h = code_hash <$> result_ok (w past _ (code_at (chp_client p) hash)).
Proof. by eexists. Qed.

(** * RPC *)

Section Rpc.
  (** The names of a module's methods.  jsonrpsee's [merge] adds methods that are
      not registered yet, and fails otherwise. *)
  Variables (method_names : Methods → list string) (registered : RpcModule → list string).
  Hypothesis registered_new : registered rpc_module_new = [].
  Hypothesis merge_spec : ∀ ms m,
    match rpc_merge ms m with
    | (m', Ok _) => method_names ms ## registered m ∧ registered m' = registered m ++ method_names ms
    | (_, Err _) => ¬ method_names ms ## registered m
    end.

(** The node's RPC: [create_full] succeeds exactly when the methods of System and
    of TransactionPayment are distinct, and then offers these, in this order. *)
Lemma create_full_spec client pool :
  match create_full {| fd_client := client; fd_pool := pool |} with
  | Ok m => registered m =
      method_names (system_into_rpc client pool) ++ method_names (transaction_payment_into_rpc client)
  | Err _ => ¬ method_names (transaction_payment_into_rpc client) ##
      method_names (system_into_rpc client pool)
  end.
Proof.
  unfold create_full. rewrite run_bind.
  pose proof (merge_spec (system_into_rpc client pool) rpc_module_new) as H1.
  destruct (rpc_merge (system_into_rpc client pool) rpc_module_new) as [m1 [[]|e]].
  - destruct H1 as [_ H1]. rewrite registered_new in H1. cbn in H1.
    pose proof (merge_spec (transaction_payment_into_rpc client) m1) as H2.
    destruct (rpc_merge (transaction_payment_into_rpc client) m1) as [m2 [[]|e]]; rewrite H1 in H2; [|done].
    by destruct H2 as [_ ->].
  - rewrite registered_new in H1. set_solver.
Qed.
End Rpc.

End Props.
