(* ===== verification/Command.v ===== *)
(** The node's command line (src/node/src/cli.rs) and what each command does
    (src/node/src/command.rs).

    clap, sc_cli and the commands themselves are SDK code: the class [CliSdk]
    lists their types and the functions without effect, the family [NodeCall] the
    calls with an effect, and the class [CliRunner] the three ways a runner runs a
    closure, with their documented behaviour as laws.  A call that ends the
    process (clap on malformed arguments) has no answer. *)

From S2P Require Export Runtime Service.
#[local] Open Scope Z_scope.

(** [chain_spec::Extensions]. *)
Record Extensions : Type := {
  relay_chain : string;
  para_id : Z
}.

(** The types of the SDK's command line. *)
Class CliTypes := {
  CliError : Type;
  (** [sc_cli::Error::Input], also the conversion from strings. *)
  Input : string → CliError;
  PathBuf : Type;
  BasePath : Type;
  SharedParams : Type;
  ImportParams : Type;
  NetworkParams : Type;
  KeystoreParams : Type;
  RpcEndpoint : Type;
  PrometheusConfig : Type;
  DynChainSpec : Type;
  CliRole : Type;
  CliPoolOptions : Type;
  RpcMethods : Type;
  CliTelemetryEndpoints : Type
}.

(** The trait [sc_cli::CliConfiguration], in the methods the relay chain's command line gives. *)
Class CliConfiguration `{CliTypes} (T : Type) := {
  shared_params : T → SharedParams;
  import_params : T → option ImportParams;
  network_params : T → option NetworkParams;
  keystore_params : T → option KeystoreParams;
  base_path : T → result (option BasePath) CliError;
  rpc_addr : T → Z → result (option (list RpcEndpoint)) CliError;
  prometheus_config : T → Z → DynChainSpec → result (option PrometheusConfig) CliError;
  chain_id : T → bool → result string CliError;
  role : T → bool → result CliRole CliError;
  transaction_pool : T → bool → result CliPoolOptions CliError;
  trie_cache_maximum_size : T → result (option Z) CliError;
  rpc_methods : T → result RpcMethods CliError;
  rpc_max_connections : T → result Z CliError;
  rpc_cors : T → bool → result (option (list string)) CliError;
  default_heap_pages : T → result (option Z) CliError;
  force_authoring : T → result bool CliError;
  disable_grandpa : T → result bool CliError;
  max_runtime_instances : T → result (option Z) CliError;
  announce_block : T → result bool CliError;
  telemetry_endpoints : T → DynChainSpec → result (option CliTelemetryEndpoints) CliError;
  node_name : T → result string CliError
}.

(** The trait [sc_cli::DefaultConfigurationValues], as far as it is given. *)
Class DefaultConfigurationValues (T : Type) := {
  p2p_listen_port : Z;
  rpc_listen_port : Z;
  prometheus_listen_port : Z
}.

(** The trait [sc_cli::SubstrateCli]. *)
Class SubstrateCli `{CliTypes} (T : Type) := {
  impl_name : string;
  impl_version : string;
  description : string;
  author : string;
  support_url : string;
  copyright_start_year : Z;
  cli_load_spec : T → string → option (result DynChainSpec string)   (* None: a panic *)
}.

Class CliSdk {SS : ServiceSdk} {CT : CliTypes} {Sys : System} := {
  from_service_error : ServiceError → CliError;
  display_error : CliError → string;

  (** The configuration a runner hands out, as far as the commands read it. *)
  DatabaseSource : Type;
  database_path : DatabaseSource → option PathBuf;
  cfg_database : Configuration → DatabaseSource;
  cfg_chain_spec : Configuration → DynChainSpec;
  cfg_base_path : Configuration → PathBuf;
  path_join : PathBuf → string → PathBuf;
  TokioHandle : Type;
  cfg_tokio_handle : Configuration → TokioHandle;
  ParaId_from : Z → ParaId;
  BasePath_from : PathBuf → BasePath;
  shared_base_path : SharedParams → result (option BasePath) CliError;
  shared_chain : SharedParams → option string;

  (** Chain specifications: boxed, and their extensions. *)
  box_spec : ChainSpec → DynChainSpec;
  try_get_extensions : DynChainSpec → option Extensions;
  try_get_box : ∀ s, try_get_extensions (box_spec s) =
    Some {| relay_chain := cs_relay_chain s; para_id := cs_para_id s |};
  key_pairs :: KeyPairs;
  spec_from_json_file : string → result ChainSpec string;

  (** The node's own command: cumulus_client_cli's [RunCmd]. *)
  RunCmd : Type;
  NormalizedRunCmd : Type;
  normalize : RunCmd → NormalizedRunCmd;
  collator_options : RunCmd → CollatorOptions;

  (** The relay chain's: polkadot_cli's [RunCmd], whose [base] is sc_cli's. *)
  PolkadotRunCmd : Type;
  ScRunCmd : Type;
  run_cmd_base : PolkadotRunCmd → ScRunCmd;
  ScRunCmd_configuration :: CliConfiguration ScRunCmd;
  polkadot_load_spec : list string → string → result DynChainSpec string;

  (** The subcommands, and the futures the asynchronous ones run. *)
  BuildSpecCmd : Type;
  CheckBlockCmd : Type;
  ExportBlocksCmd : Type;
  ExportStateCmd : Type;
  ImportBlocksCmd : Type;
  RevertCmd : Type;
  PurgeChainCmd : Type;
  ExportGenesisHeadCommand : Type;
  ExportGenesisWasmCommand : Type;
  export_genesis_wasm_shared_params : ExportGenesisWasmCommand → SharedParams;
  PalletCmd : Type;
  BlockCmd : Type;
  StorageCmd : Type;
  MachineCmd : Type;
  OtherBenchmarkCmd : Type;
  Database : Type;
  Storage : Type;
  expose_db : ParachainBackend → Database;
  expose_storage : ParachainBackend → Storage;
  check_block_run : CheckBlockCmd → ParachainClient → ImportQueue → Future;
  export_blocks_run : ExportBlocksCmd → ParachainClient → DatabaseSource → Future;
  export_state_run : ExportStateCmd → ParachainClient → DynChainSpec → Future;
  import_blocks_run : ImportBlocksCmd → ParachainClient → ImportQueue → Future;
  revert_run : RevertCmd → ParachainClient → ParachainBackend → Future;

  (** The build: executable, version and author, and the feature [runtime-benchmarks]. *)
  executable_name : string;
  SUBSTRATE_CLI_IMPL_VERSION : string;
  CARGO_PKG_AUTHORS : string;
  runtime_benchmarks : bool;

  Runner : Type
}.

(** * The command line (cli.rs) *)

Section Cli.
  Context {SS : ServiceSdk} {CT : CliTypes} {Sys : System} {CS : CliSdk}.

(** [frame_benchmarking_cli::BenchmarkCmd], by the cases that are distinguished. *)
Inductive BenchmarkCmd : Type :=
| Pallet (cmd : PalletCmd)
| Block (cmd : BlockCmd)
| BenchmarkStorage (cmd : StorageCmd)
| Machine (cmd : MachineCmd)
| OtherBenchmark (cmd : OtherBenchmarkCmd).

Inductive Subcommand : Type :=
| BuildSpec (cmd : BuildSpecCmd)
| CheckBlock (cmd : CheckBlockCmd)
| ExportBlocks (cmd : ExportBlocksCmd)
| ExportState (cmd : ExportStateCmd)
| ImportBlocks (cmd : ImportBlocksCmd)
| Revert (cmd : RevertCmd)
| PurgeChain (cmd : PurgeChainCmd)
| ExportGenesisHead (cmd : ExportGenesisHeadCommand)
| ExportGenesisWasm (cmd : ExportGenesisWasmCommand)
| Benchmark (cmd : BenchmarkCmd).

Record Cli : Type := {
  subcommand : option Subcommand;
  cli_run : RunCmd;
  no_hardware_benchmarks : bool;
  relay_chain_args : list string
}.

Record RelayChainCli : Type := {
  rc_base : PolkadotRunCmd;
  rc_chain_id : option string;
  rc_base_path : option PathBuf
}.

(** What a runner is created for: a subcommand, or the node itself. *)
Inductive RunnerCmd : Type :=
| ForSubcommand (s : Subcommand)
| ForNode (cmd : NormalizedRunCmd).

(** * Traits of the two command lines *)

(** [load_spec] of the node, boxed. *)
Definition node_load_spec (id : string) : option (result DynChainSpec string) :=
  r ← load_spec spec_from_json_file id;
  Some match r with
       | Ok s => Ok (box_spec s)
       | Err e => Err e
       end.

Definition cli_description : string :=
  "Parachain Collator Template

The command-line arguments provided first will be passed to the parachain node, while the arguments provided after -- will be passed to the relay chain node.

" +:+ executable_name +:+ " <parachain-args> -- <relay-chain-args>".

#[global] Instance Cli_substrate : SubstrateCli Cli := {
  impl_name := "Parachain Collator Template";
  impl_version := SUBSTRATE_CLI_IMPL_VERSION;
  description := cli_description;
  author := CARGO_PKG_AUTHORS;
  support_url := "https://github.com/paritytech/polkadot-sdk/issues/new";
  copyright_start_year := 2020;
  cli_load_spec := λ _ id, node_load_spec id
}.

#[global] Instance RelayChainCli_substrate : SubstrateCli RelayChainCli := {
  impl_name := "Parachain Collator Template";
  impl_version := SUBSTRATE_CLI_IMPL_VERSION;
  description := cli_description;
  author := CARGO_PKG_AUTHORS;
  support_url := "https://github.com/paritytech/polkadot-sdk/issues/new";
  copyright_start_year := 2020;
  cli_load_spec := λ _ id, Some (polkadot_load_spec [executable_name] id)
}.

#[global] Instance RelayChainCli_defaults : DefaultConfigurationValues RelayChainCli := {
  p2p_listen_port := 30334;
  rpc_listen_port := 9945;
  prometheus_listen_port := 9616
}.

(** [self.shared_params().base_path()?.or_else(|| self.base_path.clone().map(Into::into))]. *)
Definition relay_base_path (c : RelayChainCli) : result (option BasePath) CliError :=
  match shared_base_path (shared_params (run_cmd_base (rc_base c))) with
  | Ok (Some p) => Ok (Some p)
  | Ok None => Ok (BasePath_from <$> rc_base_path c)
  | Err e => Err e
  end.

Definition relay_chain_id (c : RelayChainCli) (is_dev : bool) : result string CliError :=
  match chain_id (run_cmd_base (rc_base c)) is_dev with
  | Ok id => Ok (if decide (id = "") then default "" (rc_chain_id c) else id)
  | Err e => Err e
  end.

#[global] Instance RelayChainCli_configuration : CliConfiguration RelayChainCli := {
  shared_params := λ c, shared_params (run_cmd_base (rc_base c));
  import_params := λ c, import_params (run_cmd_base (rc_base c));
  network_params := λ c, network_params (run_cmd_base (rc_base c));
  keystore_params := λ c, keystore_params (run_cmd_base (rc_base c));
  base_path := relay_base_path;
  rpc_addr := λ c port, rpc_addr (run_cmd_base (rc_base c)) port;
  prometheus_config := λ c port spec, prometheus_config (run_cmd_base (rc_base c)) port spec;
  chain_id := relay_chain_id;
  role := λ c is_dev, role (run_cmd_base (rc_base c)) is_dev;
  transaction_pool := λ c is_dev, transaction_pool (run_cmd_base (rc_base c)) is_dev;
  trie_cache_maximum_size := λ c, trie_cache_maximum_size (run_cmd_base (rc_base c));
  rpc_methods := λ c, rpc_methods (run_cmd_base (rc_base c));
  rpc_max_connections := λ c, rpc_max_connections (run_cmd_base (rc_base c));
  rpc_cors := λ c is_dev, rpc_cors (run_cmd_base (rc_base c)) is_dev;
  default_heap_pages := λ c, default_heap_pages (run_cmd_base (rc_base c));
  force_authoring := λ c, force_authoring (run_cmd_base (rc_base c));
  disable_grandpa := λ c, disable_grandpa (run_cmd_base (rc_base c));
  max_runtime_instances := λ c, max_runtime_instances (run_cmd_base (rc_base c));
  announce_block := λ c, announce_block (run_cmd_base (rc_base c));
  telemetry_endpoints := λ c spec, telemetry_endpoints (run_cmd_base (rc_base c)) spec;
  node_name := λ c, node_name (run_cmd_base (rc_base c))
}.

(** * Calls *)

(** What the commands ask the SDK to do. *)
Inductive NodeCall : Type → Type :=
| service_call {X} (c : ServiceCall X) : NodeCall X
| from_args : NodeCall Cli
| create_runner (cmd : RunnerCmd) : NodeCall (result Runner CliError)
| parse_from (args : list string) : NodeCall PolkadotRunCmd
| create_configuration (cli : RelayChainCli) (tokio_handle : TokioHandle) :
    NodeCall (result Configuration CliError)
| build_spec_run (cmd : BuildSpecCmd) (spec : DynChainSpec) (network : NetworkConfiguration) :
    NodeCall (result unit CliError)
| purge_chain_run (cmd : PurgeChainCmd) (config polkadot_config : Configuration) :
    NodeCall (result unit CliError)
| export_genesis_head_run (cmd : ExportGenesisHeadCommand) (client : ParachainClient) :
    NodeCall (result unit CliError)
| export_genesis_wasm_run (cmd : ExportGenesisWasmCommand) (spec : DynChainSpec) :
    NodeCall (result unit CliError)
| pallet_run_with_spec (cmd : PalletCmd) (spec : option DynChainSpec) :
    NodeCall (result unit CliError)
| block_run (cmd : BlockCmd) (client : ParachainClient) : NodeCall (result unit CliError)
| storage_run (cmd : StorageCmd) (config : Configuration) (client : ParachainClient)
    (db : Database) (storage : Storage) : NodeCall (result unit CliError)
| machine_run (cmd : MachineCmd) (config : Configuration) : NodeCall (result unit CliError)
| create_dir_all (path : PathBuf) : NodeCall (result unit IoError)
| gather_hwbench (path : option PathBuf) : NodeCall HwBench
| info (message : string) : NodeCall unit
| run_until_exit (f : Future) (tm : TaskManager) : NodeCall (result unit CliError)
| wait_for_tasks (tm : TaskManager) : NodeCall (result unit CliError).

End Cli.

Abbreviation NodeProg := (prog NodeCall CliError).

(** [sc_cli::Runner]: [sync_run] calls the closure with the runner's
    configuration; [async_run] then runs the future the closure gives until it ends
    or the process is told to; [run_node_until_exit] runs the node's tasks so. *)
Class CliRunner {SS : ServiceSdk} {CT : CliTypes} {Sys : System} {CS : CliSdk} := {
  runner_config : Runner → Configuration;
  sync_run : Runner → (Configuration → NodeProg unit) → NodeProg unit;
  async_run : Runner → (Configuration → NodeProg (Future * TaskManager)) → NodeProg unit;
  run_node_until_exit : Runner → (Configuration → NodeProg TaskManager) → NodeProg unit;
  sync_run_eq : ∀ r f, sync_run r f = f (runner_config r);
  async_run_eq : ∀ r f, async_run r f =
    ('(fut, tm) ← f (runner_config r); try_call id (run_until_exit fut tm));
  run_node_until_exit_eq : ∀ r f, run_node_until_exit r f =
    (tm ← f (runner_config r); try_call id (wait_for_tasks tm))
}.

Section Run.
  Context {SS : ServiceSdk} {CT : CliTypes} {Sys : System} {CS : CliSdk} {CR : CliRunner}.

(** A function of the service, called where [sc_cli::Error] is returned. *)
Definition in_service {A} (p : prog ServiceCall ServiceError A) : NodeProg A :=
  convert_error from_service_error (translate (@service_call _ _ _ _) p).

(** [RelayChainCli::new]. *)
Definition RelayChainCli_new (para_config : Configuration) (args : list string) :
    NodeProg RelayChainCli :=
  let extension := try_get_extensions (cfg_chain_spec para_config) in
  let chain_id := relay_chain <$> extension in
  let base_path := path_join (cfg_base_path para_config) "polkadot" in
  base ← call (parse_from args);
  mret {| rc_base_path := Some base_path; rc_chain_id := chain_id; rc_base := base |}.

(** [CliConfiguration::init] of [RelayChainCli]. *)
Definition relay_init (support_url impl_version : string) : NodeProg unit :=
  Panic "internal error: entered unreachable code: PolkadotCli is never initialized; qed".

(** The macro [construct_async_run!]. *)
Definition construct_async_run (cmd : Subcommand)
    (code : Service → Configuration → result Future CliError) : NodeProg unit :=
  runner ← try_call id (create_runner (ForSubcommand cmd));
  async_run runner (λ config,
    components ← in_service (new_partial config);
    let task_manager := pc_task_manager components in
    question (match code components config with
              | Ok v => Ok (v, task_manager)
              | Err e => Err e
              end)).

(** A runner for a subcommand, running a closure. *)
Definition sync_subcommand (cmd : Subcommand) (f : Configuration → NodeProg unit) : NodeProg unit :=
  runner ← try_call id (create_runner (ForSubcommand cmd));
  sync_run runner f.

(** The relay chain's configuration, from the arguments after [--]. *)
Definition relay_configuration (args : list string) (config : Configuration) : NodeProg Configuration :=
  polkadot_cli ← RelayChainCli_new config (executable_name :: args);
  try_call (λ err, Input ("Relay chain argument error: " +:+ display_error err))
    (create_configuration polkadot_cli (cfg_tokio_handle config)).

Definition run_benchmark (cmd : BenchmarkCmd) : NodeProg unit :=
  runner ← try_call id (create_runner (ForSubcommand (Benchmark cmd)));
  match cmd with
  | Pallet cmd =>
    if runtime_benchmarks then
      sync_run runner (λ config,
        try_call id (pallet_run_with_spec cmd (Some (cfg_chain_spec config))))
    else Throw (Input "Benchmarking wasn't enabled when building the node. You can enable it with `--features runtime-benchmarks`.")
  | Block cmd =>
    sync_run runner (λ config,
      partials ← in_service (new_partial config);
      try_call id (block_run cmd (pc_client partials)))
  | BenchmarkStorage cmd =>
    if runtime_benchmarks then
      sync_run runner (λ config,
        partials ← in_service (new_partial config);
        let db := expose_db (pc_backend partials) in
        let storage := expose_storage (pc_backend partials) in
        try_call id (storage_run cmd config (pc_client partials) db storage))
    else Throw (Input "Compile with --features=runtime-benchmarks to enable storage benchmarks.")
  | Machine cmd => sync_run runner (λ config, try_call id (machine_run cmd config))
  | OtherBenchmark _ => Throw (Input "Benchmarking sub-command unsupported")
  end.

(** The hardware benchmarks of the node's machine, unless they are switched off
    or the database has no path. *)
Definition hardware_benchmarks (cli : Cli) (config : Configuration) : NodeProg (option HwBench) :=
  if negb (no_hardware_benchmarks cli) then
    match database_path (cfg_database config) with
    | None => mret None
    | Some database_path =>
      _ ← call (create_dir_all database_path);
      hwbench ← call (gather_hwbench (Some database_path));
      mret (Some hwbench)
    end
  else mret None.

Definition start_node (cli : Cli) (options : CollatorOptions) (config : Configuration) :
    NodeProg TaskManager :=
  hwbench ← hardware_benchmarks cli config;
  para_id ← question (match try_get_extensions (cfg_chain_spec config) with
    | Some e => Ok (para_id e)
    | None => Err (Input "Could not find parachain ID in chain-spec.")
    end);
  polkadot_cli ← RelayChainCli_new config (executable_name :: relay_chain_args cli);
  let id := ParaId_from para_id in
  let tokio_handle := cfg_tokio_handle config in
  polkadot_config ← try_call (λ err, Input ("Relay chain argument error: " +:+ display_error err))
    (create_configuration polkadot_cli tokio_handle);
  call (info (if is_authority (cfg_role config) then "Is collating: yes" else "Is collating: no"));;
  r ← in_service (start_parachain_node config polkadot_config options id hwbench);
  mret r.1.

Definition run_subcommand (cli : Cli) (s : Subcommand) : NodeProg unit :=
  match s with
  | BuildSpec cmd =>
    sync_subcommand s (λ config,
      try_call id (build_spec_run cmd (cfg_chain_spec config) (cfg_network config)))
  | CheckBlock cmd =>
    construct_async_run s (λ components _,
      Ok (check_block_run cmd (pc_client components) (pc_import_queue components)))
  | ExportBlocks cmd =>
    construct_async_run s (λ components config,
      Ok (export_blocks_run cmd (pc_client components) (cfg_database config)))
  | ExportState cmd =>
    construct_async_run s (λ components config,
      Ok (export_state_run cmd (pc_client components) (cfg_chain_spec config)))
  | ImportBlocks cmd =>
    construct_async_run s (λ components _,
      Ok (import_blocks_run cmd (pc_client components) (pc_import_queue components)))
  | Revert cmd =>
    construct_async_run s (λ components _,
      Ok (revert_run cmd (pc_client components) (pc_backend components)))
  | PurgeChain cmd =>
    sync_subcommand s (λ config,
      polkadot_config ← relay_configuration (relay_chain_args cli) config;
      try_call id (purge_chain_run cmd config polkadot_config))
  | ExportGenesisHead cmd =>
    sync_subcommand s (λ config,
      partials ← in_service (new_partial config);
      try_call id (export_genesis_head_run cmd (pc_client partials)))
  | ExportGenesisWasm cmd =>
    sync_subcommand s (λ _,
      r ← expect (node_load_spec (default "" (shared_chain (export_genesis_wasm_shared_params cmd))))
            "valid dev seed";
      spec ← question (map_err Input r);
      try_call id (export_genesis_wasm_run cmd spec))
  | Benchmark cmd => run_benchmark cmd
  end.

(** [command::run]. *)
Definition command_run : NodeProg unit :=
  cli ← call from_args;
  match subcommand cli with
  | Some s => run_subcommand cli s
  | None =>
    runner ← try_call id (create_runner (ForNode (normalize (cli_run cli))));
    let options := collator_options (cli_run cli) in
    run_node_until_exit runner (start_node cli options)
  end.

(** [main]. *)
Definition main : NodeProg unit := command_run.

End Run.
