(* ===== verification/CommandProps.v ===== *)
(** What the node's commands do: the calls of each command, its own errors, and
    which chain the node starts. *)

From S2P Require Export Command ServiceProps.
#[local] Open Scope Z_scope.

(** The calls of [NodeCall] without their arguments. *)
Inductive NodeStep : Type :=
| InService (s : Step)
| ParseArgs
| CreateRunner
| ParseRelayArgs
| ConfigureRelay
| RunCommand
| CreateDatabaseDir
| GatherHwbench
| LogInfo
| RunFuture
| WaitForTasks.

Section Props.
  Context {SS : ServiceSdk} {CT : CliTypes} {Sys : System} {CS : CliSdk} {CR : CliRunner}.

(** Loading a specification does not panic. *)
Lemma node_load_spec_total id : is_Some (node_load_spec id).
Proof. unfold node_load_spec. destruct (load_spec_total spec_from_json_file id) as [r ->]. by eexists. Qed.

Definition node_label {X} (c : NodeCall X) : NodeStep :=
  match c with
  | service_call c => InService (service_label c)
  | from_args => ParseArgs
  | create_runner _ => CreateRunner
  | parse_from _ => ParseRelayArgs
  | create_configuration _ _ => ConfigureRelay
  | create_dir_all _ => CreateDatabaseDir
  | gather_hwbench _ => GatherHwbench
  | info _ => LogInfo
  | run_until_exit _ _ => RunFuture
  | wait_for_tasks _ => WaitForTasks
  | _ => RunCommand
  end.

(** The message of a relay chain argument error. *)
Definition relay_error (e : CliError) : CliError :=
  Input ("Relay chain argument error: " +:+ display_error e).

Definition cli_error_of {A} (into : CliError → CliError) (r : result A CliError) : option CliError :=
  match r with Ok _ => None | Err e => Some (into e) end.

(** The error a failed call ends a command with.  A failure to create the
    database's directory is ignored. *)
Definition node_failure {X} (c : NodeCall X) : X → option CliError :=
  match c in NodeCall X return X → option CliError with
  | service_call c => λ x, from_service_error <$> service_failure c x
  | create_runner _ => cli_error_of id
  | create_configuration _ _ => cli_error_of relay_error
  | build_spec_run _ _ _ => cli_error_of id
  | purge_chain_run _ _ _ => cli_error_of id
  | export_genesis_head_run _ _ => cli_error_of id
  | export_genesis_wasm_run _ _ => cli_error_of id
  | pallet_run_with_spec _ _ => cli_error_of id
  | block_run _ _ => cli_error_of id
  | storage_run _ _ _ _ _ => cli_error_of id
  | machine_run _ _ => cli_error_of id
  | run_until_exit _ _ => cli_error_of id
  | wait_for_tasks _ => cli_error_of id
  | _ => λ _, None
  end.

#[global] Instance node_interface : Interface NodeCall NodeStep CliError := {
  label := λ X, node_label;
  failure := λ X, node_failure
}.

(** * Plans *)

(** The benchmarks gathered at the start, when the machine's benchmark is [b]. *)
Definition measured (cli : Cli) config (b : HwBench) : option HwBench :=
  if no_hardware_benchmarks cli then None
  else match database_path (cfg_database config) with None => None | Some _ => Some b end.

(** The node's command for a chain that names its parachain. *)
Definition start_plan (cli : Cli) config (b : HwBench) : list NodeStep :=
  (if measured cli config b is Some _ then [CreateDatabaseDir; GatherHwbench] else []) ++
  [ParseRelayArgs; ConfigureRelay; LogInfo] ++
  (InService <$> startup_plan (prepare_node_config config) (measured cli config b)).

Definition partial_steps config : list NodeStep := InService <$> new_partial_plan config.

Definition benchmark_plan config (cmd : BenchmarkCmd) : list NodeStep :=
  match cmd with
  | Block _ => partial_steps config ++ [RunCommand]
  | BenchmarkStorage _ => when runtime_benchmarks (partial_steps config) ++ [RunCommand]
  | _ => [RunCommand]
  end.

Definition subcommand_plan config (s : Subcommand) : list NodeStep :=
  match s with
  | BuildSpec _ | ExportGenesisWasm _ => [RunCommand]
  | CheckBlock _ | ExportBlocks _ | ExportState _ | ImportBlocks _ | Revert _ =>
      partial_steps config ++ [RunFuture]
  | PurgeChain _ => [ParseRelayArgs; ConfigureRelay; RunCommand]
  | ExportGenesisHead _ => partial_steps config ++ [RunCommand]
  | Benchmark cmd => benchmark_plan config cmd
  end.

Definition command_plan (cli : Cli) config (b : HwBench) : list NodeStep :=
  [ParseArgs; CreateRunner] ++
  match subcommand cli with
  | Some s => subcommand_plan config s
  | None => start_plan cli config b ++ [WaitForTasks]
  end.

(** The error a command ends with by itself, although no call fails. *)
Definition own_error (cli : Cli) config : option CliError :=
  match subcommand cli with
  | None =>
      match try_get_extensions (cfg_chain_spec config) with
      | Some _ => None
      | None => Some (Input "Could not find parachain ID in chain-spec.")
      end
  | Some (ExportGenesisWasm cmd) =>
      match node_load_spec (default "" (shared_chain (export_genesis_wasm_shared_params cmd))) with
      | Some (Err e) => Some (Input e)
      | _ => None
      end
  | Some (Benchmark (Pallet _)) =>
      if runtime_benchmarks then None
      else Some (Input "Benchmarking wasn't enabled when building the node. You can enable it with `--features runtime-benchmarks`.")
  | Some (Benchmark (BenchmarkStorage _)) =>
      if runtime_benchmarks then None
      else Some (Input "Compile with --features=runtime-benchmarks to enable storage benchmarks.")
  | Some (Benchmark (OtherBenchmark _)) => Some (Input "Benchmarking sub-command unsupported")
  | _ => None
  end.

(** * Wiring *)

(** In the world [w] the components opened are [p]. *)
Definition node_opens (w : World NodeCall) (p : Parts) : Prop :=
  ∀ past config t executor b,
    w past _ (service_call (new_full_parts_record_import config t executor b)) =
    Ok (client p, backend p, container p, tasks p).

(** What the calls of the node's command are given, for the chain [e]. *)
Definition node_wired (cli : Cli) config (e : Extensions) (p : Parts) (ev : event NodeCall) : Prop :=
  match ev_call ev in NodeCall X return X → Prop with
  | service_call c => λ x, ∃ polkadot,
      wired (prepare_node_config config) polkadot (ParaId_from (para_id e)) p (Event c x)
  | parse_from args => λ _, args = executable_name :: relay_chain_args cli
  | create_configuration c t => λ _,
      rc_chain_id c = Some (relay_chain e) ∧
      rc_base_path c = Some (path_join (cfg_base_path config) "polkadot") ∧
      t = cfg_tokio_handle config
  | gather_hwbench path => λ _, path = database_path (cfg_database config)
  | _ => λ _, True
  end (ev_answer ev).

(** The answers a command is run with: its arguments, a runner with its
    configuration, and the benchmark of the machine. *)
Record session (w : World NodeCall) (cli : Cli) (r : Runner) (b : HwBench) : Prop := {
  session_args : ∀ past, w past _ from_args = cli;
  session_runner : ∀ past cmd r', w past _ (create_runner cmd) = Ok r' → r' = r;
  session_bench : ∀ past path, w past _ (gather_hwbench path) = b
}.

(** Why a command stops although no call failed. *)
Definition stops_of (w : World NodeCall) (cli : Cli) config (b : HwBench) (o : option CliError) : Prop :=
  match o with
  | Some e => own_error cli config = Some e
  | None => subcommand cli = None ∧ is_authority (cfg_role (prepare_node_config config)) = true ∧
      ∃ past polkadot wh tm rci,
        w past _ (service_call (build_relay_chain_interface polkadot (prepare_node_config config) wh tm
          (collator_options (cli_run cli)) (measured cli config b))) = Ok (rci, None)
  end.

(** What the events of a command satisfy: the node's command is wired. *)
Definition command_events (w : World NodeCall) (cli : Cli) config (ev : event NodeCall) : Prop :=
  subcommand cli = None → ∀ e, try_get_extensions (cfg_chain_spec config) = Some e →
  ∀ p, node_opens w p → node_wired cli config e p ev.

(** Closes what a call must satisfy where that is plain. *)
Ltac by_node_wiring := unfold command_events, node_wired; cbn; intros; simplify_eq; eauto.
Ltac node_step :=
  cbv beta iota; cbn [when app];
  lazymatch goal with
  | |- implements _ _ (call _ ≫= _) (?l :: ?plan) _ _ =>
      apply (implements_bind _ _ _ _ [l] plan (λ _, True));
        [apply implements_call; [done..|split; [by_node_wiring|done]]|intros ? _]
  | |- implements _ _ (try_call _ _ ≫= _) (?l :: ?plan) _ _ =>
      apply (implements_bind _ _ _ _ [l] plan (λ _, True));
        [apply implements_try; [done..|by_node_wiring|done]|intros ? _]
  | |- implements _ _ (try_call _ _) [_] _ _ => apply implements_try; [done..|by_node_wiring|try done]
  end.

Section Run.
  Variables (w : World NodeCall) (cli : Cli) (r : Runner) (b : HwBench).
  Hypothesis Hsession : session w cli r b.

Abbreviation config := (runner_config r).
Abbreviation follows := (implements w (command_events w cli config)).

Lemma opens_restrict past p : node_opens w p → opens (restrict (@service_call _ _ _ _) w past) p.
Proof. intros Hp past'. intros. apply Hp. Qed.

Lemma in_service_follows {A} (p : prog ServiceCall ServiceError A) plan Q P P' :
  (∀ o, P o → P' (from_service_error <$> o)) →
  (∀ past, implements (restrict (@service_call _ _ _ _) w past)
     (λ ev, command_events w cli config (inject (@service_call _ _ _ _) ev)) p plan Q P) →
  follows (in_service p) (InService <$> plan) Q P'.
Proof. intros HP Hp. by apply (implements_translate _ InService) with (P := P). Qed.

Lemma partial_follows P :
  subcommand cli ≠ None →
  follows (in_service (new_partial config)) (partial_steps config) (λ _, True) P.
Proof.
  intros Hs. eapply in_service_follows with (P := λ _, False); [by intros ? []|].
  intros past. eapply implements_events; [|eapply implements_weaken;
    [apply (new_partial_follows _ config config (ParaId_from 0) (λ _, False))|done|done]].
  by intros ev _ Hn.
Qed.

Lemma sync_subcommand_follows s f plan :
  subcommand cli ≠ None →
  follows (f config) plan (λ _, own_error cli config = None) (stops_of w cli config b) →
  follows (sync_subcommand s f) (CreateRunner :: plan) (λ _, own_error cli config = None) (stops_of w cli config b).
Proof.
  intros Hs Hf. unfold sync_subcommand.
  apply (implements_bind _ _ _ _ [CreateRunner] _ (λ r', r' = r)).
  { apply implements_try; [done..|by_node_wiring|]. intros past r' Hr. by eapply session_runner in Hr. }
  intros ? ->. by rewrite sync_run_eq.
Qed.

Lemma construct_async_run_follows s fut :
  subcommand cli ≠ None → own_error cli config = None →
  follows (construct_async_run s (λ c cfg, Ok (fut c cfg))) (CreateRunner :: partial_steps config ++ [RunFuture])
    (λ _, own_error cli config = None) (stops_of w cli config b).
Proof.
  intros Hs He. unfold construct_async_run.
  apply (implements_bind _ _ _ _ [CreateRunner] _ (λ r', r' = r)).
  { apply implements_try; [done..|by_node_wiring|]. intros past r' Hr. by eapply session_runner in Hr. }
  intros ? ->. rewrite async_run_eq. apply (implements_bind _ _ _ _ _ [RunFuture] (λ _, True)).
  - rewrite <- (app_nil_r (partial_steps config)).
    eapply implements_bind; [by apply partial_follows|]. intros c _. by apply implements_return.
  - intros [f tm] _. by apply implements_try; [done..|by_node_wiring|].
Qed.

Lemma then_run_follows (c : Service → NodeCall (result unit CliError)) :
  subcommand cli ≠ None → own_error cli config = None →
  (∀ s, node_label (c s) = RunCommand ∧ ∀ x, node_failure (c s) x = cli_error_of id x) →
  follows (partials ← in_service (new_partial config); try_call id (c partials))
    (partial_steps config ++ [RunCommand]) (λ _, own_error cli config = None) (stops_of w cli config b).
Proof.
  intros Hs He Hc. eapply implements_bind; [by apply partial_follows|]. intros s _.
  apply implements_try; [apply Hc|apply Hc|by_node_wiring|done].
Qed.

Lemma run_benchmark_follows cmd :
  subcommand cli = Some (Benchmark cmd) →
  follows (run_benchmark cmd) (CreateRunner :: benchmark_plan config cmd)
    (λ _, own_error cli config = None) (stops_of w cli config b).
Proof.
  intros Hs. assert (subcommand cli ≠ None) as Hn by congruence. unfold run_benchmark.
  apply (implements_bind _ _ _ _ [CreateRunner] _ (λ r', r' = r)).
  { apply implements_try; [done..|by_node_wiring|]. intros past r' Hr. by eapply session_runner in Hr. }
  intros ? ->.
  assert (own_error cli config = match cmd with
    | Pallet _ => if runtime_benchmarks then None else Some (Input "Benchmarking wasn't enabled when building the node. You can enable it with `--features runtime-benchmarks`.")
    | BenchmarkStorage _ => if runtime_benchmarks then None else Some (Input "Compile with --features=runtime-benchmarks to enable storage benchmarks.")
    | OtherBenchmark _ => Some (Input "Benchmarking sub-command unsupported")
    | _ => None end) as He by (unfold own_error; rewrite Hs; by destruct cmd).
  destruct cmd as [c|c|c|c|c]; cbn [benchmark_plan]; rewrite ?sync_run_eq.
  - destruct runtime_benchmarks; [by node_step|by apply implements_throw].
  - by apply (then_run_follows (λ s, block_run c (pc_client s))).
  - destruct runtime_benchmarks; cbn [when app]; [|by apply implements_throw].
    by apply (then_run_follows (λ s, storage_run c config (pc_client s)
      (expose_db (pc_backend s)) (expose_storage (pc_backend s)))).
  - by node_step.
  - by apply implements_throw.
Qed.

Lemma run_subcommand_follows s :
  subcommand cli = Some s →
  follows (run_subcommand cli s) (CreateRunner :: subcommand_plan config s)
    (λ _, own_error cli config = None) (stops_of w cli config b).
Proof.
  intros Hs. assert (subcommand cli ≠ None) as Hn by congruence.
  destruct s as [c|c|c|c|c|c|c|c|c|c]; cbn [run_subcommand subcommand_plan].
  10: by apply run_benchmark_follows.
  2-6: apply construct_async_run_follows; [done|unfold own_error; by rewrite Hs].
  all: apply sync_subcommand_follows; [done|].
  - assert (own_error cli config = None) by (unfold own_error; by rewrite Hs). by node_step.
  - assert (own_error cli config = None) by (unfold own_error; by rewrite Hs).
    apply (implements_bind _ _ _ _ [ParseRelayArgs; ConfigureRelay] _ (λ _, True));
      [|intros pc _; by node_step].
    unfold relay_configuration, RelayChainCli_new.
    apply (implements_bind _ _ _ _ [ParseRelayArgs] _ (λ _, True)); [|intros rc _; by node_step].
    rewrite <- (app_nil_r [ParseRelayArgs]).
    apply (implements_bind _ _ _ _ _ _ (λ _, True)); [|intros base _; by apply implements_return].
    by apply implements_call; [done..|split; [by_node_wiring|]].
  - apply (then_run_follows (λ s, export_genesis_head_run c (pc_client s))); [done| |done].
    unfold own_error; by rewrite Hs.
  - assert (own_error cli config =
      match node_load_spec (default "" (shared_chain (export_genesis_wasm_shared_params c))) with
      | Some (Err e) => Some (Input e) | _ => None end) as He by (unfold own_error; by rewrite Hs).
    destruct (node_load_spec_total (default "" (shared_chain (export_genesis_wasm_shared_params c)))) as [loaded Hl].
    rewrite Hl in *. unfold mbind, prog_bind. cbn [expect bind_prog]. destruct loaded as [spec|e];
      cbn [map_err question bind_prog]; [by node_step|by apply implements_throw].
Qed.

Lemma hardware_benchmarks_follows P :
  follows (hardware_benchmarks cli config)
    (if measured cli config b is Some _ then [CreateDatabaseDir; GatherHwbench] else [])
    (λ h, h = measured cli config b) P.
Proof.
  unfold hardware_benchmarks, measured.
  destruct (no_hardware_benchmarks cli); [by apply implements_return|]. cbn [negb].
  destruct (database_path (cfg_database config)) as [path|] eqn:Hp; [|by apply implements_return].
  node_step. rewrite <- (app_nil_r [GatherHwbench]).
  apply (implements_bind _ _ _ _ _ _ (λ h, h = b)); [|intros ? ->; by apply implements_return].
  apply implements_call; [done..|]. intros past.
  split; [by_node_wiring|by eapply session_bench].
Qed.

Lemma start_node_cli_follows :
  subcommand cli = None →
  follows (start_node cli (collator_options (cli_run cli)) config) (start_plan cli config b)
    (λ _, own_error cli config = None) (stops_of w cli config b).
Proof.
  intros Hs. unfold start_node, start_plan.
  eapply implements_bind; [apply hardware_benchmarks_follows|]. intros ? ->.
  destruct (try_get_extensions (cfg_chain_spec config)) as [e|] eqn:Hext;
    unfold mbind at 1, prog_bind at 1; cbn [question bind_prog].
  2:{ apply implements_throw. cbn. unfold own_error. by rewrite Hs, Hext. }
  unfold RelayChainCli_new.
  apply (implements_bind _ _ _ _ [ParseRelayArgs] _ (λ c, rc_chain_id c = Some (relay_chain e) ∧
    rc_base_path c = Some (path_join (cfg_base_path config) "polkadot"))).
  { rewrite <- (app_nil_r [ParseRelayArgs]).
    apply (implements_bind _ _ _ _ _ _ (λ _, True)); [|intros base _; apply implements_return; by rewrite Hext].
    by apply implements_call; [done..|split; [by_node_wiring|]]. }
  intros rc [Hid Hpath].
  apply (implements_bind _ _ _ _ [ConfigureRelay] _ (λ _, True)).
  { apply implements_try; [done..| |done]. intros past _ e' He' p _. cbn. by simplify_eq. }
  intros polkadot _. node_step.
  rewrite <- (app_nil_r (InService <$> _)).
  apply (implements_bind _ _ _ _ _ _ (λ _, True)).
  2:{ intros res _. apply implements_return. unfold own_error. by rewrite Hs, Hext. }
  eapply in_service_follows with (P := λ o, o = None ∧ stops_of w cli config b None).
  2:{ intros past. eapply implements_weaken; [eapply implements_events; [|apply start_node_follows]|done|].
      - intros ev Hev _ e' He' p Hp. rewrite Hext in He'. simplify_eq. exists polkadot.
        destruct ev as [X c x]. apply Hev. by apply opens_restrict.
      - intros o [-> (Hauth & past' & wh & tm & rci & Hr)]. split; [done|].
        cbn. split_and!; [done..|]. by eexists _, polkadot, wh, tm, rci. }
  by intros o [-> Hstop].
Qed.

Lemma command_follows :
  implements w (command_events w cli config) (command_run) (command_plan cli config b)
    (λ _, own_error cli config = None) (stops_of w cli config b).
Proof.
  unfold command_run, command_plan. cbn [app].
  apply (implements_bind _ _ _ _ [ParseArgs] _ (λ c, c = cli)).
  { apply implements_call; [done..|]. intros past. split; [by_node_wiring|by eapply session_args]. }
  intros ? ->. destruct (subcommand cli) as [s|] eqn:Hs; [by apply run_subcommand_follows|].
  apply (implements_bind _ _ _ _ [CreateRunner] _ (λ r', r' = r)).
  { apply implements_try; [done..|by_node_wiring|]. intros past r' Hr. by eapply session_runner in Hr. }
  intros ? ->. rewrite run_node_until_exit_eq.
  eapply implements_bind; [by apply start_node_cli_follows|]. intros tm He.
  by apply implements_try; [done..|by_node_wiring|].
Qed.
End Run.

(** * Theorems about the commands *)

(** C20: a command is its plan.  Whatever the arguments and whatever the SDK
    answers, the calls made are those of [command_plan] in order, until one fails:
    then the command ends with its error, converted.  Without a failure it ends
    well after all of the plan, except for the errors of its own: a chain
    specification without parachain identifier, an unreadable specification for
    the genesis wasm, benchmarks that are not built in; a command that has such an
    error never ends well.  The only panic is that of an authority without
    collator key. *)
Theorem command_follows_plan w cli r b past :
  session w cli r b →
  let config := runner_config r in
  let plan := command_plan cli config b in
  let '(tr, o) := run w past command_run in
  match o with
  | Returned _ => ev_label <$> tr = plan ∧ all_succeed tr ∧ own_error cli config = None
  | Threw e => stopped_by_failure tr plan e ∨
      stopped_by_itself tr plan (own_error cli config = Some e)
  | Panicked _ => stopped_by_itself tr plan (subcommand cli = None ∧
      is_authority (cfg_role (prepare_node_config config)) = true)
  end.
Proof.
  intros Hs. pose proof (command_follows w cli r b Hs past) as H. cbv zeta.
  destruct (run w past _) as [tr o]. destruct H as (_ & H). destruct o; [done..|].
  destruct H as (Hp & Ha & Hn & Hauth & _). by split.
Qed.

Lemma service_steps_of_partial (st : Step) config :
  InService st ∈ partial_steps config ↔ st ∈ new_partial_plan config.
Proof.
  unfold partial_steps. rewrite list_elem_of_fmap. split; [|by eauto].
  by intros (? & [= ->] & ?).
Qed.

Lemma subcommand_service_steps st config s :
  InService st ∈ [ParseArgs; CreateRunner] ++ subcommand_plan config s → st ∈ new_partial_plan config.
Proof.
  rewrite <- service_steps_of_partial. intros H.
  destruct s as [| | | | | | | | |[| | | |]]; cbn in H; unfold when in H; try destruct runtime_benchmarks;
    set_solver.
Qed.

(** Only the node's own command starts a node.  A subcommand, in whatever way
    it ends, asks the service for nothing but the components of [new_partial]: it
    never connects to the relay chain, never starts the network, and spawns no
    task but the telemetry worker. *)
Theorem subcommands_start_no_node w cli r b past s st :
  session w cli r b → subcommand cli = Some s →
  InService st ∈ ev_label <$> (run w past command_run).1 →
  st ∈ new_partial_plan (runner_config r).
Proof.
  intros Hs Hsub Hst. apply (subcommand_service_steps _ _ s).
  eapply implements_in_plan in Hst; [|by apply command_follows].
  unfold command_plan in Hst. by rewrite Hsub in Hst.
Qed.

(** C22: the chain a node starts is the one its specification names.  For the
    specifications that come with the node (for no [--chain] at all, too), all that
    the network, the relay chain tasks and consensus get is parachain 2000, and the
    relay chain's own configuration is that of "rococo-local" below the parachain's
    base path, unless the arguments after [--] say otherwise. *)
Theorem default_chain w cli r b p past id :
  session w cli r b → node_opens w p → subcommand cli = None →
  id ∈ ["dev"; "template-rococo"; ""; "local"] →
  node_load_spec id = Some (Ok (cfg_chain_spec (runner_config r))) →
  Forall (λ ev : event NodeCall, match ev_call ev with
    | service_call (build_network n) => bn_para_id n = ParaId_from 2000
    | service_call (start_relay_chain_tasks t) => rt_para_id t = ParaId_from 2000
    | service_call (aura_run a) => ap_para_id a = ParaId_from 2000
    | create_configuration c _ =>
        (∀ is_dev, chain_id (run_cmd_base (rc_base c)) is_dev = Ok "" →
          chain_id c is_dev = Ok "rococo-local") ∧
        (shared_base_path (shared_params c) = Ok None →
          base_path c = Ok (Some (BasePath_from (path_join (cfg_base_path (runner_config r)) "polkadot"))))
    | _ => True
    end) (run w past command_run).1.
Proof.
  intros Hs Hp Hsub Hid Hspec. set (config := runner_config r) in *.
  assert (try_get_extensions (cfg_chain_spec config) =
    Some {| relay_chain := "rococo-local"; para_id := 2000 |}) as Hext.
  { unfold node_load_spec in Hspec.
    destruct (load_spec _ id) as [[sp|]|] eqn:Hl; [|done..].
    injection Hspec as Hspec. rewrite <- Hspec, try_get_box.
    by destruct (built_in_specs_valid _ _ _ Hid Hl) as (_ & _ & _ & -> & _ & ->). }
  pose proof (command_follows w cli r b Hs past) as H. destruct (run w past _) as [tr o].
  destruct H as (Hev & _). eapply Forall_impl; [exact Hev|]. clear -Hsub Hext Hp.
  intros [X c x] H. specialize (H Hsub _ Hext p Hp). unfold node_wired in H. cbn in H |- *.
  destruct c as [X c| | | |rc t| | | | | | | | | | | | | ]; try done.
  - destruct H as [polkadot H]. destruct c; try done; cbn in H; naive_solver.
  - destruct H as (Hid & Hpath & _). split.
    + intros is_dev Hq. cbn. unfold relay_chain_id. by rewrite Hq, decide_True, Hid.
    + intros Hq. cbn in Hq |- *. unfold relay_base_path. by rewrite Hq, Hpath.
Qed.

End Props.
