(* ===== verification/ConcreteNode.v ===== *)
(** A concrete SDK under the node, worlds that answer its calls, and the witnesses
    of the theorems about the node. *)

From S2P Require Export CommandProps.
#[local] Open Scope Z_scope.

(** * The SDK *)

(** A configuration: its role, telemetry and off-chain workers, heap pages, the
    path of its database and the extensions of its chain specification. *)
Record ExampleConfig : Type := {
  ec_authority : bool;
  ec_telemetry : bool;
  ec_offchain : bool;
  ec_heap_pages : option Z;
  ec_database : option string;
  ec_spec : option Extensions
}.

(** A module of RPC methods is the list of their names; none is registered twice. *)
Definition example_merge (methods : list string) : ST (list string) string unit := λ m,
  if bool_decide (NoDup (m ++ methods)) then (m ++ methods, Ok tt) else (m, Err "already registered").

Definition example_service : ServiceSdk := {|
  Configuration := ExampleConfig; TelemetryEndpoints := unit; endpoints_is_empty := λ _, false;
  cfg_telemetry_endpoints := λ c, if ec_telemetry c then Some tt else None;
  WasmExecutionMethod := unit; cfg_wasm_method := λ _, tt;
  cfg_default_heap_pages := ec_heap_pages; cfg_max_runtime_instances := λ _, 8;
  cfg_runtime_cache_size := λ _, 2; Role := bool; is_authority := id; cfg_role := ec_authority;
  TransactionPoolOptions := unit; cfg_transaction_pool := λ _, tt; Registry := unit;
  prometheus_registry := λ _, None; NetworkConfiguration := unit; cfg_network := λ _, tt;
  cfg_offchain_worker_enabled := ec_offchain; prepare_node_config := id; ServiceError := string;
  TelemetryError := string; IoError := string; RelayChainError := string;
  from_telemetry_error := id; from_io_error := id; Application := id; TelemetryWorker := unit;
  TelemetryWorkerHandle := unit; Telemetry := unit; TelemetryHandle := unit;
  worker_handle := λ _, tt; telemetry_handle := λ _, tt; Future := unit; TaskManager := Z;
  SpawnTaskHandle := Z; SpawnEssentialTaskHandle := Z; spawn_handle := id;
  spawn_essential_handle := id; worker_run := λ _, tt; HeapAllocStrategy := option Z;
  DEFAULT_HEAP_ALLOC_STRATEGY := None; HeapAllocStrategy_Static := Some; ExecutorBuilder := unit;
  ParachainExecutor := unit; executor_builder := tt; with_execution_method := λ _ _, tt;
  with_onchain_heap_alloc_strategy := λ _ _, tt; with_offchain_heap_alloc_strategy := λ _ _, tt;
  with_max_runtime_instances := λ _ _, tt; with_runtime_cache_size := λ _ _, tt;
  executor_build := λ _, tt; ParachainClient := Z; ParachainBackend := Z; KeystoreContainer := Z;
  Keystore := Z; keystore := id; OffchainStorage := unit; offchain_storage := λ _, None;
  Hash := unit; BlockchainError := unit; ValidationCode := unit; ValidationCodeHash := unit;
  code_hash := λ _, tt; TransactionPoolBuilder := unit; TransactionPool := Z;
  pool_builder := λ _ _ _, tt; with_options := λ _ _, tt; with_prometheus := λ _ _, tt;
  OffchainTransactionPoolFactory := unit; offchain_pool_factory := λ _, tt;
  ParachainBlockImport := unit; block_import_new := λ _ _, tt; ImportQueue := unit;
  ImportQueueService := unit; import_queue_service := λ _, tt; InherentData := unit;
  FullNetworkConfiguration := unit; network_configuration_new := λ _ _, tt; Network := Z;
  SystemRpcTx := unit; TxHandlerController := unit; SyncingService := Z;
  RelayChainInterface := Z; CollatorPair := unit; CollatorOptions := unit; ParaId := Z;
  OverseerHandle := Z; AnnounceData := unit; HwBench := unit; HardwareError := unit;
  check_hardware := λ _ _, Err tt; initialize_hwbench_telemetry := λ _ _, tt;
  OffchainWorkers := unit; offchain_workers_run := λ _ _ _, tt; ProposerFactory := unit;
  Proposer := unit; proposer_new := λ _, tt; CollatorService := unit; RpcModule := list string;
  rpc_module_new := []; Methods := list string;
  system_into_rpc := λ _ _, ["system_accountNextIndex"; "system_dryRun"];
  transaction_payment_into_rpc := λ _, ["payment_queryInfo"; "payment_queryFeeDetails"];
  RegisterMethodError := string; BoxedError := string; box_register_error := id;
  from_boxed_error := id; RpcHandlers := unit; rpc_merge := example_merge
|}.

Definition example_cli_types : CliTypes := {|
  CliError := string; Input := id; PathBuf := string; BasePath := string; SharedParams := unit;
  ImportParams := unit; NetworkParams := unit; KeystoreParams := unit; RpcEndpoint := unit;
  PrometheusConfig := unit; DynChainSpec := option Extensions; CliRole := unit;
  CliPoolOptions := unit; RpcMethods := unit; CliTelemetryEndpoints := unit
|}.
#[local] Existing Instances concrete_system example_service example_cli_types.

(** The relay chain's arguments leave everything at its default. *)
Definition example_run_cmd : CliConfiguration unit := {|
  shared_params := λ _, tt;
  import_params := λ _, None; network_params := λ _, None;
  keystore_params := λ _, None; base_path := λ _, Ok None; rpc_addr := λ _ _, Ok None;
  prometheus_config := λ _ _ _, Ok None; chain_id := λ _ _, Ok ""; role := λ _ _, Ok tt;
  transaction_pool := λ _ _, Ok tt; trie_cache_maximum_size := λ _, Ok None;
  rpc_methods := λ _, Ok tt; rpc_max_connections := λ _, Ok 100; rpc_cors := λ _ _, Ok None;
  default_heap_pages := λ _, Ok None; force_authoring := λ _, Ok false;
  disable_grandpa := λ _, Ok false; max_runtime_instances := λ _, Ok None;
  announce_block := λ _, Ok true; telemetry_endpoints := λ _ _, Ok None;
  node_name := λ _, Ok "node"
|}.

Definition example_cli_sdk : CliSdk := {|
  from_service_error := id; display_error := id; DatabaseSource := option string;
  database_path := id; cfg_database := ec_database; cfg_chain_spec := ec_spec;
  cfg_base_path := λ _, "/data"; path_join := λ p s, p +:+ "/" +:+ s; TokioHandle := unit;
  cfg_tokio_handle := λ _, tt; ParaId_from := id; BasePath_from := id;
  shared_base_path := λ _, Ok None; shared_chain := λ _, None;
  box_spec := λ s, Some {| relay_chain := cs_relay_chain s; para_id := cs_para_id s |};
  try_get_extensions := id; try_get_box := λ _, eq_refl;
  key_pairs := {| Pair := string; Pair_from_string := Some; into_account := λ _, (1 : Z);
    dev_pairs := λ _ _, ex_intro _ _ eq_refl |};
  spec_from_json_file := λ _, Err "no such file";
  RunCmd := unit; NormalizedRunCmd := unit; normalize := λ _, tt; collator_options := λ _, tt;
  PolkadotRunCmd := unit; ScRunCmd := unit; run_cmd_base := λ _, tt;
  ScRunCmd_configuration := example_run_cmd; polkadot_load_spec := λ _ _, Err "unknown";
  BuildSpecCmd := unit; CheckBlockCmd := unit; ExportBlocksCmd := unit; ExportStateCmd := unit;
  ImportBlocksCmd := unit; RevertCmd := unit; PurgeChainCmd := unit;
  ExportGenesisHeadCommand := unit; ExportGenesisWasmCommand := unit;
  export_genesis_wasm_shared_params := λ _, tt; PalletCmd := unit; BlockCmd := unit;
  StorageCmd := unit; MachineCmd := unit; OtherBenchmarkCmd := unit; Database := unit;
  Storage := unit; expose_db := λ _, tt; expose_storage := λ _, tt;
  check_block_run := λ _ _ _, tt; export_blocks_run := λ _ _ _, tt;
  export_state_run := λ _ _ _, tt; import_blocks_run := λ _ _ _, tt; revert_run := λ _ _ _, tt;
  executable_name := "techconnectchain-node"; SUBSTRATE_CLI_IMPL_VERSION := "0.1.0";
  CARGO_PKG_AUTHORS := "author"; runtime_benchmarks := false; Runner := ExampleConfig
|}.
#[local] Existing Instance example_cli_sdk.

(** A runner is the configuration it hands out. *)
Definition example_runner : CliRunner := {|
  runner_config := id;
  sync_run := λ r f, f r;
  async_run := λ r f, '(fut, tm) ← f r; try_call id (run_until_exit fut tm);
  run_node_until_exit := λ r f, tm ← f r; try_call id (wait_for_tasks tm);
  sync_run_eq := λ _ _, eq_refl;
  async_run_eq := λ _ _, eq_refl;
  run_node_until_exit_eq := λ _ _, eq_refl
|}.
#[local] Existing Instance example_runner.

(** * Worlds *)

(** Everything succeeds, except that the network fails to start when [network] is
    false; the relay chain hands out a collator key when [key] is true. *)
Definition service_answer (network key : bool) {X} (c : ServiceCall X) : X :=
  match c in ServiceCall X return X with
  | TelemetryWorker_new _ => Ok tt
  | new_telemetry _ _ => tt
  | new_full_parts_record_import _ _ _ _ => Ok (7, 8, 9, 10)
  | spawn _ _ _ _ => tt
  | spawn_essential _ _ _ _ => tt
  | pool_build _ => 11
  | fully_verifying_import_queue _ _ _ _ _ _ => tt
  | from_system_time => tt
  | build_relay_chain_interface _ _ _ _ _ _ => Ok (12, if key then Some tt else None)
  | build_network _ => if network then Ok (13, tt, tt, 14) else Err "address in use"
  | OffchainWorkers_new _ => Ok tt
  | spawn_tasks _ => Ok tt
  | print_hwbench _ => tt
  | warn_hardware _ => tt
  | get_overseer_handle _ => Ok 15
  | start_relay_chain_tasks _ => Ok tt
  | with_proof_recording _ _ _ _ _ => tt
  | CollatorService_new _ _ _ _ => tt
  | aura_run _ => tt
  | announce_block_of _ _ _ => tt
  | code_at _ _ => Err tt
  end.

Definition service_world network key : World ServiceCall := λ _ X c, service_answer network key c.

(** The command line is [cli], the runner's configuration [config]. *)
Definition node_answer (cli : Cli) (config : ExampleConfig) (network key : bool) {X} (c : NodeCall X) : X :=
  match c in NodeCall X return X with
  | service_call c => service_answer network key c
  | from_args => cli
  | create_runner _ => Ok config
  | parse_from _ => tt
  | create_configuration _ _ => Ok config
  | build_spec_run _ _ _ => Ok tt
  | purge_chain_run _ _ _ => Ok tt
  | export_genesis_head_run _ _ => Ok tt
  | export_genesis_wasm_run _ _ => Ok tt
  | pallet_run_with_spec _ _ => Ok tt
  | block_run _ _ => Ok tt
  | storage_run _ _ _ _ _ => Ok tt
  | machine_run _ _ => Ok tt
  | create_dir_all _ => Err "exists"
  | gather_hwbench _ => tt
  | info _ => tt
  | run_until_exit _ _ => Ok tt
  | wait_for_tasks _ => Ok tt
  end.

Definition node_world cli config network key : World NodeCall :=
  λ _ X c, node_answer cli config network key c.

Lemma example_opens network key :
  opens (service_world network key) {| client := 7; backend := 8; container := 9; tasks := 10 |}.
Proof. intros past. intros. reflexivity. Defined.

Lemma example_links network key :
  links (service_world network key) {|
    lk_pool := 11; lk_queue := tt; lk_relay := 12; lk_key := if key then Some tt else None; lk_network := 13;
    lk_rpc_tx := tt; lk_tx_controller := tt; lk_sync := 14; lk_overseer := 15; lk_proposer := tt; lk_collator := tt;
    lk_aura := tt |}.
Proof. split; unfold service_world, service_answer; intros; try done; try destruct network; simplify_eq; try done; by destruct x. Defined.

Lemma example_node_opens cli config network key :
  node_opens (node_world cli config network key) {| client := 7; backend := 8; container := 9; tasks := 10 |}.
Proof. intros past. intros. reflexivity. Defined.

Lemma example_session cli config network key :
  session (node_world cli config network key) cli config tt.
Proof. by split; [..|intros ?? r' [= ->]|]. Defined.

(** * Runs *)

Definition collator_config : ExampleConfig := {|
  ec_authority := true; ec_telemetry := true; ec_offchain := true; ec_heap_pages := Some (2 ^ 32);
  ec_database := Some "/data/db";
  ec_spec := Some {| relay_chain := "rococo-local"; para_id := 2000 |}
|}.

Definition full_node_config : ExampleConfig := {|
  ec_authority := false; ec_telemetry := false; ec_offchain := false; ec_heap_pages := None;
  ec_database := None; ec_spec := None
|}.

Definition default_cli : Cli := {|
  subcommand := None; cli_run := tt; no_hardware_benchmarks := false; relay_chain_args := []
|}.

Definition collator_run : list (event ServiceCall) * outcome string (Z * Z) :=
  run (service_world true true) [] (start_parachain_node collator_config full_node_config tt 2000 (Some tt)).

(** A collator with everything switched on makes all 20 calls. *)
Example collator_starts :
  collator_run.2 = Returned (10, 7) ∧
  ev_label <$> collator_run.1 =
    [CreateTelemetryWorker; RegisterTelemetry; OpenDatabase; SpawnTask "telemetry";
     BuildTransactionPool; BuildImportQueue; ConnectRelayChain; StartNetwork;
     CreateOffchainWorkers; SpawnTask "offchain-workers-runner"; StartServiceTasks;
     PrintHwbench; WarnHardware; SpawnTask "telemetry_hwbench"; GetOverseer;
     StartRelayChainTasks; CreateProposer; CreateCollatorService; CreateAura;
     SpawnEssentialTask "aura"].
Proof. by vm_compute. Qed.

(** Its heap gets no extra pages: 2^32 pages wrap around. *)
Example collator_heap : heap_pages collator_config = Some 0.
Proof. reflexivity. Qed.

(** If the network does not start, the node stops there with the network's error. *)
Example network_fails :
  let r := run (service_world false true) []
    (start_parachain_node full_node_config full_node_config tt 2000 None) in
  r.2 = Threw "address in use" ∧
  ev_label <$> r.1 = [OpenDatabase; BuildTransactionPool; BuildImportQueue; ConnectRelayChain; StartNetwork].
Proof. by vm_compute. Qed.

(** A collator without a key panics before consensus. *)
Example collator_panics :
  let r := run (service_world true false) []
    (start_parachain_node collator_config full_node_config tt 2000 None) in
  r.2 = Panicked "Command line arguments do not allow this. qed" ∧
  last (ev_label <$> r.1) = Some StartRelayChainTasks.
Proof. by vm_compute. Qed.

(** The RPC methods of the node. *)
Example rpc_methods_of_node :
  create_full {| fd_client := 7; fd_pool := 11 |} =
  Ok ["system_accountNextIndex"; "system_dryRun"; "payment_queryInfo"; "payment_queryFeeDetails"].
Proof. reflexivity. Qed.

(** A chain specification without a parachain identifier. *)
Example no_para_id :
  (run (node_world default_cli full_node_config true true) [] command_run).2 =
    Threw "Could not find parachain ID in chain-spec.".
Proof. by vm_compute. Qed.

(** The node's command, and a failing network below it. *)
Example node_runs :
  (run (node_world default_cli collator_config true true) [] command_run).2 = Returned tt ∧
  (run (node_world default_cli collator_config false true) [] command_run).2 = Threw "address in use".
Proof. by vm_compute. Qed.

(** Removing the chain removes the relay chain's part too, with the arguments after [--]. *)
Definition purge_cli : Cli := {|
  subcommand := Some (PurgeChain tt); cli_run := tt; no_hardware_benchmarks := false;
  relay_chain_args := ["--chain"; "rococo"]
|}.

Example purge_runs :
  let r := run (node_world purge_cli collator_config true true) [] command_run in
  r.2 = Returned tt ∧
  ev_label <$> r.1 = [ParseArgs; CreateRunner; ParseRelayArgs; ConfigureRelay; RunCommand].
Proof. by vm_compute. Qed.

(** * Witnesses *)

Lemma startup_wired_witness :
  let p := {| client := 7; backend := 8; container := 9; tasks := 10 |} in
  length collator_run.1 = 20%nat ∧
  Forall (wired (prepare_node_config collator_config) full_node_config 2000 p) collator_run.1 ∧
  Forall (λ ev, match ev_call ev with aura_run a => ap_relay_client a = 12 | _ => True end) collator_run.1.
Proof.
  intros p. split; [by vm_compute|].
  pose proof (startup_wired (service_world true true) p [] collator_config full_node_config tt 2000 (Some tt)
    (example_opens true true)) as H.
  fold collator_run in H. destruct collator_run as [tr o]. destruct H as (Hw & _ & Hl). split; [exact Hw|].
  specialize (Hl _ (example_links true true)). eapply Forall_impl; [exact Hl|]. intros [X c x] Hc.
  destruct c; try exact I. exact (proj1 Hc).
Defined.

Definition default_run : list (event NodeCall) * outcome string unit :=
  run (node_world default_cli collator_config true true) [] command_run.

Lemma command_follows_plan_witness :
  default_run.2 = Returned tt ∧
  ev_label <$> default_run.1 = command_plan default_cli collator_config tt.
Proof.
  pose proof (command_follows_plan _ _ _ _ [] (example_session default_cli collator_config true true)) as H.
  assert (default_run.2 = Returned tt) as Ho by by vm_compute. split; [done|].
  fold default_run in H. destruct default_run as [tr o]. cbn in Ho. subst o. exact (proj1 H).
Defined.

Definition check_cli : Cli := {|
  subcommand := Some (CheckBlock tt); cli_run := tt; no_hardware_benchmarks := false;
  relay_chain_args := []
|}.

Lemma subcommands_start_no_node_witness :
  InService BuildImportQueue ∈ ev_label <$>
    (run (node_world check_cli collator_config true true) [] command_run).1 ∧
  BuildImportQueue ∈ new_partial_plan collator_config.
Proof.
  assert (InService BuildImportQueue ∈ ev_label <$>
    (run (node_world check_cli collator_config true true) [] command_run).1) as H
    by (vm_compute; repeat constructor).
  split; [done|].
  exact (subcommands_start_no_node _ _ _ _ [] (CheckBlock tt) _
    (example_session check_cli collator_config true true) eq_refl H).
Defined.

Lemma default_chain_witness :
  Forall (λ ev : event NodeCall, match ev_call ev with
    | service_call (build_network n) => bn_para_id n = 2000
    | _ => True
    end) default_run.1 ∧
  InService StartNetwork ∈ ev_label <$> default_run.1.
Proof.
  split; [|vm_compute; repeat constructor].
  assert ("" ∈ ["dev"; "template-rococo"; ""; "local"]) as Hid by set_solver.
  pose proof (default_chain _ _ _ _ _ [] "" (example_session default_cli collator_config true true)
    (example_node_opens default_cli collator_config true true) eq_refl Hid eq_refl) as H.
  eapply Forall_impl; [exact H|]. intros [X c x]. cbn. destruct c as [X c| | | | | | | | | | | | | | | | |]; [|done..].
  by destruct c.
Defined.
